(** * Order execution and risk adjustment: a shallow embedding

    The development embeds the order-execution code of the trading engine
    and proves properties of quantization, minimum-notional escalation, order
    parameter shaping, bounded retry, the position-mode cache and the margin
    ledger.  The embedded functions, by the file that holds them under src/:
    - lib/trading/buy.ts: [getPositionMode], [adjustPrecision],
      [checkMinNotional], [smartAdjustOrderForMinNotional], [buy];
    - lib/trading/sell.ts: [adjustPrecision], [smartAdjustAmount],
      [closePosition], [shortSell];
    - lib/trading/close_position.ts: [adjustPrecision],
      [smartAdjustSellAmount], [sell];
    - lib/trading/positions.ts: [convertSymbolToEnum],
      [getLatestTradingRecord], [transformPositionData],
      [fetchFromSingleUrl], [fetchPositions];
    - lib/utils/logger.ts: the levels, [writeLine], the patched console and
      the methods of [logger];
    - the orchestration function [run] (the mapping of the model's answer
      and the loop over the decisions);
    - the class variant of the orchestration, [TradingExecutor]
      ([mapAIDecisionsToLegacyFormat], [processSingleDecision] and the four
      methods it dispatches to, [createTradingData]);
    - the executor variant of the buy ([BuyOrderExecutor], [buyLong]) and
      the short entry with a retry handler ([sell], [shortSellMarket],
      [shortSellLimit]);
    - the account service: [callApiWithRetry], [calculateAccountMetrics].

    Conventions of the embedding.
    - A JavaScript number is an exact rational [Q]: the theorems speak about
      the arithmetic the code intends, not about binary rounding.  Equality
      of numbers ([===]) is [Qeq].  Binary rounding can move a truncation by
      a whole unit of the grid (0.29 at two decimals becomes 0.28); the
      statements about quantized amounts as such are kept to what holds in
      both arithmetics.
    - Division is [Qdiv] where the divisor cannot be zero; the two places
      where the source can divide by zero without a price being zero (the
      multiplier of the small-order step and the required margin of the
      orchestration loop) go through [xdiv], whose result ranges over [xnum]
      (a rational, [Infinity], [-Infinity] or [NaN]).  A price of zero is
      outside the embedding: statements that depend on a division by the
      price say so.
    - A symbol is the name of an instrument; a lookup in a precision table
      finds an entry of the table or nothing.  The table of
      [convertSymbolToEnum] and the levels of the logger are indexed with
      text of any kind and are plain objects: a lookup there also finds the
      members inherited from [Object.prototype] ([JsObject.get]).
    - A thrown value is an error object with a [message].
    - [console.log] and friends are dropped.
    - Asynchronous calls to collaborators are answered by a record of
      oracles ([Exchange], [PositionModeCache.World]); a call either resolves
      with a value or rejects with a [JsError].  The module-level
      [positionModeCache] is explicit state, and the exchange interactions
      that the statements count are recorded in a trace of [Event]s. *)

From Stdlib Require Import QArith Qabs Qround Qpower Lqa ZArith Lia Ascii String List Bool.
From stdpp Require Import base gmap strings list.
Import ListNotations.

Open Scope Q_scope.

(** ** Host-language primitives *)

Module JS.

(** [a < b], [a <= b], [a === b] on numbers. *)
Definition ltb (a b : Q) : bool := negb (Qle_bool b a).
Definition leb (a b : Q) : bool := Qle_bool a b.
Definition eqb (a b : Q) : bool := Qeq_bool a b.

(** [Math.floor], [Math.ceil], [Math.pow(10, e)], [Math.abs], [Math.min]. *)
Definition floor (x : Q) : Q := inject_Z (Qfloor x).
Definition ceil (x : Q) : Q := inject_Z (Qceiling x).
Definition pow10 (e : Z) : Q := Qpower 10 e.
Definition abs (x : Q) : Q := Qabs x.
Definition min (a b : Q) : Q := if leb a b then a else b.

(** Numbers that may leave the rationals. *)
Inductive xnum : Type :=
| Fin (q : Q)
| PInf
| NInf
| NaN.

(** [a / b] for finite operands; a zero divisor is taken as [+0]. *)
Definition xdiv (a b : Q) : xnum :=
  if eqb b 0 then
    (if eqb a 0 then NaN else if ltb 0 a then PInf else NInf)
  else Fin (a / b).

Definition xceil (x : xnum) : xnum :=
  match x with
  | Fin q => Fin (ceil q)
  | other => other
  end.

Definition xmul (x y : xnum) : xnum :=
  match x, y with
  | Fin a, Fin b => Fin (a * b)
  | NaN, _ | _, NaN => NaN
  | Fin a, PInf | PInf, Fin a =>
      if eqb a 0 then NaN else if ltb 0 a then PInf else NInf
  | Fin a, NInf | NInf, Fin a =>
      if eqb a 0 then NaN else if ltb 0 a then NInf else PInf
  | PInf, PInf | NInf, NInf => PInf
  | PInf, NInf | NInf, PInf => NInf
  end.

(** [Math.min(x, b)] with a finite second operand. *)
Definition xmin (x : xnum) (b : Q) : xnum :=
  match x with
  | Fin a => Fin (min a b)
  | PInf => Fin b
  | NInf => NInf
  | NaN => NaN
  end.

(** [x <= b], [x > b] and [x - y]; every comparison with [NaN] is false. *)
Definition xleb (x : xnum) (b : Q) : bool :=
  match x with
  | Fin a => leb a b
  | NInf => true
  | PInf | NaN => false
  end.

Definition xgtb (x y : xnum) : bool :=
  match x, y with
  | Fin a, Fin b => ltb b a
  | NaN, _ | _, NaN => false
  | PInf, PInf => false
  | PInf, _ => true
  | NInf, _ => false
  | Fin _, PInf => false
  | Fin _, NInf => true
  end.

Definition xsub (x y : xnum) : xnum :=
  match x, y with
  | Fin a, Fin b => Fin (a - b)
  | NaN, _ | _, NaN => NaN
  | PInf, PInf | NInf, NInf => NaN
  | PInf, _ | _, NInf => PInf
  | NInf, _ | _, PInf => NInf
  end.

(** [s.includes(t)]. *)
Fixpoint includes (s t : string) : bool :=
  if String.prefix t s then true
  else match s with
       | EmptyString => false
       | String _ rest => includes rest t
       end.

(** [s.replace("/", "")]: the first slash is removed. *)
Fixpoint replaceSlash (s : string) : string :=
  match s with
  | EmptyString => EmptyString
  | String c rest =>
      if Ascii.eqb c "/"%char then rest else String c (replaceSlash rest)
  end.

(** A string in boolean position: the empty string is falsy. *)
Definition truthy (s : string) : bool :=
  match s with
  | EmptyString => false
  | _ => true
  end.

(** A thrown value: [error.message] and [error?.response?.data?.msg]. *)
Record JsError : Type := mkError {
  message : string;
  responseMsg : option string
}.

(** [a || b] on optional strings, as used to pick an error text. *)
Definition orElse (a : option string) (b : string) : string :=
  match a with
  | Some s => if truthy s then s else b
  | None => b
  end.

End JS.

Import JS.

(** ** Exchange vocabulary, effects and traces *)

Inductive PositionMode : Type := ONE_WAY | DUAL_SIDE.
Inductive Side : Type := BUY | SELL.
Inductive PositionSide : Type := LONG | SHORT.
Inductive OrderType : Type := LIMIT | MARKET.

(** The [orderParams] object handed to [newOrder]; an absent key is [None]
    (resp. [false] for [reduceOnly], which is only ever set to [true]). *)
Record OrderParams : Type := mkParams {
  p_quantity : Q;
  p_positionSide : option PositionSide;
  p_reduceOnly : bool;
  p_price : option Q;
  p_timeInForce : option string
}.

(** [response.data] of a placed order, taken to be present whenever the call
    resolves; a field is [Some] when the exchange sent a non-empty value for
    it. *)
Record OrderData : Type := mkData {
  orderId : option string;
  avgPrice : option Q;
  d_price : option Q;
  executedQty : option Q;
  origQty : option Q
}.

(** Texts of the [error] field of a result. *)
Inductive ErrorText : Type :=
| InvalidSymbolFormat
| AmountMustBePositive
| LeverageOutOfRange
| CannotMeetMinNotional (finalNotional : Q)
| AmountTooSmall (adjustedAmount minAmount : Q)
| InvalidAdjustedAmount (adjustedAmount minAmount : Q)
| OrderValueTooSmall (notional : Q)
| PercentageOutOfRange
| NoOpenPosition
| FailedToFetchPosition (msg : string)
| CloseAmountMustBePositive
| CloseAmountTooSmall (minAmount : Q)
| Text (msg : string).

(** [BuyResult], [TradeResult] and [SellResult] share one shape. *)
Record OrderResult : Type := mkResult {
  success : bool;
  r_orderId : option string;
  executedPrice : option Q;
  executedAmount : option Q;
  error : option ErrorText
}.

Definition failure (e : ErrorText) : OrderResult :=
  {| success := false; r_orderId := None; executedPrice := None;
     executedAmount := None; error := Some e |}.

(** The result built from [orderResult] after a fill. *)
Definition filled (d : OrderData) : OrderResult :=
  {| success := true;
     r_orderId := orderId d;
     executedPrice :=
       Some (match avgPrice d with
             | Some p => p
             | None => match d_price d with Some p => p | None => 0 end
             end);
     executedAmount :=
       Some (match executedQty d with
             | Some q => q
             | None => match origQty d with Some q => q | None => 0 end
             end);
     error := None |}.

Inductive QuerySource : Type := SdkPositionMode | SdkGetPositionMode | Rest.

(** What a run leaves behind on the wire and on the clock. *)
Inductive Event : Type :=
| EvModeQuery (src : QuerySource)
| EvNewOrder (attempt : nat) (symbol : string) (side : Side)
             (type : OrderType) (params : OrderParams)
| EvSleep (ms : N).

(** The outcome of running an asynchronous function from a given content of
    [positionModeCache]: a value or a thrown error, the cache afterwards and
    the events in order. *)
Record Outcome (A : Type) : Type := mkOutcome {
  value : JsError + A;
  cacheAfter : option PositionMode;
  trace : list Event
}.
Arguments mkOutcome {A} _ _ _.
Arguments value {A} _.
Arguments cacheAfter {A} _.
Arguments trace {A} _.

Definition M (A : Type) : Type := option PositionMode -> Outcome A.

Definition ret {A} (a : A) : M A := fun c => mkOutcome (inr a) c [].

Definition throw {A} (e : JsError) : M A := fun c => mkOutcome (inl e) c [].

Definition bind {A B} (m : M A) (k : A -> M B) : M B :=
  fun c =>
    let o := m c in
    match value o with
    | inr a =>
        let o' := k a (cacheAfter o) in
        mkOutcome (value o') (cacheAfter o') (trace o ++ trace o')
    | inl e => mkOutcome (inl e) (cacheAfter o) (trace o)
    end.

(** [try { m } catch (e) { h e }] *)
Definition catch {A} (m : M A) (h : JsError -> M A) : M A :=
  fun c =>
    let o := m c in
    match value o with
    | inr a => o
    | inl e =>
        let o' := h e (cacheAfter o) in
        mkOutcome (value o') (cacheAfter o') (trace o ++ trace o')
    end.

(** [await] of a call whose answer the world fixes. *)
Definition await {A} (r : JsError + A) : M A :=
  fun c => mkOutcome r c [].

(** [await] of a call that resolves to nothing. *)
Definition awaitVoid (r : option JsError) : M unit :=
  fun c => mkOutcome (match r with Some e => inl e | None => inr tt end) c [].

Definition emit (ev : Event) : M unit :=
  fun c => mkOutcome (inr tt) c [ev].

Definition readCache : M (option PositionMode) :=
  fun c => mkOutcome (inr c) c [].

Definition writeCache (m : PositionMode) : M unit :=
  fun _ => mkOutcome (inr tt) (Some m) [].

Notation "x <- m ;; k" := (bind m (fun x => k))
  (at level 90, m at level 80, k at level 200, right associativity).
Notation "m ;;; k" := (bind m (fun _ => k))
  (at level 90, k at level 200, right associativity).

(** [await new Promise(resolve => setTimeout(resolve, ms))] *)
Definition sleep (ms : N) : M unit := emit (EvSleep ms).

(** The submission traffic of a trace: which attempt was sent, and how long
    the code slept, in order; mode queries are not part of it. *)
Inductive Beat : Type :=
| Attempt (n : nat)
| Pause (ms : N).

Fixpoint beats (tr : list Event) : list Beat :=
  match tr with
  | [] => []
  | EvNewOrder n _ _ _ _ :: rest => Attempt n :: beats rest
  | EvSleep ms :: rest => Pause ms :: beats rest
  | EvModeQuery _ :: rest => beats rest
  end.

(** [n] attempts with a pause of [k * base] after attempt [k]. *)
Fixpoint backoff (base : N) (n : nat) : list Beat :=
  match n with
  | O => []
  | S O => [Attempt 1]
  | S (S m as k) => backoff base k ++ [Pause (N.of_nat k * base); Attempt (S k)]
  end.

(** The parameters of the orders a trace sent. *)
Fixpoint ordersOf (tr : list Event) : list OrderParams :=
  match tr with
  | [] => []
  | EvNewOrder _ _ _ _ params :: rest => params :: ordersOf rest
  | _ :: rest => ordersOf rest
  end.

Fixpoint queriesOf (tr : list Event) : list QuerySource :=
  match tr with
  | [] => []
  | EvModeQuery src :: rest => src :: queriesOf rest
  | _ :: rest => queriesOf rest
  end.

(** ** src/lib/trading/buy.ts: the position-mode cache *)

Module PositionModeCache.

(** The SDK client as far as [getPositionMode] looks at it: whether it has
    a [positionMode] (resp. [getPositionMode]) method and, if so, how the
    call ends; [inr dual] is the truthiness of [dualSidePosition]. *)
Record Client : Type := mkClient {
  positionMode : option (JsError + bool);
  getPositionModeFn : option (JsError + bool)
}.

(** Answers of the collaborators of one [getPositionMode] call.  For
    [rest], [inl] is a rejected [fetch] or [json()], [inr None] a response
    that is not [ok]. *)
Record World : Type := mkWorld {
  getBinanceInstance : JsError + Client;
  ensureTimeSync : option JsError;
  rest : JsError + option bool
}.

(** [positionModeCache = dualSidePosition ? "DUAL_SIDE" : "ONE_WAY";
    return positionModeCache;] *)
Definition store (dualSidePosition : bool) : M PositionMode :=
  let mode := if dualSidePosition then DUAL_SIDE else ONE_WAY in
  writeCache mode ;;; ret mode.

(** The first inner [try]: [Some mode] when it returned, [None] when the
    code falls through to the REST fallback. *)
Definition trySdk (client : Client) : M (option PositionMode) :=
  catch
    (match positionMode client with
     | Some call =>
         emit (EvModeQuery SdkPositionMode) ;;;
         dual <- await call ;;
         mode <- store dual ;;
         ret (Some mode)
     | None =>
         match getPositionModeFn client with
         | Some call =>
             emit (EvModeQuery SdkGetPositionMode) ;;;
             dual <- await call ;;
             mode <- store dual ;;
             ret (Some mode)
         | None => ret None
         end
     end)
    (fun _ => ret None).

(** The second inner [try]: the signed REST call. *)
Definition tryRest (w : World) : M (option PositionMode) :=
  catch
    (emit (EvModeQuery Rest) ;;;
     resp <- await (rest w) ;;
     match resp with
     | Some dual => mode <- store dual ;; ret (Some mode)
     | None => ret None
     end)
    (fun _ => ret None).

Definition getPositionMode (w : World) : M PositionMode :=
  cached <- readCache ;;
  match cached with
  | Some mode => ret mode
  | None =>
      catch
        (client <- await (getBinanceInstance w) ;;
         awaitVoid (ensureTimeSync w) ;;;
         viaSdk <- trySdk client ;;
         match viaSdk with
         | Some mode => ret mode
         | None =>
             viaRest <- tryRest w ;;
             match viaRest with
             | Some mode => ret mode
             | None => writeCache ONE_WAY ;;; ret ONE_WAY
             end
         end)
        (fun _ => writeCache ONE_WAY ;;; ret ONE_WAY)
  end.

(** The failure paths of [getPositionMode]: the client cannot be had, the
    clock cannot be synchronised, or neither the SDK route nor the REST
    route delivers a [dualSidePosition]. *)
Definition sdkFails (client : Client) : bool :=
  match positionMode client with
  | Some (inl _) => true
  | Some (inr _) => false
  | None =>
      match getPositionModeFn client with
      | Some (inl _) | None => true
      | Some (inr _) => false
      end
  end.

Definition restFails (w : World) : bool :=
  match rest w with
  | inl _ | inr None => true
  | inr (Some _) => false
  end.

Definition resolutionFails (w : World) : bool :=
  match getBinanceInstance w with
  | inl _ => true
  | inr client =>
      match ensureTimeSync w with
      | Some _ => true
      | None => sdkFails client && restFails w
      end
  end.

End PositionModeCache.

(** ** The exchange as seen by the trading functions *)

(** One element of the array returned by [fetchPositions]. *)
Record Position : Type := mkPosition {
  pos_symbol : string;
  pos_side : string;
  contracts : Q
}.

(** Answers of the collaborators during one call of a trading function.
    [newOrder] is asked once per attempt and sees the parameters sent;
    [positionModeRequery] is the direct [client.positionMode()] call of the
    retry handler in close_position.ts. *)
Record Exchange : Type := mkExchange {
  ensureTimeSync : option JsError;
  getBinanceInstance : option JsError;
  markPrice : JsError + Q;
  changeInitialLeverage : option JsError;
  fetchPositions : JsError + list Position;
  modeWorld : PositionModeCache.World;
  positionModeRequery : JsError + bool;
  newOrder : nat -> OrderParams -> JsError + OrderData
}.

(** A number in boolean position ([if (price)], [!closeAmount]). *)
Definition given (x : option Q) : bool :=
  match x with
  | Some v => negb (eqb v 0)
  | None => false
  end.

(** ** Instrument rules *)

(** One entry of a [SYMBOL_PRECISION] table. *)
Record Config : Type := mkConfig {
  quantity : Z;
  price : Z;
  minNotional : Q
}.

(** The literal [{ quantity: 3, price: 2, minNotional: 100 }] that every
    lookup falls back to. *)
Definition fallbackConfig : Config :=
  {| quantity := 3; price := 2; minNotional := 100 |}.

(** ** src/lib/trading/sell.ts: [closePosition] and [shortSell] *)

Module SellTs.

Definition SYMBOL_PRECISION : gmap string Config :=
  <["BTCUSDT"%string := mkConfig 3 1 100]>
  (<["ETHUSDT"%string := mkConfig 2 2 100]>
  (<["BNBUSDT"%string := mkConfig 1 2 100]>
  (<["SOLUSDT"%string := mkConfig 2 3 100]>
  (<["ADAUSDT"%string := mkConfig 0 4 100]>
  (<["DOGEUSDT"%string := mkConfig 0 5 100]> ∅))))).

(** [SYMBOL_PRECISION[symbol] || { quantity: 3, price: 2, minNotional: 100 }] *)
Definition configOf (symbol : string) : Config :=
  default fallbackConfig (SYMBOL_PRECISION !! symbol).

(** The body of [adjustPrecision] once [config] is bound; a positive
    amount that truncates to zero becomes the minimal unit. *)
Definition adjustPrecisionFor (config : Config) (amount : Q) : Q :=
  let factor := pow10 (quantity config) in
  let adjusted := floor (amount * factor) / factor in
  if eqb adjusted 0 && ltb 0 amount
  then pow10 (- quantity config)
  else adjusted.

Definition adjustPrecision (amount : Q) (symbol : string) : Q :=
  adjustPrecisionFor (configOf symbol) amount.

Inductive AdjustmentType : Type := atMin | atAll | atPercentage | atNone.

Record SmartAdjustment : Type := mkSmart {
  adjustedAmount : Q;
  adjustmentType : AdjustmentType
}.

Definition smartAdjustAmountFor (config : Config)
    (amount positionSize : Q) : SmartAdjustment :=
  let minAmount := pow10 (- quantity config) in
  let adjustedAmount := adjustPrecisionFor config amount in
  let tail :=
    if ltb positionSize adjustedAmount then
      {| adjustedAmount := adjustPrecisionFor config positionSize;
         adjustmentType := atPercentage |}
    else {| adjustedAmount := adjustedAmount; adjustmentType := atNone |} in
  if eqb adjustedAmount 0 || ltb adjustedAmount minAmount then
    if leb minAmount positionSize then
      {| adjustedAmount := minAmount; adjustmentType := atMin |}
    else if ltb 0 positionSize then
      let whole := adjustPrecisionFor config positionSize in
      {| adjustedAmount := if eqb whole 0 then positionSize else whole;
         adjustmentType := atAll |}
    else tail
  else tail.

Definition smartAdjustAmount (amount : Q) (symbol : string)
    (positionSize : Q) : SmartAdjustment :=
  let binanceSymbol := replaceSlash symbol in
  smartAdjustAmountFor (configOf binanceSymbol) amount positionSize.

(** [SYMBOL_PRECISION[binanceSymbol]?.quantity || 3] *)
Definition quantityOr3 (binanceSymbol : string) : Z :=
  match SYMBOL_PRECISION !! binanceSymbol with
  | Some entry => if Z.eqb (quantity entry) 0 then 3%Z else quantity entry
  | None => 3%Z
  end.

Record ClosePositionParams : Type := mkCloseParams {
  symbol : string;
  percentage : option Q;
  amount : option Q;
  price : option Q
}.

Record ShortSellParams : Type := mkShortParams {
  s_symbol : string;
  s_amount : Q;
  s_price : option Q;
  s_leverage : option Q
}.

(** Lines 146-185 of [closePosition]: where the amount to close comes
    from.  Either the function returns early, or [closeAmount],
    [positionSide] and [positionSize] are fixed. *)
Inductive Resolution : Type :=
| EarlyReturn (r : OrderResult)
| Resolved (closeAmount : Q) (positionSide : PositionSide) (positionSize : Q).

Definition resolveClose (w : Exchange) (symbol binanceSymbol : string)
    (percentage : Q) (amount : option Q) : Resolution :=
  if negb (given amount) then
    match fetchPositions w with
    | inl positionError =>
        EarlyReturn (failure (FailedToFetchPosition (message positionError)))
    | inr positions =>
        match find (fun p => String.eqb (pos_symbol p) binanceSymbol
                             && negb (eqb (contracts p) 0)) positions with
        | None => EarlyReturn (failure NoOpenPosition)
        | Some position =>
            if eqb (contracts position) 0 then
              EarlyReturn (failure NoOpenPosition)
            else
              let positionSide :=
                if String.eqb (pos_side position) "long" then LONG else SHORT in
              let positionSize := abs (contracts position) in
              let closeAmount := positionSize * (percentage / 100) in
              let adjustment := smartAdjustAmount closeAmount symbol positionSize in
              Resolved adjustment.(adjustedAmount) positionSide positionSize
        end
    end
  else Resolved (default 0 amount) LONG 0.

Definition undefinedOrderId : JsError :=
  mkError "Cannot read properties of undefined (reading 'orderId')" None.

(** Lines 228-243 and 313-328: the submission loop of [closePosition] and
    of [shortSell]; the parameters never change between attempts. *)
Fixpoint orderLoop (w : Exchange) (binanceSymbol : string) (side : Side)
    (orderType : OrderType) (attempts : list nat)
    (orderParams : OrderParams) : M OrderData :=
  match attempts with
  | [] => throw undefinedOrderId
  | attempt :: later =>
      emit (EvNewOrder attempt binanceSymbol side orderType orderParams) ;;;
      match newOrder w attempt orderParams with
      | inr data => ret data
      | inl orderError =>
          if Nat.ltb attempt 3 then
            sleep (N.of_nat attempt * 2000) ;;;
            orderLoop w binanceSymbol side orderType later orderParams
          else throw orderError
      end
  end.

(** The text the outer [catch] reports. *)
Definition errorText (fallback : string) (e : JsError) : ErrorText :=
  Text (orElse (responseMsg e) (orElse (Some (message e)) fallback)).

(** Lines 210-223: the order parameters of a close. *)
Definition closeOrderParams (price : option Q) (finalAmount : Q)
    (positionSide : PositionSide) (positionMode : PositionMode)
  : OrderParams :=
  {| p_quantity := finalAmount;
     p_positionSide :=
       match positionMode with
       | DUAL_SIDE => Some positionSide
       | ONE_WAY => None
       end;
     p_reduceOnly :=
       match positionMode with
       | DUAL_SIDE => false
       | ONE_WAY => true
       end;
     p_price := if given price then price else None;
     p_timeInForce := if given price then Some "GTC"%string else None |}.

(** Lines 296-308: the order parameters of a short entry. *)
Definition shortOrderParams (price : option Q) (adjustedAmount : Q)
    (positionMode : PositionMode) : OrderParams :=
  {| p_quantity := adjustedAmount;
     p_positionSide :=
       match positionMode with
       | DUAL_SIDE => Some SHORT
       | ONE_WAY => None
       end;
     p_reduceOnly := false;
     p_price := if given price then price else None;
     p_timeInForce := if given price then Some "GTC"%string else None |}.

Definition closePosition (params : ClosePositionParams) (w : Exchange)
  : M OrderResult :=
  let symbol := params.(symbol) in
  let percentage := default 100 params.(percentage) in
  let amount := params.(amount) in
  let price := params.(price) in
  if negb (truthy symbol) || negb (includes symbol "/") then
    ret (failure InvalidSymbolFormat)
  else if leb percentage 0 || ltb 100 percentage then
    ret (failure PercentageOutOfRange)
  else
    catch
      (awaitVoid (ensureTimeSync w) ;;;
       awaitVoid (getBinanceInstance w) ;;;
       let binanceSymbol := replaceSlash symbol in
       match resolveClose w symbol binanceSymbol percentage amount with
       | EarlyReturn r => ret r
       | Resolved closeAmount positionSide positionSize =>
           if leb closeAmount 0 then
             ret (failure CloseAmountMustBePositive)
           else
             let adjustedAmount := adjustPrecision closeAmount binanceSymbol in
             let minAmount := pow10 (- quantityOr3 binanceSymbol) in
             if leb adjustedAmount 0 || ltb adjustedAmount minAmount then
               ret (failure (CloseAmountTooSmall minAmount))
             else
               let finalAmount :=
                 if ltb 0 positionSize && ltb positionSize adjustedAmount
                 then adjustPrecision positionSize binanceSymbol
                 else adjustedAmount in
               positionMode <-
                 PositionModeCache.getPositionMode (modeWorld w) ;;
               let orderType := if given price then LIMIT else MARKET in
               let side :=
                 match positionSide with LONG => SELL | SHORT => BUY end in
               let orderParams :=
                 closeOrderParams price finalAmount positionSide
                   positionMode in
               orderResult <-
                 orderLoop w binanceSymbol side orderType [1; 2; 3]%nat
                   orderParams ;;
               ret (filled orderResult)
       end)
      (fun error => ret (failure (errorText "Unknown error during close" error))).

(** [shortSell]; [setLeverage] catches whatever its calls throw and leaves
    no mark on the order, so it does not appear. *)
Definition shortSell (params : ShortSellParams) (w : Exchange)
  : M OrderResult :=
  let symbol := params.(s_symbol) in
  let amount := params.(s_amount) in
  let price := params.(s_price) in
  if negb (truthy symbol) || negb (includes symbol "/") then
    ret (failure InvalidSymbolFormat)
  else if leb amount 0 then
    ret (failure AmountMustBePositive)
  else
    catch
      (awaitVoid (ensureTimeSync w) ;;;
       awaitVoid (getBinanceInstance w) ;;;
       let binanceSymbol := replaceSlash symbol in
       let adjustedAmount := adjustPrecision amount binanceSymbol in
       let minAmount := pow10 (- quantityOr3 binanceSymbol) in
       if leb adjustedAmount 0 || ltb adjustedAmount minAmount then
         ret (failure (AmountTooSmall amount minAmount))
       else
         positionMode <- PositionModeCache.getPositionMode (modeWorld w) ;;
         let orderType := if given price then LIMIT else MARKET in
         let side := SELL in
         let orderParams :=
           shortOrderParams price adjustedAmount positionMode in
         orderResult <-
           orderLoop w binanceSymbol side orderType [1; 2; 3]%nat orderParams ;;
         ret (filled orderResult))
      (fun error =>
         ret (failure (errorText "Unknown error during short sell" error))).

End SellTs.

(** ** src/lib/trading/close_position.ts: [sell] and its mismatch handler *)

Module ClosePositionTs.

Definition SYMBOL_PRECISION : gmap string Config :=
  <["BTCUSDT"%string := mkConfig 3 1 100]>
  (<["ETHUSDT"%string := mkConfig 2 2 100]>
  (<["BNBUSDT"%string := mkConfig 1 2 100]>
  (<["SOLUSDT"%string := mkConfig 2 3 100]>
  (<["ADAUSDT"%string := mkConfig 0 4 100]>
  (<["DOGEUSDT"%string := mkConfig 0 5 100]> ∅))))).

Definition configOf (symbol : string) : Config :=
  default fallbackConfig (SYMBOL_PRECISION !! symbol).

Definition adjustPrecisionFor (config : Config) (amount : Q) : Q :=
  let factor := pow10 (quantity config) in
  let adjusted := floor (amount * factor) / factor in
  if eqb adjusted 0 && ltb 0 amount
  then pow10 (- quantity config)
  else adjusted.

Definition adjustPrecision (amount : Q) (symbol : string) : Q :=
  adjustPrecisionFor (configOf symbol) amount.

Definition smartAdjustSellAmountFor (config : Config)
    (amount positionSize : Q) : Q :=
  let minAmount := pow10 (- quantity config) in
  let adjustedAmount := adjustPrecisionFor config amount in
  let tail :=
    if ltb positionSize adjustedAmount
    then adjustPrecisionFor config positionSize
    else adjustedAmount in
  if eqb adjustedAmount 0 || ltb adjustedAmount minAmount then
    if leb minAmount positionSize then minAmount
    else if ltb 0 positionSize then
      let whole := adjustPrecisionFor config positionSize in
      if eqb whole 0 then positionSize else whole
    else tail
  else tail.

(** The [adjustedAmount] field of the object [smartAdjustSellAmount]
    returns; the other fields only feed the log. *)
Definition smartAdjustSellAmount (amount : Q) (symbol : string)
    (positionSize : Q) : Q :=
  let binanceSymbol := replaceSlash symbol in
  smartAdjustSellAmountFor (configOf binanceSymbol) amount positionSize.

Definition quantityOr3 (binanceSymbol : string) : Z :=
  match SYMBOL_PRECISION !! binanceSymbol with
  | Some entry => if Z.eqb (quantity entry) 0 then 3%Z else quantity entry
  | None => 3%Z
  end.

Record SellParams : Type := mkSellParams {
  symbol : string;
  percentage : option Q;
  amount : option Q;
  price : option Q
}.

Inductive Resolution : Type :=
| EarlyReturn (r : OrderResult)
| Resolved (sellAmount : Q) (positionSide : PositionSide) (positionSize : Q).

(** Lines 144-214 of [sell]. *)
Definition resolveSell (w : Exchange) (symbol binanceSymbol : string)
    (percentage : Q) (amount : option Q) : Resolution :=
  if negb (given amount) then
    match fetchPositions w with
    | inl positionError =>
        EarlyReturn (failure (FailedToFetchPosition (message positionError)))
    | inr positions =>
        match find (fun p => String.eqb (pos_symbol p) binanceSymbol
                             && negb (eqb (contracts p) 0)) positions with
        | None => EarlyReturn (failure NoOpenPosition)
        | Some position =>
            if eqb (contracts position) 0 then
              EarlyReturn (failure NoOpenPosition)
            else
              let positionSide :=
                if String.eqb (pos_side position) "long" then LONG else SHORT in
              let positionSize := abs (contracts position) in
              let sellAmount := positionSize * (percentage / 100) in
              Resolved (smartAdjustSellAmount sellAmount symbol positionSize)
                positionSide positionSize
        end
    end
  else Resolved (default 0 amount) LONG 0.

Definition noSellOrder : JsError :=
  mkError "Failed to create sell order after 3 attempts" None.

(** Lines 296-318: the handler of a position-side mismatch.  It asks the
    exchange directly and rewrites [orderParams]; [positionModeCache] is
    private to buy.ts and is not written. *)
Definition onPositionSideMismatch (w : Exchange)
    (positionSide : PositionSide) (orderParams : OrderParams)
  : M OrderParams :=
  awaitVoid (getBinanceInstance w) ;;;
  emit (EvModeQuery SdkPositionMode) ;;;
  dualSidePosition <- await (positionModeRequery w) ;;
  let currentPositionMode :=
    if (dualSidePosition : bool) then DUAL_SIDE else ONE_WAY in
  match currentPositionMode with
  | DUAL_SIDE =>
      ret (mkParams (p_quantity orderParams) (Some positionSide) false
             (p_price orderParams) (p_timeInForce orderParams))
  | ONE_WAY =>
      ret (mkParams (p_quantity orderParams) None true
             (p_price orderParams) (p_timeInForce orderParams))
  end.

(** Lines 274-332: the submission loop of [sell]. *)
Fixpoint orderLoop (w : Exchange) (binanceSymbol : string) (side : Side)
    (orderType : OrderType) (positionSide : PositionSide)
    (attempts : list nat) (orderParams : OrderParams)
    (lastError : option JsError) : M OrderData :=
  match attempts with
  | [] => throw (default noSellOrder lastError)
  | attempt :: later =>
      emit (EvNewOrder attempt binanceSymbol side orderType orderParams) ;;;
      match newOrder w attempt orderParams with
      | inr data => ret data
      | inl orderError =>
          let errorMsg :=
            orElse (responseMsg orderError) (message orderError) in
          orderParams' <-
            (if includes errorMsg "position side does not match"
                && Nat.eqb attempt 1
             then onPositionSideMismatch w positionSide orderParams
             else ret orderParams) ;;
          if Nat.ltb attempt 3 then
            sleep (N.of_nat attempt * 2000) ;;;
            orderLoop w binanceSymbol side orderType positionSide later
              orderParams' (Some orderError)
          else throw orderError
      end
  end.

Definition errorText (fallback : string) (e : JsError) : ErrorText :=
  Text (orElse (responseMsg e) (orElse (Some (message e)) fallback)).

(** Lines 249-267: the order parameters of [sell]. *)
Definition sellOrderParams (price : option Q) (finalSellAmount : Q)
    (positionSide : PositionSide) (positionMode : PositionMode)
  : OrderParams :=
  {| p_quantity := finalSellAmount;
     p_positionSide :=
       match positionMode with
       | DUAL_SIDE => Some positionSide
       | ONE_WAY => None
       end;
     p_reduceOnly :=
       match positionMode with
       | DUAL_SIDE => false
       | ONE_WAY => true
       end;
     p_price := if given price then price else None;
     p_timeInForce := if given price then Some "GTC"%string else None |}.

Definition sell (params : SellParams) (w : Exchange) : M OrderResult :=
  let symbol := params.(symbol) in
  let percentage := default 100 params.(percentage) in
  let amount := params.(amount) in
  let price := params.(price) in
  if negb (truthy symbol) || negb (includes symbol "/") then
    ret (failure InvalidSymbolFormat)
  else if leb percentage 0 || ltb 100 percentage then
    ret (failure PercentageOutOfRange)
  else
    catch
      (awaitVoid (ensureTimeSync w) ;;;
       awaitVoid (getBinanceInstance w) ;;;
       let binanceSymbol := replaceSlash symbol in
       match resolveSell w symbol binanceSymbol percentage amount with
       | EarlyReturn r => ret r
       | Resolved sellAmount positionSide positionSize =>
           if leb sellAmount 0 then
             ret (failure CloseAmountMustBePositive)
           else
             let adjustedAmount := adjustPrecision sellAmount binanceSymbol in
             let minAmount := pow10 (- quantityOr3 binanceSymbol) in
             if leb adjustedAmount 0 || ltb adjustedAmount minAmount then
               ret (failure (CloseAmountTooSmall minAmount))
             else
               let finalSellAmount :=
                 if ltb 0 positionSize && ltb positionSize adjustedAmount
                 then adjustPrecision positionSize binanceSymbol
                 else adjustedAmount in
               positionMode <-
                 PositionModeCache.getPositionMode (modeWorld w) ;;
               let orderType := if given price then LIMIT else MARKET in
               let side :=
                 match positionSide with LONG => SELL | SHORT => BUY end in
               let orderParams :=
                 sellOrderParams price finalSellAmount positionSide
                   positionMode in
               orderResult <-
                 orderLoop w binanceSymbol side orderType positionSide
                   [1; 2; 3]%nat orderParams None ;;
               ret (filled orderResult)
       end)
      (fun error =>
         ret (failure (errorText "Unknown error occurred during sell" error))).

End ClosePositionTs.

(** ** src/lib/trading/buy.ts: quantization, minimum notional and [buy] *)

Module BuyTs.

Definition SYMBOL_PRECISION : gmap string Config :=
  <["BTCUSDT"%string := mkConfig 3 1 100]>
  (<["ETHUSDT"%string := mkConfig 2 2 100]>
  (<["BNBUSDT"%string := mkConfig 2 2 100]>
  (<["SOLUSDT"%string := mkConfig 2 3 100]>
  (<["ADAUSDT"%string := mkConfig 0 4 100]>
  (<["DOGEUSDT"%string := mkConfig 0 5 100]> ∅))))).

(** [SYMBOL_PRECISION[symbol] || { quantity: 3, price: 2, minNotional: 100 }] *)
Definition configOf (symbol : string) : Config :=
  default fallbackConfig (SYMBOL_PRECISION !! symbol).

(** The body of [adjustPrecision] once [config] is bound: plain
    truncation, without a floor at the minimal unit. *)
Definition adjustPrecisionFor (config : Config) (amount : Q) : Q :=
  let factor := pow10 (quantity config) in
  let adjusted := floor (amount * factor) / factor in
  adjusted.

Definition adjustPrecision (amount : Q) (symbol : string) : Q :=
  adjustPrecisionFor (configOf symbol) amount.

Record NotionalCheck : Type := mkCheck {
  valid : bool;
  requiredAmount : option Q
}.

Definition checkMinNotionalFor (config : Config) (amount price : Q)
  : NotionalCheck :=
  let notional := amount * price in
  if ltb notional (minNotional config) then
    let requiredAmount := minNotional config / price in
    let adjustedRequiredAmount := adjustPrecisionFor config requiredAmount in
    {| valid := false; requiredAmount := Some adjustedRequiredAmount |}
  else {| valid := true; requiredAmount := None |}.

Definition checkMinNotional (amount : Q) (symbol : string) (price : Q)
  : NotionalCheck :=
  checkMinNotionalFor (configOf symbol) amount price.

Inductive AdjustmentType : Type := atAmount | atLeverage | atBoth | atNone.

Record Adjustment : Type := mkAdjustment {
  adjustedAmount : Q;
  adjustedLeverage : xnum;
  adjustmentType : AdjustmentType
}.

Definition smartAdjustOrderForMinNotionalFor (config : Config)
    (amount currentPrice : Q) (leverage : xnum) : Adjustment :=
  let currentNotional := amount * currentPrice in
  if leb (minNotional config) currentNotional then
    {| adjustedAmount := amount; adjustedLeverage := leverage;
       adjustmentType := atNone |}
  else
    let requiredMinAmount := minNotional config / currentPrice in
    let adjustedRequiredAmount := adjustPrecisionFor config requiredMinAmount in
    let newNotional := adjustedRequiredAmount * currentPrice in
    if ltb newNotional (minNotional config) then
      let minIncrement := pow10 (- quantity config) in
      let finalAdjustedAmount := adjustedRequiredAmount + minIncrement in
      {| adjustedAmount := finalAdjustedAmount; adjustedLeverage := leverage;
         adjustmentType := atAmount |}
    else
      {| adjustedAmount := adjustedRequiredAmount; adjustedLeverage := leverage;
         adjustmentType := atAmount |}.

Definition smartAdjustOrderForMinNotional (amount : Q) (symbol : string)
    (currentPrice : Q) (leverage : xnum) : Adjustment :=
  let binanceSymbol := replaceSlash symbol in
  smartAdjustOrderForMinNotionalFor (configOf binanceSymbol)
    amount currentPrice leverage.

Record BuyParams : Type := mkBuyParams {
  symbol : string;
  amount : Q;
  leverage : option Q;
  price : option Q
}.

(** [SYMBOL_PRECISION[binanceSymbol]?.quantity || 3] *)
Definition quantityOr3 (binanceSymbol : string) : Z :=
  match SYMBOL_PRECISION !! binanceSymbol with
  | Some entry => if Z.eqb (quantity entry) 0 then 3%Z else quantity entry
  | None => 3%Z
  end.

Definition fallbackPrices : gmap string Q :=
  <["BTCUSDT"%string := 50000]>
  (<["ETHUSDT"%string := 3000]>
  (<["BNBUSDT"%string := 500]>
  (<["SOLUSDT"%string := 100]>
  (<["ADAUSDT"%string := 1 # 2]>
  (<["DOGEUSDT"%string := 1 # 10]> ∅))))).

(** Lines 237-257: the limit price if one is given, else the mark price,
    else the fallback table, else 1. *)
Definition resolvePrice (w : Exchange) (price : option Q)
    (binanceSymbol : string) : Q :=
  if given price then default 0 price
  else match markPrice w with
       | inr p => p
       | inl _ => default 1 (fallbackPrices !! binanceSymbol)
       end.

(** How the sizing part of [buy] (lines 259-345) ends: an exception, an
    early [return { success: false, ... }], or the amount and leverage the
    order goes out with. *)
Inductive Sizing : Type :=
| Thrown (e : JsError)
| Rejected (e : ErrorText)
| Sized (adjustedAmount : Q) (effectiveLeverage : xnum).

Definition undefinedMinNotional : JsError :=
  mkError "Cannot read properties of undefined (reading 'minNotional')" None.

(** Lines 264-288: first step, raise the amount to the minimum notional. *)
Definition notionalStep (symbol binanceSymbol : string) (currentPrice : Q)
    (adjustedAmount : Q) (effectiveLeverage : xnum) : Sizing :=
  let notionalCheck := checkMinNotional adjustedAmount binanceSymbol currentPrice in
  if negb (valid notionalCheck) then
    let adjustment :=
      smartAdjustOrderForMinNotional adjustedAmount symbol currentPrice
        effectiveLeverage in
    let adjustedAmount := adjustment.(BuyTs.adjustedAmount) in
    let effectiveLeverage := adjustment.(adjustedLeverage) in
    let finalNotional := adjustedAmount * currentPrice in
    match SYMBOL_PRECISION !! binanceSymbol with
    | None => Thrown undefinedMinNotional
    | Some entry =>
        if ltb finalNotional (minNotional entry)
        then Rejected (CannotMeetMinNotional finalNotional)
        else Sized adjustedAmount effectiveLeverage
    end
  else Sized adjustedAmount effectiveLeverage.

Definition MAX_SAFE_LEVERAGE : Q := 30.
Definition MAX_POSITION_MULTIPLIER : Q := 20.

(** Lines 290-328: second step, the small-order escalation. *)
Definition smallOrderStep (symbol binanceSymbol : string) (currentPrice : Q)
    (minAmount : Q) (adjustedAmount : Q) (effectiveLeverage : xnum) : Sizing :=
  if eqb adjustedAmount 0 || ltb adjustedAmount minAmount then
    let currentPositionValue := adjustedAmount * currentPrice in
    let minPositionValue := minAmount * currentPrice in
    let suggestedMultiplier :=
      xceil (xdiv minPositionValue currentPositionValue) in
    let suggestedLeverage :=
      xmin (xmul effectiveLeverage suggestedMultiplier) 30 in
    if xleb suggestedLeverage MAX_SAFE_LEVERAGE
       && xleb suggestedMultiplier MAX_POSITION_MULTIPLIER then
      let adjustedAmount := minAmount in
      let effectiveLeverage := suggestedLeverage in
      let newNotionalCheck :=
        checkMinNotional adjustedAmount binanceSymbol currentPrice in
      if negb (valid newNotionalCheck) then
        let readjustment :=
          smartAdjustOrderForMinNotional adjustedAmount symbol currentPrice
            effectiveLeverage in
        Sized readjustment.(BuyTs.adjustedAmount) readjustment.(adjustedLeverage)
      else Sized adjustedAmount effectiveLeverage
    else Rejected (AmountTooSmall adjustedAmount minAmount)
  else Sized adjustedAmount effectiveLeverage.

(** Lines 330-345: the two final checks. *)
Definition finalChecks (binanceSymbol : string) (currentPrice : Q)
    (minAmount : Q) (adjustedAmount : Q) (effectiveLeverage : xnum) : Sizing :=
  if leb adjustedAmount 0 || ltb adjustedAmount minAmount then
    Rejected (InvalidAdjustedAmount adjustedAmount minAmount)
  else
    let finalNotionalCheck :=
      checkMinNotional adjustedAmount binanceSymbol currentPrice in
    if negb (valid finalNotionalCheck) then
      Rejected (OrderValueTooSmall (adjustedAmount * currentPrice))
    else Sized adjustedAmount effectiveLeverage.

Definition sizeOrder (symbol : string) (amount leverage currentPrice : Q)
  : Sizing :=
  let binanceSymbol := replaceSlash symbol in
  let adjustedAmount := adjustPrecision amount binanceSymbol in
  let minAmount := pow10 (- quantityOr3 binanceSymbol) in
  let effectiveLeverage := Fin leverage in
  match notionalStep symbol binanceSymbol currentPrice
          adjustedAmount effectiveLeverage with
  | Sized adjustedAmount effectiveLeverage =>
      match smallOrderStep symbol binanceSymbol currentPrice minAmount
              adjustedAmount effectiveLeverage with
      | Sized adjustedAmount effectiveLeverage =>
          finalChecks binanceSymbol currentPrice minAmount
            adjustedAmount effectiveLeverage
      | stop => stop
      end
  | stop => stop
  end.

(** Lines 392-434: the submission loop, [attempts] being the values the
    loop variable still has to take; [lastError] is only read if the loop
    runs out without a [break] or a [throw]. *)
Fixpoint orderLoop (w : Exchange) (binanceSymbol : string)
    (orderType : OrderType) (attempts : list nat) (adjustedAmount : Q)
    (orderParams : OrderParams) (lastError : option JsError) : M OrderData :=
  match attempts with
  | [] =>
      throw (default (mkError "Failed to create order after 3 attempts" None)
                     lastError)
  | attempt :: later =>
      emit (EvNewOrder attempt binanceSymbol BUY orderType orderParams) ;;;
      match newOrder w attempt orderParams with
      | inr data => ret data
      | inl orderError =>
          let errorMsg :=
            orElse (responseMsg orderError) (message orderError) in
          let adjustedAmount' :=
            if includes errorMsg "Precision" && Nat.eqb attempt 1
            then adjustPrecision
                   (adjustedAmount + pow10 (- quantityOr3 binanceSymbol))
                   binanceSymbol
            else adjustedAmount in
          let orderParams' :=
            if includes errorMsg "Precision" && Nat.eqb attempt 1
            then mkParams adjustedAmount' (p_positionSide orderParams)
                   (p_reduceOnly orderParams) (p_price orderParams)
                   (p_timeInForce orderParams)
            else orderParams in
          if Nat.ltb attempt 3 then
            sleep (N.of_nat attempt * 3000) ;;;
            orderLoop w binanceSymbol orderType later adjustedAmount'
              orderParams' (Some orderError)
          else throw orderError
      end
  end.

(** Lines 365-385: the order parameters of a long entry. *)
Definition prepareOrderParams (price : option Q) (adjustedAmount : Q)
    (positionMode : PositionMode) : OrderParams :=
  {| p_quantity := adjustedAmount;
     p_positionSide :=
       match positionMode with
       | DUAL_SIDE => Some LONG
       | ONE_WAY => None
       end;
     p_reduceOnly := false;
     p_price := if given price then price else None;
     p_timeInForce := if given price then Some "GTC"%string else None |}.

(** The text the outer [catch] reports. *)
Definition errorText (e : JsError) : ErrorText :=
  Text (orElse (Some (message e)) "Unknown error occurred during buy").

(** [buy]; the stop-loss attachment that follows a fill (lines 438-485)
    swallows its own failures and leaves the result alone, and is left
    out. *)
Definition buy (params : BuyParams) (w : Exchange) : M OrderResult :=
  let symbol := params.(symbol) in
  let amount := params.(amount) in
  let leverage := default 10 params.(leverage) in
  let price := params.(price) in
  if negb (truthy symbol) || negb (includes symbol "/") then
    ret (failure InvalidSymbolFormat)
  else if leb amount 0 then
    ret (failure AmountMustBePositive)
  else if ltb leverage 1 || ltb 30 leverage then
    ret (failure LeverageOutOfRange)
  else
    catch
      (awaitVoid (ensureTimeSync w) ;;;
       awaitVoid (getBinanceInstance w) ;;;
       let binanceSymbol := replaceSlash symbol in
       let currentPrice := resolvePrice w price binanceSymbol in
       match sizeOrder symbol amount leverage currentPrice with
       | Thrown e => throw e
       | Rejected e => ret (failure e)
       | Sized adjustedAmount effectiveLeverage =>
           catch (awaitVoid (changeInitialLeverage w)) (fun _ => ret tt) ;;;
           positionMode <- PositionModeCache.getPositionMode (modeWorld w) ;;
           let orderType := if given price then LIMIT else MARKET in
           let orderParams :=
             prepareOrderParams price adjustedAmount positionMode in
           orderResult <-
             orderLoop w binanceSymbol orderType [1; 2; 3]%nat
               adjustedAmount orderParams None ;;
           ret (filled orderResult)
       end)
      (fun error => ret (failure (errorText error))).

End BuyTs.

(** ** The orchestration loop [run]: the margin ledger *)

Module Run.

Inductive Opeartion : Type := Buy | Sell | Hold | Close.

(** [decision.buy]; [None] is a field that is [null] or [undefined] for
    [amount] and [leverage], and [null] for [pricing] (which then counts as
    0 in the margin; the mapping from the model's answer writes
    [d.pricing ?? null]). *)
Record BuyFields : Type := mkBuyFields {
  amount : option Q;
  pricing : option Q;
  leverage : option Q
}.

Record Decision : Type := mkDecision {
  opeartion : Opeartion;
  symbol : string;
  buy : option BuyFields
}.

(** What the loop body did with one decision.  [Aborted] is an exception
    leaving [buy] and with it the loop.  The branches for [Sell], [Hold] and
    [Close] neither read nor write [remainingAvailableCash] and are
    [NotABuy]; an exception in one of them ends the run, which for the
    ledger is a shorter list of decisions. *)
Inductive Step : Type :=
| MissingFields
| RiskBlocked
| MarginBlocked (requiredMargin : xnum)
| Executed (requiredMargin : xnum) (buyResult : OrderResult)
| Aborted (e : JsError)
| NotABuy.

Section Loop.

(** [checkBuyRisk] belongs to risk-control, which is outside the embedded
    sources: amount, price, leverage and current balance are its inputs,
    [allowed] its output. *)
Variable checkBuyRisk : Q -> option Q -> Q -> xnum -> bool.

(** One pass through the loop body (lines 331-577) for a decision, the
    exchange as it answers during that pass and the content of
    [positionModeCache] at its start; the result is what was done and
    [remainingAvailableCash] afterwards. *)
Definition processDecision (object : Decision) (w : Exchange)
    (cache : option PositionMode) (remainingAvailableCash : xnum)
  : Step * xnum :=
  match opeartion object with
  | Buy =>
      match buy object with
      | Some fields =>
          match amount fields, leverage fields with
          | Some amount, Some leverage =>
              let requiredMargin :=
                xdiv (amount * default 0 (pricing fields)) leverage in
              if negb (checkBuyRisk amount (pricing fields) leverage
                         remainingAvailableCash) then
                (RiskBlocked, remainingAvailableCash)
              else if xgtb requiredMargin remainingAvailableCash then
                (MarginBlocked requiredMargin, remainingAvailableCash)
              else
                let tradingSymbol := (symbol object ++ "/USDT")%string in
                match value (BuyTs.buy
                               (BuyTs.mkBuyParams tradingSymbol amount
                                  (Some leverage) None) w cache) with
                | inl e => (Aborted e, remainingAvailableCash)
                | inr buyResult =>
                    (Executed requiredMargin buyResult,
                     if success buyResult
                     then xsub remainingAvailableCash requiredMargin
                     else remainingAvailableCash)
                end
          | _, _ => (MissingFields, remainingAvailableCash)
          end
      | None => (MissingFields, remainingAvailableCash)
      end
  | _ => (NotABuy, remainingAvailableCash)
  end.

(** The loop: each decision with what was done and the ledger after it,
    up to and including an abort. *)
Fixpoint processDecisions
    (decisions : list (Decision * Exchange * option PositionMode))
    (remainingAvailableCash : xnum) : list (Step * xnum) :=
  match decisions with
  | [] => []
  | (object, w, cache) :: later =>
      let '(step, remaining) :=
        processDecision object w cache remainingAvailableCash in
      match step with
      | Aborted _ => [(step, remaining)]
      | _ => (step, remaining) :: processDecisions later remaining
      end
  end.

End Loop.

(** The margin a step took from the ledger. *)
Definition committed (step : Step) : Q :=
  match step with
  | Executed (Fin requiredMargin) buyResult =>
      if success buyResult then requiredMargin else 0
  | _ => 0
  end.

Definition totalCommitted (history : list (Step * xnum)) : Q :=
  fold_right (fun entry acc => committed (fst entry) + acc) 0 history.

(** [remainingAvailableCash] after a history that started from [initial]. *)
Definition ledgerAfter (initial : xnum) (history : list (Step * xnum))
  : xnum :=
  default initial (last (map snd history)).

End Run.

(** ** The margin ledger in the words of the specification *)

(** The ledger of one orchestration run, written after the words of the
    specification and not after the code: it starts at the available cash; a
    buy is rejected when its required margin exceeds the remaining cash;
    [commit] takes the required margin off and is invoked only after a
    confirmed fill.  This is the definition the loop of [run] is compared
    with. *)
Module LedgerSpec.

(** What one decision asks of the ledger: nothing, or a buy with its
    required margin, the verdict of the risk control at a given remaining
    cash, and whether the exchange confirmed the fill. *)
Inductive Request : Type :=
| NoBuy
| BuyRequest (requiredMargin : Q) (riskAllows : Q -> bool)
    (confirmedFill : bool).

Definition admission (requiredMargin remainingCash : Q) : bool :=
  negb (ltb remainingCash requiredMargin).

Definition commit (requiredMargin remainingCash : Q) : Q :=
  remainingCash - requiredMargin.

(** The margin a request commits at a given remaining cash. *)
Definition committed (request : Request) (remainingCash : Q) : option Q :=
  match request with
  | NoBuy => None
  | BuyRequest requiredMargin riskAllows confirmedFill =>
      if riskAllows remainingCash
         && admission requiredMargin remainingCash
         && confirmedFill
      then Some requiredMargin
      else None
  end.

(** The remaining cash after each request in turn. *)
Fixpoint ledger (requests : list Request) (remainingCash : Q) : list Q :=
  match requests with
  | [] => []
  | request :: later =>
      let next :=
        match committed request remainingCash with
        | Some requiredMargin => commit requiredMargin remainingCash
        | None => remainingCash
        end in
      next :: ledger later next
  end.

End LedgerSpec.

(** ** Sample requests and exchanges *)

Module Samples.

Definition timeout : JsError := mkError "timeout of 30000ms exceeded" None.

Definition mismatch : JsError :=
  mkError "Request failed with status code 400"
    (Some "Order's position side does not match user's setting.").

Definition fill (qty : Q) : OrderData :=
  mkData (Some "4011171") (Some 50000) None (Some qty) None.

(** An account in dual-side mode, reached through the SDK. *)
Definition dualSide : PositionModeCache.World :=
  PositionModeCache.mkWorld
    (inr (PositionModeCache.mkClient (Some (inr true)) None))
    None (inr (Some true)).

(** An exchange that cannot be reached for the position mode. *)
Definition unreachable : PositionModeCache.World :=
  PositionModeCache.mkWorld (inl (mkError "ECONNREFUSED" None)) None
    (inr (Some true)).

(** BTC at 50000, one long position of one contract, every order filled. *)
Definition calm : Exchange :=
  mkExchange None None (inr 50000) None
    (inr [mkPosition "BTCUSDT" "long" 1]) dualSide (inr true)
    (fun _ params => inr (fill (p_quantity params))).

(** The same exchange with every order timing out. *)
Definition down : Exchange :=
  mkExchange None None (inr 50000) None
    (inr [mkPosition "BTCUSDT" "long" 1]) dualSide (inr true)
    (fun _ _ => inl timeout).

(** The same exchange answering the first order with a position-side
    mismatch and filling the second. *)
Definition mismatching : Exchange :=
  mkExchange None None (inr 50000) None
    (inr [mkPosition "BTCUSDT" "long" 1]) dualSide (inr true)
    (fun attempt params =>
       if Nat.eqb attempt 1 then inl mismatch
       else inr (fill (p_quantity params))).

(** A long position of half a thousandth of a BTC. *)
Definition dust : Exchange :=
  mkExchange None None (inr 50000) None
    (inr [mkPosition "BTCUSDT" "long" (5 # 10000)]) dualSide (inr true)
    (fun _ params => inr (fill (p_quantity params))).

Definition smallBuy : BuyTs.BuyParams :=
  BuyTs.mkBuyParams "BTC/USDT" (1 # 10000) (Some 10) None.

Definition smallShort : SellTs.ShortSellParams :=
  SellTs.mkShortParams "BTC/USDT" (1 # 1000) (Some 50000) None.

Definition closeAll : SellTs.ClosePositionParams :=
  SellTs.mkCloseParams "BTC/USDT" (Some 100) None None.

Definition closeFive : SellTs.ClosePositionParams :=
  SellTs.mkCloseParams "BTC/USDT" None (Some 5) None.

Definition sellAll : ClosePositionTs.SellParams :=
  ClosePositionTs.mkSellParams "BTC/USDT" (Some 100) None None.

(** Two decisions to buy 0.02 BTC at 50000 with leverage 10: a margin of 100
    each. *)
Definition buyTwice : list (Run.Decision * Exchange * option PositionMode) :=
  let decision :=
    Run.mkDecision Run.Buy "BTC"
      (Some (Run.mkBuyFields (Some (2 # 100)) (Some 50000) (Some 10))) in
  [(decision, calm, None); (decision, calm, Some DUAL_SIDE)].

Definition allowAll : Q -> option Q -> Q -> xnum -> bool :=
  fun _ _ _ _ => true.

End Samples.

(** ** Vocabulary of the statements *)

(** An amount on the decimal grid of a rule. *)
Definition onGrid (config : Config) (a : Q) : Prop :=
  exists n : Z, a == inject_Z n / pow10 (quantity config).


(** The shape of an opening order in direction [direction], and of a closing
    order for a position on side [held], under a position mode. *)
Definition openShape (direction : PositionSide) (mode : PositionMode)
    (sent : OrderParams) : Prop :=
  p_reduceOnly sent = false
  /\ p_positionSide sent
     = match mode with
       | DUAL_SIDE => Some direction
       | ONE_WAY => None
       end.

Definition closeShape (held : PositionSide) (mode : PositionMode)
    (sent : OrderParams) : Prop :=
  match mode with
  | DUAL_SIDE => p_positionSide sent = Some held /\ p_reduceOnly sent = false
  | ONE_WAY => p_positionSide sent = None /\ p_reduceOnly sent = true
  end.

(** ** The orchestration function [run]: from the model's answer to a branch
    of the loop *)

Module Mapping.

(** [mapped.buy]: the three fields the margin ledger reads, and the two
    percentages handed to [buy]. *)
Record BuyObject : Type := mkBuyObject {
  b_fields : Run.BuyFields;
  b_stopLossPercent : option Q;
  b_takeProfitPercent : option Q
}.

(** [mapped.sell], as written for a short entry (amount, pricing, leverage
    and the two percentages) or for a close (percentage). *)
Record SellObject : Type := mkSellObject {
  s_amount : option Q;
  s_pricing : option Q;
  s_leverage : option Q;
  s_stopLossPercent : option Q;
  s_takeProfitPercent : option Q;
  s_percentage : option Q
}.

Record AdjustProfit : Type := mkAdjustProfit {
  stopLoss : option Q;
  takeProfit : option Q
}.

(** A decision object, before or after the mapping: the fields of the
    answer schema that the mapping reads, and the legacy fields the loop
    reads.  [None] is a field that is absent, [undefined] or [null]. *)
Record Obj : Type := mkObj {
  opeartion : option string;
  symbol : option string;
  chat : option string;
  buy : option BuyObject;
  sell : option SellObject;
  adjustProfit : option AdjustProfit;
  signal : option string;
  coin : option string;
  quantity : option Q;
  pricing : option Q;
  leverage : option Q;
  stop_loss : option Q;
  profit_target : option Q;
  sell_percentage : option Q;
  percentage : option Q;
  justification : option string
}.

(** The values of the enum [Opeartion] that the loop compares with. *)
Definition opName (op : Run.Opeartion) : string :=
  match op with
  | Run.Buy => "Buy"
  | Run.Sell => "Sell"
  | Run.Hold => "Hold"
  | Run.Close => "Close"
  end.

Definition opOf (name : string) : option Run.Opeartion :=
  if String.eqb name "Buy" then Some Run.Buy
  else if String.eqb name "Sell" then Some Run.Sell
  else if String.eqb name "Hold" then Some Run.Hold
  else if String.eqb name "Close" then Some Run.Close
  else None.

Definition opMap : gmap string Run.Opeartion :=
  <["buy_to_enter"%string := Run.Buy]>
  (<["sell_to_enter"%string := Run.Sell]>
  (<["hold"%string := Run.Hold]>
  (<["close_position"%string := Run.Close]> ∅))).

(** A string value in boolean position: [a || b] keeps the first that is
    present and not empty. *)
Definition truthyText (a : option string) : option string :=
  match a with
  | Some s => if truthy s then Some s else None
  | None => None
  end.

Definition orText (a b : option string) : option string :=
  match truthyText a with
  | Some s => Some s
  | None => b
  end.

(** [a ?? b] *)
Definition coalesce (a b : option Q) : option Q :=
  match a with
  | Some v => Some v
  | None => b
  end.

Definition signalIs (d : Obj) (name : string) : bool :=
  match signal d with
  | Some s => String.eqb s name
  | None => false
  end.

(** The callback of [decisions.map] (lines 201-289). *)
Definition mapDecision (d : Obj) : Obj :=
  if match truthyText (opeartion d), truthyText (symbol d) with
     | Some _, Some _ => true
     | _, _ => false
     end
  then d
  else
    let mapped_opeartion :=
      default Run.Hold (signal d ≫= (fun s => opMap !! s)) in
    let mapped_chat := orText (justification d) (truthyText (chat d)) in
    let mapped_buy :=
      if signalIs d "buy_to_enter" then
        Some {| b_fields :=
                  Run.mkBuyFields (quantity d) (pricing d) (leverage d);
                b_stopLossPercent := stop_loss d;
                b_takeProfitPercent := profit_target d |}
      else buy d in
    let entered_sell :=
      if signalIs d "sell_to_enter" then
        Some {| s_amount := quantity d;
                s_pricing := pricing d;
                s_leverage := leverage d;
                s_stopLossPercent := stop_loss d;
                s_takeProfitPercent := profit_target d;
                s_percentage := None |}
      else sell d in
    let mapped_sell :=
      if signalIs d "close_position" then
        Some {| s_amount := None;
                s_pricing := None;
                s_leverage := None;
                s_stopLossPercent := None;
                s_takeProfitPercent := None;
                s_percentage :=
                  coalesce (sell_percentage d)
                    (coalesce (percentage d) (Some 100)) |}
      else entered_sell in
    let mapped_adjustProfit :=
      if signalIs d "hold" then
        match stop_loss d, profit_target d with
        | None, None => None
        | _, _ =>
            Some {| stopLoss := stop_loss d; takeProfit := profit_target d |}
        end
      else adjustProfit d in
    {| opeartion := Some (opName mapped_opeartion);
       symbol := coin d;
       chat := mapped_chat;
       buy := mapped_buy;
       sell := mapped_sell;
       adjustProfit := mapped_adjustProfit;
       signal := signal d;
       coin := coin d;
       quantity := quantity d;
       pricing := pricing d;
       leverage := leverage d;
       stop_loss := stop_loss d;
       profit_target := profit_target d;
       sell_percentage := sell_percentage d;
       percentage := percentage d;
       justification := justification d |}.

(** [decisions.map(...)]; an element that is [null] stays as it is. *)
Definition mapDecisions (decisions : list (option Obj)) : list (option Obj) :=
  map (option_map mapDecision) decisions.

(** The branch of the loop body (lines 331-577) that a decision takes, with
    the values it hands to the call it makes. *)
Inductive Route : Type :=
| BuyMissing
| BuyRequested (amount : Q) (pricing : option Q) (leverage : Q)
| SellMissing
| SellRequested (amount pricing leverage : Q)
| HoldAndAdjust (stopLoss takeProfit : option Q)
| HoldOnly
| CloseMissing
| CloseRequested (percentage : Q)
| Unrouted.

Definition route (object : Obj) : Route :=
  match opeartion object ≫= opOf with
  | Some Run.Buy =>
      match buy object with
      | Some b =>
          match Run.amount (b_fields b), Run.leverage (b_fields b) with
          | Some amount, Some leverage =>
              BuyRequested amount (Run.pricing (b_fields b)) leverage
          | _, _ => BuyMissing
          end
      | None => BuyMissing
      end
  | Some Run.Sell =>
      match sell object with
      | Some s =>
          match s_amount s, s_pricing s, s_leverage s with
          | Some amount, Some pricing, Some leverage =>
              SellRequested amount pricing leverage
          | _, _, _ => SellMissing
          end
      | None => SellMissing
      end
  | Some Run.Hold =>
      match adjustProfit object with
      | Some a =>
          match stopLoss a, takeProfit a with
          | None, None => HoldOnly
          | _, _ => HoldAndAdjust (stopLoss a) (takeProfit a)
          end
      | None => HoldOnly
      end
  | Some Run.Close =>
      match sell object with
      | Some s =>
          match s_percentage s with
          | Some percentage => CloseRequested percentage
          | None => CloseMissing
          end
      | None => CloseMissing
      end
  | None => Unrouted
  end.

(** The decision as the buy branch and the margin ledger see it, for an
    object whose [opeartion] is one of the four values and whose [symbol] is
    a string. *)
Definition asDecision (object : Obj) : option Run.Decision :=
  match opeartion object ≫= opOf, symbol object with
  | Some op, Some symbol =>
      Some (Run.mkDecision op symbol (option_map b_fields (buy object)))
  | _, _ => None
  end.

(** An answer as the schema of the model call delivers it: none of the
    legacy fields, and no [pricing], which the schema does not have. *)
Definition fromSchema (d : Obj) : Prop :=
  opeartion d = None /\ symbol d = None /\ chat d = None
  /\ buy d = None /\ sell d = None /\ adjustProfit d = None
  /\ pricing d = None /\ sell_percentage d = None /\ percentage d = None.

End Mapping.

(** ** Host-language objects used as tables *)

Module JsObject.

(** The names every plain object inherits from [Object.prototype]. *)
Definition objectPrototype : list string :=
  ["constructor"; "__defineGetter__"; "__defineSetter__"; "hasOwnProperty";
   "__lookupGetter__"; "__lookupSetter__"; "isPrototypeOf";
   "propertyIsEnumerable"; "toString"; "valueOf"; "__proto__";
   "toLocaleString"]%string.

Definition inherited (key : string) : bool :=
  existsb (String.eqb key) objectPrototype.

(** [table[key]] for an object literal [table]: the value written under
    the key, else the member of [Object.prototype] of that name (a function,
    or the prototype itself for [__proto__]), else [undefined]. *)
Inductive Property (A : Type) : Type :=
| Own (value : A)
| Inherited (name : string)
| Absent.
Arguments Own {A} _.
Arguments Inherited {A} _.
Arguments Absent {A}.

Definition get {A} (own : gmap string A) (key : string) : Property A :=
  match own !! key with
  | Some value => Own value
  | None => if inherited key then Inherited key else Absent
  end.

End JsObject.

(** ** Host-language strings *)

Module JsText.

(** [s.replace(pattern, replacement)] for a string pattern: the first
    occurrence is replaced. *)
Fixpoint dropChars (n : nat) (s : string) : string :=
  match n, s with
  | O, _ => s
  | S m, EmptyString => EmptyString
  | S m, String _ rest => dropChars m rest
  end.

Fixpoint replaceFirst (pattern replacement s : string) : string :=
  if String.prefix pattern s
  then (replacement ++ dropChars (String.length pattern) s)%string
  else match s with
       | EmptyString => EmptyString
       | String c rest => String c (replaceFirst pattern replacement rest)
       end.

(** [s.toLowerCase()] on ASCII text. *)
Definition lowerChar (c : ascii) : ascii :=
  let n := nat_of_ascii c in
  if (Nat.leb 65 n && Nat.leb n 90)%bool then ascii_of_nat (n + 32) else c.

Fixpoint toLowerCase (s : string) : string :=
  match s with
  | EmptyString => EmptyString
  | String c rest => String (lowerChar c) (toLowerCase rest)
  end.

End JsText.

(** ** src/lib/trading/positions.ts: [fetchPositions] *)

Module PositionsTs.

Import JsText.

(** One element of the exchange's answer; a numeric string stands by the
    number [parseFloat] reads from it. *)
Record BinancePosition : Type := mkBinancePosition {
  bp_symbol : string;
  positionAmt : Q;
  bp_entryPrice : Q;
  bp_markPrice : Q;
  unRealizedProfit : Q;
  bp_liquidationPrice : Q;
  bp_leverage : Q;
  bp_notional : Q;
  bp_marginType : string
}.

(** The fields of a trading record that [transformPositionData] reads. *)
Record TradingRecord : Type := mkTradingRecord {
  tr_invalidation_condition : option string;
  tr_stopLoss : option Q;
  tr_takeProfit : option Q
}.

Record Position : Type := mkPosition {
  symbol : string;
  side : string;
  contracts : Q;
  contractSize : Q;
  entryPrice : Q;
  markPrice : Q;
  notional : Q;
  leverage : Q;
  unrealizedPnl : Q;
  percentage : Q;
  marginType : string;
  liquidationPrice : Q;
  initialMargin : xnum;
  maintenanceMargin : Q;
  invalidation_condition : option string;
  stop_loss : option Q;
  profit_target : option Q
}.

(** What [convertSymbolToEnum] returns when it does not return [null]: a
    value of its table, or the member of [Object.prototype] that the lookup
    finds under an inherited name. *)
Inductive EnumValue : Type :=
| Member (name : string)
| Prototype (key : string).

(** Answers of the collaborators of one [fetchPositions] call: the time
    synchronisation, the configured domains, how the request to the i-th
    domain ends (the [fetch] together with [handleApiResponse], which
    rejects a response that is not ok, empty, not JSON or not an array), and
    the database query of [getLatestTradingRecord]. *)
Record World : Type := mkWorld {
  ensureTimeSync : option JsError;
  baseUrls : list string;
  answer : nat -> JsError + list BinancePosition;
  findFirst : EnumValue -> JsError + option TradingRecord
}.

Definition symbolMap : gmap string string :=
  <["BTC"%string := "BTC"%string]>
  (<["ETH"%string := "ETH"%string]>
  (<["BNB"%string := "BNB"%string]>
  (<["SOL"%string := "SOL"%string]>
  (<["DOGE"%string := "DOGE"%string]>
  (<["ADA"%string := "ADA"%string]> ∅))))).

Definition convertSymbolToEnum (symbol : string) : option EnumValue :=
  let baseSymbol := replaceFirst "USDT" "" (replaceFirst "/USDT" "" symbol) in
  match JsObject.get symbolMap baseSymbol with
  | JsObject.Own enumValue =>
      if truthy enumValue then Some (Member enumValue) else None
  | JsObject.Inherited key => Some (Prototype key)
  | JsObject.Absent => None
  end.

(** [getLatestTradingRecord]: no enum value, no record; a failing query is
    caught and gives no record. *)
Definition getLatestTradingRecord (w : World) (symbol : string)
  : option TradingRecord :=
  match convertSymbolToEnum (replaceFirst "/USDT" "" symbol) with
  | None => None
  | Some enumSymbol =>
      match findFirst w enumSymbol with
      | inl _ => None
      | inr tradingRecord => tradingRecord
      end
  end.

Definition transformPositionData (w : World)
    (binancePosition : BinancePosition) : Position :=
  let contracts := abs (positionAmt binancePosition) in
  let entryPrice := bp_entryPrice binancePosition in
  let markPrice := bp_markPrice binancePosition in
  let notional := abs (bp_notional binancePosition) in
  let leverage := bp_leverage binancePosition in
  let unrealizedPnl := unRealizedProfit binancePosition in
  let liquidationPrice := bp_liquidationPrice binancePosition in
  let initialMargin := xdiv notional leverage in
  let maintenanceMargin := notional * (4 # 1000) in
  let percentage :=
    if ltb 0 entryPrice
    then (markPrice - entryPrice) / entryPrice * 100
         * (if ltb 0 (positionAmt binancePosition) then 1 else - (1))
    else 0 in
  let tradingRecord :=
    getLatestTradingRecord w (bp_symbol binancePosition) in
  {| symbol := bp_symbol binancePosition;
     side := if ltb 0 (positionAmt binancePosition) then "long" else "short";
     contracts := contracts;
     contractSize := 1;
     entryPrice := entryPrice;
     markPrice := markPrice;
     notional := notional;
     leverage := leverage;
     unrealizedPnl := unrealizedPnl;
     percentage := percentage;
     marginType := toLowerCase (bp_marginType binancePosition);
     liquidationPrice := liquidationPrice;
     initialMargin := initialMargin;
     maintenanceMargin := maintenanceMargin;
     invalidation_condition :=
       tradingRecord ≫= tr_invalidation_condition;
     stop_loss := tradingRecord ≫= tr_stopLoss;
     profit_target := tradingRecord ≫= tr_takeProfit |}.

(** An entry of the exchange's answer that is an open position:
    [parseFloat(p.positionAmt) !== 0]. *)
Definition isOpen (p : BinancePosition) : bool :=
  negb (eqb (positionAmt p) 0).

(** [fetchFromSingleUrl] for the i-th domain. *)
Definition fetchFromSingleUrl (w : World) (i : nat)
  : JsError + list Position :=
  match answer w i with
  | inl e => inl e
  | inr binancePositions =>
      inr (map (transformPositionData w)
             (List.filter isOpen binancePositions))
  end.

(** What a call leaves behind: the domains it contacted, by index and in
    order, and a value or a thrown error. *)
Record Fetched : Type := mkFetched {
  contacted : list nat;
  fetched : JsError + list Position
}.

Definition allDomainsFailed (lastError : option JsError) : JsError :=
  mkError
    ("Failed to fetch positions from all domains: "
     ++ match lastError with
        | Some e => orElse (Some (message e)) "Unknown error"
        | None => "Unknown error"
        end)
    None.

(** The loop over the domains (lines 434-448), [i] being the index of the
    first of the domains still to try. *)
Fixpoint tryDomains (w : World) (i : nat) (domains : list string)
    (lastError : option JsError) : Fetched :=
  match domains with
  | [] => mkFetched [] (inl (allDomainsFailed lastError))
  | _ :: later =>
      match fetchFromSingleUrl w i with
      | inr positions => mkFetched [i] (inr positions)
      | inl e =>
          let rest := tryDomains w (S i) later (Some e) in
          mkFetched (i :: contacted rest) (fetched rest)
      end
  end.

Definition fetchPositions (w : World) : Fetched :=
  match ensureTimeSync w with
  | Some e => mkFetched [] (inl e)
  | None => tryDomains w 0 (baseUrls w) None
  end.

(** A position without its exit plan, the part that comes from the
    database. *)
Definition withoutExitPlan (p : Position) : Position :=
  {| symbol := symbol p;
     side := side p;
     contracts := contracts p;
     contractSize := contractSize p;
     entryPrice := entryPrice p;
     markPrice := markPrice p;
     notional := notional p;
     leverage := leverage p;
     unrealizedPnl := unrealizedPnl p;
     percentage := percentage p;
     marginType := marginType p;
     liquidationPrice := liquidationPrice p;
     initialMargin := initialMargin p;
     maintenanceMargin := maintenanceMargin p;
     invalidation_condition := None;
     stop_loss := None;
     profit_target := None |}.

End PositionsTs.

(** What [closePosition] and [sell] read of a fetched position. *)
Definition held (p : PositionsTs.Position) : Position :=
  mkPosition (PositionsTs.symbol p) (PositionsTs.side p)
    (PositionsTs.contracts p).

(** ** The account information service: [callApiWithRetry] and
    [calculateAccountMetrics] *)

Module AccountTs.

(** [x + y] and [x || 0] on numbers that may have left the rationals. *)
Definition xadd (x y : xnum) : xnum :=
  match x, y with
  | Fin a, Fin b => Fin (a + b)
  | NaN, _ | _, NaN => NaN
  | PInf, NInf | NInf, PInf => NaN
  | PInf, _ | _, PInf => PInf
  | NInf, _ | _, NInf => NInf
  end.

Definition xor0 (x : xnum) : xnum :=
  match x with
  | NaN => Fin 0
  | other => other
  end.

(** What a call of [callApiWithRetry] leaves behind: the attempts and
    pauses in order, and a value or a thrown error. *)
Record Called (A : Type) : Type := mkCalled {
  calledBeats : list Beat;
  called : JsError + A
}.
Arguments mkCalled {A} _ _.
Arguments calledBeats {A} _.
Arguments called {A} _.

Definition noAnswer (apiName : string) : JsError :=
  mkError ("Failed to fetch " ++ apiName ++ " after 3 attempts") None.

(** The loop of [callApiWithRetry] (lines 116-148).  [answer attempt] is
    how the attempt ends: the [fetch], the check of [response.ok] and
    [response.json()] together. *)
Fixpoint callLoop {A} (apiName : string) (answer : nat -> JsError + A)
    (attempts : list nat) (lastError : option JsError) : Called A :=
  match attempts with
  | [] => mkCalled [] (inl (default (noAnswer apiName) lastError))
  | attempt :: later =>
      match answer attempt with
      | inr data => mkCalled [Attempt attempt] (inr data)
      | inl error =>
          let pause :=
            if Nat.ltb attempt 3
            then [Pause (N.of_nat attempt * 2000)]
            else [] in
          let rest := callLoop apiName answer later (Some error) in
          mkCalled (Attempt attempt :: pause ++ calledBeats rest)
            (called rest)
      end
  end.

Definition callApiWithRetry {A} (apiName : string)
    (answer : nat -> JsError + A) : Called A :=
  callLoop apiName answer [1; 2; 3]%nat None.

(** The result of [fetchAccountInfo], as far as the metrics read it. *)
Record AccountInfo : Type := mkAccountInfo {
  totalWalletBalance : Q;
  totalUnrealizedProfit : Q;
  availableBalance : Q
}.

Record Metrics : Type := mkMetrics {
  currentPositionsValue : xnum;
  contractValue : Q;
  totalCashValue : Q;
  availableCash : Q;
  currentTotalReturn : Q;
  sharpeRatio : Q
}.

Definition calculateAccountMetrics (positions : list PositionsTs.Position)
    (accountInfo : AccountInfo) (initialCapital : option Q) : Metrics :=
  let currentPositionsValue :=
    fold_left
      (fun acc position =>
         xadd (xadd acc (xor0 (PositionsTs.initialMargin position)))
           (Fin (PositionsTs.unrealizedPnl position)))
      positions (Fin 0) in
  let contractValue :=
    fold_left (fun acc position => acc + PositionsTs.contracts position)
      positions 0 in
  let totalAccountValue := totalWalletBalance accountInfo in
  let availableCash := availableBalance accountInfo in
  let baseCapital := default totalAccountValue initialCapital in
  let currentTotalReturn :=
    if ltb 0 baseCapital
    then (totalAccountValue - baseCapital) / baseCapital
    else 0 in
  let totalUnrealizedPnl := totalUnrealizedProfit accountInfo in
  let sharpeRatio :=
    if ltb 0 baseCapital && ltb (1 # 1000) (abs totalUnrealizedPnl)
    then currentTotalReturn / abs (totalUnrealizedPnl / baseCapital)
    else 0 in
  {| currentPositionsValue := currentPositionsValue;
     contractValue := contractValue;
     totalCashValue := totalAccountValue;
     availableCash := availableCash;
     currentTotalReturn := currentTotalReturn;
     sharpeRatio := sharpeRatio |}.

End AccountTs.

(** ** src/lib/utils/logger.ts: levels and sinks *)

Module LoggerTs.

Definition DEFAULT_LEVEL : string := "info".

Definition LEVELS : gmap string N :=
  <["debug"%string := 0%N]>
  (<["info"%string := 1%N]>
  (<["warn"%string := 2%N]>
  (<["error"%string := 3%N]>
  (<["log"%string := 1%N]> ∅)))).

(** [(process.env.LOG_LEVEL || DEFAULT_LEVEL).toLowerCase()] *)
Definition LOG_LEVEL (env : option string) : string :=
  JsText.toLowerCase (orElse env DEFAULT_LEVEL).

(** What [LEVELS[key]] is when it is not [undefined]: a rank, or a member
    inherited from [Object.prototype], which is no number. *)
Inductive Rank : Type :=
| Ranked (rank : N)
| NotANumber.

(** [LEVELS[key]]; [None] is [undefined]. *)
Definition rankOf (key : string) : option Rank :=
  match JsObject.get LEVELS key with
  | JsObject.Own rank => Some (Ranked rank)
  | JsObject.Inherited _ => Some NotANumber
  | JsObject.Absent => None
  end.

(** [a < b] and [a >= b]: every comparison with [undefined] or with a
    value that is no number is false. *)
Definition ltU (a b : option Rank) : bool :=
  match a, b with
  | Some (Ranked x), Some (Ranked y) => N.ltb x y
  | _, _ => false
  end.

Definition geU (a b : option Rank) : bool :=
  match a, b with
  | Some (Ranked x), Some (Ranked y) => N.leb y x
  | _, _ => false
  end.

(** [a ?? b]: only [undefined] gives way to [b]. *)
Definition coalesce (a b : option Rank) : option Rank :=
  match a with
  | Some x => Some x
  | None => b
  end.

(** A line that reaches the console or the log file.  [stamps] counts the
    time stamps in front of the caller's arguments, beyond the one
    [writeLine] gives every line of the file. *)
Inductive Line : Type :=
| ConsoleLine (method : string) (stamps : nat)
| FileLine (level : string) (stamps : nat).

(** [writeLine(level, msg)] for a message that carries [stamps] time
    stamps; a failure to write is swallowed. *)
Definition writeLine (logLevel level : string) (stamps : nat) : list Line :=
  if ltU (rankOf level)
         (coalesce (rankOf logLevel) (rankOf DEFAULT_LEVEL))
  then []
  else [FileLine level stamps].

(** A method of the patched [console] (lines 148-182): [fallback] is the
    literal after [??]. *)
Definition patchedConsole (logLevel method : string) (fallback : N)
    (stamps : nat) : list Line :=
  if geU (coalesce (rankOf method) (Some (Ranked fallback)))
         (coalesce (rankOf logLevel) (Some (Ranked 1)))
  then ConsoleLine method (S stamps) :: writeLine logLevel method stamps
  else [].

Definition console_log (logLevel : string) : list Line :=
  patchedConsole logLevel "log" 1 0.
Definition console_info (logLevel : string) : list Line :=
  patchedConsole logLevel "info" 1 0.
Definition console_warn (logLevel : string) : list Line :=
  patchedConsole logLevel "warn" 2 0.
Definition console_error (logLevel : string) : list Line :=
  patchedConsole logLevel "error" 3 0.
Definition console_debug (logLevel : string) : list Line :=
  patchedConsole logLevel "debug" 0 0.

(** A method of [logger] (lines 110-133): it calls the method of the
    console, which is the patched one by the time any caller runs, with its
    own time stamp in front, and then [writeLine]. *)
Definition loggerMethod (logLevel method : string) (fallback : N)
  : list Line :=
  if ltU (coalesce (rankOf method) (Some (Ranked fallback)))
         (coalesce (rankOf logLevel) (Some (Ranked 1)))
  then []
  else patchedConsole logLevel method fallback 1
       ++ writeLine logLevel method 0.

Definition info (logLevel : string) : list Line :=
  loggerMethod logLevel "info" 1.
Definition warn (logLevel : string) : list Line :=
  loggerMethod logLevel "warn" 2.
Definition error (logLevel : string) : list Line :=
  loggerMethod logLevel "error" 3.
Definition debug (logLevel : string) : list Line :=
  loggerMethod logLevel "debug" 0.

Definition rawWrite (logLevel level : string) : list Line :=
  writeLine logLevel level 0.

End LoggerTs.

(** ** The executor variant of the buy: [buyLong] and [BuyOrderExecutor] *)

Module BuyLongTs.

Definition SYMBOL_PRECISION : gmap string Config :=
  <["BTCUSDT"%string := mkConfig 3 1 100]>
  (<["ETHUSDT"%string := mkConfig 2 2 100]>
  (<["BNBUSDT"%string := mkConfig 2 2 100]>
  (<["SOLUSDT"%string := mkConfig 2 3 100]>
  (<["ADAUSDT"%string := mkConfig 0 4 100]>
  (<["DOGEUSDT"%string := mkConfig 0 5 100]> ∅))))).

(** [SYMBOL_PRECISION[binanceSymbol] || { quantity: 3, price: 2,
    minNotional: 100 }], the [symbolConfig] of the executor. *)
Definition configOf (symbol : string) : Config :=
  default fallbackConfig (SYMBOL_PRECISION !! symbol).

Record BuyParams : Type := mkBuyParams {
  symbol : string;
  amount : Q;
  leverage : option Q;
  price : option Q;
  autoSetStopLoss : bool;
  stopLossPercent : option Q;
  takeProfitPercent : option Q
}.

(** The exchange together with the stop-loss module: [stops attempt] is how
    the call of [setStopLossTakeProfit] of that attempt ends, [inr b] being
    the truthiness of [success] in its result. *)
Record World : Type := mkWorld {
  exchange : Exchange;
  stops : nat -> JsError + bool
}.

(** How [adjustOrderParameters] ends: an [Error] whose message the caller
    reports, or the amount and leverage the order goes out with. *)
Inductive Adjusted : Type :=
| Refused (e : ErrorText)
| Ready (adjustedAmount : Q) (effectiveLeverage : xnum).

(** The methods [adjustPrecision], [checkMinNotional] and
    [smartAdjustOrderForMinNotional] of the executor compute what
    [BuyTs.adjustPrecisionFor], [BuyTs.checkMinNotionalFor] and
    [BuyTs.smartAdjustOrderForMinNotionalFor] compute for [symbolConfig]. *)
Definition handleSmallAmount (config : Config) (currentPrice : Q)
    (adjustedAmount : Q) (effectiveLeverage : xnum) : Adjusted :=
  let minAmount := pow10 (- quantity config) in
  if eqb adjustedAmount 0 || ltb adjustedAmount minAmount then
    let currentPositionValue := adjustedAmount * currentPrice in
    let minPositionValue := minAmount * currentPrice in
    let suggestedMultiplier :=
      xceil (xdiv minPositionValue currentPositionValue) in
    let suggestedLeverage :=
      xmin (xmul effectiveLeverage suggestedMultiplier) 30 in
    if xleb suggestedLeverage 30 && xleb suggestedMultiplier 20
    then Ready minAmount suggestedLeverage
    else Refused (AmountTooSmall adjustedAmount minAmount)
  else Ready adjustedAmount effectiveLeverage.

Definition adjustOrderParameters (config : Config)
    (amount leverage currentPrice : Q) : Adjusted :=
  let adjustedAmount := BuyTs.adjustPrecisionFor config amount in
  let notionalCheck :=
    BuyTs.checkMinNotionalFor config adjustedAmount currentPrice in
  let adjustment :=
    BuyTs.smartAdjustOrderForMinNotionalFor config adjustedAmount
      currentPrice (Fin leverage) in
  let adjustedAmount :=
    if negb (BuyTs.valid notionalCheck)
    then BuyTs.adjustedAmount adjustment
    else adjustedAmount in
  let effectiveLeverage :=
    if negb (BuyTs.valid notionalCheck)
    then BuyTs.adjustedLeverage adjustment
    else Fin leverage in
  match handleSmallAmount config currentPrice adjustedAmount
          effectiveLeverage with
  | Refused e => Refused e
  | Ready adjustedAmount effectiveLeverage =>
      let minAmount := pow10 (- quantity config) in
      if leb adjustedAmount 0 || ltb adjustedAmount minAmount then
        Refused (InvalidAdjustedAmount adjustedAmount minAmount)
      else
        let finalNotionalCheck :=
          BuyTs.checkMinNotionalFor config adjustedAmount currentPrice in
        if negb (BuyTs.valid finalNotionalCheck) then
          Refused (OrderValueTooSmall (adjustedAmount * currentPrice))
        else Ready adjustedAmount effectiveLeverage
  end.

(** The loop of [createOrder] (lines 383-418). *)
Fixpoint orderLoop (w : Exchange) (config : Config) (binanceSymbol : string)
    (orderType : OrderType) (attempts : list nat) (adjustedAmount : Q)
    (orderParams : OrderParams) (lastError : option JsError) : M OrderData :=
  match attempts with
  | [] =>
      throw (default (mkError "Failed to create order after 3 attempts" None)
                     lastError)
  | attempt :: later =>
      emit (EvNewOrder attempt binanceSymbol BUY orderType orderParams) ;;;
      match newOrder w attempt orderParams with
      | inr data => ret data
      | inl orderError =>
          let errorMsg :=
            orElse (responseMsg orderError) (message orderError) in
          let adjustedAmount' :=
            if includes errorMsg "Precision" && Nat.eqb attempt 1
            then BuyTs.adjustPrecisionFor config
                   (adjustedAmount + pow10 (- quantity config))
            else adjustedAmount in
          let orderParams' :=
            if includes errorMsg "Precision" && Nat.eqb attempt 1
            then mkParams adjustedAmount' (p_positionSide orderParams)
                   (p_reduceOnly orderParams) (p_price orderParams)
                   (p_timeInForce orderParams)
            else orderParams in
          if Nat.ltb attempt 3 then
            sleep (N.of_nat attempt * 3000) ;;;
            orderLoop w config binanceSymbol orderType later adjustedAmount'
              orderParams' (Some orderError)
          else throw orderError
      end
  end.

(** The loop of the method [setStopLossTakeProfit] (lines 444-476): a
    result that is not a success and a thrown error are treated alike. *)
Fixpoint stopsLoop (answers : nat -> JsError + bool) (attempts : list nat)
  : M unit :=
  match attempts with
  | [] => ret tt
  | attempt :: later =>
      match answers attempt with
      | inr true => ret tt
      | _ =>
          (if Nat.ltb attempt 3
           then sleep (if Nat.eqb attempt 1 then 3000 else 5000)
           else ret tt) ;;;
          stopsLoop answers later
      end
  end.

Definition setStopLossTakeProfit (answers : nat -> JsError + bool) : M unit :=
  sleep 8000 ;;; stopsLoop answers [1; 2; 3]%nat.

(** [buyLong] with [BuyOrderExecutor.execute]. *)
Definition buyLong (params : BuyParams) (world : World) : M OrderResult :=
  let w := exchange world in
  if negb (truthy params.(symbol)) || negb (includes params.(symbol) "/") then
    ret (failure InvalidSymbolFormat)
  else if leb params.(amount) 0 then
    ret (failure AmountMustBePositive)
  else if given params.(leverage)
          && (ltb (default 0 params.(leverage)) 1
              || ltb 30 (default 0 params.(leverage))) then
    ret (failure LeverageOutOfRange)
  else
    let binanceSymbol := replaceSlash params.(symbol) in
    let symbolConfig := configOf binanceSymbol in
    let effectiveLeverage :=
      if given params.(leverage) then default 0 params.(leverage) else 10 in
    catch
      (awaitVoid (getBinanceInstance w) ;;;
       awaitVoid (ensureTimeSync w) ;;;
       let currentPrice :=
         BuyTs.resolvePrice w params.(price) binanceSymbol in
       match adjustOrderParameters symbolConfig params.(amount)
               effectiveLeverage currentPrice with
       | Refused e => ret (failure e)
       | Ready adjustedAmount effectiveLeverage =>
           catch (awaitVoid (changeInitialLeverage w)) (fun _ => ret tt) ;;;
           positionMode <- PositionModeCache.getPositionMode (modeWorld w) ;;
           let orderType := if given params.(price) then LIMIT else MARKET in
           let orderParams :=
             BuyTs.prepareOrderParams params.(price) adjustedAmount
               positionMode in
           orderResult <-
             orderLoop w symbolConfig binanceSymbol orderType [1; 2; 3]%nat
               adjustedAmount orderParams None ;;
           (if params.(autoSetStopLoss)
            then setStopLossTakeProfit (stops world)
            else ret tt) ;;;
           ret (filled orderResult)
       end)
      (fun error => ret (failure (BuyTs.errorText error))).

End BuyLongTs.

(** ** The short entry with a retry handler: [sell], [shortSellMarket],
    [shortSellLimit] *)

Module ShortTs.

(** The precision table, [adjustPrecision] and the parameters
    [{ symbol, amount, price?, leverage? }] of this file are those of
    [shortSell] in sell.ts: [SellTs.SYMBOL_PRECISION],
    [SellTs.adjustPrecision], [SellTs.ShortSellParams]. *)

Definition noShortOrder : JsError :=
  mkError "Failed to create short sell order after 3 attempts" None.

(** Lines 164-183: the handler of a position-side mismatch.  It asks the
    exchange directly and sets or deletes [positionSide]. *)
Definition onPositionSideMismatch (w : Exchange) (orderParams : OrderParams)
  : M OrderParams :=
  awaitVoid (getBinanceInstance w) ;;;
  emit (EvModeQuery SdkPositionMode) ;;;
  dualSidePosition <- await (positionModeRequery w) ;;
  let currentPositionMode :=
    if (dualSidePosition : bool) then DUAL_SIDE else ONE_WAY in
  match currentPositionMode with
  | DUAL_SIDE =>
      ret (mkParams (p_quantity orderParams) (Some SHORT)
             (p_reduceOnly orderParams) (p_price orderParams)
             (p_timeInForce orderParams))
  | ONE_WAY =>
      ret (mkParams (p_quantity orderParams) None
             (p_reduceOnly orderParams) (p_price orderParams)
             (p_timeInForce orderParams))
  end.

(** Lines 142-197: the submission loop. *)
Fixpoint orderLoop (w : Exchange) (binanceSymbol : string)
    (orderType : OrderType) (attempts : list nat) (orderParams : OrderParams)
    (lastError : option JsError) : M OrderData :=
  match attempts with
  | [] => throw (default noShortOrder lastError)
  | attempt :: later =>
      emit (EvNewOrder attempt binanceSymbol SELL orderType orderParams) ;;;
      match newOrder w attempt orderParams with
      | inr data => ret data
      | inl orderError =>
          let errorMsg :=
            orElse (responseMsg orderError) (message orderError) in
          orderParams' <-
            (if includes errorMsg "position side does not match"
                && Nat.eqb attempt 1
             then onPositionSideMismatch w orderParams
             else ret orderParams) ;;
          if Nat.ltb attempt 3 then
            sleep (N.of_nat attempt * 2000) ;;;
            orderLoop w binanceSymbol orderType later orderParams'
              (Some orderError)
          else throw orderError
      end
  end.

(** [sell]; [setLeverage] catches whatever its calls throw and leaves no
    mark on the order, so it does not appear. *)
Definition sell (params : SellTs.ShortSellParams) (w : Exchange)
  : M OrderResult :=
  let symbol := params.(SellTs.s_symbol) in
  let amount := params.(SellTs.s_amount) in
  let price := params.(SellTs.s_price) in
  if negb (truthy symbol) || negb (includes symbol "/") then
    ret (failure InvalidSymbolFormat)
  else if eqb amount 0 || leb amount 0 then
    ret (failure (Text "Amount must be greater than 0"))
  else
    catch
      (awaitVoid (ensureTimeSync w) ;;;
       awaitVoid (getBinanceInstance w) ;;;
       let binanceSymbol := replaceSlash symbol in
       let adjustedAmount := SellTs.adjustPrecision amount binanceSymbol in
       let minAmount := pow10 (- SellTs.quantityOr3 binanceSymbol) in
       if leb adjustedAmount 0 || ltb adjustedAmount minAmount then
         ret (failure (AmountTooSmall amount minAmount))
       else
         positionMode <- PositionModeCache.getPositionMode (modeWorld w) ;;
         let orderType := if given price then LIMIT else MARKET in
         let orderParams :=
           SellTs.shortOrderParams price adjustedAmount positionMode in
         orderResult <-
           orderLoop w binanceSymbol orderType [1; 2; 3]%nat orderParams
             None ;;
         ret (filled orderResult))
      (fun error =>
         ret (failure
                (SellTs.errorText "Unknown error occurred during short sell"
                   error))).

(** The two convenience functions. *)
Definition shortSellMarket (symbol : string) (amount : Q)
    (leverage : option Q) (w : Exchange) : M OrderResult :=
  sell (SellTs.mkShortParams symbol amount None leverage) w.

Definition shortSellLimit (symbol : string) (amount price : Q)
    (leverage : option Q) (w : Exchange) : M OrderResult :=
  sell (SellTs.mkShortParams symbol amount (Some price) leverage) w.

End ShortTs.

(** ** The trading executor: [TradingExecutor] *)

Module ExecutorTs.

(** The enum [Opeartion] of the database schema, as far as the executor
    names its members. *)
Inductive Opeartion : Type := Buy | Sell | Hold | Close | Failed.

(** [decision.pricing]: absent, [null] or a number. *)
Inductive Pricing : Type := Undefined | Null | Price (p : Q).

(** The object the model call returns: the keys of the answer schema and no
    others.  [None] is a key without a value. *)
Record SchemaAnswer : Type := mkAnswer {
  signal : string;
  coin : string;
  quantity : option Q;
  a_leverage : option Q;
  profit_target : option Q;
  stop_loss : option Q;
  a_invalidation_condition : option string;
  confidence : option Q;
  risk_usd : option Q;
  justification : option string
}.

(** [decision.prediction]: the JSON text of an answer, or some other
    text. *)
Inductive Prediction : Type :=
| JsonOf (d : SchemaAnswer)
| Written (text : string).

(** [decision.buy], of which [createTradingData] reads two keys. *)
Record BuyObject : Type := mkBuyObject {
  b_pricing : option Q;
  b_amount : option Q
}.

(** A decision in the legacy format, with the keys the executor reads.
    [None] is a key that is absent, [undefined] or [null]. *)
Record Decision : Type := mkDecision {
  opeartion : Opeartion;
  symbol : string;
  chat : option string;
  amount : option Q;
  leverage : option Q;
  pricing : Pricing;
  stopLoss : option Q;
  takeProfit : option Q;
  stopLossPercent : option Q;
  takeProfitPercent : option Q;
  buy : option BuyObject;
  invalidation_condition : option string;
  trade_status : option Q;
  prediction : option Prediction
}.

Definition opMap : gmap string Opeartion :=
  <["buy_to_enter"%string := Buy]>
  (<["sell_to_enter"%string := Sell]>
  (<["hold"%string := Hold]>
  (<["close_position"%string := Close]> ∅))).

(** Lines 171-233: [mapAIDecisionsToLegacyFormat] on objects of the answer
    schema, which is what its one call hands it.  Such an object has no
    [opeartion], so the early return for legacy objects is not taken; the
    spread [...d] brings along [invalidation_condition], and no [pricing],
    [buy], [trade_status] or percentages, which the schema does not have. *)
Definition mapDecision (d : SchemaAnswer) : Decision :=
  {| opeartion := default Hold (opMap !! signal d);
     symbol := coin d;
     chat := match justification d with
             | Some text => if truthy text then Some text else None
             | None => None
             end;
     amount := quantity d;
     leverage := a_leverage d;
     pricing := Undefined;
     stopLoss := stop_loss d;
     takeProfit := profit_target d;
     stopLossPercent := None;
     takeProfitPercent := None;
     buy := None;
     invalidation_condition := a_invalidation_condition d;
     trade_status := None;
     prediction := Some (JsonOf d) |}.

Definition mapAIDecisionsToLegacyFormat (decisions : list SchemaAnswer)
  : list Decision :=
  map mapDecision decisions.

(** A row of [allTradingRecords]. *)
Record TradingData : Type := mkTradingData {
  t_symbol : string;
  t_opeartion : Opeartion;
  t_stopLoss : option Q;
  t_takeProfit : option Q;
  t_pricing : Q;
  t_amount : option Q;
  t_invalidation_condition : string;
  t_leverage : Q;
  t_trade_status : Q;
  t_prediction : option Prediction
}.

(** The [overrides] argument of [createTradingData]: the keys its body
    reads and the one its callers set. *)
Record Overrides : Type := mkOverrides {
  o_opeartion : option Opeartion;
  o_stopLoss : option Q;
  o_takeProfit : option Q;
  o_pricing : option Q;
  o_amount : option Q
}.

Definition noOverrides : Overrides := mkOverrides None None None None None.

(** [a || b] on numbers: zero is falsy. *)
Definition orNum (a b : option Q) : option Q :=
  if given a then a else b.

Definition priceOf (p : Pricing) : option Q :=
  match p with
  | Price p => Some p
  | _ => None
  end.

(** Lines 479-493.  A key of [overrides] that is present replaces the
    computed value, whatever it holds. *)
Definition createTradingData (decision : Decision) (overrides : Overrides)
  : TradingData :=
  let spread {A} (over : option A) (computed : A) : A :=
    match over with
    | Some v => v
    | None => computed
    end in
  {| t_symbol := symbol decision;
     t_opeartion := spread (o_opeartion overrides) (opeartion decision);
     t_stopLoss :=
       match o_stopLoss overrides with
       | Some v => Some v
       | None => orNum (o_stopLoss overrides) (orNum (stopLoss decision) None)
       end;
     t_takeProfit :=
       match o_takeProfit overrides with
       | Some v => Some v
       | None =>
           orNum (o_takeProfit overrides) (orNum (takeProfit decision) None)
       end;
     t_pricing :=
       spread (o_pricing overrides)
         (default 0
            (orNum (o_pricing overrides)
               (orNum (buy decision ≫= b_pricing)
                  (orNum (priceOf (pricing decision)) (Some 0)))));
     t_amount :=
       match o_amount overrides with
       | Some v => Some v
       | None =>
           orNum (o_amount overrides)
             (orNum (buy decision ≫= b_amount)
                (orNum (amount decision) None))
       end;
     t_invalidation_condition :=
       orElse (invalidation_condition decision) "Not Set";
     t_leverage := default 0 (orNum (leverage decision) (Some 0));
     t_trade_status := default 0 (orNum (trade_status decision) (Some 0));
     t_prediction :=
       match prediction decision with
       | Some (Written text) =>
           if truthy text then Some (Written text) else None
       | other => other
       end |}.

(** An entry of [allChatMessages]: the explanation of a decision, the
    reason of the risk check, or the text about insufficient margin with its
    two amounts. *)
Inductive ChatMessage : Type :=
| Said (symbol chat : string)
| Blocked (symbol reason : string)
| Insufficient (symbol : string) (requiredMargin remaining : xnum).

(** The fields of the executor that change during a run. *)
Record State : Type := mkState {
  remainingAvailableCash : xnum;
  allTradingRecords : list TradingData;
  allChatMessages : list ChatMessage
}.

Definition recordTradingData (decision : Decision) (overrides : Overrides)
    (state : State) : State :=
  mkState (remainingAvailableCash state)
    (allTradingRecords state ++ [createTradingData decision overrides])
    (allChatMessages state).

Definition recordFailedDecision (decision : Decision) (state : State)
  : State :=
  recordTradingData decision
    (mkOverrides (Some Failed) None None None None) state.

Definition say (message : ChatMessage) (state : State) : State :=
  mkState (remainingAvailableCash state) (allTradingRecords state)
    (allChatMessages state ++ [message]).

Record RiskCheck : Type := mkRiskCheck {
  allowed : bool;
  reason : string
}.

(** What the collaborators answer while one decision is processed.
    [checkBuyRisk] (risk-control), [buyShort] and [closePosition] are
    outside the embedded sources; the boolean of the last two is the
    truthiness of [success] in their result, and a result without which
    [closeResult.success] cannot be read counts as a rejection.  [buyLong]
    is the embedded one, run against [long] from [positionModeCache]. *)
Record Pass : Type := mkPass {
  checkBuyRisk : Q -> Pricing -> Q -> xnum -> JsError + RiskCheck;
  long : BuyLongTs.World;
  positionModeCache : option PositionMode;
  buyShort : string -> Q -> Q -> JsError + bool;
  closePosition : string -> Q -> JsError + bool
}.

Definition withStatus (decision : Decision) (status : Q) : Decision :=
  {| opeartion := opeartion decision;
     symbol := symbol decision;
     chat := chat decision;
     amount := amount decision;
     leverage := leverage decision;
     pricing := pricing decision;
     stopLoss := stopLoss decision;
     takeProfit := takeProfit decision;
     stopLossPercent := stopLossPercent decision;
     takeProfitPercent := takeProfitPercent decision;
     buy := buy decision;
     invalidation_condition := invalidation_condition decision;
     trade_status := Some status;
     prediction := prediction decision |}.

(** Line 293: [(decision.amount * decision.pricing) / decision.leverage]. *)
Definition requiredMarginOf (amount : Q) (pricing : Pricing) (leverage : Q)
  : xnum :=
  match pricing with
  | Undefined => NaN
  | Null => xdiv (amount * 0) leverage
  | Price p => xdiv (amount * p) leverage
  end.

(** Lines 325-333: the request handed to [buyLong]. *)
Definition buyLongRequest (decision : Decision) (amount leverage : Q)
  : BuyLongTs.BuyParams :=
  BuyLongTs.mkBuyParams (symbol decision ++ "/USDT") amount (Some leverage)
    (Some 0) false (stopLossPercent decision) (takeProfitPercent decision).

(** Each of the four methods below ends by returning, with the decision and
    the state as it left them, or by throwing; when it throws it has
    changed neither. *)

(** Lines 284-347. *)
Definition processBuyLongDecision (decision : Decision) (pass : Pass)
    (state : State) : JsError + (Decision * State) :=
  match amount decision, leverage decision with
  | Some amount, Some leverage =>
      let requiredMargin :=
        requiredMarginOf amount (pricing decision) leverage in
      match checkBuyRisk pass amount (pricing decision) leverage
              (remainingAvailableCash state) with
      | inl e => inl e
      | inr riskCheck =>
          if negb (allowed riskCheck) then
            inr (decision,
                 recordFailedDecision decision
                   (say (Blocked (symbol decision) (reason riskCheck))
                      state))
          else if xgtb requiredMargin (remainingAvailableCash state) then
            inr (decision,
                 recordFailedDecision decision
                   (say (Insufficient (symbol decision) requiredMargin
                           (remainingAvailableCash state)) state))
          else
            match value (BuyLongTs.buyLong
                           (buyLongRequest decision amount leverage)
                           (long pass) (positionModeCache pass)) with
            | inl e => inl e
            | inr buyResult =>
                if success buyResult then
                  inr (withStatus decision 1000,
                       mkState
                         (xsub (remainingAvailableCash state) requiredMargin)
                         (allTradingRecords state) (allChatMessages state))
                else inr (decision, state)
            end
      end
  | _, _ => inr (decision, recordFailedDecision decision state)
  end.

(** Lines 349-388; [getPositionInfo] catches what it throws and its result
    is only logged, so it does not appear. *)
Definition processBuyShortDecision (decision : Decision) (pass : Pass)
    (state : State) : JsError + (Decision * State) :=
  match amount decision, leverage decision with
  | Some amount, Some leverage =>
      match buyShort pass (symbol decision ++ "/USDT") amount leverage with
      | inl e => inl e
      | inr true => inr (withStatus decision 2000, state)
      | inr false => inr (decision, state)
      end
  | _, _ => inr (decision, recordFailedDecision decision state)
  end.

(** Lines 390-421. *)
Definition processHoldDecision (decision : Decision) (pass : Pass)
    (state : State) : JsError + (Decision * State) :=
  inr (withStatus decision (-1), state).

(** Lines 423-438. *)
Definition processCloseDecision (decision : Decision) (pass : Pass)
    (state : State) : JsError + (Decision * State) :=
  match closePosition pass (symbol decision ++ "/USDT") 100 with
  | inl e => inl e
  | inr true => inr (withStatus decision (-1000), state)
  | inr false => inr (decision, state)
  end.

(** Lines 245-282. *)
Definition processSingleDecision (decision : Decision) (pass : Pass)
    (state : State) : Decision * State :=
  let state :=
    match chat decision with
    | Some text =>
        if truthy text then say (Said (symbol decision) text) state
        else state
    | None => state
    end in
  match
    match opeartion decision with
    | Buy => processBuyLongDecision decision pass state
    | Sell => processBuyShortDecision decision pass state
    | Hold => processHoldDecision decision pass state
    | Close => processCloseDecision decision pass state
    | Failed => inr (decision, state)
    end
  with
  | inr (decision, state) =>
      (decision, recordTradingData decision noOverrides state)
  | inl _ => (decision, recordFailedDecision decision state)
  end.

(** Lines 237-243: the decisions in order, each with the answers of the
    collaborators during its turn. *)
Fixpoint processTradingDecisions (decisions : list (Decision * Pass))
    (state : State) : State :=
  match decisions with
  | [] => state
  | (decision, pass) :: later =>
      processTradingDecisions later
        (snd (processSingleDecision decision pass state))
  end.

End ExecutorTs.

(** ** Further sample requests *)

Module MoreSamples.

(** A short of a tenth of a thousandth of a BTC, at market. *)
Definition dustShort : SellTs.ShortSellParams :=
  SellTs.mkShortParams "BTC/USDT" (1 # 10000) None None.

(** A market buy of a thousandth of an instrument that has no entry in the
    precision table. *)
Definition exoticBuy : BuyTs.BuyParams :=
  BuyTs.mkBuyParams "XRP/USDT" (1 # 1000) None None.

(** The exchange's refusal of a quantity with too many decimals. *)
Definition precisionError : JsError :=
  mkError "Request failed with status code 400"
    (Some "Precision is over the maximum defined for this asset.").

(** DOGE at 0.1; the first order is refused for its precision, the second
    is filled. *)
Definition imprecise : Exchange :=
  mkExchange None None (inr (1 # 10)) None (inr []) Samples.dualSide
    (inr true)
    (fun attempt params =>
       if Nat.eqb attempt 1 then inl precisionError
       else inr (Samples.fill (p_quantity params))).

End MoreSamples.

(** ** Sample answers of the exchange for positions *)

Module PositionSamples.

Definition btcLong : PositionsTs.BinancePosition :=
  PositionsTs.mkBinancePosition "BTCUSDT" 1 50000 51000 1000 40000 10 51000
    "cross".

Definition ethFlat : PositionsTs.BinancePosition :=
  PositionsTs.mkBinancePosition "ETHUSDT" 0 0 3000 0 0 10 0 "cross".

Definition solShort : PositionsTs.BinancePosition :=
  PositionsTs.mkBinancePosition "SOLUSDT" (- (2)) 100 90 20 150 5 (- (180))
    "ISOLATED".

(** The first domain times out, the second answers; the database has no
    trading record. *)
Definition twoDomains : PositionsTs.World :=
  PositionsTs.mkWorld None
    ["https://fapi.binance.com"%string; "https://fapi1.binance.com"%string]
    (fun i =>
       if Nat.eqb i 0 then inl Samples.timeout
       else inr [ethFlat; solShort; btcLong])
    (fun _ => inr None).

(** The same exchange with the database out of reach. *)
Definition noDatabase : PositionsTs.World :=
  PositionsTs.mkWorld None
    ["https://fapi.binance.com"%string; "https://fapi1.binance.com"%string]
    (fun i =>
       if Nat.eqb i 0 then inl Samples.timeout
       else inr [ethFlat; solShort; btcLong])
    (fun _ => inl (mkError "Can't reach database server" None)).

(** An exchange for the trading functions whose positions are those
    fetched from [twoDomains]. *)
Definition reported : Exchange :=
  mkExchange None None (inr 90) None
    (inr (map held
            (map (PositionsTs.transformPositionData twoDomains)
               (List.filter PositionsTs.isOpen [ethFlat; solShort; btcLong]))))
    Samples.dualSide (inr true)
    (fun _ params => inr (Samples.fill (p_quantity params))).

End PositionSamples.

(** ** Sample answers of the model *)

Module AnswerSamples.

(** A buy of 0.02 BTC at ten times leverage, as the answer schema of
    [run] delivers it. *)
Definition schemaBuy : Mapping.Obj :=
  Mapping.mkObj None None None None None None (Some "buy_to_enter"%string)
    (Some "BTC"%string) (Some (2 # 100)) None (Some 10) None None None None
    (Some "momentum"%string).

(** The decision the loop of [run] sees for it. *)
Definition mappedBuy : Run.Decision :=
  Run.mkDecision Run.Buy "BTC"
    (Some (Run.mkBuyFields (Some (2 # 100)) None (Some 10))).

End AnswerSamples.

(** Two calls that did the same on the wire and for the caller: the same
    events in the same order, the same cache afterwards, and results that
    agree on success and on the details of the fill.  The wording of an
    error text is not compared. *)
Definition sameOutcome (o1 o2 : Outcome OrderResult) : Prop :=
  trace o1 = trace o2
  /\ cacheAfter o1 = cacheAfter o2
  /\ exists r1 r2,
       value o1 = inr r1 /\ value o2 = inr r2
       /\ success r1 = success r2
       /\ r_orderId r1 = r_orderId r2
       /\ executedPrice r1 = executedPrice r2
       /\ executedAmount r1 = executedAmount r2.

(** The sides of the orders a trace sent. *)
Fixpoint sidesOf (tr : list Event) : list Side :=
  match tr with
  | [] => []
  | EvNewOrder _ _ side _ _ :: rest => side :: sidesOf rest
  | _ :: rest => sidesOf rest
  end.

(** What the handler of the short entry keeps of an order: everything but
    [positionSide], which is SHORT or absent. *)
Definition shortShape (quantity : Q) (price : option Q)
    (timeInForce : option string) (sent : OrderParams) : Prop :=
  p_quantity sent = quantity
  /\ p_price sent = price
  /\ p_timeInForce sent = timeInForce
  /\ p_reduceOnly sent = false
  /\ (p_positionSide sent = None \/ p_positionSide sent = Some SHORT).

(** A run that sent at most [n] orders, all SELL orders of one shape, and
    left the cache at [cache]. *)
Definition shortRun {A} (quantity : Q) (price : option Q)
    (timeInForce : option string) (n : nat) (cache : option PositionMode)
    (run : Outcome A) : Prop :=
  Forall (shortShape quantity price timeInForce) (ordersOf (trace run))
  /\ Forall (eq SELL) (sidesOf (trace run))
  /\ (length (ordersOf (trace run)) <= n)%nat
  /\ cacheAfter run = cache.

(** A chat message about insufficient margin. *)
Definition isInsufficient (message : ExecutorTs.ChatMessage) : bool :=
  match message with
  | ExecutorTs.Insufficient _ _ _ => true
  | _ => false
  end.

(** What a decision of the loop of [run] asks of the ledger of the
    specification: the required margin amount x pricing / leverage, the risk
    check of the loop, and the fill as [buy] reports it for the exchange of
    that turn. *)
Definition ledgerRequest
    (checkBuyRisk : Q -> option Q -> Q -> xnum -> bool)
    (entry : Run.Decision * Exchange * option PositionMode)
  : LedgerSpec.Request :=
  let '(object, w, cache) := entry in
  match Run.opeartion object, Run.buy object with
  | Run.Buy, Some fields =>
      match Run.amount fields, Run.leverage fields with
      | Some amount, Some leverage =>
          LedgerSpec.BuyRequest
            (amount * default 0 (Run.pricing fields) / leverage)
            (fun remainingCash =>
               checkBuyRisk amount (Run.pricing fields) leverage
                 (Fin remainingCash))
            (match value (BuyTs.buy
                            (BuyTs.mkBuyParams (Run.symbol object ++ "/USDT")
                               amount (Some leverage) None) w cache) with
             | inr buyResult => success buyResult
             | inl _ => false
             end)
      | _, _ => LedgerSpec.NoBuy
      end
  | _, _ => LedgerSpec.NoBuy
  end.

(** An upper-case ASCII letter somewhere in a string. *)
Fixpoint hasUpper (s : string) : bool :=
  match s with
  | EmptyString => false
  | String c rest =>
      (Nat.leb 65 (nat_of_ascii c) && Nat.leb (nat_of_ascii c) 90)
      || hasUpper rest
  end.

(** * Properties *)

(** ** Arithmetic of the decimal grid *)

Section Grid.

Lemma ltb_spec (a b : Q) : ltb a b = true <-> a < b.
Proof.
  unfold ltb. rewrite negb_true_iff.
  split.
  - intros H. apply Qnot_le_lt. intros Hle.
    apply Qle_bool_iff in Hle. congruence.
  - intros H. destruct (Qle_bool b a) eqn:E; [|reflexivity].
    apply Qle_bool_iff in E. lra.
Qed.

Lemma ltb_false (a b : Q) : ltb a b = false <-> b <= a.
Proof.
  unfold ltb. rewrite negb_false_iff. apply Qle_bool_iff.
Qed.

Lemma leb_spec (a b : Q) : leb a b = true <-> a <= b.
Proof. apply Qle_bool_iff. Qed.

Lemma leb_false (a b : Q) : leb a b = false <-> b < a.
Proof.
  unfold leb. split.
  - intros H. apply Qnot_le_lt. intros Hle.
    apply Qle_bool_iff in Hle. congruence.
  - intros H. destruct (Qle_bool a b) eqn:E; [|reflexivity].
    apply Qle_bool_iff in E. lra.
Qed.

Lemma eqb_spec (a b : Q) : eqb a b = true <-> a == b.
Proof. apply Qeq_bool_iff. Qed.

Lemma eqb_false (a b : Q) : eqb a b = false <-> ~ a == b.
Proof.
  unfold eqb. split.
  - apply Qeq_bool_neq.
  - intros H. destruct (Qeq_bool a b) eqn:E; [|reflexivity].
    apply Qeq_bool_iff in E. contradiction.
Qed.

Lemma pow10_pos (e : Z) : 0 < pow10 e.
Proof. unfold pow10. apply Qpower_0_lt. reflexivity. Qed.

Lemma pow10_opp (e : Z) : pow10 (- e) == / pow10 e.
Proof. unfold pow10. apply Qpower_opp. Qed.

Lemma pow10_opp_mul (e : Z) : pow10 (- e) * pow10 e == 1.
Proof.
  rewrite pow10_opp. field.
  pose proof (pow10_pos e). lra.
Qed.

Lemma floor_le (x : Q) : floor x <= x.
Proof. apply Qfloor_le. Qed.

Lemma floor_lt (x : Q) : x < floor x + 1.
Proof.
  unfold floor. pose proof (Qlt_floor x) as H.
  rewrite inject_Z_plus in H. exact H.
Qed.

End Grid.

(** ** Truncation to the grid *)

Section Truncation.

Variable d : Z.

Let f := pow10 d.
Let u := pow10 (- d).

Local Lemma f_pos : 0 < f.
Proof. apply pow10_pos. Qed.

Local Lemma u_pos : 0 < u.
Proof. apply pow10_pos. Qed.

Local Lemma u_f : u * f == 1.
Proof. apply pow10_opp_mul. Qed.

Local Lemma u_inv (x : Q) : x / f == x * u.
Proof.
  unfold Qdiv, u, f. rewrite pow10_opp. reflexivity.
Qed.

(** [floor (x * f) / f] lies in [(x - u, x]]. *)
Lemma truncate_le (x : Q) : floor (x * f) / f <= x.
Proof.
  apply Qle_shift_div_r; [apply f_pos | apply floor_le].
Qed.

Lemma truncate_gt (x : Q) : x < floor (x * f) / f + u.
Proof.
  rewrite u_inv.
  pose proof (floor_lt (x * f)) as H.
  pose proof u_pos as Hu. pose proof u_f as Huf.
  assert (Hm : x * f * u < (floor (x * f) + 1) * u).
  { apply Qmult_lt_compat_r; assumption. }
  assert (Hx : x * f * u == x).
  { rewrite <- Qmult_assoc, (Qmult_comm f u), Huf. ring. }
  rewrite Hx in Hm. lra.
Qed.

Lemma floor_nonneg (x : Q) : 0 <= x -> 0 <= floor x.
Proof.
  intros H. unfold floor.
  change 0 with (inject_Z 0). rewrite <- Zle_Qle.
  rewrite <- (Qfloor_Z 0). apply Qfloor_resp_le. exact H.
Qed.

Lemma truncate_nonneg (x : Q) : 0 <= x -> 0 <= floor (x * f) / f.
Proof.
  intros H. apply Qle_shift_div_l; [apply f_pos|].
  rewrite Qmult_0_l. apply floor_nonneg.
  apply Qmult_le_0_compat; [exact H | apply Qlt_le_weak, f_pos].
Qed.

(** A non-zero value of [floor] is at least one in absolute value, so a
    positive truncation is at least one unit. *)
Lemma floor_pos_ge_1 (x : Q) : 0 < floor x -> 1 <= floor x.
Proof.
  unfold floor. change 0 with (inject_Z 0). change 1 with (inject_Z 1).
  rewrite <- Zlt_Qlt, <- Zle_Qle. lia.
Qed.

Lemma truncate_pos_ge_unit (x : Q) :
  0 < floor (x * f) / f -> u <= floor (x * f) / f.
Proof.
  intros H. rewrite u_inv in *.
  pose proof u_pos as Hu.
  assert (Hf : 0 < floor (x * f)).
  { destruct (Qlt_le_dec 0 (floor (x * f))) as [Hlt|Hle]; [exact Hlt|].
    exfalso.
    assert (floor (x * f) * u <= 0 * u)
      by (apply Qmult_le_compat_r; [exact Hle | lra]).
    lra. }
  apply floor_pos_ge_1 in Hf.
  assert (1 * u <= floor (x * f) * u)
    by (apply Qmult_le_compat_r; [exact Hf | lra]).
  lra.
Qed.

Lemma truncate_zero_iff (x : Q) :
  0 <= x -> (floor (x * f) / f == 0 <-> x < u).
Proof.
  intros Hx. split.
  - intros H0. pose proof (truncate_gt x) as H. rewrite H0 in H. lra.
  - intros Hlt.
    pose proof (truncate_nonneg x Hx) as Hnn.
    destruct (Qlt_le_dec 0 (floor (x * f) / f)) as [Hpos|Hle]; [|lra].
    apply truncate_pos_ge_unit in Hpos.
    pose proof (truncate_le x). lra.
Qed.

End Truncation.

(** ** Quantization never drops a positive amount: sell.ts and
    close_position.ts, but not buy.ts *)

Section Quantization.

Variable config : Config.

Lemma sell_adjustPrecisionFor_cases (amount : Q) :
  0 < amount ->
  let truncated :=
    floor (amount * pow10 (quantity config)) / pow10 (quantity config) in
  (truncated == 0 /\
   SellTs.adjustPrecisionFor config amount = pow10 (- quantity config))
  \/ (0 < truncated /\ SellTs.adjustPrecisionFor config amount = truncated).
Proof.
  intros Hpos truncated. unfold SellTs.adjustPrecisionFor.
  fold truncated.
  assert (Hlt : ltb 0 amount = true) by (apply ltb_spec; exact Hpos).
  rewrite Hlt, andb_true_r.
  destruct (eqb truncated 0) eqn:E.
  - left. apply eqb_spec in E. split; [exact E | reflexivity].
  - right. apply eqb_false in E. split; [|reflexivity].
    pose proof (truncate_nonneg (quantity config) amount
                  (Qlt_le_weak _ _ Hpos)) as Hnn.
    fold truncated in Hnn.
    destruct (Qlt_le_dec 0 truncated) as [H|H]; [exact H|].
    exfalso. apply E. lra.
Qed.

Lemma sell_adjustPrecisionFor_ge_unit (amount : Q) :
  0 < amount ->
  pow10 (- quantity config) <= SellTs.adjustPrecisionFor config amount.
Proof.
  intros Hpos.
  destruct (sell_adjustPrecisionFor_cases amount Hpos) as [[_ ->]|[Ht ->]].
  - apply Qle_refl.
  - apply truncate_pos_ge_unit. exact Ht.
Qed.

Lemma close_adjustPrecisionFor_eq (amount : Q) :
  ClosePositionTs.adjustPrecisionFor config amount
  = SellTs.adjustPrecisionFor config amount.
Proof. reflexivity. Qed.

End Quantization.

(** C1, as amended.  For a positive raw amount and any rule, [adjustPrecision]
    of sell.ts and of close_position.ts returns floor(raw * 10^d) / 10^d, or
    the minimal unit 10^-d when that is zero, and the result is strictly
    positive; [adjustPrecision] of buy.ts returns the plain truncation, which
    is non-negative and is zero exactly when raw is below one unit. *)
Theorem adjustPrecision_positive_where_floored (config : Config) (raw : Q) :
  0 < raw ->
  let d := quantity config in
  let truncated := floor (raw * pow10 d) / pow10 d in
  (0 < SellTs.adjustPrecisionFor config raw
   /\ (truncated == 0 -> SellTs.adjustPrecisionFor config raw == pow10 (- d))
   /\ (~ truncated == 0 -> SellTs.adjustPrecisionFor config raw == truncated))
  /\ ClosePositionTs.adjustPrecisionFor config raw
     = SellTs.adjustPrecisionFor config raw
  /\ (BuyTs.adjustPrecisionFor config raw = truncated
      /\ 0 <= BuyTs.adjustPrecisionFor config raw
      /\ (BuyTs.adjustPrecisionFor config raw == 0 <-> raw < pow10 (- d))).
Proof.
  intros Hpos d truncated.
  pose proof (sell_adjustPrecisionFor_cases config raw Hpos) as Hcases.
  cbv zeta in Hcases. fold d in Hcases. fold truncated in Hcases.
  pose proof (pow10_pos (- d)) as Hu.
  repeat split.
  - destruct Hcases as [[_ ->]|[Ht ->]]; assumption.
  - intros H0. destruct Hcases as [[_ ->]|[Ht ->]]; [reflexivity | lra].
  - intros Hn. destruct Hcases as [[H0 _]|[_ ->]];
      [contradiction | reflexivity].
  - apply truncate_nonneg. lra.
  - apply truncate_zero_iff. lra.
  - apply truncate_zero_iff. lra.
Qed.

Lemma adjustPrecision_positive_where_floored_witness :
  0 < SellTs.adjustPrecision (1 # 10000) "BTCUSDT"
  /\ SellTs.adjustPrecision (1 # 10000) "BTCUSDT" == 1 # 1000.
Proof.
  pose proof (adjustPrecision_positive_where_floored
                (SellTs.configOf "BTCUSDT") (1 # 10000)) as H.
  destruct H as [[Hpos [Hzero _]] _]; [reflexivity|].
  split; [exact Hpos|].
  unfold SellTs.adjustPrecision. rewrite Hzero; vm_compute; reflexivity.
Defined.

(** C1, counterexample.  In buy.ts a request of 0.0001 BTC is quantized to
    zero. *)
Lemma buy_adjustPrecision_drops_positive_amount :
  0 < 1 # 10000 /\ BuyTs.adjustPrecision (1 # 10000) "BTCUSDT" == 0.
Proof. split; vm_compute; reflexivity. Qed.

(** ** Escalation to the minimum notional (buy.ts) *)

Section MinNotional.

Variable config : Config.
Variable currentPrice : Q.
Hypothesis price_pos : 0 < currentPrice.

Let threshold := minNotional config.
Let unit := pow10 (- quantity config).
Let quantized := BuyTs.adjustPrecisionFor config (threshold / currentPrice).

(** One more unit on top of the truncated quotient is past the quotient. *)
Lemma one_unit_crosses : threshold < (quantized + unit) * currentPrice.
Proof.
  pose proof (truncate_gt (quantity config) (threshold / currentPrice)) as H.
  change (floor (threshold / currentPrice * pow10 (quantity config))
          / pow10 (quantity config)) with quantized in H.
  fold unit in H.
  assert (Hq : threshold / currentPrice * currentPrice == threshold)
    by (field; lra).
  assert (Hm : threshold / currentPrice * currentPrice
               < (quantized + unit) * currentPrice)
    by (apply Qmult_lt_compat_r; assumption).
  lra.
Qed.

Lemma smartAdjust_meets_threshold (amount : Q) (leverage : xnum) :
  threshold
  <= BuyTs.adjustedAmount
       (BuyTs.smartAdjustOrderForMinNotionalFor config amount currentPrice
          leverage) * currentPrice.
Proof.
  unfold BuyTs.smartAdjustOrderForMinNotionalFor.
  fold threshold. fold quantized. fold unit.
  destruct (leb threshold (amount * currentPrice)) eqn:E1; cbn.
  - apply leb_spec in E1. exact E1.
  - destruct (ltb (quantized * currentPrice) threshold) eqn:E2; cbn.
    + apply Qlt_le_weak, one_unit_crosses.
    + apply ltb_false in E2. exact E2.
Qed.

Lemma smartAdjust_keeps_leverage (amount : Q) (leverage : xnum) :
  BuyTs.adjustedLeverage
    (BuyTs.smartAdjustOrderForMinNotionalFor config amount currentPrice
       leverage) = leverage.
Proof.
  unfold BuyTs.smartAdjustOrderForMinNotionalFor.
  destruct (leb _ _); [reflexivity|]. destruct (ltb _ _); reflexivity.
Qed.

Lemma smartAdjust_below_threshold (amount : Q) (leverage : xnum) :
  amount * currentPrice < threshold ->
  BuyTs.adjustedAmount
    (BuyTs.smartAdjustOrderForMinNotionalFor config amount currentPrice
       leverage)
  = if ltb (quantized * currentPrice) threshold
    then quantized + unit else quantized.
Proof.
  intros Hlt. unfold BuyTs.smartAdjustOrderForMinNotionalFor.
  fold threshold. fold quantized. fold unit.
  assert (E1 : leb threshold (amount * currentPrice) = false)
    by (apply leb_false; exact Hlt).
  rewrite E1. destruct (ltb _ _); reflexivity.
Qed.

End MinNotional.

Lemma configOf_lookup (binanceSymbol : string) (entry : Config) :
  BuyTs.SYMBOL_PRECISION !! binanceSymbol = Some entry ->
  BuyTs.configOf binanceSymbol = entry.
Proof. intros H. unfold BuyTs.configOf. rewrite H. reflexivity. Qed.

(** The first step of the sizing part never gives up on the minimum
    notional when the price is positive. *)
Lemma notionalStep_never_unachievable
    (symbol : string) (currentPrice amount : Q) (leverage : xnum) (n : Q) :
  0 < currentPrice ->
  BuyTs.notionalStep symbol (replaceSlash symbol) currentPrice amount leverage
  <> BuyTs.Rejected (CannotMeetMinNotional n).
Proof.
  intros Hp. unfold BuyTs.notionalStep.
  destruct (negb (BuyTs.valid _)); [|discriminate].
  destruct (BuyTs.SYMBOL_PRECISION !! replaceSlash symbol) as [entry|] eqn:E;
    [|discriminate].
  unfold BuyTs.smartAdjustOrderForMinNotional.
  rewrite (configOf_lookup _ _ E).
  pose proof (smartAdjust_meets_threshold entry currentPrice Hp amount leverage)
    as Hmeet.
  destruct (ltb _ (minNotional entry)) eqn:E2; [|discriminate].
  apply ltb_spec in E2. lra.
Qed.

(** C8.  For a positive price and any rule, the escalation amount - the
    truncation of minNotional / price, plus one minimal unit when that
    truncation still undershoots - has a notional of at least minNotional;
    [smartAdjustOrderForMinNotional] returns that amount for an undersized
    order, and the "Cannot meet minimum notional" exit of [buy] is never
    taken. *)
Theorem minNotional_escalation_suffices (config : Config) (currentPrice : Q) :
  0 < currentPrice ->
  let quantized :=
    BuyTs.adjustPrecisionFor config (minNotional config / currentPrice) in
  let escalated :=
    if ltb (quantized * currentPrice) (minNotional config)
    then quantized + pow10 (- quantity config)
    else quantized in
  minNotional config <= escalated * currentPrice
  /\ (forall amount leverage,
        amount * currentPrice < minNotional config ->
        BuyTs.adjustedAmount
          (BuyTs.smartAdjustOrderForMinNotionalFor config amount currentPrice
             leverage) = escalated)
  /\ (forall symbol amount leverage n,
        BuyTs.sizeOrder symbol amount leverage currentPrice
        <> BuyTs.Rejected (CannotMeetMinNotional n)).
Proof.
  intros Hp quantized escalated. repeat split.
  - subst escalated.
    destruct (ltb (quantized * currentPrice) (minNotional config)) eqn:E.
    + apply Qlt_le_weak. apply one_unit_crosses. exact Hp.
    + apply ltb_false in E. exact E.
  - intros amount leverage Hlt.
    apply smartAdjust_below_threshold; assumption.
  - intros symbol amount leverage n. unfold BuyTs.sizeOrder.
    pose proof (notionalStep_never_unachievable symbol currentPrice
                  (BuyTs.adjustPrecision amount (replaceSlash symbol))
                  (Fin leverage) n Hp) as H1.
    destruct (BuyTs.notionalStep _ _ _ _ _) as [e|e|a l];
      [discriminate | exact H1 |].
    unfold BuyTs.smallOrderStep.
    destruct (eqb a 0 || ltb a _).
    + destruct (xleb _ _ && xleb _ _); [|discriminate].
      destruct (negb (BuyTs.valid _));
        unfold BuyTs.finalChecks;
        (destruct (leb _ 0 || ltb _ _); [discriminate|]);
        (destruct (negb (BuyTs.valid _)); discriminate).
    + unfold BuyTs.finalChecks.
      destruct (leb _ 0 || ltb _ _); [discriminate|].
      destruct (negb (BuyTs.valid _)); discriminate.
Qed.

Lemma minNotional_escalation_suffices_witness :
  0 < 30000
  /\ 100 <= (BuyTs.adjustPrecision (100 / 30000) "BTCUSDT" + (1 # 1000)) * 30000.
Proof.
  split; [reflexivity|].
  exact (proj1 (minNotional_escalation_suffices
                  (BuyTs.configOf "BTCUSDT") 30000 eq_refl)).
Defined.

(** ** The position-mode cache *)

Section ModeCache.

Import PositionModeCache.

(** A filled cache answers at once: no call, no event, no change. *)
Lemma getPositionMode_cached (w : World) (mode : PositionMode) :
  getPositionMode w (Some mode) = mkOutcome (inr mode) (Some mode) [].
Proof. reflexivity. Qed.

(** Whatever the collaborators do, a value comes back and it is the value
    left in the cache. *)
Lemma getPositionMode_total (w : World) (cache : option PositionMode) :
  exists mode,
    value (getPositionMode w cache) = inr mode
    /\ cacheAfter (getPositionMode w cache) = Some mode.
Proof.
  destruct cache as [mode|]; [exists mode; split; reflexivity|].
  destruct w as [[e|[[[e1|b1]|] [[e2|b2]|]]] [e3|] [e4|[b4|]]];
    cbn; eauto.
Qed.

Lemma getPositionMode_failure (w : World) :
  resolutionFails w = true ->
  value (getPositionMode w None) = inr ONE_WAY
  /\ cacheAfter (getPositionMode w None) = Some ONE_WAY.
Proof.
  destruct w as [[e|[[[e1|b1]|] [[e2|b2]|]]] [e3|] [e4|[b4|]]];
    cbn; intros H; try discriminate; split; reflexivity.
Qed.

(** When the resolution does not fail, the answer is the exchange's. *)
Lemma getPositionMode_success (w : World) :
  resolutionFails w = false ->
  exists dual : bool,
    value (getPositionMode w None)
    = inr (if dual then DUAL_SIDE else ONE_WAY)
    /\ cacheAfter (getPositionMode w None)
       = Some (if dual then DUAL_SIDE else ONE_WAY)
    /\ (exists client,
          getBinanceInstance w = inr client
          /\ (positionMode client = Some (inr dual)
              \/ getPositionModeFn client = Some (inr dual)
              \/ rest w = inr (Some dual))).
Proof.
  destruct w as [[e|[[[e1|b1]|] [[e2|b2]|]]] [e3|] [e4|[b4|]]];
    cbn; intros H; try discriminate;
    eexists; (split; [reflexivity|]); (split; [reflexivity|]);
    eexists; (split; [reflexivity|]); cbn; auto.
Qed.

(** At most two routes are asked in one call. *)
Lemma getPositionMode_queries (w : World) (cache : option PositionMode) :
  (length (trace (getPositionMode w cache)) <= 2)%nat.
Proof.
  destruct cache as [mode|]; [cbn; lia|].
  destruct w as [[e|[[[e1|b1]|] [[e2|b2]|]]] [e3|] [e4|[b4|]]];
    cbn; lia.
Qed.

End ModeCache.

(** C10.  [getPositionMode] never throws; on each of its failure paths it
    returns ONE_WAY and leaves ONE_WAY in the cache, and from then on every
    call, whatever the exchange would answer, returns ONE_WAY without a
    single query. *)
Theorem getPositionMode_failure_is_cached (w : PositionModeCache.World) :
  PositionModeCache.resolutionFails w = true ->
  (forall w0 cache, exists mode,
      value (PositionModeCache.getPositionMode w0 cache) = inr mode)
  /\ value (PositionModeCache.getPositionMode w None) = inr ONE_WAY
  /\ cacheAfter (PositionModeCache.getPositionMode w None) = Some ONE_WAY
  /\ (forall later,
        PositionModeCache.getPositionMode later
          (cacheAfter (PositionModeCache.getPositionMode w None))
        = mkOutcome (inr ONE_WAY) (Some ONE_WAY) []).
Proof.
  intros Hfail.
  destruct (getPositionMode_failure w Hfail) as [Hv Hc].
  repeat split.
  - intros w0 cache.
    destruct (getPositionMode_total w0 cache) as [mode [H _]]. eauto.
  - exact Hv.
  - exact Hc.
  - intros later. rewrite Hc. apply getPositionMode_cached.
Qed.

Lemma getPositionMode_failure_is_cached_witness :
  let w := PositionModeCache.mkWorld
             (inl (mkError "ECONNREFUSED" None)) None (inr (Some true)) in
  PositionModeCache.resolutionFails w = true
  /\ cacheAfter (PositionModeCache.getPositionMode w None) = Some ONE_WAY.
Proof.
  split; [reflexivity|].
  exact (proj1 (proj2 (proj2 (getPositionMode_failure_is_cached
           (PositionModeCache.mkWorld
              (inl (mkError "ECONNREFUSED" None)) None (inr (Some true)))
           eq_refl)))).
Defined.

(** ** The submission loop of [buy] *)

Section BuyLoop.

Variable w : Exchange.
Variable binanceSymbol : string.
Variable orderType : OrderType.
Variable adjustedAmount : Q.
Variable orderParams : OrderParams.

Let readjusted : OrderParams :=
  mkParams
    (BuyTs.adjustPrecision
       (adjustedAmount + pow10 (- BuyTs.quantityOr3 binanceSymbol))
       binanceSymbol)
    (p_positionSide orderParams) (p_reduceOnly orderParams)
    (p_price orderParams) (p_timeInForce orderParams).

Let loop := BuyTs.orderLoop w binanceSymbol orderType [1; 2; 3]%nat
              adjustedAmount orderParams None.

Local Opaque BuyTs.adjustPrecision pow10 Qplus includes.

(** The loop leaves the cache alone and asks no mode question; the first
    order carries the prepared parameters and a later one either those or the
    re-quantized amount; the beats are those of one, two or three attempts;
    the outcome is the answer to the last attempt, and an error only comes
    out of the third. *)
Lemma buy_orderLoop_run (cache : option PositionMode) :
  cacheAfter (loop cache) = cache
  /\ queriesOf (trace (loop cache)) = []
  /\ Forall (fun sent => sent = orderParams \/ sent = readjusted)
       (ordersOf (trace (loop cache)))
  /\ (exists rest, ordersOf (trace (loop cache)) = orderParams :: rest)
  /\ (exists n sent,
        (1 <= n <= 3)%nat
        /\ beats (trace (loop cache)) = backoff 3000 n
        /\ length (ordersOf (trace (loop cache))) = n
        /\ last (ordersOf (trace (loop cache))) = Some sent
        /\ value (loop cache) = newOrder w n sent
        /\ (forall e, value (loop cache) = inl e -> n = 3%nat)).
Proof.
  subst loop. cbn.
  destruct (newOrder w 1%nat orderParams) as [e1|d1] eqn:E1; cbn.
  2:{ repeat split; eauto.
      exists 1%nat, orderParams. repeat split; auto; discriminate. }
  rewrite ?andb_true_r.
  destruct (includes _ _) eqn:Ei; cbn; rewrite ?andb_false_r.
  - fold readjusted.
    destruct (newOrder w 2%nat readjusted) as [e2|d2] eqn:E2; cbn;
      rewrite ?andb_false_r.
    2:{ repeat split; eauto.
        exists 2%nat, readjusted. repeat split; auto; discriminate. }
    destruct (newOrder w 3%nat readjusted) as [e3|d3] eqn:E3; cbn;
      (repeat split; eauto 10);
      exists 3%nat, readjusted; repeat split; auto.
  - destruct (newOrder w 2%nat orderParams) as [e2|d2] eqn:E2; cbn;
      rewrite ?andb_false_r.
    2:{ repeat split; eauto.
        exists 2%nat, orderParams. repeat split; auto; discriminate. }
    destruct (newOrder w 3%nat orderParams) as [e3|d3] eqn:E3; cbn;
      (repeat split; eauto 10);
      exists 3%nat, orderParams; repeat split; auto.
Qed.

End BuyLoop.

(** ** [buy] as a whole *)

Lemma includes_empty (t : string) : includes "" (String "/" t) = false.
Proof. reflexivity. Qed.

Section BuyRun.

Variable params : BuyTs.BuyParams.
Variable w : Exchange.
Variable cache : option PositionMode.

Let binanceSymbol := replaceSlash (BuyTs.symbol params).
Let currentPrice := BuyTs.resolvePrice w (BuyTs.price params) binanceSymbol.
Let sizing :=
  BuyTs.sizeOrder (BuyTs.symbol params) (BuyTs.amount params)
    (default 10 (BuyTs.leverage params)) currentPrice.
Let orderType := if given (BuyTs.price params) then LIMIT else MARKET.

Local Opaque BuyTs.orderLoop BuyTs.sizeOrder
  PositionModeCache.getPositionMode BuyTs.resolvePrice includes.

(** Either [buy] stops before any traffic with a failed result, or the
    request passed validation and sizing, the mode was resolved, and the
    outcome is that of the submission loop. *)
Lemma buy_run :
  (exists e,
      value (BuyTs.buy params w cache) = inr (failure e)
      /\ cacheAfter (BuyTs.buy params w cache) = cache
      /\ trace (BuyTs.buy params w cache) = []
      /\ (forall e', sizing = BuyTs.Rejected e' ->
            includes (BuyTs.symbol params) "/" = true ->
            0 < BuyTs.amount params ->
            1 <= default 10 (BuyTs.leverage params) <= 30 ->
            ensureTimeSync w = None -> getBinanceInstance w = None ->
            e = e'))
  \/ (exists adjustedAmount effectiveLeverage mode cache1 queries,
        0 < BuyTs.amount params
        /\ 1 <= default 10 (BuyTs.leverage params) <= 30
        /\ sizing = BuyTs.Sized adjustedAmount effectiveLeverage
        /\ PositionModeCache.getPositionMode (modeWorld w) cache
           = mkOutcome (inr mode) cache1 queries
        /\ let loop :=
             BuyTs.orderLoop w binanceSymbol orderType [1; 2; 3]%nat
               adjustedAmount
               (BuyTs.prepareOrderParams (BuyTs.price params)
                  adjustedAmount mode) None cache1 in
           BuyTs.buy params w cache
           = mkOutcome
               (match value loop with
                | inr data => inr (filled data)
                | inl e => inr (failure (BuyTs.errorText e))
                end)
               (cacheAfter loop) (queries ++ trace loop)).
Proof.
  unfold BuyTs.buy.
  destruct (negb (truthy (BuyTs.symbol params))
            || negb (includes (BuyTs.symbol params) "/")) eqn:Esym.
  { left. eexists. repeat split.
    intros e' _ Hinc. apply orb_true_iff in Esym.
    destruct Esym as [Ht|Hi].
    - destruct (BuyTs.symbol params); [|discriminate].
      rewrite includes_empty in Hinc. discriminate.
    - rewrite Hinc in Hi. discriminate. }
  destruct (leb (BuyTs.amount params) 0) eqn:Eamt.
  { left. eexists. repeat split.
    intros e' _ _ Hpos. apply leb_spec in Eamt. lra. }
  destruct (ltb (default 10 (BuyTs.leverage params)) 1
            || ltb 30 (default 10 (BuyTs.leverage params))) eqn:Elev.
  { left. eexists. repeat split.
    intros e' _ _ _ [H1 H30]. apply orb_true_iff in Elev.
    destruct Elev as [H|H]; apply ltb_spec in H; lra. }
  apply leb_false in Eamt. apply orb_false_iff in Elev.
  destruct Elev as [El1 El2]. apply ltb_false in El1, El2.
  destruct (ensureTimeSync w) as [e|] eqn:Esync.
  { left. eexists. cbn. repeat split. intros; discriminate. }
  destruct (getBinanceInstance w) as [e|] eqn:Einst.
  { left. eexists. cbn. repeat split. intros; discriminate. }
  fold binanceSymbol. fold currentPrice. fold sizing.
  destruct sizing as [e|e|a lev] eqn:Esize.
  { left. eexists. cbn. repeat split. intros; discriminate. }
  { left. exists e. cbn. repeat split. intros e' He'. congruence. }
  right.
  destruct (getPositionMode_total (modeWorld w) cache) as [mode [Hv Hc]].
  destruct (PositionModeCache.getPositionMode (modeWorld w) cache)
    as [v cache1 queries] eqn:Emode.
  cbn in Hv, Hc. subst v.
  exists a, lev, mode, cache1, queries.
  repeat split; try assumption.
  cbn. fold orderType.
  destruct (changeInitialLeverage w) as [e|];
    unfold catch, bind, awaitVoid, ret; cbn; rewrite Emode; cbn;
    destruct (BuyTs.orderLoop w binanceSymbol orderType _ a _ None cache1)
      as [[e'|data] c2 t2]; cbn; rewrite ?app_nil_r; reflexivity.
Qed.

End BuyRun.

(** ** The sizing part of [buy] *)

Section BuySizing.

Lemma buy_table_minNotional :
  map_Forall (fun _ entry => minNotional entry = 100) BuyTs.SYMBOL_PRECISION.
Proof.
  unfold BuyTs.SYMBOL_PRECISION.
  repeat (apply map_Forall_insert_2; [reflexivity|]).
  apply map_Forall_empty.
Qed.

Lemma buy_minNotional (binanceSymbol : string) :
  minNotional (BuyTs.configOf binanceSymbol) = 100.
Proof.
  unfold BuyTs.configOf.
  destruct (BuyTs.SYMBOL_PRECISION !! binanceSymbol) as [entry|] eqn:E; cbn.
  - exact (buy_table_minNotional _ _ E).
  - reflexivity.
Qed.

Lemma buy_quantityOr3_cases (binanceSymbol : string) :
  BuyTs.quantityOr3 binanceSymbol = quantity (BuyTs.configOf binanceSymbol)
  \/ (quantity (BuyTs.configOf binanceSymbol) = 0%Z
      /\ BuyTs.quantityOr3 binanceSymbol = 3%Z).
Proof.
  unfold BuyTs.quantityOr3, BuyTs.configOf.
  destruct (BuyTs.SYMBOL_PRECISION !! binanceSymbol) as [entry|]; cbn.
  - destruct (Z.eqb_spec (quantity entry) 0); [right | left]; auto.
  - left. reflexivity.
Qed.

Lemma buy_minAmount_le_unit (binanceSymbol : string) :
  pow10 (- BuyTs.quantityOr3 binanceSymbol)
  <= pow10 (- quantity (BuyTs.configOf binanceSymbol)).
Proof.
  destruct (buy_quantityOr3_cases binanceSymbol) as [->|[-> ->]].
  - apply Qle_refl.
  - vm_compute. discriminate.
Qed.

Variable config : Config.

Lemma adjustPrecisionFor_onGrid (x : Q) :
  onGrid config (BuyTs.adjustPrecisionFor config x).
Proof.
  exists (Qfloor (x * pow10 (quantity config))). reflexivity.
Qed.

Lemma onGrid_plus_unit (a : Q) :
  onGrid config a -> onGrid config (a + pow10 (- quantity config)).
Proof.
  intros [n Hn]. exists (n + 1)%Z.
  rewrite Hn, inject_Z_plus, pow10_opp.
  pose proof (pow10_pos (quantity config)).
  field. lra.
Qed.

Lemma onGrid_pos_ge_unit (a : Q) :
  onGrid config a -> 0 < a -> pow10 (- quantity config) <= a.
Proof.
  intros [n Hn] Hpos. rewrite Hn in *.
  pose proof (pow10_pos (quantity config)) as Hf.
  assert (Hn0 : 0 < inject_Z n).
  { destruct (Qlt_le_dec 0 (inject_Z n)) as [H|H]; [exact H|].
    exfalso.
    assert (inject_Z n / pow10 (quantity config) <= 0).
    { apply Qle_shift_div_r; [exact Hf | lra]. }
    lra. }
  change 0 with (inject_Z 0) in Hn0. rewrite <- Zlt_Qlt in Hn0.
  assert (H1 : 1 <= inject_Z n).
  { change 1 with (inject_Z 1). rewrite <- Zle_Qle. lia. }
  rewrite pow10_opp.
  apply Qle_shift_div_l; [exact Hf|].
  assert (Hinv : / pow10 (quantity config) * pow10 (quantity config) == 1)
    by (field; lra).
  rewrite Hinv. exact H1.
Qed.

(** Quantizing an amount of the grid plus one unit gives the next amount of
    the grid; plus a thousandth on the integer grid, the amount itself. *)
Lemma requantize_next (a : Q) :
  a < BuyTs.adjustPrecisionFor config (a + pow10 (- quantity config)).
Proof.
  unfold BuyTs.adjustPrecisionFor.
  pose proof (truncate_gt (quantity config) (a + pow10 (- quantity config))).
  lra.
Qed.

Lemma requantize_integer (a : Q) :
  quantity config = 0%Z -> onGrid config a ->
  BuyTs.adjustPrecisionFor config (a + pow10 (- 3)) == a.
Proof.
  intros Hq [n Hn]. unfold BuyTs.adjustPrecisionFor.
  rewrite Hq in *. change (pow10 0) with 1 in *.
  assert (Ha : a == inject_Z n) by (rewrite Hn; field).
  assert (Hfl : Qfloor ((a + pow10 (-3)) * 1) = n).
  { apply Z.le_antisymm.
    - assert (H : (Qfloor ((a + pow10 (-3)) * 1) < n + 1)%Z).
      { rewrite Zlt_Qlt.
        apply Qle_lt_trans with ((a + pow10 (-3)) * 1);
          [apply Qfloor_le|].
        rewrite inject_Z_plus, Ha.
        assert (pow10 (-3) < 1) by (vm_compute; reflexivity).
        change (inject_Z 1) with 1. lra. }
      lia.
    - rewrite <- (Qfloor_Z n). apply Qfloor_resp_le.
      rewrite Ha. pose proof (pow10_pos (-3)). lra. }
  unfold floor. rewrite Hfl, Ha. field.
Qed.

End BuySizing.

Section BuySized.

Variable symbol : string.
Variable currentPrice : Q.

Let binanceSymbol := replaceSlash symbol.
Let config := BuyTs.configOf binanceSymbol.

Lemma smartAdjust_onGrid (amount : Q) (leverage : xnum) :
  amount * currentPrice < minNotional config ->
  onGrid config
    (BuyTs.adjustedAmount
       (BuyTs.smartAdjustOrderForMinNotionalFor config amount currentPrice
          leverage)).
Proof.
  intros Hlt. rewrite smartAdjust_below_threshold by exact Hlt.
  destruct (ltb _ _).
  - apply onGrid_plus_unit, adjustPrecisionFor_onGrid.
  - apply adjustPrecisionFor_onGrid.
Qed.

Lemma notionalStep_sized (a0 a1 : Q) (leverage l1 : xnum) :
  onGrid config a0 ->
  BuyTs.notionalStep symbol binanceSymbol currentPrice a0 leverage
  = BuyTs.Sized a1 l1 ->
  onGrid config a1 /\ minNotional config <= a1 * currentPrice /\ l1 = leverage.
Proof.
  intros Hgrid. unfold BuyTs.notionalStep, BuyTs.checkMinNotional,
    BuyTs.checkMinNotionalFor, BuyTs.smartAdjustOrderForMinNotional.
  fold binanceSymbol. fold config.
  destruct (ltb (a0 * currentPrice) (minNotional config)) eqn:E; cbn.
  - apply ltb_spec in E.
    destruct (BuyTs.SYMBOL_PRECISION !! binanceSymbol) as [entry|] eqn:El;
      [|discriminate].
    assert (Hentry : entry = config) by (symmetry; apply configOf_lookup, El).
    subst entry.
    destruct (ltb _ (minNotional config)) eqn:E2; [discriminate|].
    intros H. injection H as <- <-. apply ltb_false in E2.
    repeat split.
    + apply smartAdjust_onGrid. exact E.
    + exact E2.
    + apply smartAdjust_keeps_leverage.
  - apply ltb_false in E. intros H. injection H as <- <-. auto.
Qed.

Lemma smallOrderStep_large (minAmount a1 : Q) (l1 : xnum) :
  0 < a1 -> minAmount <= a1 ->
  BuyTs.smallOrderStep symbol binanceSymbol currentPrice minAmount a1 l1
  = BuyTs.Sized a1 l1.
Proof.
  intros Hpos Hge. unfold BuyTs.smallOrderStep.
  assert (E1 : eqb a1 0 = false) by (apply eqb_false; lra).
  assert (E2 : ltb a1 minAmount = false) by (apply ltb_false; exact Hge).
  rewrite E1, E2. reflexivity.
Qed.

Lemma finalChecks_sized (minAmount a2 a : Q) (l2 l : xnum) :
  BuyTs.finalChecks binanceSymbol currentPrice minAmount a2 l2
  = BuyTs.Sized a l ->
  a = a2 /\ l = l2 /\ 0 < a /\ minAmount <= a
  /\ minNotional config <= a * currentPrice.
Proof.
  unfold BuyTs.finalChecks, BuyTs.checkMinNotional, BuyTs.checkMinNotionalFor.
  fold config.
  destruct (leb a2 0) eqn:E1; [discriminate|].
  destruct (ltb a2 minAmount) eqn:E2; [discriminate|]. cbn.
  destruct (ltb (a2 * currentPrice) (minNotional config)) eqn:E3;
    [discriminate|]. cbn.
  intros H. injection H as <- <-.
  apply leb_false in E1. apply ltb_false in E2, E3. auto.
Qed.

(** An order that leaves the sizing part was sized at a positive price, has
    a notional of at least the minimum, is at least the minimal amount, sits
    on the grid, and keeps the requested leverage. *)
Lemma sizeOrder_sized (amount leverage a : Q) (l : xnum) :
  BuyTs.sizeOrder symbol amount leverage currentPrice = BuyTs.Sized a l ->
  0 < currentPrice
  /\ minNotional config <= a * currentPrice
  /\ pow10 (- BuyTs.quantityOr3 binanceSymbol) <= a
  /\ 0 < a
  /\ onGrid config a
  /\ l = Fin leverage.
Proof.
  unfold BuyTs.sizeOrder. fold binanceSymbol.
  destruct (BuyTs.notionalStep symbol binanceSymbol currentPrice
              (BuyTs.adjustPrecision amount binanceSymbol) (Fin leverage))
    as [e|e|a1 l1] eqn:E1; try discriminate.
  apply notionalStep_sized in E1; [|apply adjustPrecisionFor_onGrid].
  destruct E1 as [Hgrid1 [Hnot1 ->]].
  destruct (BuyTs.smallOrderStep symbol binanceSymbol currentPrice _ a1 _)
    as [e|e|a2 l2] eqn:E2; try discriminate.
  intros E3. apply finalChecks_sized in E3.
  destruct E3 as [-> [-> [Hpos [Hmin Hnot]]]].
  assert (HmN : minNotional config = 100) by apply buy_minNotional.
  rewrite HmN in *.
  assert (Hp : 0 < currentPrice).
  { destruct (Qlt_le_dec 0 currentPrice) as [H|H]; [exact H|].
    exfalso. nra. }
  assert (Hpos1 : 0 < a1).
  { destruct (Qlt_le_dec 0 a1) as [H|H]; [exact H|].
    exfalso. nra. }
  assert (Hge1 : pow10 (- BuyTs.quantityOr3 binanceSymbol) <= a1).
  { eapply Qle_trans; [apply buy_minAmount_le_unit|].
    apply onGrid_pos_ge_unit; assumption. }
  rewrite smallOrderStep_large in E2 by assumption.
  injection E2 as <- <-.
  repeat split; assumption.
Qed.

(** The amount re-quantized after a precision error is not below the amount
    it replaces. *)
Lemma requantized_not_below (a : Q) :
  onGrid config a ->
  a <= BuyTs.adjustPrecision
         (a + pow10 (- BuyTs.quantityOr3 binanceSymbol)) binanceSymbol.
Proof.
  intros Hgrid. unfold BuyTs.adjustPrecision. fold config.
  destruct (buy_quantityOr3_cases binanceSymbol) as [->|[Hq ->]].
  - apply Qlt_le_weak, requantize_next.
  - rewrite requantize_integer by assumption. apply Qle_refl.
Qed.

End BuySized.

(** ** Traces *)

Lemma ordersOf_app (t1 t2 : list Event) :
  ordersOf (t1 ++ t2) = ordersOf t1 ++ ordersOf t2.
Proof.
  induction t1 as [|ev t1 IH]; [reflexivity|].
  destruct ev; cbn; rewrite IH; reflexivity.
Qed.


Lemma queriesOf_app (t1 t2 : list Event) :
  queriesOf (t1 ++ t2) = queriesOf t1 ++ queriesOf t2.
Proof.
  induction t1 as [|ev t1 IH]; [reflexivity|].
  destruct ev; cbn; rewrite IH; reflexivity.
Qed.

(** Resolving the mode sends no order and never sleeps. *)
Lemma getPositionMode_quiet (w : PositionModeCache.World)
    (cache : option PositionMode) :
  ordersOf (trace (PositionModeCache.getPositionMode w cache)) = []
  /\ beats (trace (PositionModeCache.getPositionMode w cache)) = [].
Proof.
  destruct cache as [mode|]; [split; reflexivity|].
  destruct w as [[e|[[[e1|b1]|] [[e2|b2]|]]] [e3|] [e4|[b4|]]];
    cbn; split; reflexivity.
Qed.

(** ** Submitted buy orders meet the minimum notional *)

(** C3, as amended.  Every order [buy] sends, on the first attempt or on a
    retry, has a quantity whose notional at the effective price is at least
    the rule's minNotional; a request whose sizing does not end with an
    amount is answered with success = false and sends nothing.  The
    effective price is taken non-zero, the embedding's divisions being exact.
    [shortSell] is not covered: it has no such check. *)
Theorem buy_orders_meet_minNotional
    (params : BuyTs.BuyParams) (w : Exchange) (cache : option PositionMode) :
  let binanceSymbol := replaceSlash (BuyTs.symbol params) in
  let currentPrice :=
    BuyTs.resolvePrice w (BuyTs.price params) binanceSymbol in
  ~ currentPrice == 0 ->
  Forall (fun sent =>
            minNotional (BuyTs.configOf binanceSymbol)
            <= p_quantity sent * currentPrice)
    (ordersOf (trace (BuyTs.buy params w cache)))
  /\ ((forall a l,
         BuyTs.sizeOrder (BuyTs.symbol params) (BuyTs.amount params)
           (default 10 (BuyTs.leverage params)) currentPrice
         <> BuyTs.Sized a l) ->
      trace (BuyTs.buy params w cache) = []
      /\ exists e, value (BuyTs.buy params w cache) = inr (failure e)).
Proof.
  intros binanceSymbol currentPrice _.
  destruct (buy_run params w cache)
    as [[e [Hv [_ [Ht _]]]]
       |[a [l [mode [cache1 [queries [_ [_ [Hs [Hm Hrun]]]]]]]]]].
  - rewrite Ht, Hv. split; [constructor|]. intros _. split; eauto.
  - fold binanceSymbol in Hs, Hrun. fold currentPrice in Hs.
    split; [|intros Hno; exfalso; exact (Hno _ _ Hs)].
    cbv zeta in Hrun. rewrite Hrun. cbn [trace].
    rewrite ordersOf_app.
    pose proof (getPositionMode_quiet (modeWorld w) cache) as [Hq _].
    rewrite Hm in Hq. cbn [trace] in Hq. rewrite Hq. cbn [app].
    apply sizeOrder_sized in Hs.
    fold binanceSymbol in Hs.
    destruct Hs as [Hp [Hnot [_ [Hpos [Hgrid _]]]]].
    pose proof (buy_orderLoop_run w binanceSymbol
                  (if given (BuyTs.price params) then LIMIT else MARKET) a
                  (BuyTs.prepareOrderParams (BuyTs.price params) a mode)
                  cache1) as [_ [_ [Hall _]]].
    eapply Forall_impl; [exact Hall|].
    intros sent [->| ->]; cbn [p_quantity BuyTs.prepareOrderParams].
    + exact Hnot.
    + pose proof (requantized_not_below (BuyTs.symbol params) a Hgrid) as Hge.
      fold binanceSymbol in Hge.
      eapply Qle_trans; [exact Hnot|].
      apply Qmult_le_compat_r; [exact Hge | lra].
Qed.

Lemma buy_orders_meet_minNotional_witness :
  ~ 50000 == 0
  /\ Forall (fun sent => 100 <= p_quantity sent * 50000)
       (ordersOf (trace (BuyTs.buy Samples.smallBuy Samples.calm None))).
Proof.
  assert (H : ~ 50000 == 0) by (intros H; vm_compute in H; discriminate).
  split; [exact H|].
  exact (proj1 (buy_orders_meet_minNotional
                  Samples.smallBuy Samples.calm None H)).
Defined.

(** C3, counterexample.  A limit short of 0.001 BTC at 50000 is worth 50,
    half of minNotional, and [shortSell] sends it. *)
Lemma shortSell_sends_below_minNotional :
  exists sent,
    ordersOf (trace (SellTs.shortSell Samples.smallShort Samples.calm None))
    = [sent]
    /\ p_quantity sent * 50000 < minNotional (SellTs.configOf "BTCUSDT")
    /\ p_price sent = Some 50000.
Proof.
  eexists. split; [vm_compute; reflexivity|].
  split; [vm_compute; reflexivity | reflexivity].
Qed.

(** ** The submission loop of [closePosition] and [shortSell] *)

Section SellLoop.

Variable w : Exchange.
Variable binanceSymbol : string.
Variable side : Side.
Variable orderType : OrderType.
Variable orderParams : OrderParams.

Let loop := SellTs.orderLoop w binanceSymbol side orderType [1; 2; 3]%nat
              orderParams.

Lemma sell_orderLoop_run (cache : option PositionMode) :
  cacheAfter (loop cache) = cache
  /\ queriesOf (trace (loop cache)) = []
  /\ Forall (fun sent => sent = orderParams) (ordersOf (trace (loop cache)))
  /\ (exists n,
        (1 <= n <= 3)%nat
        /\ beats (trace (loop cache)) = backoff 2000 n
        /\ length (ordersOf (trace (loop cache))) = n
        /\ last (ordersOf (trace (loop cache))) = Some orderParams
        /\ value (loop cache) = newOrder w n orderParams
        /\ (forall e, value (loop cache) = inl e -> n = 3%nat)).
Proof.
  subst loop. cbn.
  destruct (newOrder w 1%nat orderParams) as [e1|d1] eqn:E1; cbn.
  2:{ repeat split; eauto.
      exists 1%nat. repeat split; auto; discriminate. }
  destruct (newOrder w 2%nat orderParams) as [e2|d2] eqn:E2; cbn.
  2:{ repeat split; eauto.
      exists 2%nat. repeat split; auto; discriminate. }
  destruct (newOrder w 3%nat orderParams) as [e3|d3] eqn:E3; cbn;
    (repeat split; eauto 10);
    exists 3%nat; repeat split; auto.
Qed.

End SellLoop.

(** ** [closePosition] and [shortSell] as a whole *)

(** An early return of the resolution step is a failed result. *)
Lemma resolveClose_early (w : Exchange) (symbol binanceSymbol : string)
    (percentage : Q) (amount : option Q) (r : OrderResult) :
  SellTs.resolveClose w symbol binanceSymbol percentage amount
  = SellTs.EarlyReturn r ->
  exists e, r = failure e.
Proof.
  unfold SellTs.resolveClose.
  destruct (negb (given amount)); [|discriminate].
  destruct (fetchPositions w) as [pe|positions];
    [intros H; injection H as <-; eauto|].
  destruct (find _ positions) as [position|];
    [|intros H; injection H as <-; eauto].
  destruct (eqb (contracts position) 0);
    [intros H; injection H as <-; eauto | discriminate].
Qed.

Section CloseRun.

Variable params : SellTs.ClosePositionParams.
Variable w : Exchange.
Variable cache : option PositionMode.

Let binanceSymbol := replaceSlash (SellTs.symbol params).
Let orderType := if given (SellTs.price params) then LIMIT else MARKET.

Local Opaque SellTs.orderLoop SellTs.resolveClose SellTs.adjustPrecision
  PositionModeCache.getPositionMode includes pow10.

(** Either [closePosition] stops before any traffic with a failed result, or
    an amount was resolved and quantized, the mode was resolved, and the
    outcome is that of the submission loop. *)
Lemma closePosition_run :
  (exists e,
      value (SellTs.closePosition params w cache) = inr (failure e)
      /\ cacheAfter (SellTs.closePosition params w cache) = cache
      /\ trace (SellTs.closePosition params w cache) = [])
  \/ (exists closeAmount positionSide positionSize mode cache1 queries,
        0 < default 100 (SellTs.percentage params) <= 100
        /\ SellTs.resolveClose w (SellTs.symbol params) binanceSymbol
             (default 100 (SellTs.percentage params)) (SellTs.amount params)
           = SellTs.Resolved closeAmount positionSide positionSize
        /\ 0 < closeAmount
        /\ PositionModeCache.getPositionMode (modeWorld w) cache
           = mkOutcome (inr mode) cache1 queries
        /\ let adjustedAmount :=
             SellTs.adjustPrecision closeAmount binanceSymbol in
           let finalAmount :=
             if ltb 0 positionSize && ltb positionSize adjustedAmount
             then SellTs.adjustPrecision positionSize binanceSymbol
             else adjustedAmount in
           let loop :=
             SellTs.orderLoop w binanceSymbol
               (match positionSide with LONG => SELL | SHORT => BUY end)
               orderType [1; 2; 3]%nat
               (SellTs.closeOrderParams (SellTs.price params) finalAmount
                  positionSide mode) cache1 in
           pow10 (- SellTs.quantityOr3 binanceSymbol) <= adjustedAmount
           /\ SellTs.closePosition params w cache
              = mkOutcome
                  (match value loop with
                   | inr data => inr (filled data)
                   | inl e =>
                       inr (failure
                              (SellTs.errorText "Unknown error during close" e))
                   end)
                  (cacheAfter loop) (queries ++ trace loop)).
Proof.
  unfold SellTs.closePosition.
  destruct (negb (truthy (SellTs.symbol params))
            || negb (includes (SellTs.symbol params) "/")) eqn:Esym.
  { left. eexists. repeat split. }
  destruct (leb (default 100 (SellTs.percentage params)) 0
            || ltb 100 (default 100 (SellTs.percentage params))) eqn:Epct.
  { left. eexists. repeat split. }
  apply orb_false_iff in Epct. destruct Epct as [Ep1 Ep2].
  apply leb_false in Ep1. apply ltb_false in Ep2.
  destruct (ensureTimeSync w) as [e|] eqn:Esync.
  { left. eexists. cbn. repeat split. }
  destruct (getBinanceInstance w) as [e|] eqn:Einst.
  { left. eexists. cbn. repeat split. }
  fold binanceSymbol.
  destruct (SellTs.resolveClose w (SellTs.symbol params) binanceSymbol
              (default 100 (SellTs.percentage params)) (SellTs.amount params))
    as [r|closeAmount positionSide positionSize] eqn:Eres.
  { left.
    destruct (resolveClose_early _ _ _ _ _ _ Eres) as [e ->].
    exists e. cbn. repeat split. }
  destruct (leb closeAmount 0) eqn:Eamt.
  { left. eexists. cbn. repeat split. }
  destruct (leb (SellTs.adjustPrecision closeAmount binanceSymbol) 0
            || ltb (SellTs.adjustPrecision closeAmount binanceSymbol)
                 (pow10 (- SellTs.quantityOr3 binanceSymbol))) eqn:Emin.
  { left. eexists. cbn. repeat split. }
  right.
  apply leb_false in Eamt. apply orb_false_iff in Emin.
  destruct Emin as [_ Emin]. apply ltb_false in Emin.
  destruct (getPositionMode_total (modeWorld w) cache) as [mode [Hv Hc]].
  destruct (PositionModeCache.getPositionMode (modeWorld w) cache)
    as [v cache1 queries] eqn:Emode.
  cbn in Hv, Hc. subst v.
  exists closeAmount, positionSide, positionSize, mode, cache1, queries.
  repeat split; try assumption.
  unfold catch, bind, awaitVoid, ret; cbn.
  rewrite Emode. cbn. fold orderType.
  destruct (SellTs.orderLoop w binanceSymbol _ orderType _ _ cache1)
    as [[e'|data] c2 t2]; cbn; rewrite ?app_nil_r; reflexivity.
Qed.

End CloseRun.

Section ShortRun.

Variable params : SellTs.ShortSellParams.
Variable w : Exchange.
Variable cache : option PositionMode.

Let binanceSymbol := replaceSlash (SellTs.s_symbol params).
Let orderType := if given (SellTs.s_price params) then LIMIT else MARKET.

Local Opaque SellTs.orderLoop SellTs.adjustPrecision
  PositionModeCache.getPositionMode includes pow10.

Lemma shortSell_run :
  (exists e,
      value (SellTs.shortSell params w cache) = inr (failure e)
      /\ cacheAfter (SellTs.shortSell params w cache) = cache
      /\ trace (SellTs.shortSell params w cache) = [])
  \/ (exists mode cache1 queries,
        PositionModeCache.getPositionMode (modeWorld w) cache
        = mkOutcome (inr mode) cache1 queries
        /\ let loop :=
             SellTs.orderLoop w binanceSymbol SELL orderType [1; 2; 3]%nat
               (SellTs.shortOrderParams (SellTs.s_price params)
                  (SellTs.adjustPrecision (SellTs.s_amount params)
                     binanceSymbol) mode) cache1 in
           SellTs.shortSell params w cache
           = mkOutcome
               (match value loop with
                | inr data => inr (filled data)
                | inl e =>
                    inr (failure
                           (SellTs.errorText
                              "Unknown error during short sell" e))
                end)
               (cacheAfter loop) (queries ++ trace loop)).
Proof.
  unfold SellTs.shortSell.
  destruct (negb (truthy (SellTs.s_symbol params))
            || negb (includes (SellTs.s_symbol params) "/")) eqn:Esym.
  { left. eexists. repeat split. }
  destruct (leb (SellTs.s_amount params) 0) eqn:Eamt.
  { left. eexists. repeat split. }
  destruct (ensureTimeSync w) as [e|] eqn:Esync.
  { left. eexists. cbn. repeat split. }
  destruct (getBinanceInstance w) as [e|] eqn:Einst.
  { left. eexists. cbn. repeat split. }
  fold binanceSymbol.
  destruct (leb (SellTs.adjustPrecision (SellTs.s_amount params)
                   binanceSymbol) 0
            || ltb (SellTs.adjustPrecision (SellTs.s_amount params)
                      binanceSymbol)
                 (pow10 (- SellTs.quantityOr3 binanceSymbol))) eqn:Emin.
  { left. eexists. cbn. repeat split. }
  right.
  destruct (getPositionMode_total (modeWorld w) cache) as [mode [Hv Hc]].
  destruct (PositionModeCache.getPositionMode (modeWorld w) cache)
    as [v cache1 queries] eqn:Emode.
  cbn in Hv, Hc. subst v.
  exists mode, cache1, queries.
  split; [reflexivity|].
  unfold catch, bind, awaitVoid, ret; cbn.
  rewrite Emode. cbn. fold orderType.
  destruct (SellTs.orderLoop w binanceSymbol SELL orderType _ _ cache1)
    as [[e'|data] c2 t2]; cbn; rewrite ?app_nil_r; reflexivity.
Qed.

End ShortRun.

(** ** Bounded retry *)

Section Retry.

Variable w : Exchange.



End Retry.


(** Spec scenario 5: three timeouts in a row. *)
Example buy_three_timeouts :
  value (BuyTs.buy Samples.smallBuy Samples.down None)
  = inr (failure (Text "timeout of 30000ms exceeded"))
  /\ beats (trace (BuyTs.buy Samples.smallBuy Samples.down None))
     = [Attempt 1; Pause 3000; Attempt 2; Pause 6000; Attempt 3].
Proof. split; vm_compute; reflexivity. Qed.

(** ** Order parameters follow the position mode *)

(** C9.  With the mode that [getPositionMode] resolves at the time of the
    call: every order of [buy] carries positionSide LONG in dual-side mode and
    no positionSide in one-way mode, every order of [shortSell] likewise with
    SHORT, neither ever sets reduceOnly; every order of [closePosition]
    carries the side of the position being closed in dual-side mode, and
    reduceOnly = true without positionSide in one-way mode.  The side being
    closed is that of the position found for the symbol, or LONG when the
    amount is given by the caller. *)
Theorem order_parameters_follow_mode
    (w : Exchange) (cache : option PositionMode) (mode : PositionMode) :
  value (PositionModeCache.getPositionMode (modeWorld w) cache) = inr mode ->
  (forall params,
      Forall (openShape LONG mode)
        (ordersOf (trace (BuyTs.buy params w cache))))
  /\ (forall params,
        Forall (openShape SHORT mode)
          (ordersOf (trace (SellTs.shortSell params w cache))))
  /\ (forall params closeAmount held positionSize,
        SellTs.resolveClose w (SellTs.symbol params)
          (replaceSlash (SellTs.symbol params))
          (default 100 (SellTs.percentage params)) (SellTs.amount params)
        = SellTs.Resolved closeAmount held positionSize ->
        Forall (closeShape held mode)
          (ordersOf (trace (SellTs.closePosition params w cache)))
        /\ if given (SellTs.amount params) then held = LONG
           else exists positions position,
               fetchPositions w = inr positions
               /\ In position positions
               /\ pos_symbol position = replaceSlash (SellTs.symbol params)
               /\ held = if String.eqb (pos_side position) "long"
                         then LONG else SHORT).
Proof.
  intros Hmode.
  pose proof (getPositionMode_quiet (modeWorld w) cache) as [Ho _].
  split; [|split]; [| |intros params closeAmount held positionSize Hres; split].
  4:{ revert Hres. unfold SellTs.resolveClose.
      destruct (given (SellTs.amount params)); cbn [negb].
      - intros H. injection H as _ <- _. reflexivity.
      - destruct (fetchPositions w) as [pe|positions]; [discriminate|].
        destruct (find _ positions) as [position|] eqn:Ef; [|discriminate].
        destruct (eqb (contracts position) 0); [discriminate|].
        intros H. injection H as _ <- _.
        apply find_some in Ef. destruct Ef as [Hin Hp].
        apply andb_true_iff in Hp. destruct Hp as [Hs _].
        apply String.eqb_eq in Hs.
        exists positions, position. auto. }
  - intros params.
    destruct (buy_run params w cache)
      as [[e [_ [_ [Ht _]]]]
         |[a [l [mode' [cache1 [queries [_ [_ [_ [Hm Hrun]]]]]]]]]].
    + rewrite Ht. constructor.
    + rewrite Hm in Hmode, Ho. cbn in Hmode, Ho. injection Hmode as ->.
      cbv zeta in Hrun. rewrite Hrun. cbn [trace].
      rewrite ordersOf_app, Ho. cbn [app].
      match goal with
      | |- context [BuyTs.orderLoop w ?bs ?ty _ ?a ?op None ?c] =>
          pose proof (buy_orderLoop_run w bs ty a op c) as [_ [_ [H _]]]
      end.
      eapply Forall_impl; [exact H|].
      intros sent [->| ->]; split; destruct mode; reflexivity.
  - intros params.
    destruct (shortSell_run params w cache)
      as [[e [_ [_ Ht]]]|[mode' [cache1 [queries [Hm Hrun]]]]].
    + rewrite Ht. constructor.
    + rewrite Hm in Hmode, Ho. cbn in Hmode, Ho. injection Hmode as ->.
      cbv zeta in Hrun. rewrite Hrun. cbn [trace].
      rewrite ordersOf_app, Ho. cbn [app].
      match goal with
      | |- context [SellTs.orderLoop w ?bs ?sd ?ty _ ?op ?c] =>
          pose proof (sell_orderLoop_run w bs sd ty op c) as [_ [_ [H _]]]
      end.
      eapply Forall_impl; [exact H|].
      intros sent ->; split; destruct mode; reflexivity.
  - destruct (closePosition_run params w cache)
      as [[e [_ [_ Ht]]]
         |[c [ps [sz [mode' [cache1 [queries
            [_ [Hres' [_ [Hm [_ Hrun]]]]]]]]]]]].
    + rewrite Ht. constructor.
    + rewrite Hres in Hres'. injection Hres' as <- <- <-.
      rewrite Hm in Hmode, Ho. cbn in Hmode, Ho. injection Hmode as ->.
      rewrite Hrun. cbn [trace].
      rewrite ordersOf_app, Ho. cbn [app].
      match goal with
      | |- context [SellTs.orderLoop w ?bs ?sd ?ty _ ?op ?c] =>
          pose proof (sell_orderLoop_run w bs sd ty op c) as [_ [_ [H _]]]
      end.
      eapply Forall_impl; [exact H|].
      intros sent ->. destruct mode; split; reflexivity.
Qed.

Lemma order_parameters_follow_mode_witness :
  value (PositionModeCache.getPositionMode (modeWorld Samples.calm) None)
  = inr DUAL_SIDE
  /\ Forall (openShape LONG DUAL_SIDE)
       (ordersOf (trace (BuyTs.buy Samples.smallBuy Samples.calm None)))
  /\ Forall (closeShape LONG DUAL_SIDE)
       (ordersOf (trace (SellTs.closePosition Samples.closeAll Samples.calm
                           None))).
Proof.
  assert (H : value (PositionModeCache.getPositionMode
                       (modeWorld Samples.calm) None) = inr DUAL_SIDE)
    by reflexivity.
  split; [exact H|].
  destruct (order_parameters_follow_mode Samples.calm None DUAL_SIDE H)
    as [Hbuy [_ Hclose]].
  split; [apply Hbuy|].
  refine (proj1 (Hclose Samples.closeAll _ LONG _ _)).
  vm_compute. reflexivity.
Defined.

(** ** A close computed from the holdings stays within the holdings *)

Section CloseAmount.

Variable config : Config.

Let unit := pow10 (- quantity config).

Lemma sell_adjustPrecisionFor_le (x : Q) :
  unit <= x -> SellTs.adjustPrecisionFor config x <= x.
Proof.
  intros Hx. pose proof (pow10_pos (- quantity config)) as Hu. fold unit in Hu.
  assert (Hpos : 0 < x) by lra.
  destruct (sell_adjustPrecisionFor_cases config x Hpos) as [[H0 ->]|[_ ->]].
  - exact Hx.
  - apply truncate_le.
Qed.

(** With holdings of at least one unit, the smart adjustment of a share of
    the holdings is its quantization, between one unit and the holdings. *)
Lemma smartAdjustAmountFor_share (share positionSize : Q) :
  unit <= positionSize -> 0 < share -> share <= positionSize ->
  SellTs.adjustedAmount (SellTs.smartAdjustAmountFor config share positionSize)
  = SellTs.adjustPrecisionFor config share
  /\ unit <= SellTs.adjustPrecisionFor config share
  /\ SellTs.adjustPrecisionFor config share <= positionSize.
Proof.
  intros Hsize Hpos Hle.
  pose proof (pow10_pos (- quantity config)) as Hu. fold unit in Hu.
  pose proof (sell_adjustPrecisionFor_ge_unit config share Hpos) as Hge.
  fold unit in Hge.
  assert (Hup : SellTs.adjustPrecisionFor config share <= positionSize).
  { destruct (sell_adjustPrecisionFor_cases config share Hpos)
      as [[_ ->]|[_ ->]].
    - exact Hsize.
    - eapply Qle_trans; [apply truncate_le | exact Hle]. }
  split; [|split; assumption].
  unfold SellTs.smartAdjustAmountFor. fold unit.
  assert (E1 : eqb (SellTs.adjustPrecisionFor config share) 0 = false)
    by (apply eqb_false; lra).
  assert (E2 : ltb (SellTs.adjustPrecisionFor config share) unit = false)
    by (apply ltb_false; exact Hge).
  assert (E3 : ltb positionSize (SellTs.adjustPrecisionFor config share)
               = false)
    by (apply ltb_false; exact Hup).
  rewrite E1, E2, E3. reflexivity.
Qed.

End CloseAmount.

(** C2, as amended.  When [closePosition] computes the amount from a
    percentage of the position it finds for the symbol, and that position
    holds at least one minimal unit, every order it sends is for a quantity
    of at most the contracts held. *)
Theorem close_from_holdings_within_holdings
    (params : SellTs.ClosePositionParams) (w : Exchange)
    (cache : option PositionMode)
    (positions : list Position) (position : Position) :
  let binanceSymbol := replaceSlash (SellTs.symbol params) in
  given (SellTs.amount params) = false ->
  fetchPositions w = inr positions ->
  find (fun p => String.eqb (pos_symbol p) binanceSymbol
                 && negb (eqb (contracts p) 0)) positions = Some position ->
  pow10 (- quantity (SellTs.configOf binanceSymbol))
  <= abs (contracts position) ->
  Forall (fun sent => p_quantity sent <= abs (contracts position))
    (ordersOf (trace (SellTs.closePosition params w cache))).
Proof.
  intros binanceSymbol Hgiven Hfetch Hfind Hunit.
  destruct (closePosition_run params w cache)
    as [[e [_ [_ Ht]]]
       |[c [ps [sz [mode [cache1 [queries
          [Hpct [Hres [Hc [Hm [_ Hrun]]]]]]]]]]]].
  { rewrite Ht. constructor. }
  fold binanceSymbol in Hres, Hrun.
  unfold SellTs.resolveClose in Hres.
  rewrite Hgiven, Hfetch, Hfind in Hres. cbn [negb] in Hres.
  destruct (eqb (contracts position) 0); [discriminate|].
  injection Hres as <- <- <-.
  unfold SellTs.smartAdjustAmount in *. fold binanceSymbol in Hc, Hrun.
  set (config := SellTs.configOf binanceSymbol) in *.
  set (size := abs (contracts position)) in *.
  set (pct := default 100 (SellTs.percentage params)) in *.
  pose proof (pow10_pos (- quantity config)) as Hu.
  assert (Hshare : 0 < size * (pct / 100) /\ size * (pct / 100) <= size).
  { assert (Hq : pct / 100 == pct * (1 # 100)) by (field).
    rewrite Hq. split; nra. }
  destruct Hshare as [Hs0 Hs1].
  destruct (smartAdjustAmountFor_share config _ size Hunit Hs0 Hs1)
    as [Heq [Hge Hle]].
  rewrite Heq in Hrun.
  assert (Hadj : SellTs.adjustPrecision
                   (SellTs.adjustPrecisionFor config (size * (pct / 100)))
                   binanceSymbol <= size).
  { unfold SellTs.adjustPrecision. fold config.
    eapply Qle_trans; [apply sell_adjustPrecisionFor_le; exact Hge|].
    exact Hle. }
  assert (E : ltb size
                (SellTs.adjustPrecision
                   (SellTs.adjustPrecisionFor config (size * (pct / 100)))
                   binanceSymbol) = false)
    by (apply ltb_false; exact Hadj).
  rewrite E, andb_false_r in Hrun.
  rewrite Hrun. cbn [trace]. rewrite ordersOf_app.
  pose proof (getPositionMode_quiet (modeWorld w) cache) as [Ho _].
  rewrite Hm in Ho. cbn [trace] in Ho. rewrite Ho. cbn [app].
  match goal with
  | |- context [SellTs.orderLoop w ?bs ?sd ?ty _ ?op ?c] =>
      pose proof (sell_orderLoop_run w bs sd ty op c) as [_ [_ [H _]]]
  end.
  eapply Forall_impl; [exact H|].
  intros sent ->. cbn [p_quantity SellTs.closeOrderParams]. exact Hadj.
Qed.

Lemma close_from_holdings_within_holdings_witness :
  Forall (fun sent => p_quantity sent <= 1)
    (ordersOf (trace (SellTs.closePosition Samples.closeAll Samples.calm None)))
  /\ length (ordersOf (trace (SellTs.closePosition Samples.closeAll
                                Samples.calm None))) = 1%nat.
Proof.
  split; [|vm_compute; reflexivity].
  apply (close_from_holdings_within_holdings Samples.closeAll Samples.calm None
           [mkPosition "BTCUSDT" "long" 1] (mkPosition "BTCUSDT" "long" 1)).
  - reflexivity.
  - reflexivity.
  - vm_compute. reflexivity.
  - vm_compute. discriminate.
Defined.

(** C2, counterexample.  Asked to close 5 contracts while 1 is held,
    [closePosition] does not look at the holdings and sends 5. *)
Lemma closePosition_explicit_amount_exceeds_holdings :
  exists sent,
    fetchPositions Samples.calm = inr [mkPosition "BTCUSDT" "long" 1]
    /\ ordersOf (trace (SellTs.closePosition Samples.closeFive
                          Samples.calm None)) = [sent]
    /\ p_quantity sent == 5
    /\ 1 < p_quantity sent.
Proof.
  eexists. split; [reflexivity|].
  split; [vm_compute; reflexivity|].
  split; vm_compute; reflexivity.
Qed.

(** Holdings below one minimal unit are not covered by the theorem: closing
    100% of 0.0005 BTC sends the minimal unit 0.001, the clamp itself
    rounding the holdings up. *)
Example closePosition_rounds_dust_up :
  exists sent,
    ordersOf (trace (SellTs.closePosition Samples.closeAll Samples.dust None))
    = [sent]
    /\ p_quantity sent == 1 # 1000
    /\ (5 # 10000) < p_quantity sent.
Proof.
  eexists. split; [vm_compute; reflexivity|].
  split; vm_compute; reflexivity.
Qed.

(** ** The small-order escalation of [buy] *)

Section SmallOrder.

Variable symbol binanceSymbol : string.
Variable currentPrice minAmount adjustedAmount leverage : Q.

Hypothesis price_pos : 0 < currentPrice.
Hypothesis minAmount_pos : 0 < minAmount.

Let multiplier :=
  xceil (xdiv (minAmount * currentPrice) (adjustedAmount * currentPrice)).
Let proposed := xmin (xmul (Fin leverage) multiplier) 30.

(** For a positive amount the multiplier is the least whole number of
    current notionals that reaches the notional of one minimal unit. *)
Lemma multiplier_least :
  0 < adjustedAmount ->
  exists k : Z,
    multiplier = Fin (inject_Z k)
    /\ minAmount * currentPrice <= inject_Z k * (adjustedAmount * currentPrice)
    /\ inject_Z (k - 1) * (adjustedAmount * currentPrice)
       < minAmount * currentPrice.
Proof.
  intros Ha.
  assert (Hcur : 0 < adjustedAmount * currentPrice) by nra.
  set (x := minAmount * currentPrice / (adjustedAmount * currentPrice)).
  exists (Qceiling x). subst multiplier. unfold xdiv.
  assert (E : eqb (adjustedAmount * currentPrice) 0 = false)
    by (apply eqb_false; lra).
  rewrite E. cbn [xceil]. fold x. split; [reflexivity|].
  assert (Hx : x * (adjustedAmount * currentPrice) == minAmount * currentPrice)
    by (unfold x; field; lra).
  pose proof (Qle_ceiling x) as Hup.
  pose proof (Qceiling_lt x) as Hlow.
  split.
  - rewrite <- Hx. apply Qmult_le_compat_r; [exact Hup | lra].
  - rewrite <- Hx. apply Qmult_lt_compat_r; [exact Hcur | exact Hlow].
Qed.

(** For a zero amount no multiple will do: the multiplier is [Infinity]. *)
Lemma multiplier_infinite : adjustedAmount == 0 -> multiplier = PInf.
Proof.
  intros Ha. subst multiplier. unfold xdiv.
  assert (E1 : eqb (adjustedAmount * currentPrice) 0 = true)
    by (apply eqb_spec; rewrite Ha; ring).
  assert (Hmin : 0 < minAmount * currentPrice) by nra.
  assert (E2 : eqb (minAmount * currentPrice) 0 = false)
    by (apply eqb_false; lra).
  assert (E3 : ltb 0 (minAmount * currentPrice) = true)
    by (apply ltb_spec; exact Hmin).
  rewrite E1, E2, E3. reflexivity.
Qed.

Lemma smallOrderStep_small :
  adjustedAmount == 0 \/ adjustedAmount < minAmount ->
  BuyTs.smallOrderStep symbol binanceSymbol currentPrice minAmount
    adjustedAmount (Fin leverage)
  = if xleb proposed 30 && xleb multiplier 20 then
      if BuyTs.valid
           (BuyTs.checkMinNotional minAmount binanceSymbol currentPrice)
      then BuyTs.Sized minAmount proposed
      else BuyTs.Sized
             (BuyTs.adjustedAmount
                (BuyTs.smartAdjustOrderForMinNotional minAmount symbol
                   currentPrice proposed))
             proposed
    else BuyTs.Rejected (AmountTooSmall adjustedAmount minAmount).
Proof.
  intros Hsmall. unfold BuyTs.smallOrderStep.
  assert (E : eqb adjustedAmount 0 || ltb adjustedAmount minAmount = true).
  { apply orb_true_iff. destruct Hsmall as [H|H];
      [left; apply eqb_spec | right; apply ltb_spec]; exact H. }
  rewrite E. fold multiplier. fold proposed.
  unfold BuyTs.MAX_SAFE_LEVERAGE, BuyTs.MAX_POSITION_MULTIPLIER.
  destruct (xleb proposed 30 && xleb multiplier 20); [|reflexivity].
  destruct (BuyTs.valid _); cbn [negb]; [reflexivity|].
  unfold BuyTs.smartAdjustOrderForMinNotional.
  rewrite smartAdjust_keeps_leverage. reflexivity.
Qed.

End SmallOrder.

(** Whatever the sizing part rejects, [buy] answers with that failure and
    sends nothing. *)
Lemma buy_rejected (params : BuyTs.BuyParams) (w : Exchange)
    (cache : option PositionMode) (e : ErrorText) :
  BuyTs.sizeOrder (BuyTs.symbol params) (BuyTs.amount params)
    (default 10 (BuyTs.leverage params))
    (BuyTs.resolvePrice w (BuyTs.price params)
       (replaceSlash (BuyTs.symbol params)))
  = BuyTs.Rejected e ->
  includes (BuyTs.symbol params) "/" = true ->
  0 < BuyTs.amount params ->
  1 <= default 10 (BuyTs.leverage params) <= 30 ->
  ensureTimeSync w = None -> getBinanceInstance w = None ->
  value (BuyTs.buy params w cache) = inr (failure e)
  /\ trace (BuyTs.buy params w cache) = [].
Proof.
  intros Hsize Hinc Hamt Hlev Hsync Hinst.
  destruct (buy_run params w cache)
    as [[e' [Hv [_ [Ht Hwhy]]]]
       |[a [l [mode [cache1 [queries [_ [_ [Hs _]]]]]]]]].
  - rewrite (Hwhy _ Hsize Hinc Hamt Hlev Hsync Hinst) in Hv.
    split; assumption.
  - rewrite Hsize in Hs. discriminate.
Qed.

(** At a positive price the first step hands on an amount of at least the
    minimal amount, so the second step passes it through untouched. *)
Lemma smallOrderStep_passes (symbol : string) (currentPrice amount : Q)
    (leverage l1 : xnum) (a1 : Q) :
  let binanceSymbol := replaceSlash symbol in
  0 < currentPrice ->
  BuyTs.notionalStep symbol binanceSymbol currentPrice
    (BuyTs.adjustPrecision amount binanceSymbol) leverage
  = BuyTs.Sized a1 l1 ->
  BuyTs.smallOrderStep symbol binanceSymbol currentPrice
    (pow10 (- BuyTs.quantityOr3 binanceSymbol)) a1 l1
  = BuyTs.Sized a1 l1.
Proof.
  intros binanceSymbol Hp Hstep.
  apply notionalStep_sized in Hstep; [|apply adjustPrecisionFor_onGrid].
  destruct Hstep as [Hgrid [Hnot _]].
  fold binanceSymbol in Hgrid, Hnot.
  rewrite buy_minNotional in Hnot.
  assert (Hpos : 0 < a1).
  { destruct (Qlt_le_dec 0 a1) as [H|H]; [exact H|]. exfalso. nra. }
  apply smallOrderStep_large; [exact Hpos|].
  eapply Qle_trans; [apply buy_minAmount_le_unit|].
  apply onGrid_pos_ge_unit; assumption.
Qed.

(** The second sizing step of [buy] on its own, at a positive price and
    for an amount below the minimal amount: the multiplier is the least
    whole number of current notionals that reaches the notional of the
    minimal amount (infinite for a zero amount); the proposed leverage is
    min(leverage x multiplier, 30); if the multiplier is at most 20 and the
    proposal at most 30, the step sets the amount to the minimal amount and
    the leverage to the proposal (the amount then being raised once more if
    its notional is under the minimum notional); otherwise the step ends
    the sizing with the too-small error. *)
Lemma smallOrderStep_escalation
    (symbol : string) (currentPrice adjustedAmount leverage : Q) :
  let binanceSymbol := replaceSlash symbol in
  let minAmount := pow10 (- BuyTs.quantityOr3 binanceSymbol) in
  let multiplier :=
    xceil (xdiv (minAmount * currentPrice) (adjustedAmount * currentPrice)) in
  let proposed := xmin (xmul (Fin leverage) multiplier) 30 in
  let step :=
    BuyTs.smallOrderStep symbol binanceSymbol currentPrice minAmount
      adjustedAmount (Fin leverage) in
  0 < currentPrice ->
  0 <= adjustedAmount < minAmount ->
  (0 < adjustedAmount ->
   exists k : Z,
     multiplier = Fin (inject_Z k)
     /\ minAmount * currentPrice
        <= inject_Z k * (adjustedAmount * currentPrice)
     /\ inject_Z (k - 1) * (adjustedAmount * currentPrice)
        < minAmount * currentPrice)
  /\ (adjustedAmount == 0 -> multiplier = PInf)
  /\ (xleb multiplier 20 = true -> xleb proposed 30 = true ->
      exists raised,
        step = BuyTs.Sized raised proposed
        /\ (raised = minAmount
            \/ (minAmount * currentPrice
                < minNotional (BuyTs.configOf binanceSymbol)
                /\ raised
                   = BuyTs.adjustedAmount
                       (BuyTs.smartAdjustOrderForMinNotional minAmount symbol
                          currentPrice proposed))))
  /\ (xleb multiplier 20 = false \/ xleb proposed 30 = false ->
      step = BuyTs.Rejected (AmountTooSmall adjustedAmount minAmount)).
Proof.
  intros binanceSymbol minAmount multiplier proposed step Hp [Ha0 Ha1].
  assert (Hmin : 0 < minAmount) by apply pow10_pos.
  assert (Hsmall : adjustedAmount == 0 \/ adjustedAmount < minAmount)
    by (right; exact Ha1).
  assert (Hstep := smallOrderStep_small symbol binanceSymbol currentPrice
                     minAmount adjustedAmount leverage Hsmall).
  fold multiplier proposed step in Hstep.
  split; [|split; [|split]].
  - intros Ha. apply multiplier_least; assumption.
  - intros Ha. apply multiplier_infinite; assumption.
  - intros Hm Hl. rewrite Hm, Hl in Hstep. cbn [andb] in Hstep.
    unfold BuyTs.checkMinNotional, BuyTs.checkMinNotionalFor in Hstep.
    destruct (ltb (minAmount * currentPrice)
                (minNotional (BuyTs.configOf binanceSymbol))) eqn:E;
      cbn [BuyTs.valid] in Hstep.
    + eexists. split; [exact Hstep|]. right.
      apply ltb_spec in E. split; [exact E | reflexivity].
    + eexists. split; [exact Hstep|]. left. reflexivity.
  - intros Hno. rewrite Hstep.
    destruct Hno as [H|H]; rewrite H, ?andb_false_r; reflexivity.
Qed.

(** ** The mismatch handler of [sell] and the cache *)

Section Mismatch.

Variable w : Exchange.

Lemma onPositionSideMismatch_cache (positionSide : PositionSide)
    (orderParams : OrderParams) (cache : option PositionMode) :
  cacheAfter
    (ClosePositionTs.onPositionSideMismatch w positionSide orderParams cache)
  = cache.
Proof.
  unfold ClosePositionTs.onPositionSideMismatch, bind, awaitVoid, emit, await,
    ret.
  destruct (getBinanceInstance w) as [e|]; cbn; [reflexivity|].
  destruct (positionModeRequery w) as [e|[|]]; reflexivity.
Qed.

(** No pass through the loop of [sell] writes the cache. *)
Lemma close_orderLoop_cache (binanceSymbol : string) (side : Side)
    (orderType : OrderType) (positionSide : PositionSide)
    (attempts : list nat) :
  forall (orderParams : OrderParams) (lastError : option JsError)
         (cache : option PositionMode),
    cacheAfter
      (ClosePositionTs.orderLoop w binanceSymbol side orderType positionSide
         attempts orderParams lastError cache)
    = cache.
Proof.
  induction attempts as [|attempt later IH]; intros orderParams lastError cache.
  - reflexivity.
  - cbn [ClosePositionTs.orderLoop]. unfold bind at 1. cbn.
    destruct (newOrder w attempt orderParams) as [orderError|data];
      [|reflexivity].
    unfold bind at 1.
    destruct (includes _ _ && Nat.eqb attempt 1).
    + pose proof (onPositionSideMismatch_cache positionSide orderParams cache)
        as Hh.
      destruct (ClosePositionTs.onPositionSideMismatch w positionSide
                  orderParams cache) as [[e|orderParams'] c1 t1].
      * cbn in *. exact Hh.
      * cbn in *. subst c1.
        match goal with
        | |- context [if ?b then _ else _] => destruct b
        end; [|reflexivity].
        unfold bind, sleep, emit. cbn.
        destruct (ClosePositionTs.orderLoop w binanceSymbol side orderType
                    positionSide later orderParams' (Some orderError) cache)
          as [[e'|d'] c2 t2] eqn:El;
          pose proof (IH orderParams' (Some orderError) cache) as Hc;
          rewrite El in Hc; exact Hc.
    + cbn.
      match goal with
      | |- context [if ?b then _ else _] => destruct b
      end; [|reflexivity].
      unfold bind, sleep, emit. cbn.
      destruct (ClosePositionTs.orderLoop w binanceSymbol side orderType
                  positionSide later orderParams (Some orderError) cache)
        as [[e'|d'] c2 t2] eqn:El;
        pose proof (IH orderParams (Some orderError) cache) as Hc;
        rewrite El in Hc; exact Hc.
Qed.

(** What the handler does get right: after a mismatch on the first attempt
    the exchange is asked once, and the second and third orders carry the
    parameters rebuilt from its answer. *)
Lemma close_orderLoop_mismatch (binanceSymbol : string) (side : Side)
    (orderType : OrderType) (positionSide : PositionSide)
    (orderParams : OrderParams) (e : JsError) (dual : bool)
    (cache : option PositionMode) :
  newOrder w 1 orderParams = inl e ->
  includes (orElse (responseMsg e) (message e)) "position side does not match"
  = true ->
  getBinanceInstance w = None ->
  positionModeRequery w = inr dual ->
  let rebuilt :=
    if dual
    then mkParams (p_quantity orderParams) (Some positionSide) false
           (p_price orderParams) (p_timeInForce orderParams)
    else mkParams (p_quantity orderParams) None true
           (p_price orderParams) (p_timeInForce orderParams) in
  let run :=
    ClosePositionTs.orderLoop w binanceSymbol side orderType positionSide
      [1; 2; 3]%nat orderParams None cache in
  queriesOf (trace run) = [SdkPositionMode]
  /\ exists later,
       ordersOf (trace run) = orderParams :: rebuilt :: later
       /\ Forall (eq rebuilt) later.
Proof.
  intros H1 Hinc Hinst Hq rebuilt run. subst run.
  cbn [ClosePositionTs.orderLoop].
  unfold bind, emit, sleep, ret, throw. cbn.
  rewrite H1. cbn. rewrite Hinc. cbn.
  unfold ClosePositionTs.onPositionSideMismatch, bind, awaitVoid, emit,
    await, ret.
  rewrite Hinst. cbn. rewrite Hq. cbn.
  destruct dual; cbn; subst rebuilt; cbn.
  - destruct (newOrder w 2 _) as [e2|d2]; cbn; rewrite ?andb_false_r; cbn.
    + destruct (newOrder w 3 _) as [e3|d3]; cbn; rewrite ?andb_false_r; cbn;
        (split; [reflexivity|]); eexists; (split; [reflexivity|]);
        repeat constructor.
    + split; [reflexivity|]. eexists. split; [reflexivity|]. constructor.
  - destruct (newOrder w 2 _) as [e2|d2]; cbn; rewrite ?andb_false_r; cbn.
    + destruct (newOrder w 3 _) as [e3|d3]; cbn; rewrite ?andb_false_r; cbn;
        (split; [reflexivity|]); eexists; (split; [reflexivity|]);
        repeat constructor.
    + split; [reflexivity|]. eexists. split; [reflexivity|]. constructor.
Qed.

Local Opaque ClosePositionTs.orderLoop ClosePositionTs.resolveSell
  ClosePositionTs.adjustPrecision includes pow10.

(** A filled cache survives [sell], mismatch or not. *)
Lemma sell_keeps_cache (params : ClosePositionTs.SellParams)
    (mode : PositionMode) :
  cacheAfter (ClosePositionTs.sell params w (Some mode)) = Some mode.
Proof.
  unfold ClosePositionTs.sell.
  destruct (negb (truthy _) || negb (includes _ _)); [reflexivity|].
  destruct (leb _ 0 || ltb 100 _); [reflexivity|].
  unfold catch, bind, awaitVoid, ret. cbn.
  destruct (ensureTimeSync w); [reflexivity|]. cbn.
  destruct (getBinanceInstance w); [reflexivity|]. cbn.
  destruct (ClosePositionTs.resolveSell _ _ _ _ _) as [r|a ps sz];
    [reflexivity|].
  destruct (leb a 0); [reflexivity|].
  destruct (leb _ 0 || ltb _ _); [reflexivity|]. cbn.
  match goal with
  | |- context [ClosePositionTs.orderLoop w ?bs ?sd ?ty ?p ?ats ?op ?le ?c] =>
      pose proof (close_orderLoop_cache bs sd ty p ats op le c) as Hc;
      destruct (ClosePositionTs.orderLoop w bs sd ty p ats op le c)
        as [[e|d] c2 t2]
  end; cbn in *; exact Hc.
Qed.

End Mismatch.

(** C5, the code at the failing input.  The cache holds ONE_WAY, the account
    is in dual-side mode, and the first order of [sell] is refused for a
    position-side mismatch.  The handler asks the exchange once and the second
    order carries positionSide instead of reduceOnly, but the cache still
    holds ONE_WAY afterwards, and the next [getPositionMode] answers ONE_WAY
    from it without asking. *)
Theorem sell_mismatch_leaves_cache_stale :
  let run :=
    ClosePositionTs.sell Samples.sellAll Samples.mismatching (Some ONE_WAY) in
  queriesOf (trace run) = [SdkPositionMode]
  /\ map (fun sent => (p_positionSide sent, p_reduceOnly sent))
       (ordersOf (trace run))
     = [(None, true); (Some LONG, false)]
  /\ beats (trace run) = [Attempt 1; Pause 2000; Attempt 2]
  /\ (exists result, value run = inr result /\ success result = true)
  /\ cacheAfter run = Some ONE_WAY
  /\ PositionModeCache.getPositionMode (modeWorld Samples.mismatching)
       (cacheAfter run)
     = mkOutcome (inr ONE_WAY) (Some ONE_WAY) [].
Proof.
  intros run.
  split; [vm_compute; reflexivity|].
  split; [vm_compute; reflexivity|].
  split; [vm_compute; reflexivity|].
  split; [eexists; split; vm_compute; reflexivity|].
  split; [apply sell_keeps_cache|].
  subst run. rewrite sell_keeps_cache. reflexivity.
Qed.

(** ** The margin ledger of [run] *)

(** A successful [buy] passed the validation of its leverage. *)
Lemma buy_success_leverage (params : BuyTs.BuyParams) (w : Exchange)
    (cache : option PositionMode) (result : OrderResult) :
  value (BuyTs.buy params w cache) = inr result ->
  success result = true ->
  1 <= default 10 (BuyTs.leverage params) <= 30.
Proof.
  intros Hv Hs.
  destruct (buy_run params w cache)
    as [[e [Hv' _]]
       |[a [l [mode [cache1 [queries [_ [Hlev _]]]]]]]].
  - rewrite Hv in Hv'. injection Hv' as ->. discriminate.
  - exact Hlev.
Qed.

Lemma buy_never_throws (params : BuyTs.BuyParams) (w : Exchange)
    (cache : option PositionMode) :
  exists result, value (BuyTs.buy params w cache) = inr result.
Proof.
  destruct (buy_run params w cache)
    as [[e [Hv _]]
       |[a [l [mode [cache1 [queries [_ [_ [_ [_ Hrun]]]]]]]]]].
  - eauto.
  - cbv zeta in Hrun. rewrite Hrun. cbn [value].
    destruct (value _); eauto.
Qed.

Section Ledger.

Variable checkBuyRisk : Q -> option Q -> Q -> xnum -> bool.

Local Opaque BuyTs.buy.

(** One pass of the loop body from a non-negative ledger: the ledger stays
    a non-negative rational and goes down by what the pass committed; the
    pass never aborts. *)
Lemma processDecision_ledger (object : Run.Decision) (w : Exchange)
    (cache : option PositionMode) (remaining : Q) :
  0 <= remaining ->
  exists after,
    snd (Run.processDecision checkBuyRisk object w cache (Fin remaining))
    = Fin after
    /\ after
       == remaining
          - Run.committed
              (fst (Run.processDecision checkBuyRisk object w cache
                      (Fin remaining)))
    /\ 0 <= after
    /\ (forall e,
          fst (Run.processDecision checkBuyRisk object w cache (Fin remaining))
          <> Run.Aborted e).
Proof.
  intros Hnn.
  assert (Hsame : exists after, Fin remaining = Fin after
                    /\ after == remaining - 0 /\ 0 <= after).
  { exists remaining. repeat split; [ring | exact Hnn]. }
  destruct Hsame as [r0 [Hr0 [Hr1 Hr2]]].
  unfold Run.processDecision.
  destruct (Run.opeartion object);
    try (exists r0; cbn; repeat split; (assumption || discriminate)).
  destruct (Run.buy object) as [fields|];
    [|exists r0; cbn; repeat split; (assumption || discriminate)].
  destruct (Run.amount fields) as [amount|];
    [|exists r0; cbn; repeat split; (assumption || discriminate)].
  destruct (Run.leverage fields) as [leverage|];
    [|exists r0; cbn; repeat split; (assumption || discriminate)].
  destruct (negb (checkBuyRisk _ _ _ _));
    [exists r0; cbn; repeat split; (assumption || discriminate)|].
  destruct (xgtb _ (Fin remaining)) eqn:Egt;
    [exists r0; cbn; repeat split; (assumption || discriminate)|].
  set (params := BuyTs.mkBuyParams _ amount (Some leverage) None).
  destruct (buy_never_throws params w cache) as [result Hres].
  rewrite Hres.
  destruct (success result) eqn:Es.
  - pose proof (buy_success_leverage params w cache result Hres Es) as Hlev.
    cbn in Hlev.
    unfold xdiv in *.
    assert (E0 : eqb leverage 0 = false) by (apply eqb_false; lra).
    rewrite E0 in *. cbn in Egt. apply ltb_false in Egt.
    eexists. cbn. rewrite Es.
    split; [reflexivity|]. split; [reflexivity|]. split; [lra | discriminate].
  - exists r0. cbn.
    destruct (xdiv _ leverage); rewrite ?Es;
      repeat split; (assumption || discriminate).
Qed.

Lemma ledgerAfter_cons (initial after : xnum) (step : Run.Step)
    (history : list (Run.Step * xnum)) :
  Run.ledgerAfter initial ((step, after) :: history)
  = Run.ledgerAfter after history.
Proof.
  unfold Run.ledgerAfter. cbn [map snd].
  destruct (map snd history) as [|x rest] eqn:E; [reflexivity|].
  rewrite last_cons. destruct (last (x :: rest)) eqn:El; [reflexivity|].
  apply last_None in El. discriminate.
Qed.

(** After any number of passes the ledger is the initial cash minus what
    those passes committed, and is not negative. *)
Lemma ledger_prefix
    (decisions : list (Run.Decision * Exchange * option PositionMode)) :
  forall (remaining : Q) (n : nat),
    0 <= remaining ->
    exists after,
      Run.ledgerAfter (Fin remaining)
        (take n (Run.processDecisions checkBuyRisk decisions (Fin remaining)))
      = Fin after
      /\ after
         == remaining
            - Run.totalCommitted
                (take n (Run.processDecisions checkBuyRisk decisions
                           (Fin remaining)))
      /\ 0 <= after.
Proof.
  induction decisions as [|[[object w] cache] later IH];
    intros remaining n Hnn.
  - cbn. rewrite take_nil. cbn. exists remaining.
    repeat split; [ring | exact Hnn].
  - cbn [Run.processDecisions].
    destruct (processDecision_ledger object w cache remaining Hnn)
      as [r1 [Hsnd [Heq [Hnn1 Hno]]]].
    destruct (Run.processDecision checkBuyRisk object w cache (Fin remaining))
      as [step ledger] eqn:Ep.
    cbn [fst snd] in *. subst ledger.
    destruct n as [|n].
    { rewrite take_0. exists remaining.
      change (Run.totalCommitted []) with 0.
      repeat split; [ring | exact Hnn]. }
    destruct (IH r1 n Hnn1) as [r2 [Hl [Heq2 Hnn2]]].
    exists r2.
    destruct step; try (exfalso; eapply Hno; reflexivity);
      cbn [take]; rewrite ledgerAfter_cons;
      (split; [exact Hl|]); (split; [|exact Hnn2]);
      unfold Run.totalCommitted in *; cbn [fold_right fst] in *; lra.
Qed.

End Ledger.

Section LedgerRefinement.

Variable checkBuyRisk : Q -> option Q -> Q -> xnum -> bool.

Local Opaque BuyTs.buy.

(** One pass of the loop body against one step of the ledger of the
    specification. *)
Lemma processDecision_refines (object : Run.Decision) (w : Exchange)
    (cache : option PositionMode) (remaining : Q) :
  snd (Run.processDecision checkBuyRisk object w cache (Fin remaining))
  = Fin match LedgerSpec.committed
                (ledgerRequest checkBuyRisk (object, w, cache)) remaining with
        | Some requiredMargin => LedgerSpec.commit requiredMargin remaining
        | None => remaining
        end
  /\ forall e,
       fst (Run.processDecision checkBuyRisk object w cache (Fin remaining))
       <> Run.Aborted e.
Proof.
  unfold Run.processDecision, ledgerRequest.
  destruct (Run.opeartion object);
    try (cbn; split; [reflexivity | discriminate]).
  destruct (Run.buy object) as [fields|];
    [|cbn; split; [reflexivity | discriminate]].
  destruct (Run.amount fields) as [amount|];
    [|cbn; split; [reflexivity | discriminate]].
  destruct (Run.leverage fields) as [leverage|];
    [|cbn; split; [reflexivity | discriminate]].
  set (params := BuyTs.mkBuyParams _ amount (Some leverage) None).
  set (m := amount * default 0 (Run.pricing fields)).
  destruct (buy_never_throws params w cache) as [result Hres].
  rewrite Hres.
  assert (Hfill : success result = true ->
                  xdiv m leverage = Fin (m / leverage)).
  { intros Hs.
    pose proof (buy_success_leverage params w cache result Hres Hs) as Hlev.
    cbn in Hlev. unfold xdiv.
    assert (E0 : eqb leverage 0 = false) by (apply eqb_false; lra).
    rewrite E0. reflexivity. }
  unfold LedgerSpec.committed.
  destruct (checkBuyRisk amount (Run.pricing fields) leverage (Fin remaining));
    cbn [negb andb]; [|cbn; split; [reflexivity | discriminate]].
  destruct (success result) eqn:Es.
  - rewrite (Hfill eq_refl). cbn [xgtb]. unfold LedgerSpec.admission.
    destruct (ltb remaining (m / leverage)); cbn;
      split; (reflexivity || discriminate).
  - rewrite andb_false_r.
    destruct (xgtb (xdiv m leverage) (Fin remaining)); cbn; rewrite ?Es;
      split; (reflexivity || discriminate).
Qed.

(** The loop of [run] keeps the ledger of the specification. *)
Lemma processDecisions_refine
    (decisions : list (Run.Decision * Exchange * option PositionMode)) :
  forall remaining : Q,
    map snd (Run.processDecisions checkBuyRisk decisions (Fin remaining))
    = map Fin
        (LedgerSpec.ledger (map (ledgerRequest checkBuyRisk) decisions)
           remaining).
Proof.
  induction decisions as [|[[object w] cache] later IH]; intros remaining.
  - reflexivity.
  - cbn [Run.processDecisions map LedgerSpec.ledger].
    destruct (processDecision_refines object w cache remaining)
      as [Hsnd Hno].
    destruct (Run.processDecision checkBuyRisk object w cache (Fin remaining))
      as [step after].
    cbn [fst snd] in Hsnd, Hno. subst after.
    destruct step; try (exfalso; eapply Hno; reflexivity);
      cbn [map snd]; rewrite IH; reflexivity.
Qed.

(** An admitted buy that is filled takes its margin off the ledger. *)
Lemma processDecision_commits (object : Run.Decision) (w : Exchange)
    (cache : option PositionMode) (remaining : xnum)
    (fields : Run.BuyFields) (amount leverage : Q)
    (buyResult : OrderResult) :
  Run.opeartion object = Run.Buy ->
  Run.buy object = Some fields ->
  Run.amount fields = Some amount ->
  Run.leverage fields = Some leverage ->
  let requiredMargin :=
    xdiv (amount * default 0 (Run.pricing fields)) leverage in
  checkBuyRisk amount (Run.pricing fields) leverage remaining = true ->
  xgtb requiredMargin remaining = false ->
  value (BuyTs.buy
           (BuyTs.mkBuyParams (Run.symbol object ++ "/USDT") amount
              (Some leverage) None) w cache) = inr buyResult ->
  (success buyResult = true ->
   Run.processDecision checkBuyRisk object w cache remaining
   = (Run.Executed requiredMargin buyResult, xsub remaining requiredMargin)
   /\ requiredMargin
      = Fin (amount * default 0 (Run.pricing fields) / leverage))
  /\ (success buyResult = false ->
      Run.processDecision checkBuyRisk object w cache remaining
      = (Run.Executed requiredMargin buyResult, remaining)).
Proof.
  intros Hop Hbuy Ham Hlev requiredMargin Hrisk Hgt Hres.
  unfold Run.processDecision. rewrite Hop, Hbuy, Ham, Hlev.
  fold requiredMargin. rewrite Hrisk. cbn [negb]. rewrite Hgt, Hres.
  split; intros Hs; rewrite Hs; [|reflexivity].
  split; [reflexivity|].
  pose proof (buy_success_leverage _ w cache buyResult Hres Hs) as Hrange.
  cbn in Hrange. subst requiredMargin. unfold xdiv.
  assert (E0 : eqb leverage 0 = false) by (apply eqb_false; lra).
  rewrite E0. reflexivity.
Qed.

End LedgerRefinement.

Lemma ledger_length (requests : list LedgerSpec.Request) :
  forall remainingCash,
    length (LedgerSpec.ledger requests remainingCash) = length requests.
Proof.
  induction requests as [|request later IH]; intros remainingCash;
    [reflexivity|].
  cbn [LedgerSpec.ledger length]. rewrite IH. reflexivity.
Qed.

(** C4.  From a non-negative available cash: after any number of decisions
    [remainingAvailableCash] is the initial cash minus the margins committed
    so far and is not negative; a buy that needs more margin than remains is
    blocked (by the risk check or by the margin check), the ledger stays as
    it is and the loop goes on with the next decision; the ledger only
    changes by subtracting requiredMargin = amount x pricing / leverage
    after a [buy] that returned success; and every buy that passes the risk
    check and the margin check and is reported as a success does take
    exactly that margin off.  The loop processes every decision, and the
    values [remainingAvailableCash] takes are those of the ledger of the
    specification (reject when the required margin exceeds the remaining
    cash, commit only after a confirmed fill), decision by decision. *)
Theorem margin_ledger
    (checkBuyRisk : Q -> option Q -> Q -> xnum -> bool)
    (decisions : list (Run.Decision * Exchange * option PositionMode))
    (availableCash : Q) :
  0 <= availableCash ->
  let history :=
    Run.processDecisions checkBuyRisk decisions (Fin availableCash) in
  (forall n, exists remaining,
      Run.ledgerAfter (Fin availableCash) (take n history) = Fin remaining
      /\ remaining == availableCash - Run.totalCommitted (take n history)
      /\ 0 <= remaining)
  /\ (forall object w cache remaining fields amount leverage,
        Run.opeartion object = Run.Buy ->
        Run.buy object = Some fields ->
        Run.amount fields = Some amount ->
        Run.leverage fields = Some leverage ->
        let requiredMargin :=
          xdiv (amount * default 0 (Run.pricing fields)) leverage in
        (xgtb requiredMargin remaining = true ->
         forall later, exists step,
           (step = Run.RiskBlocked \/ step = Run.MarginBlocked requiredMargin)
           /\ Run.processDecisions checkBuyRisk ((object, w, cache) :: later)
                remaining
              = (step, remaining)
                :: Run.processDecisions checkBuyRisk later remaining)
        /\ (forall step after,
              Run.processDecision checkBuyRisk object w cache remaining
              = (step, after) ->
              after <> remaining ->
              exists buyResult,
                step = Run.Executed requiredMargin buyResult
                /\ value (BuyTs.buy
                            (BuyTs.mkBuyParams (Run.symbol object ++ "/USDT")
                               amount (Some leverage) None) w cache)
                   = inr buyResult
                /\ success buyResult = true
                /\ xgtb requiredMargin remaining = false
                /\ after = xsub remaining requiredMargin)
        /\ (forall buyResult,
              checkBuyRisk amount (Run.pricing fields) leverage remaining
              = true ->
              xgtb requiredMargin remaining = false ->
              value (BuyTs.buy
                       (BuyTs.mkBuyParams (Run.symbol object ++ "/USDT")
                          amount (Some leverage) None) w cache)
              = inr buyResult ->
              success buyResult = true ->
              Run.processDecision checkBuyRisk object w cache remaining
              = (Run.Executed requiredMargin buyResult,
                 xsub remaining requiredMargin)
              /\ requiredMargin
                 = Fin (amount * default 0 (Run.pricing fields) / leverage)))
  /\ length history = length decisions
  /\ map snd history
     = map Fin
         (LedgerSpec.ledger (map (ledgerRequest checkBuyRisk) decisions)
            availableCash).
Proof.
  intros Hnn history. split; [|split; [|split]].
  - intros n. apply ledger_prefix. exact Hnn.
  - intros object w cache remaining fields amount leverage Hop Hbuy Ham Hlev
      requiredMargin.
    split; [|split].
    + intros Hgt later. cbn [Run.processDecisions].
      unfold Run.processDecision. rewrite Hop, Hbuy, Ham, Hlev.
      fold requiredMargin. rewrite Hgt.
      destruct (negb (checkBuyRisk _ _ _ _));
        [exists Run.RiskBlocked | exists (Run.MarginBlocked requiredMargin)];
        split; auto.
    + unfold Run.processDecision. rewrite Hop, Hbuy, Ham, Hlev.
      fold requiredMargin.
      intros step after.
      destruct (negb (checkBuyRisk _ _ _ _));
        [intros H; injection H as <- <-; congruence|].
      destruct (xgtb requiredMargin remaining) eqn:Egt;
        [intros H; injection H as <- <-; congruence|].
      destruct (value (BuyTs.buy _ w cache)) as [e|buyResult] eqn:Ev;
        [intros H; injection H as <- <-; congruence|].
      destruct (success buyResult) eqn:Es;
        intros H; injection H as <- <-; [|congruence].
      intros _. exists buyResult. auto.
    + intros buyResult Hrisk Hgt Hres Hs.
      destruct (processDecision_commits checkBuyRisk object w cache remaining
                  fields amount leverage buyResult Hop Hbuy Ham Hlev Hrisk
                  Hgt Hres) as [Hyes _].
      exact (Hyes Hs).
  - subst history.
    rewrite <- (length_map snd), processDecisions_refine.
    rewrite length_map, ledger_length, length_map. reflexivity.
  - apply processDecisions_refine.
Qed.

Lemma margin_ledger_witness :
  0 <= 150
  /\ exists first second,
       map snd (Run.processDecisions Samples.allowAll Samples.buyTwice
                  (Fin 150))
       = [Fin first; Fin second]
       /\ first == 150 - 100
       /\ second == first.
Proof.
  assert (H : 0 <= 150) by (vm_compute; discriminate).
  split; [exact H|].
  destruct (margin_ledger Samples.allowAll Samples.buyTwice 150 H)
    as [_ [_ [_ Hspec]]].
  cbv zeta in Hspec. rewrite Hspec.
  eexists. eexists. split; [vm_compute; reflexivity|].
  split; vm_compute; reflexivity.
Defined.

(** Spec scenario 4: 150 available, two buys of margin 100; the first is
    committed, the second is blocked. *)
Example ledger_blocks_second_buy :
  Forall2 Qeq
    (map (fun entry => Run.committed (fst entry))
       (Run.processDecisions Samples.allowAll Samples.buyTwice (Fin 150)))
    [100; 0]
  /\ exists remaining,
       Run.ledgerAfter (Fin 150)
         (Run.processDecisions Samples.allowAll Samples.buyTwice (Fin 150))
       = Fin remaining
       /\ remaining == 50
  /\ exists margin result,
       map fst (Run.processDecisions Samples.allowAll Samples.buyTwice
                  (Fin 150))
       = [Run.Executed margin result; Run.MarginBlocked margin].
Proof.
  split; [vm_compute; repeat constructor|].
  eexists. split; [vm_compute; reflexivity|].
  split; [vm_compute; reflexivity|].
  eexists. eexists. vm_compute. reflexivity.
Qed.

(** * Further properties of the embedded functions *)

(** ** Quantization as an operation on amounts *)

Section TruncationOrder.

Variable d : Z.

Let f := pow10 d.

(** Truncating to the grid is monotone. *)
Lemma truncate_mono (x y : Q) :
  x <= y -> floor (x * f) / f <= floor (y * f) / f.
Proof.
  intros Hxy. pose proof (pow10_pos d) as Hf. fold f in Hf.
  assert (Hm : x * f <= y * f) by nra.
  assert (Hfl : floor (x * f) <= floor (y * f)).
  { unfold floor. rewrite <- Zle_Qle. apply Qfloor_resp_le. exact Hm. }
  unfold Qdiv. apply Qmult_le_compat_r; [exact Hfl|].
  apply Qlt_le_weak, Qinv_lt_0_compat. exact Hf.
Qed.

End TruncationOrder.

(** X1.  The truncation of [adjustPrecision] in buy.ts, for any amount and
    any instrument rule: the result lies on the rule's decimal grid and is
    within one unit of the amount, at most one unit below it and less than
    one unit above it; an amount that is not negative gets a result that is
    not negative; and a larger amount never gets a smaller result.  The
    bounds are those that survive binary floating point, where the loss
    reaches a whole unit (0.29 at two decimals becomes 0.28), quantizing
    twice can lose a second unit (0.58 becomes 0.57 and then 0.56), and the
    result can exceed the amount by a rounding error. *)
Theorem buy_adjustPrecision_truncates (config : Config) (amount other : Q) :
  let unit := pow10 (- quantity config) in
  let adjusted := BuyTs.adjustPrecisionFor config amount in
  onGrid config adjusted
  /\ amount <= adjusted + unit
  /\ adjusted < amount + unit
  /\ (0 <= amount -> 0 <= adjusted)
  /\ (amount <= other -> adjusted <= BuyTs.adjustPrecisionFor config other).
Proof.
  intros unit adjusted. subst adjusted.
  pose proof (pow10_pos (- quantity config)) as Hu. fold unit in Hu.
  split; [apply adjustPrecisionFor_onGrid|].
  unfold BuyTs.adjustPrecisionFor.
  pose proof (truncate_le (quantity config) amount) as Hle.
  pose proof (truncate_gt (quantity config) amount) as Hgt.
  fold unit in Hgt.
  split; [lra|]. split; [lra|].
  split; [apply truncate_nonneg | apply truncate_mono].
Qed.

Section SellQuantization.

Variable config : Config.

Let unit := pow10 (- quantity config).

Lemma unit_onGrid : onGrid config unit.
Proof.
  exists 1%Z. unfold unit. rewrite pow10_opp.
  pose proof (pow10_pos (quantity config)). field. lra.
Qed.

Lemma sell_adjustPrecisionFor_nonpos (x : Q) :
  x <= 0 ->
  SellTs.adjustPrecisionFor config x
  = floor (x * pow10 (quantity config)) / pow10 (quantity config).
Proof.
  intros Hx. unfold SellTs.adjustPrecisionFor.
  assert (E : ltb 0 x = false) by (apply ltb_false; exact Hx).
  rewrite E, andb_false_r. reflexivity.
Qed.

Lemma sell_adjustPrecisionFor_onGrid (x : Q) :
  onGrid config (SellTs.adjustPrecisionFor config x).
Proof.
  unfold SellTs.adjustPrecisionFor.
  destruct (eqb _ 0 && ltb 0 x).
  - apply unit_onGrid.
  - exists (Qfloor (x * pow10 (quantity config))). reflexivity.
Qed.

Lemma sell_adjustPrecisionFor_dust (x : Q) :
  0 < x -> x < unit -> SellTs.adjustPrecisionFor config x = unit.
Proof.
  intros Hpos Hlt.
  destruct (sell_adjustPrecisionFor_cases config x Hpos) as [[_ ->]|[Ht _]];
    [reflexivity|].
  exfalso.
  apply truncate_pos_ge_unit in Ht.
  pose proof (truncate_le (quantity config) x). fold unit in Ht. lra.
Qed.

Lemma sell_adjustPrecisionFor_gt (x : Q) :
  x < SellTs.adjustPrecisionFor config x + unit.
Proof.
  pose proof (pow10_pos (- quantity config)) as Hu. fold unit in Hu.
  destruct (Qlt_le_dec 0 x) as [Hpos|Hle].
  - destruct (sell_adjustPrecisionFor_cases config x Hpos)
      as [[H0 ->]|[_ ->]].
    + pose proof (truncate_gt (quantity config) x) as H.
      rewrite H0 in H. fold unit in H |- *. lra.
    + apply truncate_gt.
  - rewrite sell_adjustPrecisionFor_nonpos by exact Hle. apply truncate_gt.
Qed.

Lemma sell_adjustPrecisionFor_mono (x y : Q) :
  x <= y ->
  SellTs.adjustPrecisionFor config x <= SellTs.adjustPrecisionFor config y.
Proof.
  intros Hxy.
  pose proof (pow10_pos (- quantity config)) as Hu. fold unit in Hu.
  destruct (Qlt_le_dec 0 x) as [Hx|Hx].
  - assert (Hy : 0 < y) by lra.
    pose proof (sell_adjustPrecisionFor_ge_unit config y Hy) as Hge.
    fold unit in Hge.
    destruct (sell_adjustPrecisionFor_cases config x Hx) as [[_ ->]|[Hxt ->]];
      [exact Hge|].
    destruct (sell_adjustPrecisionFor_cases config y Hy) as [[H0 _]|[_ ->]].
    + exfalso.
      pose proof (truncate_mono (quantity config) x y Hxy). lra.
    + apply truncate_mono. exact Hxy.
  - rewrite (sell_adjustPrecisionFor_nonpos x Hx).
    destruct (Qlt_le_dec 0 y) as [Hy|Hy].
    + pose proof (sell_adjustPrecisionFor_ge_unit config y Hy) as Hge.
      fold unit in Hge.
      pose proof (truncate_le (quantity config) x). lra.
    + rewrite (sell_adjustPrecisionFor_nonpos y Hy).
      apply truncate_mono. exact Hxy.
Qed.

End SellQuantization.

(** X2.  [adjustPrecision] of sell.ts and its copy in close_position.ts,
    which returns the same value, for any amount and any instrument rule:
    the result lies on the grid and is within one unit of the amount, at
    most one unit below it and less than one unit above it; a positive
    amount below one unit becomes one whole unit, so that a positive amount
    never becomes zero; and a larger amount never gets a smaller result.
    The bounds are those that survive binary floating point, where the loss
    reaches a whole unit (a close of 0.29 at two decimals sends 0.28) and
    quantizing twice can lose a second unit. *)
Theorem sell_adjustPrecision_rounds_only_dust_up
    (config : Config) (amount other : Q) :
  let unit := pow10 (- quantity config) in
  let adjusted := SellTs.adjustPrecisionFor config amount in
  onGrid config adjusted
  /\ amount <= adjusted + unit
  /\ adjusted < amount + unit
  /\ (0 < amount -> amount < unit -> adjusted = unit)
  /\ (0 < amount -> unit <= adjusted)
  /\ (amount <= other -> adjusted <= SellTs.adjustPrecisionFor config other)
  /\ ClosePositionTs.adjustPrecisionFor config amount = adjusted.
Proof.
  intros unit adjusted. subst adjusted.
  pose proof (pow10_pos (- quantity config)) as Hu. fold unit in Hu.
  split; [apply sell_adjustPrecisionFor_onGrid|].
  split; [apply Qlt_le_weak, sell_adjustPrecisionFor_gt|].
  split.
  { destruct (Qlt_le_dec 0 amount) as [Hpos|Hle].
    - destruct (Qlt_le_dec amount unit) as [Hdust|Hge].
      + rewrite (sell_adjustPrecisionFor_dust config amount Hpos Hdust).
        fold unit. lra.
      + pose proof (sell_adjustPrecisionFor_le config amount Hge). lra.
    - rewrite sell_adjustPrecisionFor_nonpos by exact Hle.
      pose proof (truncate_le (quantity config) amount). lra. }
  split; [apply sell_adjustPrecisionFor_dust|].
  split; [apply sell_adjustPrecisionFor_ge_unit|].
  split; [apply sell_adjustPrecisionFor_mono|].
  apply close_adjustPrecisionFor_eq.
Qed.

(** ** What [shortSell] does with a small amount *)

Lemma sell_quantityOr3_cases (binanceSymbol : string) :
  SellTs.quantityOr3 binanceSymbol = quantity (SellTs.configOf binanceSymbol)
  \/ (quantity (SellTs.configOf binanceSymbol) = 0%Z
      /\ SellTs.quantityOr3 binanceSymbol = 3%Z).
Proof.
  unfold SellTs.quantityOr3, SellTs.configOf.
  destruct (SellTs.SYMBOL_PRECISION !! binanceSymbol) as [entry|]; cbn.
  - destruct (Z.eqb_spec (quantity entry) 0); [right | left]; auto.
  - left. reflexivity.
Qed.

Lemma sell_minAmount_le_unit (binanceSymbol : string) :
  pow10 (- SellTs.quantityOr3 binanceSymbol)
  <= pow10 (- quantity (SellTs.configOf binanceSymbol)).
Proof.
  destruct (sell_quantityOr3_cases binanceSymbol) as [->|[-> ->]].
  - apply Qle_refl.
  - vm_compute. discriminate.
Qed.

Lemma includes_truthy (s t : string) :
  includes s (String "/" t) = true -> truthy s = true.
Proof.
  destruct s; [rewrite includes_empty; discriminate | reflexivity].
Qed.

Lemma sell_adjustPrecision_ge_unit (amount : Q) (binanceSymbol : string) :
  0 < amount ->
  pow10 (- quantity (SellTs.configOf binanceSymbol))
  <= SellTs.adjustPrecision amount binanceSymbol.
Proof. apply sell_adjustPrecisionFor_ge_unit. Qed.

Section ShortSmall.

Variable params : SellTs.ShortSellParams.
Variable w : Exchange.
Variable cache : option PositionMode.

Let binanceSymbol := replaceSlash (SellTs.s_symbol params).
Let adjusted := SellTs.adjustPrecision (SellTs.s_amount params) binanceSymbol.

Hypothesis symbol_ok : includes (SellTs.s_symbol params) "/" = true.
Hypothesis amount_pos : 0 < SellTs.s_amount params.
Hypothesis synced : ensureTimeSync w = None.
Hypothesis connected : getBinanceInstance w = None.

Local Opaque SellTs.orderLoop SellTs.adjustPrecision
  PositionModeCache.getPositionMode includes pow10.

(** A valid request for a positive amount reaches the submission loop. *)
Lemma shortSell_submits :
  exists mode cache1 queries,
    PositionModeCache.getPositionMode (modeWorld w) cache
    = mkOutcome (inr mode) cache1 queries
    /\ trace (SellTs.shortSell params w cache)
       = queries
         ++ trace (SellTs.orderLoop w binanceSymbol SELL
                     (if given (SellTs.s_price params) then LIMIT else MARKET)
                     [1; 2; 3]%nat
                     (SellTs.shortOrderParams (SellTs.s_price params)
                        adjusted mode) cache1).
Proof.
  destruct (getPositionMode_total (modeWorld w) cache) as [mode [Hv Hc]].
  destruct (PositionModeCache.getPositionMode (modeWorld w) cache)
    as [v cache1 queries] eqn:Emode.
  cbn in Hv, Hc. subst v.
  exists mode, cache1, queries. split; [reflexivity|].
  unfold SellTs.shortSell.
  rewrite symbol_ok, (includes_truthy _ _ symbol_ok). cbn.
  assert (Ea : leb (SellTs.s_amount params) 0 = false)
    by (apply leb_false; exact amount_pos).
  rewrite Ea, synced, connected.
  fold binanceSymbol. fold adjusted.
  pose proof (sell_adjustPrecision_ge_unit _ binanceSymbol amount_pos)
    as Hadj.
  fold adjusted in Hadj.
  pose proof (sell_minAmount_le_unit binanceSymbol) as Hmin.
  pose proof (pow10_pos (- SellTs.quantityOr3 binanceSymbol)) as Hpos.
  assert (E1 : leb adjusted 0 = false) by (apply leb_false; lra).
  assert (E2 : ltb adjusted (pow10 (- SellTs.quantityOr3 binanceSymbol))
               = false) by (apply ltb_false; lra).
  unfold catch, bind, awaitVoid, ret. cbn.
  rewrite E1, E2. cbn. rewrite Emode. cbn.
  destruct (SellTs.orderLoop w binanceSymbol SELL _ _ _ cache1)
    as [[e|data] c2 t2]; cbn; rewrite ?app_nil_r; reflexivity.
Qed.

End ShortSmall.

(** X3.  [shortSell] never turns a positive amount away as too small: once
    the symbol has a slash, the amount is positive and the clock and client
    are available, an order goes out.  Its quantity is the quantized amount,
    at least one unit of the symbol's grid, so that a request below one unit
    is sent as one whole unit; the retries repeat the same order. *)
Theorem shortSell_rounds_dust_up (params : SellTs.ShortSellParams)
    (w : Exchange) (cache : option PositionMode) :
  includes (SellTs.s_symbol params) "/" = true ->
  0 < SellTs.s_amount params ->
  ensureTimeSync w = None ->
  getBinanceInstance w = None ->
  let binanceSymbol := replaceSlash (SellTs.s_symbol params) in
  let unit := pow10 (- quantity (SellTs.configOf binanceSymbol)) in
  exists first later,
    ordersOf (trace (SellTs.shortSell params w cache)) = first :: later
    /\ p_quantity first
       = SellTs.adjustPrecision (SellTs.s_amount params) binanceSymbol
    /\ unit <= p_quantity first
    /\ (SellTs.s_amount params < unit -> p_quantity first = unit)
    /\ Forall (fun sent => sent = first) later.
Proof.
  intros Hsym Hpos Hsync Hinst binanceSymbol unit.
  destruct (shortSell_submits params w cache Hsym Hpos Hsync Hinst)
    as [mode [cache1 [queries [Hmode Htrace]]]].
  rewrite Htrace, ordersOf_app.
  pose proof (getPositionMode_quiet (modeWorld w) cache) as [Hq _].
  rewrite Hmode in Hq. cbn in Hq. rewrite Hq. cbn [app].
  fold binanceSymbol.
  match goal with
  | |- context [SellTs.orderLoop w ?bs ?sd ?ty _ ?op cache1] =>
      destruct (sell_orderLoop_run w bs sd ty op cache1)
        as [_ [_ [Hall [n [Hn [_ [Hlen _]]]]]]];
      destruct (ordersOf (trace (SellTs.orderLoop w bs sd ty _ op cache1)))
        as [|first later]; [cbn in Hlen; lia|]
  end.
  apply Forall_cons_1 in Hall. destruct Hall as [-> Hall].
  eexists _, later. split; [reflexivity|]. cbn.
  split; [reflexivity|].
  split; [apply sell_adjustPrecision_ge_unit; exact Hpos|].
  split; [apply sell_adjustPrecisionFor_dust; exact Hpos | exact Hall].
Qed.

Lemma shortSell_rounds_dust_up_witness :
  exists first later,
    ordersOf (trace (SellTs.shortSell MoreSamples.dustShort Samples.calm None))
    = first :: later
    /\ p_quantity first = SellTs.adjustPrecision (1 # 10000) "BTCUSDT"
    /\ pow10 (- 3) <= p_quantity first
    /\ (1 # 10000 < pow10 (- 3) -> p_quantity first = pow10 (- 3))
    /\ Forall (fun sent => sent = first) later.
Proof.
  apply (shortSell_rounds_dust_up MoreSamples.dustShort Samples.calm None);
    reflexivity.
Defined.

(** ** A result with success = true is a filled order *)

Lemma last_app_cons {A} (l1 l2 : list A) (x : A) :
  last l2 = Some x -> last (l1 ++ l2) = Some x.
Proof.
  intros H. destruct l2 as [|y l2]; [discriminate|].
  rewrite last_app. rewrite H. reflexivity.
Qed.

Section Fills.

Local Opaque BuyTs.orderLoop SellTs.orderLoop.

(** X4.  [buy], [closePosition] and [shortSell] report success only for an
    order the exchange accepted: when the result has success = true, the
    last order sent was answered with order data on some attempt 1 to 3, and
    the result is the one built from that data.  A result that is not a
    success carries an error text. *)
Theorem success_is_a_fill (w : Exchange) (cache : option PositionMode) :
  let accepted (o : Outcome OrderResult) :=
    forall result,
      value o = inr result ->
      (success result = true ->
       exists n sent data,
         (1 <= n <= 3)%nat
         /\ last (ordersOf (trace o)) = Some sent
         /\ newOrder w n sent = inr data
         /\ result = filled data)
      /\ (success result = false -> exists e, result = failure e) in
  (forall params, accepted (BuyTs.buy params w cache))
  /\ (forall params, accepted (SellTs.closePosition params w cache))
  /\ (forall params, accepted (SellTs.shortSell params w cache)).
Proof.
  intros accepted. subst accepted. cbv beta.
  split; [|split]; intros params result Hv.
  - destruct (buy_run params w cache)
      as [[e [Hv' _]]
         |[a [l [mode [cache1 [queries [_ [_ [_ [Hmode Hrun]]]]]]]]]].
    + rewrite Hv in Hv'. injection Hv' as ->.
      split; [discriminate | eauto].
    + cbv zeta in Hrun. rewrite Hrun in Hv |- *. cbn in Hv |- *.
      pose proof (getPositionMode_quiet (modeWorld w) cache) as [Hq _].
      rewrite Hmode in Hq. cbn in Hq.
      rewrite ordersOf_app, Hq. cbn [app].
      match type of Hv with
      | context [BuyTs.orderLoop w ?bs ?ty _ ?a0 ?op None cache1] =>
          destruct (buy_orderLoop_run w bs ty a0 op cache1)
            as [_ [_ [_ [_ [n [sent [Hn [_ [_ [Hlast [Hval _]]]]]]]]]]];
          destruct (value (BuyTs.orderLoop w bs ty _ a0 op None cache1))
            as [e|data] eqn:Eloop
      end; injection Hv as <-.
      * split; [discriminate | eauto].
      * split; [|discriminate]. intros _.
        exists n, sent, data. auto.
  - destruct (closePosition_run params w cache)
      as [[e [Hv' _]]
         |[ca [ps [pz [mode [cache1 [queries
            [_ [_ [_ [Hmode Hrun]]]]]]]]]]].
    + rewrite Hv in Hv'. injection Hv' as ->.
      split; [discriminate | eauto].
    + cbv zeta in Hrun. destruct Hrun as [_ Hrun].
      rewrite Hrun in Hv |- *. cbn in Hv |- *.
      pose proof (getPositionMode_quiet (modeWorld w) cache) as [Hq _].
      rewrite Hmode in Hq. cbn in Hq.
      rewrite ordersOf_app, Hq. cbn [app].
      match type of Hv with
      | context [SellTs.orderLoop w ?bs ?sd ?ty _ ?op cache1] =>
          destruct (sell_orderLoop_run w bs sd ty op cache1)
            as [_ [_ [_ [n [Hn [_ [_ [Hlast [Hval _]]]]]]]]];
          destruct (value (SellTs.orderLoop w bs sd ty _ op cache1))
            as [e|data] eqn:Eloop
      end; injection Hv as <-.
      * split; [discriminate | eauto].
      * split; [|discriminate]. intros _.
        eexists n, _, data. eauto.
  - destruct (shortSell_run params w cache)
      as [[e [Hv' _]]|[mode [cache1 [queries [Hmode Hrun]]]]].
    + rewrite Hv in Hv'. injection Hv' as ->.
      split; [discriminate | eauto].
    + cbv zeta in Hrun. rewrite Hrun in Hv |- *. cbn in Hv |- *.
      pose proof (getPositionMode_quiet (modeWorld w) cache) as [Hq _].
      rewrite Hmode in Hq. cbn in Hq.
      rewrite ordersOf_app, Hq. cbn [app].
      match type of Hv with
      | context [SellTs.orderLoop w ?bs ?sd ?ty _ ?op cache1] =>
          destruct (sell_orderLoop_run w bs sd ty op cache1)
            as [_ [_ [_ [n [Hn [_ [_ [Hlast [Hval _]]]]]]]]];
          destruct (value (SellTs.orderLoop w bs sd ty _ op cache1))
            as [e|data] eqn:Eloop
      end; injection Hv as <-.
      * split; [discriminate | eauto].
      * split; [|discriminate]. intros _.
        eexists n, _, data. eauto.
Qed.

End Fills.

(** ** No traffic without a valid request *)

Section Validation.

Variable w : Exchange.
Variable cache : option PositionMode.

Local Opaque BuyTs.orderLoop BuyTs.sizeOrder SellTs.orderLoop
  SellTs.resolveClose SellTs.adjustPrecision
  PositionModeCache.getPositionMode BuyTs.resolvePrice includes pow10.

Lemma buy_traffic_validated (params : BuyTs.BuyParams) :
  trace (BuyTs.buy params w cache) <> [] ->
  includes (BuyTs.symbol params) "/" = true
  /\ 0 < BuyTs.amount params
  /\ 1 <= default 10 (BuyTs.leverage params) <= 30
  /\ ensureTimeSync w = None
  /\ getBinanceInstance w = None.
Proof.
  unfold BuyTs.buy.
  destruct (includes (BuyTs.symbol params) "/") eqn:Esym;
    [|rewrite orb_true_r; cbn; congruence].
  rewrite orb_false_r.
  destruct (negb (truthy (BuyTs.symbol params))); [cbn; congruence|].
  destruct (leb (BuyTs.amount params) 0) eqn:Eamt; [cbn; congruence|].
  destruct (ltb (default 10 (BuyTs.leverage params)) 1
            || ltb 30 (default 10 (BuyTs.leverage params))) eqn:Elev;
    [cbn; congruence|].
  apply leb_false in Eamt. apply orb_false_iff in Elev.
  destruct Elev as [El1 El2]. apply ltb_false in El1, El2.
  destruct (ensureTimeSync w) as [e|]; [cbn; congruence|].
  destruct (getBinanceInstance w) as [e|]; [cbn; congruence|].
  intros _. auto.
Qed.

Lemma closePosition_traffic_validated (params : SellTs.ClosePositionParams) :
  trace (SellTs.closePosition params w cache) <> [] ->
  includes (SellTs.symbol params) "/" = true
  /\ 0 < default 100 (SellTs.percentage params) <= 100
  /\ ensureTimeSync w = None
  /\ getBinanceInstance w = None.
Proof.
  unfold SellTs.closePosition.
  destruct (includes (SellTs.symbol params) "/") eqn:Esym;
    [|rewrite orb_true_r; cbn; congruence].
  rewrite orb_false_r.
  destruct (negb (truthy (SellTs.symbol params))); [cbn; congruence|].
  destruct (leb (default 100 (SellTs.percentage params)) 0
            || ltb 100 (default 100 (SellTs.percentage params))) eqn:Epct;
    [cbn; congruence|].
  apply orb_false_iff in Epct. destruct Epct as [E1 E2].
  apply leb_false in E1. apply ltb_false in E2.
  destruct (ensureTimeSync w) as [e|]; [cbn; congruence|].
  destruct (getBinanceInstance w) as [e|]; [cbn; congruence|].
  intros _. auto.
Qed.

Lemma shortSell_traffic_validated (params : SellTs.ShortSellParams) :
  trace (SellTs.shortSell params w cache) <> [] ->
  includes (SellTs.s_symbol params) "/" = true
  /\ 0 < SellTs.s_amount params
  /\ ensureTimeSync w = None
  /\ getBinanceInstance w = None.
Proof.
  unfold SellTs.shortSell.
  destruct (includes (SellTs.s_symbol params) "/") eqn:Esym;
    [|rewrite orb_true_r; cbn; congruence].
  rewrite orb_false_r.
  destruct (negb (truthy (SellTs.s_symbol params))); [cbn; congruence|].
  destruct (leb (SellTs.s_amount params) 0) eqn:Eamt; [cbn; congruence|].
  apply leb_false in Eamt.
  destruct (ensureTimeSync w) as [e|]; [cbn; congruence|].
  destruct (getBinanceInstance w) as [e|]; [cbn; congruence|].
  intros _. auto.
Qed.

End Validation.

(** X5.  Nothing is asked of the exchange for a request that fails
    validation.  If a call of [buy], [closePosition] or [shortSell] leaves
    any event at all (a mode query, an order, a pause), then the symbol
    contains a slash, the amount is positive (for [buy], [shortSell]), the
    leverage lies in 1..30 (for [buy], 10 when omitted), the percentage in
    (0, 100] (for [closePosition], 100 when omitted), and the time
    synchronisation and the client were available. *)
Theorem traffic_only_after_validation (w : Exchange)
    (cache : option PositionMode) :
  (forall params,
      trace (BuyTs.buy params w cache) <> [] ->
      includes (BuyTs.symbol params) "/" = true
      /\ 0 < BuyTs.amount params
      /\ 1 <= default 10 (BuyTs.leverage params) <= 30
      /\ ensureTimeSync w = None
      /\ getBinanceInstance w = None)
  /\ (forall params,
        trace (SellTs.closePosition params w cache) <> [] ->
        includes (SellTs.symbol params) "/" = true
        /\ 0 < default 100 (SellTs.percentage params) <= 100
        /\ ensureTimeSync w = None
        /\ getBinanceInstance w = None)
  /\ (forall params,
        trace (SellTs.shortSell params w cache) <> [] ->
        includes (SellTs.s_symbol params) "/" = true
        /\ 0 < SellTs.s_amount params
        /\ ensureTimeSync w = None
        /\ getBinanceInstance w = None).
Proof.
  split; [|split]; intros params.
  - apply buy_traffic_validated.
  - apply closePosition_traffic_validated.
  - apply shortSell_traffic_validated.
Qed.

(** ** [buy] for a symbol outside the precision table *)

Section UnknownSymbol.

Variable symbol : string.
Variable amount leverage currentPrice : Q.

Let binanceSymbol := replaceSlash symbol.
Let adjusted := BuyTs.adjustPrecisionFor fallbackConfig amount.

Hypothesis unknown : BuyTs.SYMBOL_PRECISION !! binanceSymbol = None.

Lemma unknown_configOf : BuyTs.configOf binanceSymbol = fallbackConfig.
Proof. unfold BuyTs.configOf. rewrite unknown. reflexivity. Qed.

Lemma unknown_quantityOr3 : BuyTs.quantityOr3 binanceSymbol = 3%Z.
Proof. unfold BuyTs.quantityOr3. rewrite unknown. reflexivity. Qed.

(** Below the minimum notional the sizing reads [minNotional] of a missing
    table entry; at or above it the fallback rule sizes the order. *)
Lemma sizeOrder_unknown_below :
  adjusted * currentPrice < 100 ->
  BuyTs.sizeOrder symbol amount leverage currentPrice
  = BuyTs.Thrown BuyTs.undefinedMinNotional.
Proof.
  intros Hlt. unfold BuyTs.sizeOrder, BuyTs.notionalStep,
    BuyTs.checkMinNotional, BuyTs.adjustPrecision.
  fold binanceSymbol. rewrite unknown_configOf. fold adjusted.
  unfold BuyTs.checkMinNotionalFor.
  assert (E : ltb (adjusted * currentPrice) (minNotional fallbackConfig)
              = true) by (apply ltb_spec; exact Hlt).
  rewrite E. cbn [BuyTs.valid negb]. rewrite unknown. reflexivity.
Qed.

Lemma sizeOrder_unknown_above :
  0 < amount ->
  100 <= adjusted * currentPrice ->
  BuyTs.sizeOrder symbol amount leverage currentPrice
  = BuyTs.Sized adjusted (Fin leverage).
Proof.
  intros Hpos Hge.
  assert (Hnn : 0 <= adjusted).
  { apply (truncate_nonneg 3). lra. }
  assert (Ha : 0 < adjusted).
  { destruct (Qlt_le_dec 0 adjusted) as [H|H]; [exact H|].
    exfalso. assert (adjusted == 0) by lra. nra. }
  assert (Hunit : pow10 (Z.opp 3) <= adjusted).
  { apply (onGrid_pos_ge_unit fallbackConfig);
      [apply adjustPrecisionFor_onGrid | exact Ha]. }
  unfold BuyTs.sizeOrder, BuyTs.notionalStep, BuyTs.checkMinNotional,
    BuyTs.adjustPrecision.
  fold binanceSymbol. rewrite unknown_configOf, unknown_quantityOr3.
  fold adjusted. unfold BuyTs.checkMinNotionalFor.
  assert (E : ltb (adjusted * currentPrice) (minNotional fallbackConfig)
              = false) by (apply ltb_false; exact Hge).
  rewrite E. cbn [BuyTs.valid negb].
  rewrite smallOrderStep_large by assumption.
  unfold BuyTs.finalChecks, BuyTs.checkMinNotional.
  rewrite unknown_configOf. unfold BuyTs.checkMinNotionalFor. rewrite E.
  assert (E1 : leb adjusted 0 = false) by (apply leb_false; exact Ha).
  assert (E2 : ltb adjusted (pow10 (Z.opp 3)) = false)
    by (apply ltb_false; exact Hunit).
  rewrite E1, E2. reflexivity.
Qed.

End UnknownSymbol.

Section BuySizedRun.

Variable params : BuyTs.BuyParams.
Variable w : Exchange.
Variable cache : option PositionMode.

Let binanceSymbol := replaceSlash (BuyTs.symbol params).
Let currentPrice := BuyTs.resolvePrice w (BuyTs.price params) binanceSymbol.

Hypothesis symbol_ok : includes (BuyTs.symbol params) "/" = true.
Hypothesis amount_pos : 0 < BuyTs.amount params.
Hypothesis leverage_ok : 1 <= default 10 (BuyTs.leverage params) <= 30.
Hypothesis synced : ensureTimeSync w = None.
Hypothesis connected : getBinanceInstance w = None.

Local Opaque BuyTs.orderLoop BuyTs.sizeOrder
  PositionModeCache.getPositionMode BuyTs.resolvePrice includes.

Lemma buy_validated :
  BuyTs.buy params w cache
  = catch
      (awaitVoid None ;;;
       awaitVoid None ;;;
       match BuyTs.sizeOrder (BuyTs.symbol params) (BuyTs.amount params)
               (default 10 (BuyTs.leverage params)) currentPrice with
       | BuyTs.Thrown e => throw e
       | BuyTs.Rejected e => ret (failure e)
       | BuyTs.Sized adjustedAmount effectiveLeverage =>
           catch (awaitVoid (changeInitialLeverage w)) (fun _ => ret tt) ;;;
           positionMode <- PositionModeCache.getPositionMode (modeWorld w) ;;
           orderResult <-
             BuyTs.orderLoop w binanceSymbol
               (if given (BuyTs.price params) then LIMIT else MARKET)
               [1; 2; 3]%nat adjustedAmount
               (BuyTs.prepareOrderParams (BuyTs.price params) adjustedAmount
                  positionMode) None ;;
           ret (filled orderResult)
       end)
      (fun error => ret (failure (BuyTs.errorText error)))
      cache.
Proof.
  unfold BuyTs.buy.
  rewrite symbol_ok, (includes_truthy _ _ symbol_ok). cbn [negb orb].
  assert (Ea : leb (BuyTs.amount params) 0 = false)
    by (apply leb_false; exact amount_pos).
  assert (El : ltb (default 10 (BuyTs.leverage params)) 1
               || ltb 30 (default 10 (BuyTs.leverage params)) = false).
  { apply orb_false_iff. split; apply ltb_false; lra. }
  rewrite Ea, El, synced, connected. reflexivity.
Qed.

(** A valid request whose sizing ends with an amount reaches the
    submission loop, and its first order is for that amount. *)
Lemma buy_sized_submits (a : Q) (l : xnum) :
  BuyTs.sizeOrder (BuyTs.symbol params) (BuyTs.amount params)
    (default 10 (BuyTs.leverage params)) currentPrice
  = BuyTs.Sized a l ->
  exists first later,
    ordersOf (trace (BuyTs.buy params w cache)) = first :: later
    /\ p_quantity first = a.
Proof.
  intros Hsize. rewrite buy_validated, Hsize.
  destruct (getPositionMode_total (modeWorld w) cache) as [mode [Hv Hc]].
  pose proof (getPositionMode_quiet (modeWorld w) cache) as [Hq _].
  destruct (PositionModeCache.getPositionMode (modeWorld w) cache)
    as [v cache1 queries] eqn:Emode.
  cbn in Hv, Hc, Hq. subst v.
  match goal with
  | |- context [BuyTs.orderLoop w ?bs ?ty _ a (?op _) None] =>
      destruct (buy_orderLoop_run w bs ty a (op mode) cache1)
        as [_ [_ [_ [[rest Hrest] _]]]]
  end.
  exists (BuyTs.prepareOrderParams (BuyTs.price params) a mode), rest.
  split; [|reflexivity].
  destruct (changeInitialLeverage w) as [e|];
    unfold catch, bind, awaitVoid, ret; cbn; rewrite Emode; cbn;
    match goal with
    | |- context [BuyTs.orderLoop w ?bs ?ty ?ats a ?op None cache1] =>
        destruct (BuyTs.orderLoop w bs ty ats a op None cache1)
          as [[e'|data] c2 t2]
    end; cbn in Hrest |- *; rewrite ?app_nil_r, ordersOf_app, Hq; exact Hrest.
Qed.

End BuySizedRun.

(** X6.  A valid [buy] request for a symbol that is not in
    SYMBOL_PRECISION.  The amount is quantized with the fallback rule (three
    decimals).  If its value at the effective price is below 100, the
    escalation step reads [minNotional] of the missing table entry: the
    call returns success = false with the text of that TypeError and sends
    nothing.  If the value is at least 100, the order goes out with the
    quantized amount. *)
Theorem buy_unknown_symbol (params : BuyTs.BuyParams) (w : Exchange)
    (cache : option PositionMode) :
  includes (BuyTs.symbol params) "/" = true ->
  0 < BuyTs.amount params ->
  1 <= default 10 (BuyTs.leverage params) <= 30 ->
  ensureTimeSync w = None ->
  getBinanceInstance w = None ->
  let binanceSymbol := replaceSlash (BuyTs.symbol params) in
  BuyTs.SYMBOL_PRECISION !! binanceSymbol = None ->
  let currentPrice :=
    BuyTs.resolvePrice w (BuyTs.price params) binanceSymbol in
  let adjusted := BuyTs.adjustPrecisionFor fallbackConfig (BuyTs.amount params) in
  (adjusted * currentPrice < 100 ->
   BuyTs.buy params w cache
   = mkOutcome
       (inr (failure (BuyTs.errorText BuyTs.undefinedMinNotional))) cache [])
  /\ (100 <= adjusted * currentPrice ->
      exists first later,
        ordersOf (trace (BuyTs.buy params w cache)) = first :: later
        /\ p_quantity first = adjusted).
Proof.
  intros Hsym Hpos Hlev Hsync Hinst binanceSymbol Hunknown currentPrice
    adjusted.
  split.
  - intros Hlt.
    pose proof (sizeOrder_unknown_below (BuyTs.symbol params)
                  (BuyTs.amount params) (default 10 (BuyTs.leverage params))
                  currentPrice Hunknown Hlt) as Hsize.
    rewrite (buy_validated params w cache Hsym Hpos Hlev Hsync Hinst).
    fold binanceSymbol. fold currentPrice. rewrite Hsize. reflexivity.
  - intros Hge.
    pose proof (sizeOrder_unknown_above (BuyTs.symbol params)
                  (BuyTs.amount params) (default 10 (BuyTs.leverage params))
                  currentPrice Hunknown Hpos Hge) as Hsize.
    apply (buy_sized_submits params w cache Hsym Hpos Hlev Hsync Hinst
             _ _ Hsize).
Qed.

Lemma buy_unknown_symbol_witness :
  (BuyTs.adjustPrecisionFor fallbackConfig (1 # 1000) * 50000 < 100 ->
   BuyTs.buy MoreSamples.exoticBuy Samples.calm None
   = mkOutcome
       (inr (failure (BuyTs.errorText BuyTs.undefinedMinNotional))) None [])
  /\ (100 <= BuyTs.adjustPrecisionFor fallbackConfig (1 # 1000) * 50000 ->
      exists first later,
        ordersOf (trace (BuyTs.buy MoreSamples.exoticBuy Samples.calm None))
        = first :: later
        /\ p_quantity first
           = BuyTs.adjustPrecisionFor fallbackConfig (1 # 1000)).
Proof.
  apply (buy_unknown_symbol MoreSamples.exoticBuy Samples.calm None);
    try reflexivity.
  - vm_compute. split; discriminate.
Defined.

(** ** The position mode is resolved once *)

(** X7.  Whatever the exchange does, [getPositionMode] returns a mode and
    leaves exactly that mode in the cache, so that the next call, against
    any state of the exchange, returns the same mode without a query.  In
    one call the SDK is asked before the REST endpoint, each at most once,
    and the REST endpoint only when the cache was empty and no SDK method
    delivered an answer. *)
Theorem getPositionMode_resolves_once
    (w later : PositionModeCache.World) (cache : option PositionMode) :
  let first := PositionModeCache.getPositionMode w cache in
  exists mode,
    value first = inr mode
    /\ cacheAfter first = Some mode
    /\ PositionModeCache.getPositionMode later (cacheAfter first)
       = mkOutcome (inr mode) (Some mode) []
    /\ (exists sdk rest,
          trace first = map EvModeQuery (sdk ++ rest)
          /\ (sdk = [] \/ sdk = [SdkPositionMode] \/ sdk = [SdkGetPositionMode])
          /\ (rest = [] \/ rest = [Rest]))
    /\ (In (EvModeQuery Rest) (trace first) ->
        cache = None
        /\ exists client,
             PositionModeCache.getBinanceInstance w = inr client
             /\ PositionModeCache.ensureTimeSync w = None
             /\ PositionModeCache.sdkFails client = true).
Proof.
  intros first. subst first.
  destruct cache as [mode|].
  { exists mode. repeat split; try reflexivity.
    - exists [], []. auto.
    - destruct H.
    - destruct H. }
  destruct w as [[e|[[[e1|b1]|] [[e2|b2]|]]] [e3|] [e4|[b4|]]];
    cbn; eexists; (split; [reflexivity|]); (split; [reflexivity|]);
    (split; [reflexivity|]);
    (split;
     [first
        [ exists [], []; split; [reflexivity | auto]
        | exists [SdkPositionMode], []; split; [reflexivity | auto]
        | exists [SdkGetPositionMode], []; split; [reflexivity | auto]
        | exists [], [Rest]; split; [reflexivity | auto]
        | exists [SdkPositionMode], [Rest]; split; [reflexivity | auto]
        | exists [SdkGetPositionMode], [Rest]; split; [reflexivity | auto] ]
     | intros Hin; split; [reflexivity|];
       repeat (destruct Hin as [Hin|Hin]; [try discriminate Hin|]);
       try (destruct Hin; fail);
       try (eexists; split; [reflexivity | split; reflexivity]) ]).
Qed.

(** ** The smart adjustment of a closing amount *)

(** X8.  In [smartAdjustAmount] of sell.ts the branches 'min' and 'all',
    which handle an amount that quantizes to less than one unit, are never
    taken for a positive amount, because the quantization already raises
    such an amount to one unit.  For a positive amount the function returns
    the quantized amount with type 'none' when that does not exceed the
    position, and otherwise the quantized position size with type
    'percentage'.  [smartAdjustSellAmount] of close_position.ts returns the
    same amount. *)
Theorem smartAdjustAmount_positive
    (amount positionSize : Q) (symbol : string) :
  0 < amount ->
  let binanceSymbol := replaceSlash symbol in
  let adjusted := SellTs.adjustPrecision amount binanceSymbol in
  let result := SellTs.smartAdjustAmount amount symbol positionSize in
  ((adjusted <= positionSize
    /\ result = SellTs.mkSmart adjusted SellTs.atNone)
   \/ (positionSize < adjusted
       /\ result
          = SellTs.mkSmart (SellTs.adjustPrecision positionSize binanceSymbol)
              SellTs.atPercentage))
  /\ ClosePositionTs.smartAdjustSellAmount amount symbol positionSize
     = SellTs.adjustedAmount result.
Proof.
  intros Hpos binanceSymbol adjusted result.
  subst result adjusted.
  unfold SellTs.smartAdjustAmount, ClosePositionTs.smartAdjustSellAmount,
    SellTs.adjustPrecision.
  fold binanceSymbol.
  change (ClosePositionTs.configOf binanceSymbol)
    with (SellTs.configOf binanceSymbol).
  set (config := SellTs.configOf binanceSymbol).
  unfold SellTs.smartAdjustAmountFor,
    ClosePositionTs.smartAdjustSellAmountFor.
  change (ClosePositionTs.adjustPrecisionFor config)
    with (SellTs.adjustPrecisionFor config).
  pose proof (sell_adjustPrecisionFor_ge_unit config amount Hpos) as Hge.
  pose proof (pow10_pos (- quantity config)) as Hu.
  set (a := SellTs.adjustPrecisionFor config amount) in *.
  assert (E1 : eqb a 0 = false) by (apply eqb_false; lra).
  assert (E2 : ltb a (pow10 (- quantity config)) = false)
    by (apply ltb_false; exact Hge).
  rewrite E1, E2. cbn [orb].
  destruct (ltb positionSize a) eqn:E3.
  - split; [|reflexivity]. right. apply ltb_spec in E3. auto.
  - split; [|reflexivity]. left. apply ltb_false in E3. auto.
Qed.

Lemma smartAdjustAmount_positive_witness :
  ((SellTs.adjustPrecision (1 # 2) "BTCUSDT" <= 1
    /\ SellTs.smartAdjustAmount (1 # 2) "BTC/USDT" 1
       = SellTs.mkSmart (SellTs.adjustPrecision (1 # 2) "BTCUSDT")
           SellTs.atNone)
   \/ (1 < SellTs.adjustPrecision (1 # 2) "BTCUSDT"
       /\ SellTs.smartAdjustAmount (1 # 2) "BTC/USDT" 1
          = SellTs.mkSmart (SellTs.adjustPrecision 1 "BTCUSDT")
              SellTs.atPercentage))
  /\ ClosePositionTs.smartAdjustSellAmount (1 # 2) "BTC/USDT" 1
     = SellTs.adjustedAmount (SellTs.smartAdjustAmount (1 # 2) "BTC/USDT" 1).
Proof.
  apply (smartAdjustAmount_positive (1 # 2) 1 "BTC/USDT"). reflexivity.
Defined.

(** ** The retry handler of [sell] in close_position.ts *)

Section MismatchHandler.

Variable w : Exchange.
Variable binanceSymbol : string.
Variable side : Side.
Variable orderType : OrderType.
Variable positionSide : PositionSide.
Variable orderParams : OrderParams.
Variable e : JsError.

Hypothesis refused : newOrder w 1 orderParams = inl e.
Hypothesis mismatch :
  includes (orElse (responseMsg e) (message e))
    "position side does not match" = true.
Hypothesis connected : getBinanceInstance w = None.

(** A re-query that fails leaves the loop at once: the error of the
    re-query is thrown from inside the handler. *)
Lemma close_orderLoop_requery_fails (e' : JsError) (later : list nat)
    (cache : option PositionMode) :
  positionModeRequery w = inl e' ->
  ClosePositionTs.orderLoop w binanceSymbol side orderType positionSide
    (1%nat :: later) orderParams None cache
  = mkOutcome (inl e') cache
      [EvNewOrder 1 binanceSymbol side orderType orderParams;
       EvModeQuery SdkPositionMode].
Proof.
  intros Hq. cbn [ClosePositionTs.orderLoop].
  rewrite refused, mismatch. cbn [Nat.eqb andb].
  unfold ClosePositionTs.onPositionSideMismatch.
  rewrite connected, Hq. reflexivity.
Qed.

End MismatchHandler.

(** X9.  The submission loop of [sell] (close_position.ts) after the first
    order was refused with a position-side mismatch.  The exchange is asked
    for the position mode exactly once.  If that question fails, its error
    leaves the loop at once: no pause, no second attempt.  If it is
    answered, the second order, and the third if there is one, carry the
    parameters rebuilt from the answer (positionSide without reduceOnly in
    dual-side mode, reduceOnly without positionSide otherwise), with the
    quantity and price unchanged; the cache is as before. *)
Theorem sell_loop_after_mismatch (w : Exchange) (binanceSymbol : string)
    (side : Side) (orderType : OrderType) (positionSide : PositionSide)
    (orderParams : OrderParams) (e : JsError) (cache : option PositionMode) :
  newOrder w 1 orderParams = inl e ->
  includes (orElse (responseMsg e) (message e))
    "position side does not match" = true ->
  getBinanceInstance w = None ->
  let run :=
    ClosePositionTs.orderLoop w binanceSymbol side orderType positionSide
      [1; 2; 3]%nat orderParams None cache in
  match positionModeRequery w with
  | inl e' =>
      run = mkOutcome (inl e') cache
              [EvNewOrder 1 binanceSymbol side orderType orderParams;
               EvModeQuery SdkPositionMode]
  | inr dual =>
      let rebuilt :=
        if dual
        then mkParams (p_quantity orderParams) (Some positionSide) false
               (p_price orderParams) (p_timeInForce orderParams)
        else mkParams (p_quantity orderParams) None true
               (p_price orderParams) (p_timeInForce orderParams) in
      queriesOf (trace run) = [SdkPositionMode]
      /\ cacheAfter run = cache
      /\ exists later,
           ordersOf (trace run) = orderParams :: rebuilt :: later
           /\ Forall (eq rebuilt) later
  end.
Proof.
  intros Hrefused Hmismatch Hinst run.
  destruct (positionModeRequery w) as [e'|dual] eqn:Hq.
  - apply (close_orderLoop_requery_fails w binanceSymbol side orderType
             positionSide orderParams e Hrefused Hmismatch Hinst e'
             [2; 3]%nat cache Hq).
  - intros rebuilt.
    destruct (close_orderLoop_mismatch w binanceSymbol side orderType
                positionSide orderParams e dual cache Hrefused Hmismatch
                Hinst Hq) as [Hqs Hlater].
    split; [exact Hqs|].
    split; [|exact Hlater].
    pose proof (close_orderLoop_cache w binanceSymbol side orderType
                  positionSide [1; 2; 3]%nat orderParams None cache) as Hc.
    exact Hc.
Qed.

Lemma sell_loop_after_mismatch_witness :
  let orderParams := mkParams 1 None true None None in
  let rebuilt := mkParams 1 (Some LONG) false None None in
  let run :=
    ClosePositionTs.orderLoop Samples.mismatching "BTCUSDT" SELL MARKET LONG
      [1; 2; 3]%nat orderParams None (Some ONE_WAY) in
  queriesOf (trace run) = [SdkPositionMode]
  /\ cacheAfter run = Some ONE_WAY
  /\ exists later,
       ordersOf (trace run) = orderParams :: rebuilt :: later
       /\ Forall (eq rebuilt) later.
Proof.
  exact (sell_loop_after_mismatch Samples.mismatching "BTCUSDT" SELL MARKET
           LONG (mkParams 1 None true None None) Samples.mismatch
           (Some ONE_WAY) eq_refl eq_refl eq_refl).
Defined.

(** ** [sell] of close_position.ts against [closePosition] of sell.ts *)

Lemma smartAdjustSellAmountFor_eq (config : Config) (amount positionSize : Q) :
  ClosePositionTs.smartAdjustSellAmountFor config amount positionSize
  = SellTs.adjustedAmount
      (SellTs.smartAdjustAmountFor config amount positionSize).
Proof.
  unfold ClosePositionTs.smartAdjustSellAmountFor,
    SellTs.smartAdjustAmountFor.
  change (ClosePositionTs.adjustPrecisionFor config)
    with (SellTs.adjustPrecisionFor config).
  destruct (eqb _ 0 || ltb _ _); [|destruct (ltb _ _); reflexivity].
  destruct (leb _ positionSize); [reflexivity|].
  destruct (ltb 0 positionSize); [reflexivity|].
  destruct (ltb _ _); reflexivity.
Qed.

Lemma resolveSell_eq (w : Exchange) (symbol binanceSymbol : string)
    (percentage : Q) (amount : option Q) :
  ClosePositionTs.resolveSell w symbol binanceSymbol percentage amount
  = match SellTs.resolveClose w symbol binanceSymbol percentage amount with
    | SellTs.EarlyReturn r => ClosePositionTs.EarlyReturn r
    | SellTs.Resolved a side size => ClosePositionTs.Resolved a side size
    end.
Proof.
  unfold ClosePositionTs.resolveSell, SellTs.resolveClose.
  destruct (negb (given amount)); [|reflexivity].
  destruct (fetchPositions w) as [e|positions]; [reflexivity|].
  destruct (find _ positions) as [position|]; [|reflexivity].
  destruct (eqb (contracts position) 0); [reflexivity|].
  unfold ClosePositionTs.smartAdjustSellAmount, SellTs.smartAdjustAmount.
  rewrite smartAdjustSellAmountFor_eq. reflexivity.
Qed.

Section SameLoop.

Variable w : Exchange.

Hypothesis no_mismatch_at_first :
  forall sent e,
    newOrder w 1 sent = inl e ->
    includes (orElse (responseMsg e) (message e))
      "position side does not match" = false.

(** Without a mismatch answer to the first attempt the two loops run
    alike. *)
Lemma close_orderLoop_plain (binanceSymbol : string) (side : Side)
    (orderType : OrderType) (positionSide : PositionSide)
    (orderParams : OrderParams) (cache : option PositionMode) :
  ClosePositionTs.orderLoop w binanceSymbol side orderType positionSide
    [1; 2; 3]%nat orderParams None cache
  = SellTs.orderLoop w binanceSymbol side orderType [1; 2; 3]%nat
      orderParams cache.
Proof.
  cbn.
  destruct (newOrder w 1 orderParams) as [e1|d1] eqn:E1; cbn;
    [|reflexivity].
  rewrite (no_mismatch_at_first _ _ E1). cbn.
  destruct (newOrder w 2 orderParams) as [e2|d2]; cbn; [|reflexivity].
  rewrite andb_false_r. cbn.
  destruct (newOrder w 3 orderParams) as [e3|d3]; cbn; [|reflexivity].
  rewrite andb_false_r. reflexivity.
Qed.

End SameLoop.

Section SameCall.

Variable w : Exchange.
Variable cache : option PositionMode.
Variable symbol : string.
Variable percentage amount price : option Q.

Hypothesis no_mismatch_at_first :
  forall sent e,
    newOrder w 1 sent = inl e ->
    includes (orElse (responseMsg e) (message e))
      "position side does not match" = false.

Local Opaque SellTs.orderLoop SellTs.resolveClose SellTs.adjustPrecision
  ClosePositionTs.orderLoop
  PositionModeCache.getPositionMode includes pow10.

Lemma sell_as_closePosition :
  sameOutcome
    (ClosePositionTs.sell
       (ClosePositionTs.mkSellParams symbol percentage amount price) w cache)
    (SellTs.closePosition
       (SellTs.mkCloseParams symbol percentage amount price) w cache).
Proof.
  assert (Hsame : forall r : OrderResult,
             sameOutcome (mkOutcome (inr r) cache [])
               (mkOutcome (inr r) cache [])).
  { intros r. repeat split. exists r, r. repeat split. }
  assert (Hfail : forall e1 e2 c t,
             sameOutcome (mkOutcome (inr (failure e1)) c t)
               (mkOutcome (inr (failure e2)) c t)).
  { intros e1 e2 c t. repeat split. eexists _, _. repeat split. }
  unfold ClosePositionTs.sell, SellTs.closePosition.
  cbn [ClosePositionTs.symbol ClosePositionTs.percentage
       ClosePositionTs.amount ClosePositionTs.price
       SellTs.symbol SellTs.percentage SellTs.amount SellTs.price].
  destruct (negb (truthy symbol) || negb (includes symbol "/"));
    [apply Hsame|].
  destruct (leb (default 100 percentage) 0 || ltb 100 (default 100 percentage));
    [apply Hsame|].
  destruct (ensureTimeSync w) as [e|]; [apply Hfail|].
  destruct (getBinanceInstance w) as [e|]; [apply Hfail|].
  rewrite resolveSell_eq.
  destruct (SellTs.resolveClose w symbol (replaceSlash symbol)
              (default 100 percentage) amount)
    as [r|closeAmount positionSide positionSize]; [apply Hsame|].
  unfold catch, bind, awaitVoid, ret. cbn.
  destruct (leb closeAmount 0); [apply Hsame|].
  change (ClosePositionTs.adjustPrecision) with (SellTs.adjustPrecision).
  change (ClosePositionTs.quantityOr3) with (SellTs.quantityOr3).
  destruct (leb _ 0 || ltb _ _); [apply Hfail|].
  cbn.
  destruct (getPositionMode_total (modeWorld w) cache) as [mode [Hv Hc]].
  destruct (PositionModeCache.getPositionMode (modeWorld w) cache)
    as [v cache1 queries] eqn:Emode.
  cbn in Hv, Hc. subst v. cbn.
  rewrite (close_orderLoop_plain w no_mismatch_at_first).
  change (ClosePositionTs.sellOrderParams) with (SellTs.closeOrderParams).
  match goal with
  | |- context [SellTs.orderLoop w ?bs ?sd ?ty ?ats ?op cache1] =>
      destruct (SellTs.orderLoop w bs sd ty ats op cache1)
        as [[e'|data] c2 t2]
  end; cbn; rewrite ?app_nil_r.
  - apply Hfail.
  - repeat split. eexists _, _. repeat split.
Qed.

End SameCall.

(** X10.  [sell] of close_position.ts and [closePosition] of sell.ts are
    the same function up to the retry handler and the wording of error
    texts: for the same request and the same behaviour of the exchange, as
    long as the first order is not answered with a position-side mismatch,
    both leave the same events in the same order (mode queries, orders,
    pauses) and the same cache, and their results agree on success, order
    id, executed price and executed amount. *)
Theorem sell_and_closePosition_agree (w : Exchange)
    (cache : option PositionMode) (symbol : string)
    (percentage amount price : option Q) :
  (forall sent e,
      newOrder w 1 sent = inl e ->
      includes (orElse (responseMsg e) (message e))
        "position side does not match" = false) ->
  sameOutcome
    (ClosePositionTs.sell
       (ClosePositionTs.mkSellParams symbol percentage amount price) w cache)
    (SellTs.closePosition
       (SellTs.mkCloseParams symbol percentage amount price) w cache).
Proof.
  intros H. apply sell_as_closePosition. exact H.
Qed.

Lemma sell_and_closePosition_agree_witness :
  sameOutcome
    (ClosePositionTs.sell
       (ClosePositionTs.mkSellParams "BTC/USDT" (Some 50) None None)
       Samples.down None)
    (SellTs.closePosition
       (SellTs.mkCloseParams "BTC/USDT" (Some 50) None None)
       Samples.down None).
Proof.
  apply (sell_and_closePosition_agree Samples.down None "BTC/USDT"
           (Some 50) None None).
  intros sent e H. injection H as <-. reflexivity.
Defined.

(** ** From the model's answer to the loop of [run] *)

Section SchemaAnswers.

Import Mapping.

Variable d : Obj.
Hypothesis schema : fromSchema d.

Lemma mapDecision_schema :
  mapDecision d
  = let op := default Run.Hold (signal d ≫= (fun s => opMap !! s)) in
    {| opeartion := Some (opName op);
       symbol := coin d;
       chat := orText (justification d) None;
       buy :=
         if signalIs d "buy_to_enter" then
           Some (mkBuyObject
                   (Run.mkBuyFields (quantity d) None (leverage d))
                   (stop_loss d) (profit_target d))
         else None;
       sell :=
         if signalIs d "close_position" then
           Some (mkSellObject None None None None None (Some 100))
         else if signalIs d "sell_to_enter" then
           Some (mkSellObject (quantity d) None (leverage d)
                   (stop_loss d) (profit_target d) None)
         else None;
       adjustProfit :=
         if signalIs d "hold" then
           match stop_loss d, profit_target d with
           | None, None => None
           | _, _ => Some (mkAdjustProfit (stop_loss d) (profit_target d))
           end
         else None;
       signal := signal d;
       coin := coin d;
       quantity := quantity d;
       pricing := None;
       leverage := leverage d;
       stop_loss := stop_loss d;
       profit_target := profit_target d;
       sell_percentage := None;
       percentage := None;
       justification := justification d |}.
Proof.
  destruct schema as [Hop [Hsym [Hchat [Hbuy [Hsell [Hadj [Hpr [Hsp Hp]]]]]]]].
  unfold mapDecision.
  rewrite Hop, Hsym, Hchat, Hbuy, Hsell, Hadj, Hpr, Hsp, Hp. reflexivity.
Qed.

Lemma opOf_opName (op : Run.Opeartion) : opOf (opName op) = Some op.
Proof. destruct op; reflexivity. Qed.

Lemma signalIs_lookup (name : string) (op : Run.Opeartion) :
  opMap !! name = Some op ->
  signalIs d name = true ->
  default Run.Hold (signal d ≫= (fun s => opMap !! s)) = op.
Proof.
  unfold signalIs. intros Hl.
  destruct (signal d) as [s|]; [|discriminate].
  intros Heq. apply String.eqb_eq in Heq. subst s. cbn. rewrite Hl.
  reflexivity.
Qed.

End SchemaAnswers.

(** X11.  Where the loop of [run] takes an answer that has the fields of
    the answer schema only (no legacy field, no pricing, no percentage),
    after the mapping to the legacy format.  A buy_to_enter with quantity
    and leverage goes to the buy branch with no price; a sell_to_enter
    always ends as "missing amount, pricing, or leverage", since the mapping
    gives it no pricing, and never reaches the short call; a close_position
    closes 100 percent; a hold adjusts stop loss and take profit exactly when
    one of them is given; and any other signal is treated as a hold that
    adjusts nothing. *)
Theorem schema_answer_routes (d : Mapping.Obj) :
  Mapping.fromSchema d ->
  let taken := Mapping.route (Mapping.mapDecision d) in
  (Mapping.signal d = Some "buy_to_enter"%string ->
   taken = match Mapping.quantity d, Mapping.leverage d with
           | Some amount, Some leverage =>
               Mapping.BuyRequested amount None leverage
           | _, _ => Mapping.BuyMissing
           end)
  /\ (Mapping.signal d = Some "sell_to_enter"%string ->
      taken = Mapping.SellMissing)
  /\ (Mapping.signal d = Some "close_position"%string ->
      taken = Mapping.CloseRequested 100)
  /\ (Mapping.signal d = Some "hold"%string ->
      taken = match Mapping.stop_loss d, Mapping.profit_target d with
              | None, None => Mapping.HoldOnly
              | stopLoss, takeProfit =>
                  Mapping.HoldAndAdjust stopLoss takeProfit
              end)
  /\ (Mapping.signal d ≫= (fun s => Mapping.opMap !! s) = None ->
      taken = Mapping.HoldOnly).
Proof.
  intros Hschema taken. subst taken.
  rewrite (mapDecision_schema d Hschema).
  unfold Mapping.route, Mapping.signalIs. cbn.
  repeat split.
  - intros ->. cbn.
    destruct (Mapping.quantity d), (Mapping.leverage d); reflexivity.
  - intros ->. cbn. destruct (Mapping.quantity d); reflexivity.
  - intros ->. reflexivity.
  - intros ->. cbn.
    destruct (Mapping.stop_loss d), (Mapping.profit_target d); reflexivity.
  - intros Hnone. rewrite Hnone. cbn.
    destruct (Mapping.signal d) as [s|]; [|reflexivity].
    cbn in Hnone.
    destruct (String.eqb_spec s "hold") as [->|_]; [discriminate Hnone|].
    reflexivity.
Qed.

Lemma schema_answer_routes_witness :
  let d :=
    Mapping.mkObj None None None None None None (Some "sell_to_enter"%string)
      (Some "BTC"%string) (Some (2 # 100)) None (Some 10) (Some 48000)
      (Some 55000) None None (Some "momentum"%string) in
  let taken := Mapping.route (Mapping.mapDecision d) in
  (Mapping.signal d = Some "buy_to_enter"%string ->
   taken = Mapping.BuyRequested (2 # 100) None 10)
  /\ (Mapping.signal d = Some "sell_to_enter"%string ->
      taken = Mapping.SellMissing)
  /\ (Mapping.signal d = Some "close_position"%string ->
      taken = Mapping.CloseRequested 100)
  /\ (Mapping.signal d = Some "hold"%string ->
      taken = Mapping.HoldAndAdjust (Some 48000) (Some 55000))
  /\ (Mapping.signal d ≫= (fun s => Mapping.opMap !! s) = None ->
      taken = Mapping.HoldOnly).
Proof.
  apply (schema_answer_routes
           (Mapping.mkObj None None None None None None
              (Some "sell_to_enter"%string) (Some "BTC"%string)
              (Some (2 # 100)) None (Some 10) (Some 48000) (Some 55000)
              None None (Some "momentum"%string))).
  repeat split.
Defined.

(** ** The margin ledger under the answers of the schema *)

Section InertLedger.

Variable checkBuyRisk : Q -> option Q -> Q -> xnum -> bool.

Local Opaque BuyTs.buy.

(** A decision whose buy fields carry no pricing needs a margin of zero:
    the margin check lets it pass and a successful buy subtracts nothing. *)
Lemma processDecision_no_pricing (object : Run.Decision) (w : Exchange)
    (cache : option PositionMode) (remaining : Q) :
  (forall fields, Run.buy object = Some fields -> Run.pricing fields = None) ->
  0 <= remaining ->
  exists step after,
    Run.processDecision checkBuyRisk object w cache (Fin remaining)
    = (step, Fin after)
    /\ after == remaining
    /\ (forall margin, step <> Run.MarginBlocked margin)
    /\ Run.committed step == 0.
Proof.
  intros Hnone Hnn. unfold Run.processDecision.
  destruct (Run.opeartion object);
    try (eexists _, _; split; [reflexivity|];
         split; [reflexivity|]; split; [discriminate | reflexivity]).
  destruct (Run.buy object) as [fields|] eqn:Ebuy;
    [|eexists _, _; split; [reflexivity|];
      split; [reflexivity|]; split; [discriminate | reflexivity]].
  rewrite (Hnone fields eq_refl). cbn [default].
  destruct (Run.amount fields) as [amount|];
    [|eexists _, _; split; [reflexivity|];
      split; [reflexivity|]; split; [discriminate | reflexivity]].
  destruct (Run.leverage fields) as [leverage|];
    [|eexists _, _; split; [reflexivity|];
      split; [reflexivity|]; split; [discriminate | reflexivity]].
  destruct (negb (checkBuyRisk amount None leverage (Fin remaining)));
    [eexists _, _; split; [reflexivity|];
     split; [reflexivity|]; split; [discriminate | reflexivity]|].
  assert (Hzero : amount * 0 == 0) by ring.
  assert (Hgt : xgtb (xdiv (amount * 0) leverage) (Fin remaining) = false).
  { unfold xdiv. destruct (eqb leverage 0) eqn:El.
    - assert (E0 : eqb (amount * 0) 0 = true) by (apply eqb_spec; exact Hzero).
      rewrite E0. reflexivity.
    - cbn. apply ltb_false. rewrite Hzero. unfold Qdiv.
      rewrite Qmult_0_l. exact Hnn. }
  rewrite Hgt.
  destruct (value (BuyTs.buy _ w cache)) as [e|buyResult] eqn:Ebuyr;
    [eexists _, _; split; [reflexivity|];
     split; [reflexivity|]; split; [discriminate | reflexivity]|].
  destruct (success buyResult) eqn:Es.
  - pose proof (buy_success_leverage _ w cache buyResult Ebuyr Es) as Hlev.
    cbn in Hlev.
    assert (El : eqb leverage 0 = false) by (apply eqb_false; lra).
    unfold xdiv. rewrite El. cbn.
    eexists _, _. split; [reflexivity|].
    assert (Hm : amount * 0 / leverage == 0).
    { rewrite Hzero. unfold Qdiv. apply Qmult_0_l. }
    split; [rewrite Hm; ring|].
    split; [discriminate|].
    cbn. rewrite Es. exact Hm.
  - eexists _, _. split; [reflexivity|].
    split; [reflexivity|]. split; [discriminate|].
    cbn. destruct (xdiv _ _); try reflexivity. rewrite Es. reflexivity.
Qed.

Lemma processDecisions_no_pricing
    (decisions : list (Run.Decision * Exchange * option PositionMode)) :
  Forall (fun entry =>
            forall fields,
              Run.buy entry.1.1 = Some fields -> Run.pricing fields = None)
    decisions ->
  forall availableCash remaining,
    0 <= availableCash -> remaining == availableCash ->
    Forall (fun entry =>
              (forall margin, fst entry <> Run.MarginBlocked margin)
              /\ Run.committed (fst entry) == 0
              /\ exists after, snd entry = Fin after /\ after == availableCash)
      (Run.processDecisions checkBuyRisk decisions (Fin remaining)).
Proof.
  induction 1 as [|[[object w] cache] later Hhead _ IH];
    intros availableCash remaining Hnn Heq; [constructor|].
  cbn [Run.processDecisions].
  assert (Hr : 0 <= remaining) by lra.
  destruct (processDecision_no_pricing object w cache remaining Hhead Hr)
    as [step [after [Hstep [Hafter [Hnb Hc]]]]].
  rewrite Hstep.
  assert (Hentry : (forall margin, step <> Run.MarginBlocked margin)
                   /\ Run.committed step == 0
                   /\ exists after', Fin after = Fin after'
                                     /\ after' == availableCash).
  { split; [exact Hnb|]. split; [exact Hc|].
    exists after. split; [reflexivity | lra]. }
  destruct step; constructor; try exact Hentry;
    try (apply IH; [exact Hnn | lra]); constructor.
Qed.

End InertLedger.

Lemma asDecision_schema_pricing (d : Mapping.Obj) (object : Run.Decision) :
  Mapping.fromSchema d ->
  Mapping.asDecision (Mapping.mapDecision d) = Some object ->
  forall fields, Run.buy object = Some fields -> Run.pricing fields = None.
Proof.
  intros Hschema. rewrite (mapDecision_schema d Hschema).
  unfold Mapping.asDecision. cbn.
  rewrite opOf_opName.
  destruct (Mapping.coin d) as [c|]; [|discriminate].
  intros H. injection H as <-. cbn.
  destruct (Mapping.signalIs d "buy_to_enter"); cbn; [|discriminate].
  intros fields H. injection H as <-. reflexivity.
Qed.

(** X12.  The margin ledger of [run] under answers of the schema.  The
    schema has no pricing, the mapping writes [pricing: d.pricing ?? null]
    into the buy fields, and the required margin amount x pricing / leverage
    is then zero.  So for decisions mapped from such answers, whatever the
    exchange and the risk check do: no buy is ever blocked by the margin
    check, every step commits a margin of zero, and
    [remainingAvailableCash] stays at the available cash through the whole
    run. *)
Theorem schema_answers_commit_no_margin
    (checkBuyRisk : Q -> option Q -> Q -> xnum -> bool)
    (decisions : list (Run.Decision * Exchange * option PositionMode))
    (availableCash : Q) :
  0 <= availableCash ->
  Forall (fun entry =>
            exists d,
              Mapping.fromSchema d
              /\ Mapping.asDecision (Mapping.mapDecision d) = Some entry.1.1)
    decisions ->
  Forall (fun entry =>
            (forall margin, fst entry <> Run.MarginBlocked margin)
            /\ Run.committed (fst entry) == 0
            /\ exists after, snd entry = Fin after /\ after == availableCash)
    (Run.processDecisions checkBuyRisk decisions (Fin availableCash)).
Proof.
  intros Hnn Hall.
  apply processDecisions_no_pricing; [|exact Hnn | reflexivity].
  eapply Forall_impl; [exact Hall|].
  intros [[object w] cache] [d [Hschema Hd]]. cbn in *.
  apply (asDecision_schema_pricing d object Hschema Hd).
Qed.

Lemma schema_answers_commit_no_margin_witness :
  Forall (fun entry =>
            (forall margin, fst entry <> Run.MarginBlocked margin)
            /\ Run.committed (fst entry) == 0
            /\ exists after, snd entry = Fin after /\ after == 1000)
    (Run.processDecisions (fun _ _ _ _ => true)
       [(AnswerSamples.mappedBuy, Samples.calm, None)] (Fin 1000)).
Proof.
  apply (schema_answers_commit_no_margin (fun _ _ _ _ => true)
           [(AnswerSamples.mappedBuy, Samples.calm, None)] 1000).
  - unfold Qle; simpl; lia.
  - constructor; [|constructor].
    exists AnswerSamples.schemaBuy. split.
    + repeat split.
    + reflexivity.
Defined.

(** ** [fetchPositions]: the fail-over across the domains *)

Section Failover.

Import PositionsTs.

Variable w : World.

(** The loop from the i-th domain on, when the k-th of the remaining ones
    is the first to answer. *)
Lemma tryDomains_first_answer (k : nat) :
  forall (i : nat) (domains : list string) (lastError : option JsError)
         (positions : list Position),
    (k < length domains)%nat ->
    fetchFromSingleUrl w (i + k) = inr positions ->
    (forall j, (j < k)%nat -> exists e, fetchFromSingleUrl w (i + j) = inl e) ->
    tryDomains w i domains lastError
    = mkFetched (seq i (S k)) (inr positions).
Proof.
  induction k as [|k IH]; intros i domains lastError positions Hlen Hk Hbefore.
  - destruct domains as [|domain later]; [cbn in Hlen; lia|].
    cbn [tryDomains]. rewrite Nat.add_0_r in Hk. rewrite Hk. reflexivity.
  - destruct domains as [|domain later]; [cbn in Hlen; lia|].
    cbn [tryDomains].
    destruct (Hbefore 0%nat ltac:(lia)) as [e He].
    rewrite Nat.add_0_r in He. rewrite He.
    rewrite (IH (S i) later (Some e) positions).
    + reflexivity.
    + cbn in Hlen. lia.
    + rewrite <- Hk. f_equal. lia.
    + intros j Hj. destruct (Hbefore (S j) ltac:(lia)) as [e' He'].
      exists e'. rewrite <- He'. f_equal. lia.
Qed.

(** The loop when none of the remaining domains answers: all are
    contacted and the error names the last failure. *)
Lemma tryDomains_all_fail :
  forall (domains : list string) (i : nat) (lastError : option JsError),
    (forall j, (j < length domains)%nat ->
               exists e, fetchFromSingleUrl w (i + j) = inl e) ->
    contacted (tryDomains w i domains lastError)
    = seq i (length domains)
    /\ exists final,
         fetched (tryDomains w i domains lastError)
         = inl (allDomainsFailed final)
         /\ match domains with
            | [] => final = lastError
            | _ :: _ =>
                exists e,
                  final = Some e
                  /\ fetchFromSingleUrl w (i + (length domains - 1)) = inl e
            end.
Proof.
  induction domains as [|domain later IH]; intros i lastError Hall.
  - split; [reflexivity|]. exists lastError. split; reflexivity.
  - cbn [tryDomains].
    destruct (Hall 0%nat ltac:(cbn; lia)) as [e He].
    rewrite Nat.add_0_r in He. rewrite He.
    destruct (IH (S i) (Some e)) as [Hc [final [Hf Hlast]]].
    { intros j Hj. destruct (Hall (S j) ltac:(cbn; lia)) as [e' He'].
      exists e'. rewrite <- He'. f_equal. lia. }
    cbn [contacted fetched]. split; [cbn; rewrite Hc; reflexivity|].
    exists final. split; [exact Hf|].
    destruct later as [|domain' later'].
    + exists e. split; [exact Hlast|].
      cbn. rewrite Nat.add_0_r. exact He.
    + destruct Hlast as [e' [-> He']]. exists e'. split; [reflexivity|].
      rewrite <- He'. f_equal. cbn. lia.
Qed.

End Failover.

(** X13.  [fetchPositions] of positions.ts walks the configured domains in
    order and stops at the first that answers.  If the time
    synchronisation fails, its error is thrown and no domain is contacted.
    If the k-th domain is the first whose request succeeds, exactly the
    domains 0..k were contacted and the result is that domain's open
    positions.  If every request fails, every domain was contacted once and
    the error thrown is "Failed to fetch positions from all domains: "
    followed by the message of the last failure ("Unknown error" when there
    is no domain or the message is empty). *)
Theorem fetchPositions_fails_over (w : PositionsTs.World) :
  let run := PositionsTs.fetchPositions w in
  let domains := length (PositionsTs.baseUrls w) in
  (forall e, PositionsTs.ensureTimeSync w = Some e ->
             run = PositionsTs.mkFetched [] (inl e))
  /\ (PositionsTs.ensureTimeSync w = None ->
      (forall k raw,
          (k < domains)%nat ->
          PositionsTs.answer w k = inr raw ->
          (forall j, (j < k)%nat -> exists e, PositionsTs.answer w j = inl e) ->
          run = PositionsTs.mkFetched (seq 0 (S k))
                  (inr (map (PositionsTs.transformPositionData w)
                          (List.filter PositionsTs.isOpen raw))))
      /\ ((forall j, (j < domains)%nat ->
                     exists e, PositionsTs.answer w j = inl e) ->
          PositionsTs.contacted run = seq 0 domains
          /\ exists final,
               PositionsTs.fetched run
               = inl (PositionsTs.allDomainsFailed final)
               /\ (domains = 0%nat -> final = None)
               /\ (forall e, PositionsTs.answer w (domains - 1) = inl e ->
                             (0 < domains)%nat -> final = Some e))).
Proof.
  intros run domains. subst run domains. unfold PositionsTs.fetchPositions.
  split; [intros e ->; reflexivity|].
  intros ->. split.
  - intros k raw Hk Hraw Hbefore.
    apply (tryDomains_first_answer w k 0).
    + exact Hk.
    + unfold PositionsTs.fetchFromSingleUrl. cbn. rewrite Hraw. reflexivity.
    + intros j Hj. destruct (Hbefore j Hj) as [e He]. exists e.
      unfold PositionsTs.fetchFromSingleUrl. cbn. rewrite He. reflexivity.
  - intros Hall.
    destruct (tryDomains_all_fail w (PositionsTs.baseUrls w) 0 None)
      as [Hc [final [Hf Hlast]]].
    { intros j Hj. destruct (Hall j Hj) as [e He]. exists e.
      unfold PositionsTs.fetchFromSingleUrl. cbn. rewrite He. reflexivity. }
    split; [exact Hc|]. exists final. split; [exact Hf|].
    destruct (PositionsTs.baseUrls w) as [|domain later].
    + split; [intros _; exact Hlast | cbn; lia].
    + split; [cbn; discriminate|].
      intros e He _. destruct Hlast as [e' [-> He']].
      unfold PositionsTs.fetchFromSingleUrl in He'.
      rewrite Nat.add_0_l, He in He'. congruence.
Qed.

(** ** What [fetchPositions] returns *)

Section Fetched.

Import PositionsTs.

Variable w : World.

Lemma tryDomains_fetched :
  forall (domains : list string) (i : nat) (lastError : option JsError)
         (positions : list Position),
    fetched (tryDomains w i domains lastError) = inr positions ->
    exists k, fetchFromSingleUrl w k = inr positions.
Proof.
  induction domains as [|domain later IH]; intros i lastError positions.
  - discriminate.
  - cbn [tryDomains].
    destruct (fetchFromSingleUrl w i) as [e|ps] eqn:E.
    + cbn [fetched]. apply IH.
    + cbn [fetched]. intros H. injection H as <-. eauto.
Qed.

Lemma fetchPositions_source (positions : list Position) :
  fetched (fetchPositions w) = inr positions ->
  exists k raw,
    answer w k = inr raw
    /\ positions = map (transformPositionData w) (List.filter isOpen raw).
Proof.
  unfold fetchPositions.
  destruct (ensureTimeSync w); [discriminate|].
  intros H. apply tryDomains_fetched in H. destruct H as [k Hk].
  unfold fetchFromSingleUrl in Hk.
  destruct (answer w k) as [e|raw] eqn:E; [discriminate|].
  injection Hk as <-. eauto.
Qed.

Lemma isOpen_contracts (p : BinancePosition) :
  isOpen p = true -> 0 < abs (positionAmt p).
Proof.
  unfold isOpen. rewrite negb_true_iff. intros H. apply eqb_false in H.
  unfold abs.
  destruct (Qlt_le_dec (positionAmt p) 0) as [Hneg|Hnn].
  - rewrite Qabs_neg by lra. lra.
  - rewrite Qabs_pos by exact Hnn.
    destruct (Qlt_le_dec 0 (positionAmt p)) as [Hpos|Hle]; [exact Hpos|].
    exfalso. apply H. lra.
Qed.

End Fetched.

(** X14.  Every position that [fetchPositions] returns is an open one.  The
    result is, in the exchange's order, the entries with a non-zero
    positionAmt of the one domain that answered; each has contracts =
    |positionAmt| > 0, contractSize 1, side "long" for a positive positionAmt
    and "short" for a negative one, a non-negative notional, and a
    maintenance margin of 0.4 percent of the notional. *)
Theorem fetchPositions_returns_open_positions (w : PositionsTs.World)
    (positions : list PositionsTs.Position) :
  PositionsTs.fetched (PositionsTs.fetchPositions w) = inr positions ->
  exists k raw,
    PositionsTs.answer w k = inr raw
    /\ Forall2
         (fun entry position =>
            PositionsTs.symbol position = PositionsTs.bp_symbol entry
            /\ ~ PositionsTs.positionAmt entry == 0
            /\ PositionsTs.contracts position
               = abs (PositionsTs.positionAmt entry)
            /\ 0 < PositionsTs.contracts position
            /\ PositionsTs.contractSize position = 1
            /\ (0 < PositionsTs.positionAmt entry ->
                PositionsTs.side position = "long"%string)
            /\ (PositionsTs.positionAmt entry < 0 ->
                PositionsTs.side position = "short"%string)
            /\ 0 <= PositionsTs.notional position
            /\ PositionsTs.maintenanceMargin position
               == PositionsTs.notional position * (4 # 1000))
         (List.filter PositionsTs.isOpen raw) positions.
Proof.
  intros H. apply fetchPositions_source in H.
  destruct H as [k [raw [Hraw ->]]].
  exists k, raw. split; [exact Hraw|].
  assert (Hopen : Forall (fun entry => PositionsTs.isOpen entry = true)
                    (List.filter PositionsTs.isOpen raw)).
  { apply List.Forall_forall. intros entry Hin.
    apply List.filter_In in Hin. tauto. }
  induction Hopen as [|entry entries Hentry _ IH]; cbn [map];
    constructor; [|exact IH].
  cbn.
  split; [reflexivity|].
  split.
  { unfold PositionsTs.isOpen in Hentry. rewrite negb_true_iff in Hentry.
    apply eqb_false in Hentry. exact Hentry. }
  split; [reflexivity|].
  split; [apply isOpen_contracts; exact Hentry|].
  split; [reflexivity|].
  split.
  { intros Hpos.
    assert (E : ltb 0 (PositionsTs.positionAmt entry) = true)
      by (apply ltb_spec; exact Hpos).
    rewrite E. reflexivity. }
  split.
  { intros Hneg.
    assert (E : ltb 0 (PositionsTs.positionAmt entry) = false)
      by (apply ltb_false; lra).
    rewrite E. reflexivity. }
  split; [apply Qabs_nonneg | reflexivity].
Qed.

(** X15.  The [percentage] of a position is the price move since entry in
    percent, signed by the direction of the position and independent of the
    leverage: with a positive entry price, percentage x entryPrice = +-100 x
    (markPrice - entryPrice), so a long position shows a gain exactly when
    the mark price is above the entry price and a short one exactly when it
    is below; with an entry price that is not positive the percentage is 0
    and nothing is divided. *)
Theorem percentage_is_signed_price_move (w : PositionsTs.World)
    (entry : PositionsTs.BinancePosition) :
  let position := PositionsTs.transformPositionData w entry in
  let amt := PositionsTs.positionAmt entry in
  let entryPrice := PositionsTs.bp_entryPrice entry in
  let markPrice := PositionsTs.bp_markPrice entry in
  (entryPrice <= 0 -> PositionsTs.percentage position = 0)
  /\ (0 < entryPrice -> 0 < amt ->
      PositionsTs.percentage position * entryPrice
      == 100 * (markPrice - entryPrice)
      /\ (0 < PositionsTs.percentage position <-> entryPrice < markPrice))
  /\ (0 < entryPrice -> amt < 0 ->
      PositionsTs.percentage position * entryPrice
      == 100 * (entryPrice - markPrice)
      /\ (0 < PositionsTs.percentage position <-> markPrice < entryPrice)).
Proof.
  intros position amt entryPrice markPrice.
  subst position. cbn. fold amt entryPrice markPrice.
  split; [|split].
  - intros Hle.
    assert (E : ltb 0 entryPrice = false) by (apply ltb_false; exact Hle).
    rewrite E. reflexivity.
  - intros He Ha.
    assert (E1 : ltb 0 entryPrice = true) by (apply ltb_spec; exact He).
    assert (E2 : ltb 0 amt = true) by (apply ltb_spec; exact Ha).
    rewrite E1, E2.
    assert (Heq : (markPrice - entryPrice) / entryPrice * 100 * 1
                  * entryPrice == 100 * (markPrice - entryPrice))
      by (field; lra).
    split; [exact Heq|].
    split; intros H; nra.
  - intros He Ha.
    assert (E1 : ltb 0 entryPrice = true) by (apply ltb_spec; exact He).
    assert (E2 : ltb 0 amt = false) by (apply ltb_false; lra).
    rewrite E1, E2.
    assert (Heq : (markPrice - entryPrice) / entryPrice * 100 * - (1)
                  * entryPrice == 100 * (entryPrice - markPrice))
      by (field; lra).
    split; [exact Heq|].
    split; intros H; nra.
Qed.

(** ** The database lookup cannot fail the fetch *)

Section ExitPlan.

Import PositionsTs.

Variable w w' : World.

Hypothesis same_sync : ensureTimeSync w = ensureTimeSync w'.
Hypothesis same_domains : baseUrls w = baseUrls w'.
Hypothesis same_answers : forall i, answer w i = answer w' i.

Lemma transform_withoutExitPlan (entry : BinancePosition) :
  withoutExitPlan (transformPositionData w entry)
  = withoutExitPlan (transformPositionData w' entry).
Proof. reflexivity. Qed.

Lemma fetchFromSingleUrl_withoutExitPlan (i : nat) :
  match fetchFromSingleUrl w i, fetchFromSingleUrl w' i with
  | inr positions, inr positions' =>
      map withoutExitPlan positions = map withoutExitPlan positions'
  | inl e, inl e' => e = e'
  | _, _ => False
  end.
Proof.
  unfold fetchFromSingleUrl. rewrite <- same_answers.
  destruct (answer w i) as [e|raw]; [reflexivity|].
  rewrite !map_map. apply map_ext. intros entry.
  apply transform_withoutExitPlan.
Qed.

Lemma tryDomains_withoutExitPlan :
  forall (domains : list string) (i : nat) (lastError : option JsError),
    contacted (tryDomains w i domains lastError)
    = contacted (tryDomains w' i domains lastError)
    /\ match fetched (tryDomains w i domains lastError),
             fetched (tryDomains w' i domains lastError) with
       | inr positions, inr positions' =>
           map withoutExitPlan positions = map withoutExitPlan positions'
       | inl e, inl e' => e = e'
       | _, _ => False
       end.
Proof.
  induction domains as [|domain later IH]; intros i lastError.
  - split; reflexivity.
  - cbn [tryDomains].
    pose proof (fetchFromSingleUrl_withoutExitPlan i) as Hi.
    destruct (fetchFromSingleUrl w i) as [e|positions],
             (fetchFromSingleUrl w' i) as [e'|positions'];
      try contradiction.
    + subst e'. destruct (IH (S i) (Some e)) as [Hc Hf].
      cbn [contacted fetched]. split; [rewrite Hc; reflexivity | exact Hf].
    + split; [reflexivity | exact Hi].
Qed.

End ExitPlan.

(** X16.  The exit plan of a position (invalidation condition, stop loss,
    profit target) is the only part of the result of [fetchPositions] that
    depends on the trading records in the database.  Two runs against the
    same exchange, whatever the database query does in each of them
    (a record, no record, a failure), contact the same domains, fail
    together with the same error or succeed together, and return positions
    that agree in every other field. *)
Theorem fetchPositions_ignores_database_failures (w w' : PositionsTs.World) :
  PositionsTs.ensureTimeSync w = PositionsTs.ensureTimeSync w' ->
  PositionsTs.baseUrls w = PositionsTs.baseUrls w' ->
  (forall i, PositionsTs.answer w i = PositionsTs.answer w' i) ->
  PositionsTs.contacted (PositionsTs.fetchPositions w)
  = PositionsTs.contacted (PositionsTs.fetchPositions w')
  /\ match PositionsTs.fetched (PositionsTs.fetchPositions w),
           PositionsTs.fetched (PositionsTs.fetchPositions w') with
     | inr positions, inr positions' =>
         map PositionsTs.withoutExitPlan positions
         = map PositionsTs.withoutExitPlan positions'
     | inl e, inl e' => e = e'
     | _, _ => False
     end.
Proof.
  intros Hsync Hdomains Hanswers. unfold PositionsTs.fetchPositions.
  rewrite <- Hsync, <- Hdomains.
  destruct (PositionsTs.ensureTimeSync w) as [e|];
    [split; reflexivity|].
  apply tryDomains_withoutExitPlan. exact Hanswers.
Qed.

(** ** Symbols and enum values *)

Lemma inherited_spec (key : string) :
  JsObject.inherited key = true <-> In key JsObject.objectPrototype.
Proof.
  unfold JsObject.inherited. rewrite existsb_exists. split.
  - intros [name [Hin Heq]]. apply String.eqb_eq in Heq. subst. exact Hin.
  - intros Hin. exists key. split; [exact Hin | apply String.eqb_refl].
Qed.

(** X17.  [convertSymbolToEnum] maps each of the six base symbols of its
    table to itself, whether it is given bare ("BTC"), as the exchange
    writes the pair ("BTCUSDT") or as the trading functions write it
    ("BTC/USDT").  For any string, with the base symbol being what is left
    when the first "/USDT" and then the first "USDT" are removed: the result
    is the base symbol when it is a key of the table; it is a member
    inherited from Object.prototype, not an enum value, when the base symbol
    is one of the twelve inherited names ("constructor", "toString", ...);
    and it is null in every other case. *)
Theorem convertSymbolToEnum_round_trip :
  map_Forall
    (fun base enumValue =>
       enumValue = base
       /\ PositionsTs.convertSymbolToEnum base
          = Some (PositionsTs.Member base)
       /\ PositionsTs.convertSymbolToEnum (base ++ "USDT")
          = Some (PositionsTs.Member base)
       /\ PositionsTs.convertSymbolToEnum (base ++ "/USDT")
          = Some (PositionsTs.Member base))
    PositionsTs.symbolMap
  /\ forall symbol,
       let baseSymbol :=
         JsText.replaceFirst "USDT" ""
           (JsText.replaceFirst "/USDT" "" symbol) in
       (is_Some (PositionsTs.symbolMap !! baseSymbol) ->
        PositionsTs.convertSymbolToEnum symbol
        = Some (PositionsTs.Member baseSymbol))
       /\ (In baseSymbol JsObject.objectPrototype ->
           PositionsTs.convertSymbolToEnum symbol
           = Some (PositionsTs.Prototype baseSymbol))
       /\ (PositionsTs.symbolMap !! baseSymbol = None ->
           ~ In baseSymbol JsObject.objectPrototype ->
           PositionsTs.convertSymbolToEnum symbol = None).
Proof.
  split.
  - unfold PositionsTs.symbolMap.
    repeat (apply map_Forall_insert_2;
            [repeat split; vm_compute; reflexivity|]).
    apply map_Forall_empty.
  - intros symbol baseSymbol.
    assert (Hvalues : map_Forall (fun key value => value = key)
                        PositionsTs.symbolMap).
    { unfold PositionsTs.symbolMap.
      repeat (apply map_Forall_insert_2; [reflexivity|]).
      apply map_Forall_empty. }
    assert (Hdisjoint : Forall (fun key => PositionsTs.symbolMap !! key = None)
                          JsObject.objectPrototype).
    { repeat constructor. }
    unfold PositionsTs.convertSymbolToEnum, JsObject.get. fold baseSymbol.
    split; [|split].
    + intros [value Hvalue]. rewrite Hvalue.
      pose proof (Hvalues _ _ Hvalue) as ->.
      destruct baseSymbol as [|c rest]; [|reflexivity].
      exfalso. vm_compute in Hvalue. discriminate.
    + intros Hin.
      rewrite Forall_forall in Hdisjoint.
      rewrite (Hdisjoint _ (proj2 (list_elem_of_In _ _) Hin)).
      apply inherited_spec in Hin. rewrite Hin. reflexivity.
    + intros Hnone Hnot. rewrite Hnone.
      destruct (JsObject.inherited baseSymbol) eqn:E; [|reflexivity].
      exfalso. apply Hnot, inherited_spec. exact E.
Qed.

(** ** [closePosition] on top of [fetchPositions] *)

Lemma sidesOf_app (t1 t2 : list Event) :
  sidesOf (t1 ++ t2) = sidesOf t1 ++ sidesOf t2.
Proof.
  induction t1 as [|ev t1 IH]; [reflexivity|].
  destruct ev; cbn; rewrite IH; reflexivity.
Qed.

Lemma getPositionMode_sides (w : PositionModeCache.World)
    (cache : option PositionMode) :
  sidesOf (trace (PositionModeCache.getPositionMode w cache)) = [].
Proof.
  destruct cache as [mode|]; [reflexivity|].
  destruct w as [[e|[[[e1|b1]|] [[e2|b2]|]]] [e3|] [e4|[b4|]]];
    reflexivity.
Qed.

Lemma sell_orderLoop_sides (w : Exchange) (binanceSymbol : string)
    (side : Side) (orderType : OrderType) (orderParams : OrderParams)
    (cache : option PositionMode) :
  exists later,
    sidesOf (trace (SellTs.orderLoop w binanceSymbol side orderType
                      [1; 2; 3]%nat orderParams cache))
    = side :: later
    /\ Forall (eq side) later.
Proof.
  cbn.
  destruct (newOrder w 1%nat orderParams) as [e1|d1]; cbn;
    [|exists []; split; [reflexivity | constructor]].
  destruct (newOrder w 2%nat orderParams) as [e2|d2]; cbn;
    [|exists [side]; split; [reflexivity | repeat constructor]].
  destruct (newOrder w 3%nat orderParams) as [e3|d3]; cbn;
    exists [side; side]; split; try reflexivity; repeat constructor.
Qed.

Lemma find_map_filter {A B} (f : A -> B) (keep : A -> bool)
    (test : B -> bool) (l : list A) :
  find test (map f (List.filter keep l))
  = option_map f (find (fun x => keep x && test (f x)) l).
Proof.
  induction l as [|x l IH]; [reflexivity|].
  cbn. destruct (keep x); cbn; [|exact IH].
  destruct (test (f x)); [reflexivity | exact IH].
Qed.

Lemma find_ext_bool {A} (f g : A -> bool) (l : list A) :
  (forall x, f x = g x) -> find f l = find g l.
Proof.
  intros H. induction l as [|x l IH]; [reflexivity|].
  cbn. rewrite H, IH. reflexivity.
Qed.

Lemma abs_abs (x : Q) : abs (abs x) = abs x.
Proof.
  destruct x as [n d]. unfold abs. cbn. rewrite Z.abs_idemp.
  reflexivity.
Qed.

Section CloseFetched.

Variable pw : PositionsTs.World.
Variable w : Exchange.
Variable raw : list PositionsTs.BinancePosition.

Hypothesis fetched_from_exchange :
  fetchPositions w
  = inr (map held
           (map (PositionsTs.transformPositionData pw)
              (List.filter PositionsTs.isOpen raw))).

(** The entry of the exchange's answer that a close of [binanceSymbol]
    works on: the first open one with that symbol. *)
Let target (binanceSymbol : string) : option PositionsTs.BinancePosition :=
  find (fun entry =>
          PositionsTs.isOpen entry
          && String.eqb (PositionsTs.bp_symbol entry) binanceSymbol) raw.

Lemma resolveClose_fetched (symbol : string) (percentage : Q) :
  SellTs.resolveClose w symbol (replaceSlash symbol) percentage None
  = match target (replaceSlash symbol) with
    | None => SellTs.EarlyReturn (failure NoOpenPosition)
    | Some entry =>
        let positionSize := abs (PositionsTs.positionAmt entry) in
        SellTs.Resolved
          (SellTs.adjustedAmount
             (SellTs.smartAdjustAmount (positionSize * (percentage / 100))
                symbol positionSize))
          (if ltb 0 (PositionsTs.positionAmt entry) then LONG else SHORT)
          positionSize
    end.
Proof.
  unfold SellTs.resolveClose. cbn [given negb].
  rewrite fetched_from_exchange, map_map.
  rewrite (find_map_filter
             (fun entry => held (PositionsTs.transformPositionData pw entry))
             PositionsTs.isOpen
             (fun p => String.eqb (pos_symbol p) (replaceSlash symbol)
                       && negb (eqb (contracts p) 0))).
  unfold target.
  assert (Hsame : forall entry,
             PositionsTs.isOpen entry
             && (String.eqb
                   (pos_symbol
                      (held (PositionsTs.transformPositionData pw entry)))
                   (replaceSlash symbol)
                 && negb (eqb (contracts
                                 (held (PositionsTs.transformPositionData
                                          pw entry))) 0))
             = PositionsTs.isOpen entry
               && String.eqb (PositionsTs.bp_symbol entry)
                    (replaceSlash symbol)).
  { intros entry. cbn.
    destruct (PositionsTs.isOpen entry) eqn:Eo; [|reflexivity]. cbn.
    pose proof (isOpen_contracts entry Eo) as Hc.
    assert (E : eqb (abs (PositionsTs.positionAmt entry)) 0 = false)
      by (apply eqb_false; lra).
    rewrite E, andb_true_r. reflexivity. }
  rewrite (find_ext_bool _ _ raw Hsame).
  destruct (find _ raw) as [entry|] eqn:Efind; [|reflexivity].
  cbn.
  apply find_some in Efind. destruct Efind as [_ Hentry].
  apply andb_true_iff in Hentry. destruct Hentry as [Eo _].
  pose proof (isOpen_contracts entry Eo) as Hc.
  assert (E : eqb (abs (PositionsTs.positionAmt entry)) 0 = false)
    by (apply eqb_false; lra).
  rewrite E.
  rewrite !abs_abs.
  destruct (ltb 0 (PositionsTs.positionAmt entry)); reflexivity.
Qed.

End CloseFetched.

Section CloseFetchedCall.

Variable pw : PositionsTs.World.
Variable w : Exchange.
Variable raw : list PositionsTs.BinancePosition.
Variable cache : option PositionMode.
Variable symbol : string.
Variable percentage : option Q.
Variable price : option Q.

Let params := SellTs.mkCloseParams symbol percentage None price.
Let binanceSymbol := replaceSlash symbol.

Hypothesis fetched_from_exchange :
  fetchPositions w
  = inr (map held
           (map (PositionsTs.transformPositionData pw)
              (List.filter PositionsTs.isOpen raw))).
Hypothesis symbol_ok : includes symbol "/" = true.
Hypothesis percentage_ok : 0 < default 100 percentage <= 100.
Hypothesis synced : ensureTimeSync w = None.
Hypothesis connected : getBinanceInstance w = None.

Local Opaque SellTs.orderLoop SellTs.resolveClose SellTs.adjustPrecision
  SellTs.smartAdjustAmount
  PositionModeCache.getPositionMode includes pow10.

Lemma closePosition_validated :
  SellTs.closePosition params w cache
  = catch
      (awaitVoid None ;;;
       awaitVoid None ;;;
       match SellTs.resolveClose w symbol binanceSymbol
               (default 100 percentage) None with
       | SellTs.EarlyReturn r => ret r
       | SellTs.Resolved closeAmount positionSide positionSize =>
           if leb closeAmount 0 then
             ret (failure CloseAmountMustBePositive)
           else
             let adjustedAmount :=
               SellTs.adjustPrecision closeAmount binanceSymbol in
             let minAmount := pow10 (- SellTs.quantityOr3 binanceSymbol) in
             if leb adjustedAmount 0 || ltb adjustedAmount minAmount then
               ret (failure (CloseAmountTooSmall minAmount))
             else
               let finalAmount :=
                 if ltb 0 positionSize && ltb positionSize adjustedAmount
                 then SellTs.adjustPrecision positionSize binanceSymbol
                 else adjustedAmount in
               positionMode <-
                 PositionModeCache.getPositionMode (modeWorld w) ;;
               orderResult <-
                 SellTs.orderLoop w binanceSymbol
                   (match positionSide with LONG => SELL | SHORT => BUY end)
                   (if given price then LIMIT else MARKET) [1; 2; 3]%nat
                   (SellTs.closeOrderParams price finalAmount positionSide
                      positionMode) ;;
               ret (filled orderResult)
       end)
      (fun error =>
         ret (failure (SellTs.errorText "Unknown error during close" error)))
      cache.
Proof.
  unfold SellTs.closePosition. subst params.
  cbn [SellTs.symbol SellTs.percentage SellTs.amount SellTs.price].
  rewrite symbol_ok, (includes_truthy _ _ symbol_ok). cbn [negb orb].
  assert (Ep : leb (default 100 percentage) 0
               || ltb 100 (default 100 percentage) = false).
  { apply orb_false_iff. split; [apply leb_false | apply ltb_false]; lra. }
  rewrite Ep, synced, connected. reflexivity.
Qed.

End CloseFetchedCall.

Lemma smartAdjustAmount_unit (amount positionSize : Q) (symbol : string) :
  0 < amount -> 0 < positionSize ->
  pow10 (- quantity (SellTs.configOf (replaceSlash symbol)))
  <= SellTs.adjustedAmount
       (SellTs.smartAdjustAmount amount symbol positionSize).
Proof.
  intros Ha Hs. unfold SellTs.smartAdjustAmount.
  set (config := SellTs.configOf (replaceSlash symbol)).
  unfold SellTs.smartAdjustAmountFor.
  pose proof (sell_adjustPrecisionFor_ge_unit config amount Ha) as Hge.
  pose proof (sell_adjustPrecisionFor_ge_unit config positionSize Hs) as Hgs.
  pose proof (pow10_pos (- quantity config)) as Hu.
  assert (E1 : eqb (SellTs.adjustPrecisionFor config amount) 0 = false)
    by (apply eqb_false; lra).
  assert (E2 : ltb (SellTs.adjustPrecisionFor config amount)
                 (pow10 (- quantity config)) = false)
    by (apply ltb_false; exact Hge).
  rewrite E1, E2. cbn [orb].
  destruct (ltb positionSize _); cbn; assumption.
Qed.

Section CloseReported.

Local Opaque SellTs.orderLoop SellTs.resolveClose SellTs.adjustPrecision
  SellTs.smartAdjustAmount
  PositionModeCache.getPositionMode includes pow10.

(** X18.  [closePosition] by percentage on top of [fetchPositions].  When
    the positions it fetches are those [fetchPositions] builds from the
    exchange's answer, a valid request works on the first entry of that
    answer with the requested symbol and a non-zero positionAmt.  If there
    is none, the result is "No open position" and nothing is sent.  If
    there is one, an order is sent, and every order of the call sells when
    that positionAmt is positive and buys when it is negative. *)
Theorem closePosition_closes_the_reported_position
    (pw : PositionsTs.World) (w : Exchange)
    (raw : list PositionsTs.BinancePosition) (cache : option PositionMode)
    (symbol : string) (percentage price : option Q) :
  fetchPositions w
  = inr (map held
           (map (PositionsTs.transformPositionData pw)
              (List.filter PositionsTs.isOpen raw))) ->
  includes symbol "/" = true ->
  0 < default 100 percentage <= 100 ->
  ensureTimeSync w = None ->
  getBinanceInstance w = None ->
  let run :=
    SellTs.closePosition (SellTs.mkCloseParams symbol percentage None price)
      w cache in
  match find (fun entry =>
                PositionsTs.isOpen entry
                && String.eqb (PositionsTs.bp_symbol entry)
                     (replaceSlash symbol)) raw with
  | None => run = mkOutcome (inr (failure NoOpenPosition)) cache []
  | Some entry =>
      let side :=
        if ltb 0 (PositionsTs.positionAmt entry) then SELL else BUY in
      exists later,
        sidesOf (trace run) = side :: later /\ Forall (eq side) later
  end.
Proof.
  intros Hfetched Hsym Hpct Hsync Hinst run. subst run.
  rewrite (closePosition_validated w cache symbol percentage price
             Hsym Hpct Hsync Hinst).
  rewrite (resolveClose_fetched pw w raw Hfetched).
  destruct (find _ raw) as [entry|] eqn:Efind; [|reflexivity].
  cbv zeta.
  apply find_some in Efind. destruct Efind as [_ Hentry].
  apply andb_true_iff in Hentry. destruct Hentry as [Eo _].
  pose proof (isOpen_contracts entry Eo) as Hsize.
  set (positionSize := abs (PositionsTs.positionAmt entry)) in *.
  assert (Hshare : 0 < positionSize * (default 100 percentage / 100)).
  { apply Qmult_lt_0_compat; [exact Hsize|].
    apply Qlt_shift_div_l; lra. }
  pose proof (smartAdjustAmount_unit _ _ symbol Hshare Hsize) as Hunit.
  set (closeAmount :=
         SellTs.adjustedAmount
           (SellTs.smartAdjustAmount
              (positionSize * (default 100 percentage / 100)) symbol
              positionSize)) in *.
  pose proof (pow10_pos
                (- quantity (SellTs.configOf (replaceSlash symbol)))) as Hu.
  assert (Hclose : 0 < closeAmount) by lra.
  pose proof (sell_adjustPrecision_ge_unit closeAmount (replaceSlash symbol)
                Hclose) as Hadj.
  pose proof (sell_minAmount_le_unit (replaceSlash symbol)) as Hmin.
  assert (E0 : leb closeAmount 0 = false) by (apply leb_false; exact Hclose).
  assert (E1 : leb (SellTs.adjustPrecision closeAmount (replaceSlash symbol))
                 0 = false) by (apply leb_false; lra).
  assert (E2 : ltb (SellTs.adjustPrecision closeAmount (replaceSlash symbol))
                 (pow10 (- SellTs.quantityOr3 (replaceSlash symbol)))
               = false) by (apply ltb_false; lra).
  rewrite E0, E1, E2. cbn [orb].
  destruct (getPositionMode_total (modeWorld w) cache) as [mode [Hv Hc]].
  pose proof (getPositionMode_sides (modeWorld w) cache) as Hq.
  destruct (PositionModeCache.getPositionMode (modeWorld w) cache)
    as [v cache1 queries] eqn:Emode.
  cbn in Hv, Hc, Hq. subst v.
  unfold catch, bind, awaitVoid, ret. cbn. rewrite Emode. cbn.
  match goal with
  | |- context [SellTs.orderLoop w ?bs ?sd ?ty ?ats ?op cache1] =>
      destruct (sell_orderLoop_sides w bs sd ty op cache1)
        as [later [Hsides Hall]];
      destruct (SellTs.orderLoop w bs sd ty ats op cache1)
        as [[e'|data] c2 t2]
  end; cbn in Hsides |- *; rewrite ?app_nil_r, sidesOf_app, Hq;
    cbn [app]; rewrite Hsides;
    destruct (ltb 0 (PositionsTs.positionAmt entry)); eauto.
Qed.

End CloseReported.

Lemma fetchPositions_returns_open_positions_witness :
  exists k raw,
    PositionsTs.answer PositionSamples.twoDomains k = inr raw
    /\ Forall2
         (fun entry position =>
            PositionsTs.symbol position = PositionsTs.bp_symbol entry
            /\ ~ PositionsTs.positionAmt entry == 0
            /\ PositionsTs.contracts position
               = abs (PositionsTs.positionAmt entry)
            /\ 0 < PositionsTs.contracts position
            /\ PositionsTs.contractSize position = 1
            /\ (0 < PositionsTs.positionAmt entry ->
                PositionsTs.side position = "long"%string)
            /\ (PositionsTs.positionAmt entry < 0 ->
                PositionsTs.side position = "short"%string)
            /\ 0 <= PositionsTs.notional position
            /\ PositionsTs.maintenanceMargin position
               == PositionsTs.notional position * (4 # 1000))
         (List.filter PositionsTs.isOpen raw)
         (map (PositionsTs.transformPositionData PositionSamples.twoDomains)
            [PositionSamples.solShort; PositionSamples.btcLong]).
Proof.
  apply (fetchPositions_returns_open_positions PositionSamples.twoDomains
           (map (PositionsTs.transformPositionData PositionSamples.twoDomains)
              [PositionSamples.solShort; PositionSamples.btcLong])).
  reflexivity.
Defined.

Lemma fetchPositions_ignores_database_failures_witness :
  PositionsTs.contacted (PositionsTs.fetchPositions PositionSamples.twoDomains)
  = PositionsTs.contacted
      (PositionsTs.fetchPositions PositionSamples.noDatabase)
  /\ match PositionsTs.fetched
             (PositionsTs.fetchPositions PositionSamples.twoDomains),
           PositionsTs.fetched
             (PositionsTs.fetchPositions PositionSamples.noDatabase) with
     | inr positions, inr positions' =>
         map PositionsTs.withoutExitPlan positions
         = map PositionsTs.withoutExitPlan positions'
     | inl e, inl e' => e = e'
     | _, _ => False
     end.
Proof.
  apply (fetchPositions_ignores_database_failures PositionSamples.twoDomains
           PositionSamples.noDatabase);
    [reflexivity | reflexivity | intros i; reflexivity].
Defined.

Lemma closePosition_closes_the_reported_position_witness :
  let run :=
    SellTs.closePosition
      (SellTs.mkCloseParams "SOL/USDT" (Some 50) None None)
      PositionSamples.reported None in
  exists later,
    sidesOf (trace run) = BUY :: later /\ Forall (eq BUY) later.
Proof.
  apply (closePosition_closes_the_reported_position
           PositionSamples.twoDomains PositionSamples.reported
           [PositionSamples.ethFlat; PositionSamples.solShort;
            PositionSamples.btcLong]
           None "SOL/USDT" (Some 50) None);
    try reflexivity.
  split; [reflexivity | discriminate].
Defined.

(** ** The account information service *)

(** X19.  [callApiWithRetry] makes one to three requests.  It returns the
    answer of the first request that succeeds; before it, every earlier
    request failed; it pauses attempt x 2000 ms after a failed first or
    second request and not after the third; and it throws only after three
    failures, the error being that of the third request. *)
Theorem callApiWithRetry_is_bounded {A : Type} (apiName : string)
    (answer : nat -> JsError + A) :
  let run := AccountTs.callApiWithRetry apiName answer in
  exists n,
    (1 <= n <= 3)%nat
    /\ AccountTs.calledBeats run = backoff 2000 n
    /\ AccountTs.called run = answer n
    /\ (forall k, (1 <= k < n)%nat -> exists e, answer k = inl e)
    /\ (forall e, AccountTs.called run = inl e -> n = 3%nat).
Proof.
  intros run. subst run. unfold AccountTs.callApiWithRetry. cbn.
  destruct (answer 1%nat) as [e1|d1] eqn:E1.
  2:{ exists 1%nat. cbn.
      split; [lia|]. split; [reflexivity|]. split; [auto|].
      split; [intros k Hk; lia | discriminate]. }
  destruct (answer 2%nat) as [e2|d2] eqn:E2.
  2:{ exists 2%nat. cbn.
      split; [lia|]. split; [reflexivity|]. split; [auto|].
      split; [|discriminate].
      intros k Hk. assert (k = 1%nat) as -> by lia. eauto. }
  exists 3%nat.
  split; [lia|].
  split; [destruct (answer 3%nat); reflexivity|].
  split; [destruct (answer 3%nat); reflexivity|].
  split; [|reflexivity].
  intros k Hk.
  assert (k = 1%nat \/ k = 2%nat) as [-> | ->] by lia; eauto.
Qed.

Section Metrics.

Variable positions : list PositionsTs.Position.
Variable accountInfo : AccountTs.AccountInfo.

Let total := AccountTs.totalWalletBalance accountInfo.
Let pnl := AccountTs.totalUnrealizedProfit accountInfo.

Lemma metrics_without_capital :
  let m := AccountTs.calculateAccountMetrics positions accountInfo None in
  AccountTs.currentTotalReturn m == 0 /\ AccountTs.sharpeRatio m == 0.
Proof.
  cbn. fold total pnl.
  assert (Hret : (if ltb 0 total then (total - total) / total else 0) == 0).
  { destruct (ltb 0 total) eqn:E; [|reflexivity].
    apply ltb_spec in E. field. lra. }
  split; [exact Hret|].
  destruct (ltb 0 total && ltb (1 # 1000) (abs pnl)); [|reflexivity].
  rewrite Hret. unfold Qdiv. apply Qmult_0_l.
Qed.

Lemma metrics_with_capital (baseCapital : Q) :
  let m :=
    AccountTs.calculateAccountMetrics positions accountInfo
      (Some baseCapital) in
  (baseCapital <= 0 ->
   AccountTs.currentTotalReturn m = 0 /\ AccountTs.sharpeRatio m = 0)
  /\ (0 < baseCapital ->
      AccountTs.currentTotalReturn m * baseCapital == total - baseCapital
      /\ (abs pnl <= 1 # 1000 -> AccountTs.sharpeRatio m = 0)
      /\ (1 # 1000 < abs pnl ->
          AccountTs.sharpeRatio m * abs pnl == total - baseCapital)).
Proof.
  cbn. fold total pnl. split.
  - intros Hle.
    assert (E : ltb 0 baseCapital = false) by (apply ltb_false; exact Hle).
    rewrite E. split; reflexivity.
  - intros Hpos.
    assert (E : ltb 0 baseCapital = true) by (apply ltb_spec; exact Hpos).
    rewrite E. cbn [andb].
    split; [field; lra|].
    split.
    + intros Hsmall.
      assert (E2 : ltb (1 # 1000) (abs pnl) = false)
        by (apply ltb_false; exact Hsmall).
      rewrite E2. reflexivity.
    + intros Hbig.
      assert (E2 : ltb (1 # 1000) (abs pnl) = true)
        by (apply ltb_spec; exact Hbig).
      rewrite E2.
      assert (Habs : abs (pnl / baseCapital) == abs pnl / baseCapital).
      { unfold abs, Qdiv. rewrite Qabs_Qmult.
        rewrite (Qabs_pos (/ baseCapital)); [reflexivity|].
        apply Qlt_le_weak, Qinv_lt_0_compat. exact Hpos. }
      rewrite Habs. field. split; lra.
Qed.

End Metrics.

(** X20.  [calculateAccountMetrics].  Without an initial capital the base
    is the wallet balance itself, so the total return and the ratio reported
    as sharpeRatio are both zero.  With an initial capital that is not
    positive both are zero and nothing is divided.  With a positive initial
    capital the return is (wallet - capital) / capital, and the ratio is
    zero while the unrealized profit is within 0.001 of zero and otherwise
    equals (wallet - capital) / |unrealized profit|: the capital cancels
    out.  Total cash value and available cash are the wallet balance and the
    available balance of the account, unchanged. *)
Theorem account_metrics (positions : list PositionsTs.Position)
    (accountInfo : AccountTs.AccountInfo) (initialCapital : option Q) :
  let m :=
    AccountTs.calculateAccountMetrics positions accountInfo initialCapital in
  let wallet := AccountTs.totalWalletBalance accountInfo in
  let pnl := AccountTs.totalUnrealizedProfit accountInfo in
  AccountTs.totalCashValue m = wallet
  /\ AccountTs.availableCash m = AccountTs.availableBalance accountInfo
  /\ match initialCapital with
     | None =>
         AccountTs.currentTotalReturn m == 0 /\ AccountTs.sharpeRatio m == 0
     | Some capital =>
         (capital <= 0 ->
          AccountTs.currentTotalReturn m = 0 /\ AccountTs.sharpeRatio m = 0)
         /\ (0 < capital ->
             AccountTs.currentTotalReturn m * capital == wallet - capital
             /\ (abs pnl <= 1 # 1000 -> AccountTs.sharpeRatio m = 0)
             /\ (1 # 1000 < abs pnl ->
                 AccountTs.sharpeRatio m * abs pnl == wallet - capital))
     end.
Proof.
  intros m wallet pnl. subst m wallet pnl.
  split; [reflexivity|]. split; [reflexivity|].
  destruct initialCapital as [capital|].
  - apply metrics_with_capital.
  - apply metrics_without_capital.
Qed.

(** ** The logger: levels and sinks *)

Lemma LEVELS_ranks :
  map_Forall (fun _ rank => (rank <= 3)%N) LoggerTs.LEVELS.
Proof.
  unfold LoggerTs.LEVELS.
  repeat (apply map_Forall_insert_2; [vm_compute; discriminate|]).
  apply map_Forall_empty.
Qed.

Lemma rank_cases (rank : N) :
  (rank <= 3)%N -> rank = 0%N \/ rank = 1%N \/ rank = 2%N \/ rank = 3%N.
Proof. lia. Qed.

Lemma lowerChar_not_upper (c : ascii) :
  Nat.leb 65 (nat_of_ascii (JsText.lowerChar c))
  && Nat.leb (nat_of_ascii (JsText.lowerChar c)) 90 = false.
Proof.
  unfold JsText.lowerChar.
  destruct (Nat.leb 65 (nat_of_ascii c) && Nat.leb (nat_of_ascii c) 90)
    eqn:E; [|exact E].
  apply andb_true_iff in E. destruct E as [E1 E2].
  apply Nat.leb_le in E1, E2.
  rewrite nat_ascii_embedding by lia.
  apply andb_false_iff. right. apply Nat.leb_gt. lia.
Qed.

Lemma toLowerCase_hasUpper (s : string) :
  hasUpper (JsText.toLowerCase s) = false.
Proof.
  induction s as [|c rest IH]; [reflexivity|].
  cbn [JsText.toLowerCase hasUpper].
  rewrite lowerChar_not_upper, IH. reflexivity.
Qed.

(** The inherited names a lower-cased setting can be. *)
Lemma lowercase_inherited (s : string) :
  JsObject.inherited (JsText.toLowerCase s) = true ->
  JsText.toLowerCase s = "constructor"%string
  \/ JsText.toLowerCase s = "__proto__"%string.
Proof.
  intros H. pose proof (toLowerCase_hasUpper s) as Hup.
  unfold JsObject.inherited in H. apply existsb_exists in H.
  destruct H as [name [Hin Heq]]. apply String.eqb_eq in Heq.
  rewrite Heq in Hup |- *.
  cbn in Hin.
  repeat (destruct Hin as [<- | Hin];
          [first [left; reflexivity | right; reflexivity
                 | exfalso; vm_compute in Hup; discriminate Hup]|]).
  contradiction.
Qed.

(** X21.  The logger under any setting of LOG_LEVEL.  The threshold is the
    rank of the lower-cased setting (debug 0, info and log 1, warn 2, error
    3) and 1 for a setting that is neither a level nor a name that LEVELS
    inherits from Object.prototype.  Under such a threshold a method of
    [logger] whose rank is below it does nothing; otherwise it goes through
    the patched console method and then writes itself, so that the message
    reaches the console once, with two time stamps, and the file twice, once
    with the time stamp of the logger in the text and once without; the
    patched console methods write one console line and one file line under
    the same condition, and error is never filtered.  A setting that names
    an inherited member, which after lower-casing can only be "constructor"
    or "__proto__", makes every comparison false: the patched console
    methods, console.error included, print and write nothing, and every
    method of [logger] writes one line to the file and nothing to the
    console.  [rawWrite] with a level that has no rank always writes. *)
Theorem logger_levels (env : option string) :
  let logLevel := LoggerTs.LOG_LEVEL env in
  let logged (method : string) :=
    [LoggerTs.ConsoleLine method 2; LoggerTs.FileLine method 1;
     LoggerTs.FileLine method 0] in
  let printed (method : string) :=
    [LoggerTs.ConsoleLine method 1; LoggerTs.FileLine method 0] in
  let written (method : string) := [LoggerTs.FileLine method 0] in
  match LoggerTs.rankOf logLevel with
  | Some LoggerTs.NotANumber =>
      (logLevel = "constructor"%string \/ logLevel = "__proto__"%string)
      /\ LoggerTs.debug logLevel = written "debug"%string
      /\ LoggerTs.info logLevel = written "info"%string
      /\ LoggerTs.warn logLevel = written "warn"%string
      /\ LoggerTs.error logLevel = written "error"%string
      /\ LoggerTs.console_debug logLevel = []
      /\ LoggerTs.console_log logLevel = []
      /\ LoggerTs.console_info logLevel = []
      /\ LoggerTs.console_warn logLevel = []
      /\ LoggerTs.console_error logLevel = []
  | setting =>
      let threshold :=
        match setting with
        | Some (LoggerTs.Ranked rank) => rank
        | _ => 1%N
        end in
      (threshold <= 3)%N
      /\ LoggerTs.debug logLevel
         = (if (threshold <=? 0)%N then logged "debug"%string else [])
      /\ LoggerTs.info logLevel
         = (if (threshold <=? 1)%N then logged "info"%string else [])
      /\ LoggerTs.warn logLevel
         = (if (threshold <=? 2)%N then logged "warn"%string else [])
      /\ LoggerTs.error logLevel = logged "error"%string
      /\ LoggerTs.console_debug logLevel
         = (if (threshold <=? 0)%N then printed "debug"%string else [])
      /\ LoggerTs.console_log logLevel
         = (if (threshold <=? 1)%N then printed "log"%string else [])
      /\ LoggerTs.console_info logLevel
         = (if (threshold <=? 1)%N then printed "info"%string else [])
      /\ LoggerTs.console_warn logLevel
         = (if (threshold <=? 2)%N then printed "warn"%string else [])
      /\ LoggerTs.console_error logLevel = printed "error"%string
  end
  /\ ((logLevel = "constructor"%string \/ logLevel = "__proto__"%string) ->
      LoggerTs.rankOf logLevel = Some LoggerTs.NotANumber)
  /\ (forall level,
        LoggerTs.LEVELS !! level = None ->
        LoggerTs.rawWrite logLevel level = [LoggerTs.FileLine level 0]).
Proof.
  intros logLevel logged printed written.
  subst logged printed written.
  pose proof (LEVELS_ranks logLevel) as Hrank.
  assert (Hlow : JsObject.inherited logLevel = true ->
                 logLevel = "constructor"%string
                 \/ logLevel = "__proto__"%string).
  { apply lowercase_inherited. }
  split; [|split].
  - unfold LoggerTs.debug, LoggerTs.info, LoggerTs.warn, LoggerTs.error,
      LoggerTs.console_debug, LoggerTs.console_log, LoggerTs.console_info,
      LoggerTs.console_warn, LoggerTs.console_error,
      LoggerTs.loggerMethod, LoggerTs.patchedConsole, LoggerTs.writeLine.
    unfold LoggerTs.rankOf at 1 2 3 4 5 6 7 8 9 10.
    unfold LoggerTs.rankOf at 1, JsObject.get at 1.
    generalize dependent logLevel. intros logLevel Hrank Hlow.
    unfold LoggerTs.rankOf, JsObject.get.
    destruct (LoggerTs.LEVELS !! logLevel) as [rank|] eqn:El.
    + specialize (Hrank rank eq_refl).
      destruct (rank_cases rank Hrank) as [-> | [-> | [-> | ->]]];
        (split; [cbn; lia|]);
        repeat (split; [vm_compute; reflexivity|]); vm_compute; reflexivity.
    + destruct (JsObject.inherited logLevel) eqn:Ei.
      * split; [apply Hlow; reflexivity|].
        repeat (split; [vm_compute; reflexivity|]); vm_compute; reflexivity.
      * (split; [cbn; lia|]);
          repeat (split; [vm_compute; reflexivity|]); vm_compute; reflexivity.
  - intros [Hname | Hname]; rewrite Hname; reflexivity.
  - intros level Hnone.
    unfold LoggerTs.rawWrite, LoggerTs.writeLine.
    unfold LoggerTs.rankOf at 1, JsObject.get at 1. rewrite Hnone.
    destruct (JsObject.inherited level); reflexivity.
Qed.

(** ** The executor variant: sizing *)

Section LongSizing.

Variable config : Config.
Variable currentPrice : Q.

Let unit := pow10 (- quantity config).



Lemma handleSmallAmount_large (a : Q) (l : xnum) :
  unit <= a ->
  BuyLongTs.handleSmallAmount config currentPrice a l = BuyLongTs.Ready a l.
Proof.
  intros Hge. pose proof (pow10_pos (- quantity config)) as Hu.
  fold unit in Hu. unfold BuyLongTs.handleSmallAmount. fold unit.
  assert (E1 : eqb a 0 = false) by (apply eqb_false; lra).
  assert (E2 : ltb a unit = false) by (apply ltb_false; exact Hge).
  rewrite E1, E2. reflexivity.
Qed.



End LongSizing.



(** ** The executor variant: submission *)

Section LongLoop.

Variable w : Exchange.
Variable config : Config.
Variable binanceSymbol : string.
Variable orderType : OrderType.
Variable adjustedAmount : Q.
Variable orderParams : OrderParams.

Let readjusted : OrderParams :=
  mkParams
    (BuyTs.adjustPrecisionFor config
       (adjustedAmount + pow10 (- quantity config)))
    (p_positionSide orderParams) (p_reduceOnly orderParams)
    (p_price orderParams) (p_timeInForce orderParams).

Let loop := BuyLongTs.orderLoop w config binanceSymbol orderType
              [1; 2; 3]%nat adjustedAmount orderParams None.

Local Opaque BuyTs.adjustPrecisionFor pow10 Qplus includes.

Lemma long_orderLoop_run (cache : option PositionMode) :
  cacheAfter (loop cache) = cache
  /\ queriesOf (trace (loop cache)) = []
  /\ Forall (fun sent => sent = orderParams \/ sent = readjusted)
       (ordersOf (trace (loop cache)))
  /\ (exists rest, ordersOf (trace (loop cache)) = orderParams :: rest)
  /\ (exists n sent,
        (1 <= n <= 3)%nat
        /\ beats (trace (loop cache)) = backoff 3000 n
        /\ length (ordersOf (trace (loop cache))) = n
        /\ last (ordersOf (trace (loop cache))) = Some sent
        /\ value (loop cache) = newOrder w n sent
        /\ (forall e, value (loop cache) = inl e -> n = 3%nat))
  /\ (forall e,
        newOrder w 1 orderParams = inl e ->
        includes (orElse (responseMsg e) (message e)) "Precision" = true ->
        exists rest,
          ordersOf (trace (loop cache)) = orderParams :: readjusted :: rest).
Proof.
  subst loop. cbn.
  destruct (newOrder w 1%nat orderParams) as [e1|d1] eqn:E1; cbn.
  2:{ repeat split; eauto.
      - exists 1%nat, orderParams. repeat split; auto; discriminate.
      - discriminate. }
  rewrite ?andb_true_r.
  destruct (includes _ _) eqn:Ei; cbn; rewrite ?andb_false_r.
  - fold readjusted.
    destruct (newOrder w 2%nat readjusted) as [e2|d2] eqn:E2; cbn;
      rewrite ?andb_false_r.
    2:{ repeat split; eauto.
        exists 2%nat, readjusted. repeat split; auto; discriminate. }
    destruct (newOrder w 3%nat readjusted) as [e3|d3] eqn:E3; cbn;
      (repeat split; eauto 10);
      exists 3%nat, readjusted; repeat split; auto.
  - destruct (newOrder w 2%nat orderParams) as [e2|d2] eqn:E2; cbn;
      rewrite ?andb_false_r.
    2:{ repeat split; eauto.
        - exists 2%nat, orderParams. repeat split; auto; discriminate.
        - intros e He Hinc. injection He as <-. congruence. }
    destruct (newOrder w 3%nat orderParams) as [e3|d3] eqn:E3; cbn;
      (repeat split; eauto 10);
      try (exists 3%nat, orderParams; repeat split; auto; fail);
      intros e He Hinc; injection He as <-; congruence.
Qed.

End LongLoop.

Section Stops.

Variable answers : nat -> JsError + bool.


End Stops.

Section LongRun.

Variable params : BuyLongTs.BuyParams.
Variable world : BuyLongTs.World.
Variable cache : option PositionMode.

Let w := BuyLongTs.exchange world.
Let binanceSymbol := replaceSlash (BuyLongTs.symbol params).
Let config := BuyLongTs.configOf binanceSymbol.
Let currentPrice :=
  BuyTs.resolvePrice w (BuyLongTs.price params) binanceSymbol.
Let effectiveLeverage :=
  if given (BuyLongTs.leverage params)
  then default 0 (BuyLongTs.leverage params) else 10.
Let orderType := if given (BuyLongTs.price params) then LIMIT else MARKET.

Local Opaque BuyLongTs.orderLoop BuyLongTs.adjustOrderParameters
  BuyLongTs.setStopLossTakeProfit
  PositionModeCache.getPositionMode BuyTs.resolvePrice includes.


End LongRun.


Section OnGrid.

Variable config : Config.

(** An amount of the grid is left alone by the truncation. *)
Lemma adjustPrecisionFor_fixes_grid (a : Q) :
  onGrid config a -> BuyTs.adjustPrecisionFor config a == a.
Proof.
  intros [n Hn]. unfold BuyTs.adjustPrecisionFor.
  pose proof (pow10_pos (quantity config)) as Hf.
  assert (E : a * pow10 (quantity config) == inject_Z n).
  { rewrite Hn. field. lra. }
  unfold floor. rewrite E, Qfloor_Z, Hn. reflexivity.
Qed.

Lemma requantize_adds_unit (a : Q) :
  onGrid config a ->
  BuyTs.adjustPrecisionFor config (a + pow10 (- quantity config))
  == a + pow10 (- quantity config).
Proof.
  intros Hgrid. apply adjustPrecisionFor_fixes_grid, onGrid_plus_unit.
  exact Hgrid.
Qed.

End OnGrid.


Section Requantized.

Variable w : Exchange.
Variable binanceSymbol : string.
Variable orderType : OrderType.
Variable adjustedAmount : Q.
Variable orderParams : OrderParams.
Variable e : JsError.

Hypothesis refused : newOrder w 1 orderParams = inl e.
Hypothesis precision :
  includes (orElse (responseMsg e) (message e)) "Precision" = true.

Local Opaque BuyTs.adjustPrecision pow10 Qplus includes.

(** The second order of [buy] after a precision error. *)
Lemma buy_orderLoop_requantized (later : list nat)
    (cache : option PositionMode) :
  exists rest,
    ordersOf (trace (BuyTs.orderLoop w binanceSymbol orderType
                       (1 :: 2 :: later)%nat adjustedAmount orderParams None
                       cache))
    = orderParams
      :: mkParams
           (BuyTs.adjustPrecision
              (adjustedAmount + pow10 (- BuyTs.quantityOr3 binanceSymbol))
              binanceSymbol)
           (p_positionSide orderParams) (p_reduceOnly orderParams)
           (p_price orderParams) (p_timeInForce orderParams)
      :: rest.
Proof.
  cbn [BuyTs.orderLoop]. rewrite refused, precision. cbn [Nat.eqb andb].
  unfold bind at 1. cbn [emit value trace cacheAfter].
  unfold bind at 1. cbn [Nat.ltb Nat.leb sleep emit value trace cacheAfter].
  unfold bind at 1. cbn [emit value trace cacheAfter].
  match goal with
  | |- context [trace (?m cache)] =>
      destruct (m cache) as [v c t]
  end.
  cbn. eauto.
Qed.

End Requantized.

(** X24.  The retry after a precision error, in the two variants of the
    buy.  When the first order, for an amount of the symbol's grid, is
    refused with an error text containing "Precision", the second order is
    for the re-quantized sum of that amount and a step: its quantity lies on
    the grid and is either the refused quantity again or one unit more.  For
    a symbol with decimals the step is one unit in both variants, and which
    of the two comes out is left open: it depends on the binary rounding of
    the sum (for BTC, 0.009 + 0.001 is truncated back to 0.009).  For a
    symbol traded in whole units (ADA, DOGE) the executor variant adds one
    and sends one unit more, while [buy] of buy.ts adds 10^-(quantity || 3),
    a thousandth, which the truncation removes again, so that the second
    order repeats the refused quantity. *)
Theorem precision_retry_amounts (w : Exchange) (binanceSymbol : string)
    (orderType : OrderType) (adjustedAmount : Q) (orderParams : OrderParams)
    (e : JsError) (cache : option PositionMode) :
  newOrder w 1 orderParams = inl e ->
  includes (orElse (responseMsg e) (message e)) "Precision" = true ->
  onGrid (BuyTs.configOf binanceSymbol) adjustedAmount ->
  let config := BuyTs.configOf binanceSymbol in
  let unit := pow10 (- quantity config) in
  (exists second rest,
      ordersOf (trace (BuyLongTs.orderLoop w
                         (BuyLongTs.configOf binanceSymbol) binanceSymbol
                         orderType [1; 2; 3]%nat adjustedAmount orderParams
                         None cache))
      = orderParams :: second :: rest
      /\ onGrid config (p_quantity second)
      /\ (p_quantity second == adjustedAmount
          \/ p_quantity second == adjustedAmount + unit)
      /\ (quantity config = 0%Z ->
          p_quantity second == adjustedAmount + 1))
  /\ (exists second rest,
        ordersOf (trace (BuyTs.orderLoop w binanceSymbol orderType
                           [1; 2; 3]%nat adjustedAmount orderParams None
                           cache))
        = orderParams :: second :: rest
        /\ onGrid config (p_quantity second)
        /\ (p_quantity second == adjustedAmount
            \/ p_quantity second == adjustedAmount + unit)
        /\ (quantity config = 0%Z -> p_quantity second == adjustedAmount)).
Proof.
  intros Hrefused Hprecision Hgrid config unit. split.
  - destruct (long_orderLoop_run w (BuyLongTs.configOf binanceSymbol)
                binanceSymbol orderType adjustedAmount orderParams cache)
      as [_ [_ [_ [_ [_ Hsecond]]]]].
    destruct (Hsecond e Hrefused Hprecision) as [rest Hrest].
    eexists _, rest. split; [exact Hrest|]. cbn [p_quantity].
    pose proof (requantize_adds_unit config adjustedAmount Hgrid) as Hre.
    split; [apply (adjustPrecisionFor_onGrid config)|].
    split; [right; exact Hre|].
    intros H0. eapply Qeq_trans; [exact Hre|].
    unfold config in H0 |- *. rewrite H0. reflexivity.
  - destruct (buy_orderLoop_requantized w binanceSymbol orderType
                adjustedAmount orderParams e Hrefused Hprecision
                [3%nat] cache) as [rest Hrest].
    eexists _, rest. split; [exact Hrest|]. cbn [p_quantity].
    unfold BuyTs.adjustPrecision. fold config.
    split; [apply (adjustPrecisionFor_onGrid config)|].
    destruct (buy_quantityOr3_cases binanceSymbol) as [Hq|[Hq0 Hq3]].
    + rewrite Hq. fold config.
      split; [right; apply (requantize_adds_unit config); exact Hgrid|].
      intros H0. exfalso.
      unfold BuyTs.quantityOr3, config, BuyTs.configOf in *.
      destruct (BuyTs.SYMBOL_PRECISION !! binanceSymbol) as [entry|];
        cbn in *.
      * rewrite H0 in Hq. cbn in Hq. discriminate.
      * discriminate.
    + rewrite Hq3.
      pose proof (requantize_integer config adjustedAmount Hq0 Hgrid) as Hre.
      split; [left; exact Hre|]. intros _. exact Hre.
Qed.

Lemma precision_retry_amounts_witness :
  let orderParams := mkParams 1000 None false None None in
  let config := BuyTs.configOf "DOGEUSDT" in
  (exists second rest,
      ordersOf (trace (BuyLongTs.orderLoop MoreSamples.imprecise
                         (BuyLongTs.configOf "DOGEUSDT") "DOGEUSDT" MARKET
                         [1; 2; 3]%nat 1000 orderParams None None))
      = orderParams :: second :: rest
      /\ onGrid config (p_quantity second)
      /\ (p_quantity second == 1000
          \/ p_quantity second == 1000 + pow10 (- quantity config))
      /\ (quantity config = 0%Z -> p_quantity second == 1000 + 1))
  /\ (exists second rest,
        ordersOf (trace (BuyTs.orderLoop MoreSamples.imprecise "DOGEUSDT"
                           MARKET [1; 2; 3]%nat 1000 orderParams None None))
        = orderParams :: second :: rest
        /\ onGrid config (p_quantity second)
        /\ (p_quantity second == 1000
            \/ p_quantity second == 1000 + pow10 (- quantity config))
        /\ (quantity config = 0%Z -> p_quantity second == 1000)).
Proof.
  apply (precision_retry_amounts MoreSamples.imprecise "DOGEUSDT" MARKET 1000
           (mkParams 1000 None false None None) MoreSamples.precisionError
           None); try reflexivity.
  exists 1000%Z. reflexivity.
Defined.

(** ** The short entry with a retry handler against [shortSell] *)

Section SameShortLoop.

Variable w : Exchange.

Hypothesis no_mismatch_at_first :
  forall sent e,
    newOrder w 1 sent = inl e ->
    includes (orElse (responseMsg e) (message e))
      "position side does not match" = false.

Lemma short_orderLoop_plain (binanceSymbol : string)
    (orderType : OrderType) (orderParams : OrderParams)
    (cache : option PositionMode) :
  ShortTs.orderLoop w binanceSymbol orderType [1; 2; 3]%nat orderParams None
    cache
  = SellTs.orderLoop w binanceSymbol SELL orderType [1; 2; 3]%nat
      orderParams cache.
Proof.
  cbn.
  destruct (newOrder w 1 orderParams) as [e1|d1] eqn:E1; cbn;
    [|reflexivity].
  rewrite (no_mismatch_at_first _ _ E1). cbn.
  destruct (newOrder w 2 orderParams) as [e2|d2]; cbn; [|reflexivity].
  rewrite andb_false_r. cbn.
  destruct (newOrder w 3 orderParams) as [e3|d3]; cbn; [|reflexivity].
  rewrite andb_false_r. reflexivity.
Qed.

End SameShortLoop.

Section SameShort.

Variable w : Exchange.
Variable cache : option PositionMode.
Variable params : SellTs.ShortSellParams.

Hypothesis no_mismatch_at_first :
  forall sent e,
    newOrder w 1 sent = inl e ->
    includes (orElse (responseMsg e) (message e))
      "position side does not match" = false.

Local Opaque SellTs.orderLoop SellTs.adjustPrecision ShortTs.orderLoop
  PositionModeCache.getPositionMode includes pow10.

Lemma short_sell_as_shortSell :
  sameOutcome (ShortTs.sell params w cache) (SellTs.shortSell params w cache).
Proof.
  assert (Hfail : forall e1 e2 c t,
             sameOutcome (mkOutcome (inr (failure e1)) c t)
               (mkOutcome (inr (failure e2)) c t)).
  { intros e1 e2 c t. repeat split. eexists _, _. repeat split. }
  unfold ShortTs.sell, SellTs.shortSell.
  destruct (negb (truthy (SellTs.s_symbol params))
            || negb (includes (SellTs.s_symbol params) "/"));
    [apply Hfail|].
  assert (Hz : eqb (SellTs.s_amount params) 0
               || leb (SellTs.s_amount params) 0
               = leb (SellTs.s_amount params) 0).
  { unfold eqb, leb.
    destruct (Qeq_bool (SellTs.s_amount params) 0) eqn:E; [|reflexivity].
    apply Qeq_bool_iff in E. symmetry. apply Qle_bool_iff.
    rewrite E. apply Qle_refl. }
  rewrite Hz.
  destruct (leb (SellTs.s_amount params) 0); [apply Hfail|].
  destruct (ensureTimeSync w) as [e|]; [apply Hfail|].
  destruct (getBinanceInstance w) as [e|]; [apply Hfail|].
  unfold catch, bind, awaitVoid, ret. cbn.
  destruct (leb _ 0 || ltb _ _); [apply Hfail|].
  cbn.
  destruct (getPositionMode_total (modeWorld w) cache) as [mode [Hv Hc]].
  destruct (PositionModeCache.getPositionMode (modeWorld w) cache)
    as [v cache1 queries] eqn:Emode.
  cbn in Hv, Hc. subst v. cbn.
  rewrite (short_orderLoop_plain w no_mismatch_at_first).
  match goal with
  | |- context [SellTs.orderLoop w ?bs ?sd ?ty ?ats ?op cache1] =>
      destruct (SellTs.orderLoop w bs sd ty ats op cache1)
        as [[e'|data] c2 t2]
  end; cbn; rewrite ?app_nil_r.
  - apply Hfail.
  - repeat split. eexists _, _. repeat split.
Qed.

End SameShort.

(** X25.  [sell] of the short-entry module with the retry handler and
    [shortSell] of sell.ts are the same function up to that handler and the
    wording of error texts: for the same request and the same behaviour of
    the exchange, as long as the first order is not answered with a
    position-side mismatch, both leave the same events in the same order
    (mode queries, orders, pauses) and the same cache, and their results
    agree on success, order id, executed price and executed amount. *)
Theorem short_sell_and_shortSell_agree (w : Exchange)
    (cache : option PositionMode) (params : SellTs.ShortSellParams) :
  (forall sent e,
      newOrder w 1 sent = inl e ->
      includes (orElse (responseMsg e) (message e))
        "position side does not match" = false) ->
  sameOutcome (ShortTs.sell params w cache) (SellTs.shortSell params w cache).
Proof.
  intros H. apply short_sell_as_shortSell. exact H.
Qed.

Lemma short_sell_and_shortSell_agree_witness :
  sameOutcome
    (ShortTs.sell (SellTs.mkShortParams "BTC/USDT" (1 # 100) None None)
       Samples.down None)
    (SellTs.shortSell (SellTs.mkShortParams "BTC/USDT" (1 # 100) None None)
       Samples.down None).
Proof.
  apply (short_sell_and_shortSell_agree Samples.down None
           (SellTs.mkShortParams "BTC/USDT" (1 # 100) None None)).
  intros sent e H. injection H as <-. reflexivity.
Defined.

(** ** The retry handler of the short entry *)

Section ShortHandler.

Variable w : Exchange.
Variable binanceSymbol : string.
Variable orderType : OrderType.
Variable quantity : Q.
Variable price : option Q.
Variable timeInForce : option string.

Lemma short_handler_run (orderParams : OrderParams)
    (cache : option PositionMode) :
  let run := ShortTs.onPositionSideMismatch w orderParams cache in
  ordersOf (trace run) = [] /\ sidesOf (trace run) = []
  /\ cacheAfter run = cache
  /\ forall orderParams',
       value run = inr orderParams' ->
       exists side,
         (side = None \/ side = Some SHORT)
         /\ orderParams'
            = mkParams (p_quantity orderParams) side
                (p_reduceOnly orderParams) (p_price orderParams)
                (p_timeInForce orderParams).
Proof.
  unfold ShortTs.onPositionSideMismatch, bind, awaitVoid, emit, await, ret.
  destruct (getBinanceInstance w) as [e|]; cbn.
  - repeat split. intros p' H. discriminate H.
  - destruct (positionModeRequery w) as [e|[|]]; cbn; repeat split;
      intros p' H; try discriminate H; injection H as <-.
    + exists (Some SHORT). split; [right|]; reflexivity.
    + exists None. split; [left|]; reflexivity.
Qed.

(** A step that sends nothing and leaves the cache alone, then the rest. *)
Lemma shortRun_bind_quiet {A B} (m : M A) (k : A -> M B)
    (cache : option PositionMode) (n : nat) :
  ordersOf (trace (m cache)) = [] ->
  sidesOf (trace (m cache)) = [] ->
  cacheAfter (m cache) = cache ->
  (forall a, value (m cache) = inr a ->
             shortRun quantity price timeInForce n cache (k a cache)) ->
  shortRun quantity price timeInForce n cache (bind m k cache).
Proof.
  unfold bind, shortRun.
  destruct (m cache) as [[e|a] c1 t1]; cbn; intros Ho Hs Hc Hk; subst c1.
  - rewrite Ho, Hs. split; [constructor|]. split; [constructor|].
    split; [cbn; lia | reflexivity].
  - rewrite ordersOf_app, sidesOf_app, Ho, Hs. cbn [app].
    apply Hk. reflexivity.
Qed.

(** An order, then the rest. *)
Lemma shortRun_order {B} (orderParams : OrderParams) (attempt : nat)
    (k : unit -> M B) (cache : option PositionMode) (n : nat) :
  shortShape quantity price timeInForce orderParams ->
  shortRun quantity price timeInForce n cache (k tt cache) ->
  shortRun quantity price timeInForce (S n) cache
    (bind (emit (EvNewOrder attempt binanceSymbol SELL orderType
                   orderParams)) k cache).
Proof.
  intros Hshape [Hf [Hsd [Hlen Hc]]]. unfold bind, emit, shortRun. cbn.
  split; [constructor; assumption|].
  split; [constructor; [reflexivity | assumption]|].
  split; [lia | exact Hc].
Qed.

Lemma shortRun_silent {A} (v : JsError + A) (cache : option PositionMode)
    (t : list Event) (n : nat) :
  ordersOf t = [] -> sidesOf t = [] ->
  shortRun quantity price timeInForce n cache (mkOutcome v cache t).
Proof.
  intros Ho Hs. unfold shortRun. cbn. rewrite Ho, Hs.
  split; [constructor|]. split; [constructor|].
  split; [cbn; lia | reflexivity].
Qed.

(** A step that sends nothing, whatever it does to the cache, then the
    rest. *)
Lemma shortRun_bind_first {A B} (m : M A) (k : A -> M B)
    (cache : option PositionMode) (n : nat) :
  ordersOf (trace (m cache)) = [] ->
  sidesOf (trace (m cache)) = [] ->
  (forall a, value (m cache) = inr a ->
             exists c, shortRun quantity price timeInForce n c
                         (k a (cacheAfter (m cache)))) ->
  exists c, shortRun quantity price timeInForce n c (bind m k cache).
Proof.
  unfold bind, shortRun.
  destruct (m cache) as [[e|a] c1 t1]; cbn; intros Ho Hs Hk.
  - exists c1. rewrite Ho, Hs. split; [constructor|].
    split; [constructor|]. split; [cbn; lia | reflexivity].
  - destruct (Hk a eq_refl) as [c H]. exists c.
    rewrite ordersOf_app, sidesOf_app, Ho, Hs. cbn [app]. exact H.
Qed.

(** The rest of a run that only builds its result. *)
Lemma shortRun_bind_ret {A B} (m : M A) (f : A -> B)
    (cache c : option PositionMode) (n : nat) :
  shortRun quantity price timeInForce n c (m cache) ->
  shortRun quantity price timeInForce n c
    (bind m (fun a => ret (f a)) cache).
Proof.
  unfold bind, ret, shortRun.
  destruct (m cache) as [[e|a] c1 t1]; cbn; rewrite ?app_nil_r;
    intros H; exact H.
Qed.

(** A handler that sends nothing. *)
Lemma shortRun_catch {A} (m : M A) (h : JsError -> A)
    (cache c : option PositionMode) (n : nat) :
  shortRun quantity price timeInForce n c (m cache) ->
  shortRun quantity price timeInForce n c
    (catch m (fun e => ret (h e)) cache).
Proof.
  unfold catch, ret, shortRun.
  destruct (m cache) as [[e|a] c1 t1]; cbn; rewrite ?app_nil_r;
    intros H; exact H.
Qed.

(** Whatever the exchange answers, the loop sends SELL orders of one shape,
    at most one per attempt, and leaves the cache alone. *)
Lemma short_orderLoop_shape (attempts : list nat) :
  forall (orderParams : OrderParams) (lastError : option JsError)
         (cache : option PositionMode),
    shortShape quantity price timeInForce orderParams ->
    shortRun quantity price timeInForce (length attempts) cache
      (ShortTs.orderLoop w binanceSymbol orderType attempts orderParams
         lastError cache).
Proof.
  induction attempts as [|attempt later IH];
    intros orderParams lastError cache Hshape.
  - apply shortRun_silent; reflexivity.
  - cbn [ShortTs.orderLoop length].
    apply shortRun_order; [exact Hshape|].
    destruct (newOrder w attempt orderParams) as [orderError|data];
      [|apply shortRun_silent; reflexivity].
    assert (Hnext : forall orderParams',
               shortShape quantity price timeInForce orderParams' ->
               shortRun quantity price timeInForce (length later) cache
                 ((if Nat.ltb attempt 3
                   then sleep (N.of_nat attempt * 2000) ;;;
                        ShortTs.orderLoop w binanceSymbol orderType later
                          orderParams' (Some orderError)
                   else throw orderError) cache)).
    { intros orderParams' Hshape'.
      destruct (Nat.ltb attempt 3);
        [|apply shortRun_silent; reflexivity].
      apply shortRun_bind_quiet; try reflexivity.
      intros _ _. apply IH. exact Hshape'. }
    destruct (includes _ _ && Nat.eqb attempt 1).
    + destruct (short_handler_run orderParams cache)
        as [Ho [Hs [Hc Hv]]].
      apply shortRun_bind_quiet; [exact Ho | exact Hs | exact Hc |].
      intros orderParams' Hval.
      destruct (Hv orderParams' Hval) as [side [Hside ->]].
      apply Hnext.
      destruct Hshape as [Hq [Hp [Ht [Hr _]]]].
      unfold shortShape. cbn. repeat split; assumption.
    + apply shortRun_bind_quiet; try reflexivity.
      intros a Ha. injection Ha as <-. apply Hnext. exact Hshape.
Qed.

End ShortHandler.

(** X26.  A short entry through [sell] with the retry handler never turns
    into anything else, whatever the exchange answers and whether or not
    the handler runs: every order it sends is a SELL order for the amount
    as [adjustPrecision] put it on the symbol's grid, with the limit price of the request if
    one was given, never reduce-only, and with positionSide either absent
    or SHORT; at most three orders are sent. *)
Theorem short_sell_sends_only_short_entries
    (params : SellTs.ShortSellParams) (w : Exchange)
    (cache : option PositionMode) :
  let run := ShortTs.sell params w cache in
  let binanceSymbol := replaceSlash (SellTs.s_symbol params) in
  Forall
    (fun sent =>
       p_quantity sent
       = SellTs.adjustPrecision (SellTs.s_amount params) binanceSymbol
       /\ p_price sent
          = (if given (SellTs.s_price params)
             then SellTs.s_price params else None)
       /\ p_reduceOnly sent = false
       /\ (p_positionSide sent = None \/ p_positionSide sent = Some SHORT))
    (ordersOf (trace run))
  /\ Forall (eq SELL) (sidesOf (trace run))
  /\ (length (ordersOf (trace run)) <= 3)%nat.
Proof.
  intros run binanceSymbol. subst run.
  set (quantity :=
         SellTs.adjustPrecision (SellTs.s_amount params) binanceSymbol).
  set (price := if given (SellTs.s_price params)
                then SellTs.s_price params else None).
  set (timeInForce := if given (SellTs.s_price params)
                      then Some "GTC"%string else None).
  assert (Hgoal : forall run : Outcome OrderResult,
             (exists c, shortRun quantity price timeInForce 3 c run) ->
             Forall
               (fun sent =>
                  p_quantity sent = quantity
                  /\ p_price sent = price
                  /\ p_reduceOnly sent = false
                  /\ (p_positionSide sent = None
                      \/ p_positionSide sent = Some SHORT))
               (ordersOf (trace run))
             /\ Forall (eq SELL) (sidesOf (trace run))
             /\ (length (ordersOf (trace run)) <= 3)%nat).
  { intros run [c [Hf [Hs [Hl _]]]].
    split; [|split; assumption].
    eapply Forall_impl; [exact Hf|].
    intros sent [Hq [Hp [_ [Hr Hside]]]]. repeat split; assumption. }
  apply Hgoal.
  assert (Hquiet : forall (v : JsError + OrderResult) c,
             exists c', shortRun quantity price timeInForce 3 c'
                          (mkOutcome v c [])).
  { intros v c. exists c. apply shortRun_silent; reflexivity. }
  unfold ShortTs.sell.
  destruct (negb (truthy (SellTs.s_symbol params))
            || negb (includes (SellTs.s_symbol params) "/"));
    [apply Hquiet|].
  destruct (eqb (SellTs.s_amount params) 0
            || leb (SellTs.s_amount params) 0); [apply Hquiet|].
  assert (Hbody : forall body : M OrderResult,
             (exists c, shortRun quantity price timeInForce 3 c
                          (body cache)) ->
             exists c, shortRun quantity price timeInForce 3 c
                         (catch body
                            (fun error =>
                               ret (failure
                                      (SellTs.errorText
                                         "Unknown error occurred during short sell"
                                         error))) cache)).
  { intros body [c H]. exists c.
    apply (shortRun_catch quantity price timeInForce body
             (fun error =>
                failure (SellTs.errorText
                           "Unknown error occurred during short sell" error))).
    exact H. }
  apply Hbody.
  apply shortRun_bind_first;
    [destruct (ensureTimeSync w); reflexivity
    |destruct (ensureTimeSync w); reflexivity|].
  intros _ _.
  assert (Hc0 : cacheAfter (awaitVoid (ensureTimeSync w) cache) = cache)
    by reflexivity.
  rewrite Hc0.
  apply shortRun_bind_first;
    [destruct (getBinanceInstance w); reflexivity
    |destruct (getBinanceInstance w); reflexivity|].
  intros _ _.
  assert (Hc1 : cacheAfter (awaitVoid (getBinanceInstance w) cache) = cache)
    by reflexivity.
  rewrite Hc1.
  fold binanceSymbol. fold quantity.
  destruct (leb quantity 0 || ltb quantity _); [apply Hquiet|].
  destruct (getPositionMode_quiet (modeWorld w) cache) as [Ho _].
  apply shortRun_bind_first;
    [exact Ho | apply getPositionMode_sides |].
  intros mode _.
  exists (cacheAfter (PositionModeCache.getPositionMode (modeWorld w) cache)).
  apply (shortRun_bind_ret quantity price timeInForce
           (ShortTs.orderLoop w binanceSymbol
              (if given (SellTs.s_price params) then LIMIT else MARKET)
              [1; 2; 3]%nat
              (SellTs.shortOrderParams (SellTs.s_price params) quantity mode)
              None) filled).
  apply (short_orderLoop_shape w binanceSymbol
           (if given (SellTs.s_price params) then LIMIT else MARKET)
           quantity price timeInForce [1; 2; 3]%nat).
  unfold shortShape, SellTs.shortOrderParams. cbn.
  repeat split. destruct mode; [left | right]; reflexivity.
Qed.

Section ShortTail.

Variable w : Exchange.
Variable binanceSymbol : string.
Variable orderType : OrderType.

Local Opaque includes.

(** The second and third attempts: the handler does not run again. *)
Lemma short_orderLoop_tail (orderParams : OrderParams)
    (lastError : option JsError) (cache : option PositionMode) :
  let run :=
    ShortTs.orderLoop w binanceSymbol orderType [2; 3]%nat orderParams
      lastError cache in
  exists later,
    ordersOf (trace run) = orderParams :: later
    /\ Forall (eq orderParams) later
    /\ queriesOf (trace run) = [].
Proof.
  intros run. subst run. cbn [ShortTs.orderLoop].
  unfold bind, emit, sleep, ret, throw. cbn.
  destruct (newOrder w 2 orderParams) as [e2|d2]; cbn.
  - rewrite andb_false_r. cbn.
    destruct (newOrder w 3 orderParams) as [e3|d3]; cbn.
    + rewrite andb_false_r. cbn.
      exists [orderParams]. repeat split. repeat constructor.
    + exists [orderParams]. repeat split. repeat constructor.
  - exists []. repeat split. constructor.
Qed.

(** The first attempt when it is answered with a mismatch and the
    re-query is answered. *)
Lemma short_orderLoop_first_mismatch (orderParams : OrderParams)
    (e : JsError) (dual : bool) (later : list nat)
    (cache : option PositionMode) :
  newOrder w 1 orderParams = inl e ->
  includes (orElse (responseMsg e) (message e))
    "position side does not match" = true ->
  getBinanceInstance w = None ->
  positionModeRequery w = inr dual ->
  ShortTs.orderLoop w binanceSymbol orderType (1%nat :: later) orderParams
    None cache
  = let rest :=
      ShortTs.orderLoop w binanceSymbol orderType later
        (mkParams (p_quantity orderParams)
           (if dual then Some SHORT else None)
           (p_reduceOnly orderParams) (p_price orderParams)
           (p_timeInForce orderParams)) (Some e) cache in
    mkOutcome (value rest) (cacheAfter rest)
      (EvNewOrder 1 binanceSymbol SELL orderType orderParams
       :: EvModeQuery SdkPositionMode :: EvSleep 2000 :: trace rest).
Proof.
  intros H1 Hinc Hinst Hq. cbn [ShortTs.orderLoop].
  rewrite H1, Hinc. cbn [Nat.eqb andb].
  unfold ShortTs.onPositionSideMismatch. rewrite Hinst, Hq.
  destruct dual; reflexivity.
Qed.

End ShortTail.

(** X27.  The submission loop of the short entry after the first order was
    refused with a position-side mismatch.  The exchange is asked for the
    position mode exactly once.  If that question fails, its error leaves
    the loop at once: no pause, no second attempt.  If it is answered, the
    second order, and the third if there is one, carry positionSide SHORT
    when the answer is dual-side and no positionSide otherwise, with
    quantity, price and the reduce-only flag as in the first order. *)
Theorem short_loop_after_mismatch (w : Exchange) (binanceSymbol : string)
    (orderType : OrderType) (orderParams : OrderParams) (e : JsError)
    (cache : option PositionMode) :
  newOrder w 1 orderParams = inl e ->
  includes (orElse (responseMsg e) (message e))
    "position side does not match" = true ->
  getBinanceInstance w = None ->
  let run :=
    ShortTs.orderLoop w binanceSymbol orderType [1; 2; 3]%nat orderParams
      None cache in
  match positionModeRequery w with
  | inl e' =>
      run = mkOutcome (inl e') cache
              [EvNewOrder 1 binanceSymbol SELL orderType orderParams;
               EvModeQuery SdkPositionMode]
  | inr dual =>
      let rebuilt :=
        mkParams (p_quantity orderParams)
          (if dual then Some SHORT else None)
          (p_reduceOnly orderParams) (p_price orderParams)
          (p_timeInForce orderParams) in
      queriesOf (trace run) = [SdkPositionMode]
      /\ exists later,
           ordersOf (trace run) = orderParams :: rebuilt :: later
           /\ Forall (eq rebuilt) later
  end.
Proof.
  intros H1 Hinc Hinst run. subst run.
  destruct (positionModeRequery w) as [e'|dual] eqn:Hq.
  - cbn [ShortTs.orderLoop]. rewrite H1, Hinc. cbn [Nat.eqb andb].
    unfold ShortTs.onPositionSideMismatch. rewrite Hinst, Hq. reflexivity.
  - intros rebuilt.
    rewrite (short_orderLoop_first_mismatch w binanceSymbol orderType
               orderParams e dual [2; 3]%nat cache H1 Hinc Hinst Hq).
    fold rebuilt.
    destruct (short_orderLoop_tail w binanceSymbol orderType rebuilt
                (Some e) cache) as [later [Ho [Hf Hqs]]].
    cbv zeta.
    destruct (ShortTs.orderLoop w binanceSymbol orderType [2; 3]%nat rebuilt
                (Some e) cache) as [v2 c2 t2].
    cbn in Ho, Hqs |- *. rewrite Hqs, Ho.
    split; [reflexivity|]. exists later.
    split; [reflexivity | exact Hf].
Qed.

Lemma short_loop_after_mismatch_witness :
  let orderParams := mkParams (1 # 100) None false None None in
  let rebuilt := mkParams (1 # 100) (Some SHORT) false None None in
  let run :=
    ShortTs.orderLoop Samples.mismatching "BTCUSDT" MARKET [1; 2; 3]%nat
      orderParams None (Some ONE_WAY) in
  queriesOf (trace run) = [SdkPositionMode]
  /\ exists later,
       ordersOf (trace run) = orderParams :: rebuilt :: later
       /\ Forall (eq rebuilt) later.
Proof.
  exact (short_loop_after_mismatch Samples.mismatching "BTCUSDT" MARKET
           (mkParams (1 # 100) None false None None) Samples.mismatch
           (Some ONE_WAY) eq_refl eq_refl eq_refl).
Defined.

(** ** The trading executor: what a decision leaves in the records *)

Section ExecutorRecords.

Import ExecutorTs.

Local Opaque BuyLongTs.buyLong createTradingData.

(** What [processSingleDecision] appended to the records, in terms of the
    decision as it was handed in. *)
Lemma processSingleDecision_records (decision : Decision) (pass : Pass)
    (state : State) :
  let after := processSingleDecision decision pass state in
  exists status,
    let own := createTradingData
                 (match status with
                  | Some s => withStatus decision s
                  | None => decision
                  end) noOverrides in
    let failed := createTradingData decision
                    (mkOverrides (Some Failed) None None None None) in
    fst after
    = match status with
      | Some s => withStatus decision s
      | None => decision
      end
    /\ (allTradingRecords (snd after) = allTradingRecords state ++ [own]
        \/ allTradingRecords (snd after) = allTradingRecords state ++ [failed]
           /\ status = None
           /\ remainingAvailableCash (snd after)
              = remainingAvailableCash state
        \/ allTradingRecords (snd after)
           = allTradingRecords state ++ [failed; own]
           /\ status = None
           /\ (opeartion decision = Buy \/ opeartion decision = Sell)
           /\ remainingAvailableCash (snd after)
              = remainingAvailableCash state).
Proof.
  intros after. subst after. unfold processSingleDecision.
  set (state1 := match chat decision with
                 | Some text =>
                     if truthy text
                     then say (Said (symbol decision) text) state
                     else state
                 | None => state
                 end).
  assert (Hr : allTradingRecords state1 = allTradingRecords state).
  { subst state1. destruct (chat decision) as [text|]; [|reflexivity].
    destruct (truthy text); reflexivity. }
  assert (Hc : remainingAvailableCash state1 = remainingAvailableCash state).
  { subst state1. destruct (chat decision) as [text|]; [|reflexivity].
    destruct (truthy text); reflexivity. }
  clearbody state1.
  destruct (opeartion decision) eqn:Eop.
  - unfold processBuyLongDecision.
    destruct (amount decision) as [amount|];
      [destruct (leverage decision) as [leverage|]|].
    + destruct (checkBuyRisk pass amount (pricing decision) leverage
                  (remainingAvailableCash state1)) as [e|riskCheck].
      { exists None. cbn. rewrite Hr, Hc. split; [reflexivity|].
        right. left. repeat split. }
      destruct (negb (allowed riskCheck)).
      { exists None. cbn. rewrite Hr, Hc, <- app_assoc.
        split; [reflexivity|]. right. right. repeat split. left.
        reflexivity. }
      destruct (xgtb _ _).
      { exists None. cbn. rewrite Hr, Hc, <- app_assoc.
        split; [reflexivity|]. right. right. repeat split. left.
        reflexivity. }
      destruct (value (BuyLongTs.buyLong _ _ _)) as [e|buyResult].
      { exists None. cbn. rewrite Hr, Hc. split; [reflexivity|].
        right. left. repeat split. }
      destruct (success buyResult).
      * exists (Some 1000). cbn. rewrite Hr. split; [reflexivity|].
        left. reflexivity.
      * exists None. cbn. rewrite Hr. split; [reflexivity|].
        left. reflexivity.
    + exists None. cbn. rewrite Hr, Hc, <- app_assoc.
      split; [reflexivity|]. right. right. repeat split. left. reflexivity.
    + exists None. cbn. rewrite Hr, Hc, <- app_assoc.
      split; [reflexivity|]. right. right. repeat split. left. reflexivity.
  - unfold processBuyShortDecision.
    destruct (amount decision) as [amount|];
      [destruct (leverage decision) as [leverage|]|].
    + destruct (buyShort pass _ amount leverage) as [e|[|]].
      * exists None. cbn. rewrite Hr, Hc. split; [reflexivity|].
        right. left. repeat split.
      * exists (Some 2000). cbn. rewrite Hr. split; [reflexivity|].
        left. reflexivity.
      * exists None. cbn. rewrite Hr. split; [reflexivity|].
        left. reflexivity.
    + exists None. cbn. rewrite Hr, Hc, <- app_assoc.
      split; [reflexivity|]. right. right. repeat split. right.
      reflexivity.
    + exists None. cbn. rewrite Hr, Hc, <- app_assoc.
      split; [reflexivity|]. right. right. repeat split. right.
      reflexivity.
  - exists (Some (-1)). cbn. rewrite Hr. split; [reflexivity|].
    left. reflexivity.
  - unfold processCloseDecision.
    destruct (closePosition pass _ 100) as [e|[|]].
    + exists None. cbn. rewrite Hr, Hc. split; [reflexivity|].
      right. left. repeat split.
    + exists (Some (-1000)). cbn. rewrite Hr. split; [reflexivity|].
      left. reflexivity.
    + exists None. cbn. rewrite Hr. split; [reflexivity|].
      left. reflexivity.
  - exists None. cbn. rewrite Hr. split; [reflexivity|].
    left. reflexivity.
Qed.

End ExecutorRecords.

(** X28.  What one decision leaves in the records of the executor.  One or
    two rows are appended, all for the decision's symbol, each under the
    decision's own operation or as Failed.  When two rows are appended, the
    first is the Failed row and the second is a row under the decision's
    own operation, as if it had been processed, and the available cash is
    as before.  A Buy or Sell decision without an amount or without a
    leverage always leaves two rows. *)
Theorem executor_records_refusals_twice (decision : ExecutorTs.Decision)
    (pass : ExecutorTs.Pass) (state : ExecutorTs.State) :
  let after := snd (ExecutorTs.processSingleDecision decision pass state) in
  exists new,
    ExecutorTs.allTradingRecords after
    = ExecutorTs.allTradingRecords state ++ new
    /\ (1 <= length new <= 2)%nat
    /\ Forall
         (fun row =>
            ExecutorTs.t_symbol row = ExecutorTs.symbol decision
            /\ (ExecutorTs.t_opeartion row = ExecutorTs.opeartion decision
                \/ ExecutorTs.t_opeartion row = ExecutorTs.Failed)) new
    /\ (length new = 2%nat ->
        map ExecutorTs.t_opeartion new
        = [ExecutorTs.Failed; ExecutorTs.opeartion decision]
        /\ ExecutorTs.remainingAvailableCash after
           = ExecutorTs.remainingAvailableCash state)
    /\ ((ExecutorTs.opeartion decision = ExecutorTs.Buy
         \/ ExecutorTs.opeartion decision = ExecutorTs.Sell) ->
        (ExecutorTs.amount decision = None
         \/ ExecutorTs.leverage decision = None) ->
        length new = 2%nat).
Proof.
  intros after. subst after.
  destruct (processSingleDecision_records decision pass state)
    as [status [_ H]].
  cbv zeta in H.
  assert (Hsym : forall d o,
             ExecutorTs.t_symbol (ExecutorTs.createTradingData d o)
             = ExecutorTs.symbol d) by reflexivity.
  assert (Hown : forall d,
             ExecutorTs.t_opeartion
               (ExecutorTs.createTradingData d ExecutorTs.noOverrides)
             = ExecutorTs.opeartion d) by reflexivity.
  assert (Hst : forall d : ExecutorTs.Decision,
             ExecutorTs.symbol
               match status with
               | Some s => ExecutorTs.withStatus d s
               | None => d
               end = ExecutorTs.symbol d
             /\ ExecutorTs.opeartion
                  match status with
                  | Some s => ExecutorTs.withStatus d s
                  | None => d
                  end = ExecutorTs.opeartion d).
  { intros d. destruct status; split; reflexivity. }
  destruct (Hst decision) as [Hs Ho].
  assert (Hmissing :
            (ExecutorTs.opeartion decision = ExecutorTs.Buy
             \/ ExecutorTs.opeartion decision = ExecutorTs.Sell) ->
            (ExecutorTs.amount decision = None
             \/ ExecutorTs.leverage decision = None) ->
            exists r1 r2,
              ExecutorTs.allTradingRecords
                (snd (ExecutorTs.processSingleDecision decision pass state))
              = ExecutorTs.allTradingRecords state ++ [r1; r2]).
  { intros Hop Hm. unfold ExecutorTs.processSingleDecision.
    set (state1 := match ExecutorTs.chat decision with
                   | Some text =>
                       if truthy text
                       then ExecutorTs.say
                              (ExecutorTs.Said (ExecutorTs.symbol decision)
                                 text) state
                       else state
                   | None => state
                   end).
    assert (Hr : ExecutorTs.allTradingRecords state1
                 = ExecutorTs.allTradingRecords state).
    { subst state1. destruct (ExecutorTs.chat decision) as [text|];
        [|reflexivity].
      destruct (truthy text); reflexivity. }
    clearbody state1.
    unfold ExecutorTs.processBuyLongDecision,
      ExecutorTs.processBuyShortDecision.
    destruct Hop as [-> | ->];
      (destruct Hm as [-> | ->];
       [|destruct (ExecutorTs.amount decision)]);
      cbn; rewrite Hr, <- app_assoc; eexists _, _; reflexivity. }
  destruct H as [H | [[H [_ Hc]] | [H [_ [Hop Hc]]]]].
  - exists [ExecutorTs.createTradingData
              match status with
              | Some s => ExecutorTs.withStatus decision s
              | None => decision
              end ExecutorTs.noOverrides].
    split; [exact H|]. split; [cbn; lia|].
    split; [constructor; [|constructor];
            rewrite Hsym, Hown, Hs, Ho; split; [|left]; reflexivity|].
    split; [intros Hl; discriminate Hl|].
    intros Hop Hm. destruct (Hmissing Hop Hm) as [r1 [r2 Hrr]].
    rewrite H in Hrr. apply app_inv_head in Hrr. discriminate Hrr.
  - exists [ExecutorTs.createTradingData decision
              (ExecutorTs.mkOverrides (Some ExecutorTs.Failed) None None
                 None None)].
    split; [exact H|]. split; [cbn; lia|].
    split; [constructor; [|constructor];
            rewrite Hsym; split; [|right]; reflexivity|].
    split; [intros Hl; discriminate Hl|].
    intros Hop' Hm. destruct (Hmissing Hop' Hm) as [r1 [r2 Hrr]].
    rewrite H in Hrr. apply app_inv_head in Hrr. discriminate Hrr.
  - eexists. split; [exact H|]. split; [cbn; lia|].
    split.
    { constructor; [|constructor; [|constructor]].
      - rewrite Hsym. split; [|right]; reflexivity.
      - rewrite Hsym, Hown, Hs, Ho. split; [|left]; reflexivity. }
    split; [|intros _ _; reflexivity].
    intros _. split; [|exact Hc].
    cbn [map]. rewrite Hown, Ho. reflexivity.
Qed.

(** ** The trading executor: the margin check *)

Lemma xsub_NaN_r (x : xnum) : xsub x NaN = NaN.
Proof. destruct x; reflexivity. Qed.

Lemma xgtb_NaN_r (x : xnum) : xgtb x NaN = false.
Proof. destruct x; reflexivity. Qed.

Section ExecutorMargin.

Import ExecutorTs.

Local Opaque BuyLongTs.buyLong createTradingData.

(** One decision whose margin test cannot fail: no message about
    insufficient margin, and the cash changes only by a buy that
    succeeded. *)
Lemma processSingleDecision_margin (decision : Decision) (pass : Pass)
    (state : State) :
  (forall amount leverage,
      xgtb (requiredMarginOf amount (pricing decision) leverage)
        (remainingAvailableCash state) = false) ->
  let after := processSingleDecision decision pass state in
  (exists added,
      allChatMessages (snd after) = allChatMessages state ++ added
      /\ Forall (fun message => isInsufficient message = false) added)
  /\ (trade_status (fst after) = trade_status decision
      /\ remainingAvailableCash (snd after) = remainingAvailableCash state
      \/ opeartion decision <> Buy
         /\ trade_status (fst after) <> Some 1000
         /\ remainingAvailableCash (snd after)
            = remainingAvailableCash state
      \/ exists amount leverage,
           opeartion decision = Buy
           /\ trade_status (fst after) = Some 1000
           /\ remainingAvailableCash (snd after)
              = xsub (remainingAvailableCash state)
                  (requiredMarginOf amount (pricing decision) leverage)).
Proof.
  intros Hm after. subst after. unfold processSingleDecision.
  set (state1 := match chat decision with
                 | Some text =>
                     if truthy text
                     then say (Said (symbol decision) text) state
                     else state
                 | None => state
                 end).
  assert (Hs : exists said,
             allChatMessages state1 = allChatMessages state ++ said
             /\ Forall (fun message => isInsufficient message = false) said).
  { subst state1. destruct (chat decision) as [text|];
      [destruct (truthy text)|].
    - eexists. split; [reflexivity|]. repeat constructor.
    - exists []. rewrite app_nil_r. split; [reflexivity | constructor].
    - exists []. rewrite app_nil_r. split; [reflexivity | constructor]. }
  assert (Hc : remainingAvailableCash state1 = remainingAvailableCash state).
  { subst state1. destruct (chat decision) as [text|]; [|reflexivity].
    destruct (truthy text); reflexivity. }
  clearbody state1. destruct Hs as [said [Hs Hq]].
  assert (Hplain : exists added,
             allChatMessages state1 = allChatMessages state ++ added
             /\ Forall (fun message => isInsufficient message = false) added)
    by (exists said; split; assumption).
  destruct (opeartion decision) eqn:Eop.
  - unfold processBuyLongDecision.
    destruct (amount decision) as [amount|];
      [destruct (leverage decision) as [leverage|]|].
    + destruct (checkBuyRisk pass amount (pricing decision) leverage
                  (remainingAvailableCash state1)) as [e|riskCheck].
      { cbn. rewrite ?Hc. split; [exact Hplain|]. left. split; reflexivity. }
      destruct (negb (allowed riskCheck)).
      { cbn. rewrite Hc, Hs, <- app_assoc. split.
        - eexists. split; [reflexivity|].
          apply Forall_app. split; [exact Hq | repeat constructor].
        - left. split; reflexivity. }
      rewrite Hc, Hm.
      destruct (value (BuyLongTs.buyLong _ _ _)) as [e|buyResult].
      { cbn. rewrite ?Hc. split; [exact Hplain|]. left. split; reflexivity. }
      destruct (success buyResult).
      * cbn. split; [exact Hplain|]. right. right.
        exists amount, leverage. rewrite ?Hc. repeat split.
      * cbn. rewrite ?Hc. split; [exact Hplain|]. left. split; reflexivity.
    + cbn. rewrite ?Hc. split; [exact Hplain|]. left. split; reflexivity.
    + cbn. rewrite ?Hc. split; [exact Hplain|]. left. split; reflexivity.
  - unfold processBuyShortDecision.
    destruct (amount decision) as [amount|];
      [destruct (leverage decision) as [leverage|]|].
    + destruct (buyShort pass _ amount leverage) as [e|[|]]; cbn;
        rewrite ?Hc; (split; [exact Hplain|]).
      * left. split; reflexivity.
      * right. left. split; [intros H; discriminate H|].
        split; [intros H; discriminate H | reflexivity].
      * left. split; reflexivity.
    + cbn. rewrite ?Hc. split; [exact Hplain|]. left. split; reflexivity.
    + cbn. rewrite ?Hc. split; [exact Hplain|]. left. split; reflexivity.
  - cbn. rewrite ?Hc. split; [exact Hplain|]. right. left.
    split; [intros H; discriminate H|].
    split; [intros H; discriminate H | reflexivity].
  - unfold processCloseDecision.
    destruct (closePosition pass _ 100) as [e|[|]]; cbn; rewrite ?Hc;
      (split; [exact Hplain|]).
    + left. split; reflexivity.
    + right. left. split; [intros H; discriminate H|].
      split; [intros H; discriminate H | reflexivity].
    + left. split; reflexivity.
  - cbn. rewrite ?Hc. split; [exact Hplain|]. left. split; reflexivity.
Qed.

End ExecutorMargin.

(** X29.  A decision mapped from an answer of the model has no pricing, so
    the margin it requires is not a number.  Whatever the available cash,
    such a decision is never refused for insufficient margin; and if it is
    a buy that succeeds (trade status 1000), the available cash is no
    number afterwards.  In every other case the cash is as before. *)
Theorem schema_buy_turns_cash_into_NaN (d : ExecutorTs.SchemaAnswer)
    (pass : ExecutorTs.Pass) (state : ExecutorTs.State) :
  let after :=
    ExecutorTs.processSingleDecision (ExecutorTs.mapDecision d) pass state in
  (exists added,
      ExecutorTs.allChatMessages (snd after)
      = ExecutorTs.allChatMessages state ++ added
      /\ Forall (fun message => isInsufficient message = false) added)
  /\ (ExecutorTs.trade_status (fst after) = Some 1000 ->
      ExecutorTs.remainingAvailableCash (snd after) = NaN)
  /\ (ExecutorTs.trade_status (fst after) <> Some 1000 ->
      ExecutorTs.remainingAvailableCash (snd after)
      = ExecutorTs.remainingAvailableCash state).
Proof.
  intros after. subst after.
  destruct (processSingleDecision_margin (ExecutorTs.mapDecision d) pass
              state) as [Hchat Hcash].
  { intros amount leverage. reflexivity. }
  cbv zeta in Hchat, Hcash.
  split; [exact Hchat|].
  destruct Hcash as [[Hst Hc] | [[_ [Hst Hc]] | [a [l [_ [Hst Hc]]]]]].
  - split; [|intros _; exact Hc].
    intros H. rewrite Hst in H. discriminate H.
  - split; [|intros _; exact Hc].
    intros H. contradiction.
  - split; [|intros H; contradiction].
    intros _. rewrite ?Hc. apply xsub_NaN_r.
Qed.

Lemma processTradingDecisions_NaN
    (decisions : list (ExecutorTs.Decision * ExecutorTs.Pass)) :
  forall state,
    ExecutorTs.remainingAvailableCash state = NaN ->
    let final := ExecutorTs.processTradingDecisions decisions state in
    ExecutorTs.remainingAvailableCash final = NaN
    /\ exists added,
         ExecutorTs.allChatMessages final
         = ExecutorTs.allChatMessages state ++ added
         /\ Forall (fun message => isInsufficient message = false) added.
Proof.
  induction decisions as [|[decision pass] later IH]; intros state Hnan.
  - cbn. split; [exact Hnan|]. exists []. rewrite app_nil_r.
    split; [reflexivity | constructor].
  - cbn [ExecutorTs.processTradingDecisions].
    destruct (processSingleDecision_margin decision pass state)
      as [[added [Hchat Hq]] Hcash].
    { intros amount leverage. rewrite Hnan. apply xgtb_NaN_r. }
    cbv zeta in Hchat, Hq, Hcash.
    assert (Hnan' : ExecutorTs.remainingAvailableCash
                      (snd (ExecutorTs.processSingleDecision decision pass
                              state)) = NaN).
    { destruct Hcash as [[_ Hc] | [[_ [_ Hc]] | [a [l [_ [_ Hc]]]]]];
        rewrite Hc, Hnan; [reflexivity | reflexivity |].
      destruct (ExecutorTs.requiredMarginOf a _ l); reflexivity. }
    destruct (IH _ Hnan') as [Hfinal [added' [Hchat' Hq']]].
    split; [exact Hfinal|].
    exists (added ++ added'). rewrite Hchat', Hchat, app_assoc.
    split; [reflexivity|]. apply Forall_app. split; assumption.
Qed.

(** X30.  Once the available cash of the executor is no number it stays
    so: whatever decisions follow and whatever the collaborators answer,
    the cash is still no number at the end, and none of the decisions is
    refused for insufficient margin. *)
Theorem NaN_cash_disables_margin_check
    (decisions : list (ExecutorTs.Decision * ExecutorTs.Pass))
    (records : list ExecutorTs.TradingData)
    (chats : list ExecutorTs.ChatMessage) :
  let final :=
    ExecutorTs.processTradingDecisions decisions
      (ExecutorTs.mkState NaN records chats) in
  ExecutorTs.remainingAvailableCash final = NaN
  /\ exists added,
       ExecutorTs.allChatMessages final = chats ++ added
       /\ Forall (fun message => isInsufficient message = false) added.
Proof.
  intros final. subst final.
  apply (processTradingDecisions_NaN decisions
           (ExecutorTs.mkState NaN records chats)).
  reflexivity.
Qed.

(** ** The small amount in a run of [buy] *)

(** [buy] on a request whose amount quantizes to less than the minimal
    amount: the first sizing step raises the amount, the second finds
    nothing to do. *)
Section SmallAmountInBuy.

Variable params : BuyTs.BuyParams.
Variable w : Exchange.
Variable cache : option PositionMode.

Let symbol := BuyTs.symbol params.
Let binanceSymbol := replaceSlash symbol.
Let leverage := default 10 (BuyTs.leverage params).
Let currentPrice := BuyTs.resolvePrice w (BuyTs.price params) binanceSymbol.
Let minAmount := pow10 (- BuyTs.quantityOr3 binanceSymbol).
Let quantized := BuyTs.adjustPrecision (BuyTs.amount params) binanceSymbol.

Hypothesis positive_price : 0 < currentPrice.
Hypothesis in_table : is_Some (BuyTs.SYMBOL_PRECISION !! binanceSymbol).
Hypothesis below_minimum : quantized < minAmount.

Lemma small_amount_notionalStep :
  exists raised,
    BuyTs.notionalStep symbol binanceSymbol currentPrice quantized
      (Fin leverage)
    = BuyTs.Sized raised (Fin leverage)
    /\ raised
       = BuyTs.adjustedAmount
           (BuyTs.smartAdjustOrderForMinNotional quantized symbol
              currentPrice (Fin leverage)).
Proof.
  assert (Hgrid : onGrid (BuyTs.configOf binanceSymbol) quantized)
    by apply adjustPrecisionFor_onGrid.
  assert (Hle : quantized <= 0).
  { destruct (Qlt_le_dec 0 quantized) as [H|H]; [|exact H]. exfalso.
    pose proof (onGrid_pos_ge_unit _ _ Hgrid H) as Hu.
    pose proof (buy_minAmount_le_unit binanceSymbol) as Hm.
    fold minAmount in Hm. lra. }
  assert (Hbelow : quantized * currentPrice
                   < minNotional (BuyTs.configOf binanceSymbol)).
  { rewrite buy_minNotional. nra. }
  destruct in_table as [entry Hentry].
  unfold BuyTs.notionalStep, BuyTs.checkMinNotional,
    BuyTs.checkMinNotionalFor.
  apply ltb_spec in Hbelow. rewrite Hbelow. cbn [BuyTs.valid negb].
  rewrite Hentry.
  unfold BuyTs.smartAdjustOrderForMinNotional. fold binanceSymbol.
  rewrite smartAdjust_keeps_leverage.
  pose proof (smartAdjust_meets_threshold (BuyTs.configOf binanceSymbol)
                currentPrice positive_price quantized (Fin leverage))
    as Hmeets.
  rewrite (configOf_lookup _ _ Hentry) in *.
  assert (E : ltb (BuyTs.adjustedAmount
                     (BuyTs.smartAdjustOrderForMinNotionalFor entry quantized
                        currentPrice (Fin leverage)) * currentPrice)
                (minNotional entry) = false)
    by (apply ltb_false; exact Hmeets).
  rewrite E. eexists. split; reflexivity.
Qed.

Lemma small_amount_sizeOrder :
  exists raised,
    BuyTs.notionalStep symbol binanceSymbol currentPrice quantized
      (Fin leverage)
    = BuyTs.Sized raised (Fin leverage)
    /\ raised
       = BuyTs.adjustedAmount
           (BuyTs.smartAdjustOrderForMinNotional quantized symbol
              currentPrice (Fin leverage))
    /\ minAmount <= raised
    /\ 100 <= raised * currentPrice
    /\ BuyTs.smallOrderStep symbol binanceSymbol currentPrice minAmount
         raised (Fin leverage)
       = BuyTs.Sized raised (Fin leverage)
    /\ BuyTs.sizeOrder symbol (BuyTs.amount params) leverage currentPrice
       = BuyTs.Sized raised (Fin leverage).
Proof.
  destruct small_amount_notionalStep as [raised [Hstep Hraised]].
  exists raised. split; [exact Hstep|]. split; [exact Hraised|].
  pose proof Hstep as Hsized.
  apply (notionalStep_sized symbol currentPrice) in Hsized;
    [|apply adjustPrecisionFor_onGrid].
  destruct Hsized as [Hgrid [Hnot _]].
  fold binanceSymbol in Hgrid, Hnot. rewrite buy_minNotional in Hnot.
  assert (Hpos : 0 < raised).
  { destruct (Qlt_le_dec 0 raised) as [H|H]; [exact H|]. exfalso. nra. }
  assert (Hmin : minAmount <= raised).
  { eapply Qle_trans; [apply buy_minAmount_le_unit|].
    apply (onGrid_pos_ge_unit _ _ Hgrid Hpos). }
  pose proof (smallOrderStep_passes symbol currentPrice (BuyTs.amount params)
                (Fin leverage) (Fin leverage) raised positive_price Hstep)
    as Hsmall.
  split; [exact Hmin|]. split; [exact Hnot|]. split; [exact Hsmall|].
  unfold BuyTs.sizeOrder. fold binanceSymbol quantized minAmount.
  rewrite Hstep. cbv beta iota zeta. fold binanceSymbol minAmount.
  fold binanceSymbol in Hsmall. fold minAmount in Hsmall.
  rewrite Hsmall. cbv beta iota. unfold BuyTs.finalChecks.
  assert (E1 : leb raised 0 = false) by (apply leb_false; exact Hpos).
  assert (E2 : ltb raised minAmount = false) by (apply ltb_false; exact Hmin).
  rewrite E1, E2. cbn [orb].
  unfold BuyTs.checkMinNotional, BuyTs.checkMinNotionalFor.
  assert (E3 : ltb (raised * currentPrice)
                 (minNotional (BuyTs.configOf binanceSymbol)) = false).
  { apply ltb_false. rewrite buy_minNotional. exact Hnot. }
  rewrite E3. reflexivity.
Qed.

End SmallAmountInBuy.

(** C7, as amended.  A valid [buy] request for a symbol of the precision
    table, at a positive price, whose quantized amount is below the minimal
    amount.  The minimum-notional step, which runs first, raises the amount
    to the smallest amount of the grid worth at least the minimum notional
    and leaves the leverage alone; that amount is at least the minimal
    amount, so the small-order step changes neither amount nor leverage, the
    final checks pass, and the order goes out for the raised amount.  The
    small-order step itself, for an amount that is still below the minimal
    amount, computes the escalation: the multiplier is the least whole
    number of current notionals that reaches the notional of the minimal
    amount (infinite for a zero amount), the proposed leverage is
    min(leverage x multiplier, 30), the step accepts with the minimal amount
    and the proposal exactly when the multiplier is at most 20 and the
    proposal at most 30, and otherwise ends the sizing with the too-small
    error. *)
Theorem small_order_escalation_in_buy (params : BuyTs.BuyParams)
    (w : Exchange) (cache : option PositionMode) :
  includes (BuyTs.symbol params) "/" = true ->
  0 < BuyTs.amount params ->
  1 <= default 10 (BuyTs.leverage params) <= 30 ->
  ensureTimeSync w = None ->
  getBinanceInstance w = None ->
  let symbol := BuyTs.symbol params in
  let binanceSymbol := replaceSlash symbol in
  let leverage := default 10 (BuyTs.leverage params) in
  let currentPrice :=
    BuyTs.resolvePrice w (BuyTs.price params) binanceSymbol in
  let minAmount := pow10 (- BuyTs.quantityOr3 binanceSymbol) in
  let quantized := BuyTs.adjustPrecision (BuyTs.amount params) binanceSymbol in
  0 < currentPrice ->
  is_Some (BuyTs.SYMBOL_PRECISION !! binanceSymbol) ->
  quantized < minAmount ->
  (exists raised,
      BuyTs.notionalStep symbol binanceSymbol currentPrice quantized
        (Fin leverage)
      = BuyTs.Sized raised (Fin leverage)
      /\ raised
         = BuyTs.adjustedAmount
             (BuyTs.smartAdjustOrderForMinNotional quantized symbol
                currentPrice (Fin leverage))
      /\ minAmount <= raised
      /\ 100 <= raised * currentPrice
      /\ BuyTs.smallOrderStep symbol binanceSymbol currentPrice minAmount
           raised (Fin leverage)
         = BuyTs.Sized raised (Fin leverage)
      /\ BuyTs.sizeOrder symbol (BuyTs.amount params) leverage currentPrice
         = BuyTs.Sized raised (Fin leverage)
      /\ exists first later,
           ordersOf (trace (BuyTs.buy params w cache)) = first :: later
           /\ p_quantity first = raised)
  /\ (forall adjustedAmount,
        0 <= adjustedAmount < minAmount ->
        let multiplier :=
          xceil (xdiv (minAmount * currentPrice)
                   (adjustedAmount * currentPrice)) in
        let proposed := xmin (xmul (Fin leverage) multiplier) 30 in
        let step :=
          BuyTs.smallOrderStep symbol binanceSymbol currentPrice minAmount
            adjustedAmount (Fin leverage) in
        (0 < adjustedAmount ->
         exists k : Z,
           multiplier = Fin (inject_Z k)
           /\ minAmount * currentPrice
              <= inject_Z k * (adjustedAmount * currentPrice)
           /\ inject_Z (k - 1) * (adjustedAmount * currentPrice)
              < minAmount * currentPrice)
        /\ (adjustedAmount == 0 -> multiplier = PInf)
        /\ (xleb multiplier 20 = true -> xleb proposed 30 = true ->
            exists raised,
              step = BuyTs.Sized raised proposed
              /\ (raised = minAmount
                  \/ (minAmount * currentPrice
                      < minNotional (BuyTs.configOf binanceSymbol)
                      /\ raised
                         = BuyTs.adjustedAmount
                             (BuyTs.smartAdjustOrderForMinNotional minAmount
                                symbol currentPrice proposed))))
        /\ (xleb multiplier 20 = false \/ xleb proposed 30 = false ->
            step = BuyTs.Rejected (AmountTooSmall adjustedAmount minAmount))).
Proof.
  intros Hinc Hamt Hlev Hsync Hinst symbol binanceSymbol leverage
    currentPrice minAmount quantized Hprice Htable Hbelow.
  split.
  - destruct (small_amount_sizeOrder params w Hprice Htable Hbelow)
      as [raised [Hstep [Hraised [Hmin [Hnot [Hsmall Hsize]]]]]].
    exists raised.
    split; [exact Hstep|]. split; [exact Hraised|]. split; [exact Hmin|].
    split; [exact Hnot|]. split; [exact Hsmall|]. split; [exact Hsize|].
    apply (buy_sized_submits params w cache Hinc Hamt Hlev Hsync Hinst
             raised (Fin leverage)).
    exact Hsize.
  - intros adjustedAmount Hsmall.
    apply (smallOrderStep_escalation symbol currentPrice adjustedAmount
             leverage Hprice Hsmall).
Qed.

Lemma small_order_escalation_in_buy_witness :
  exists raised first later,
    BuyTs.sizeOrder "BTC/USDT" (1 # 10000) 10 50000
    = BuyTs.Sized raised (Fin 10)
    /\ 100 <= raised * 50000
    /\ ordersOf (trace (BuyTs.buy Samples.smallBuy Samples.calm None))
       = first :: later
    /\ p_quantity first = raised.
Proof.
  destruct (small_order_escalation_in_buy Samples.smallBuy Samples.calm None)
    as [[raised [_ [_ [_ [Hnot [_ [Hsize [first [later [Ho Hq]]]]]]]]]] _].
  - reflexivity.
  - reflexivity.
  - split; vm_compute; discriminate.
  - reflexivity.
  - reflexivity.
  - reflexivity.
  - exists (mkConfig 3 1 100). reflexivity.
  - reflexivity.
  - exists raised, first, later.
    split; [exact Hsize|]. split; [exact Hnot|]. split; assumption.
Defined.

(** C7, counterexample.  A request of 0.0001 BTC at ten times leverage,
    BTC at 50000.  The quantized amount is zero, below the minimal amount
    of 0.001; the multiplier of the escalation is infinite, above 20, and
    the small-order step alone would reject the amount, so that [buy] would
    answer with success = false.  [buy] instead sizes the order to 0.002 BTC
    at the leverage of ten it was given and reports the fill. *)
Lemma buy_raises_small_amount_without_escalation :
  let minAmount := pow10 (- BuyTs.quantityOr3 "BTCUSDT") in
  let quantized := BuyTs.adjustPrecision (1 # 10000) "BTCUSDT" in
  let multiplier :=
    xceil (xdiv (minAmount * 50000) (quantized * 50000)) in
  quantized < minAmount
  /\ xleb multiplier 20 = false
  /\ BuyTs.smallOrderStep "BTC/USDT" "BTCUSDT" 50000 minAmount quantized
       (Fin 10)
     = BuyTs.Rejected (AmountTooSmall quantized minAmount)
  /\ (exists raised,
        BuyTs.sizeOrder "BTC/USDT" (1 # 10000) 10 50000
        = BuyTs.Sized raised (Fin 10)
        /\ raised == 2 # 1000)
  /\ exists result sent,
       value (BuyTs.buy Samples.smallBuy Samples.calm None) = inr result
       /\ success result = true
       /\ ordersOf (trace (BuyTs.buy Samples.smallBuy Samples.calm None))
          = [sent]
       /\ p_quantity sent == 2 # 1000.
Proof.
  cbv zeta.
  split; [vm_compute; reflexivity|].
  split; [vm_compute; reflexivity|].
  split; [vm_compute; reflexivity|].
  split.
  - eexists. split; [vm_compute; reflexivity|]. vm_compute. reflexivity.
  - eexists. eexists. split; [vm_compute; reflexivity|].
    split; [reflexivity|]. split; [vm_compute; reflexivity|].
    vm_compute. reflexivity.
Qed.
